(* ===== verification/_CoqProject ===== *)
-Q . S2P
Prelude.v
Models.v
CloudTypes.v
Config.v
Scaling.v
Json.v
World.v
Database.v
Logic.v
Hoare.v
Storage.v
Status.v
Lifecycle.v
TaskRows.v
Payload.v
PyText.v
S3.v
Upstream.v
WorkerRepository.v
CacheService.v
Ingest.v
Results.v
Normalize.v
TaskApi.v
Ocr.v
AdminApi.v
TaskRepository.v
Lock.v
Provider.v
Ec2.v
Health.v
Startup.v
Reconcile.v
Scheduler.v
Fleet.v
Retention.v
System.v
Schema.v
Boot.v
App.v
Metrics.v
Demo.v
FleetTypes.v
LivenessSpec.v
DispatchSpec.v
LifecycleSpec.v
ProgressSpec.v
CompletionSpec.v
DeliverySpec.v
CacheSpec.v
FleetSpec.v
LockSpec.v
PayloadSpec.v
RetentionSpec.v
NormalizeSpec.v
IngestSpec.v
GatewaySpec.v
OcrSpec.v
StartupSpec.v
SystemSpec.v
SchemaSpec.v
BootSpec.v
AppSpec.v
RequestSpec.v
ProvenanceSpec.v
JourneySpec.v
MetricsSpec.v
