(* ===== verification/Prelude.v ===== *)
(** * mineru-gateway: a verification library

    The program queues document-parsing tasks behind an HTTP gateway, and a
    scheduler process hands them to a fleet of MinerU workers it starts, watches
    and stops in the cloud.  Gateway and scheduler share a database and a bucket
    and nothing else.  Sources are named below [src/src/mineru_gateway/], those of
    the migrations below [src/].

    ** The world and the effects

    [World] is what all processes share or keep: the tables [workers], [tasks],
    [cache_entries] and [scaling_events] ([db/models.py], [Models]), the bucket
    [objects], the power calls made to the cloud, the scheduler's memory and a
    counter of interactions.  An operation is a function [M A] from a world to an
    outcome, [Ok], [Raise] or [Diverged], and a world; an exception keeps the
    effects before it.  What the program does not decide is asked of the class
    [Env] with the number of the interaction: the clock, [uuid4], the order of
    unordered rows and of the coroutines of a gather, and which database calls
    fail.  [Database] gives sessions, queries and commits: a commit applies all of
    its writes or, raising, none; UPDATEs write attributes and stamp
    [updated_at]; primary keys and the UNIQUE columns are checked.
    [Logic] relates the worlds around an operation ([evolves R m]: whatever
    fails, [m] ends and takes a world to an [R]-related one; the tactic [evolve]
    and the database of that name walk through a program), [Hoare] states what a
    run returns ([wp m Q X w]: it ends, returning with [Q] or raising with [X]).

    ** Parts and files

    - data: [Models], [CloudTypes] ([cloud/types.py]), [Config] ([config.py], its
      defaults and validators), [Json] ([json.dumps] and [json.loads]), [PyText]
      (Python's text functions, [util/datetime.py]), [Scaling]
      ([scheduler/scaling.py]);
    - tasks: [Status] ([tasks/status.py], [tasks/errors.py]), [TaskRows] and
      [TaskRepository] ([scheduler/task_repository.py]: the rows alone, then what
      talks to workers and the bucket), [Lifecycle] (the abstract machine the
      rows follow), [Payload] (the payload blob, bounded reads and upload names of
      [gateway/ingest.py], [util/io.py], [util/upload_paths.py]), [Results]
      ([tasks/results.py]), [CacheService] ([scheduler/cache_service.py]);
    - storage: [Storage] ([tasks/storage.py] and the contract of
      [cloud/base.py] as the class [ObjectStore]), [S3] ([cloud/aws/s3.py], an
      instance of it over the class [S3Client]);
    - fleet: [WorkerRepository] ([scheduler/worker_repository.py]), [Provider]
      (the class [ComputeProvider] of [cloud/base.py]), [Ec2]
      ([cloud/aws/ec2.py], an instance of it over [Ec2Client]), [Upstream]
      ([scheduler/_http.py]), [Health], [Reconcile] and [Scheduler]
      ([scheduler/scheduler.py]: probes; one worker's VM against its row; ticks
      and loops), [Lock] ([scheduler/lock.py]);
    - gateway: [Ingest] ([gateway/ingest.py] from a request to a queued row),
      [TaskApi] ([gateway/task_flow.py], [gateway/api/tasks.py],
      [gateway/admission.py]), [Normalize] ([protocol/normalize.py]), [Ocr]
      ([gateway/api/ocr.py] and the document part of [gateway/ingest.py]),
      [AdminApi] ([gateway/auth.py], [gateway/readiness.py],
      [gateway/api/admin.py]), [App] ([gateway/app.py], [attribution.py],
      [gateway/logging_middleware.py]: the middlewares around the table of routes);
    - boot: [Boot] (the loading of [config.py], [cli.py], [logging_config.py],
      [db/base.py], the command lines [gateway/main.py] and [scheduler/main.py],
      [alembic/env.py]) over a record of the modules' globals, [Schema] (the
      tables of [db/models.py], of [alembic/versions/0001_initial.py] and of
      [db/bootstrap.py]), [Metrics] ([observability/]);
    - start-up: [Startup] ([startup_guard.py], [cloud/registry.py],
      [cloud/aws/ssm.py], [mineru_compat.py], the lifespan of
      [gateway/app.py], the start of the scheduler in [scheduler/main.py]);
    - the whole: [System] (the scheduler process of [scheduler/main.py], and the
      steps of the system: loop turns, requests, restarts, in any order).

    They interact as in the code: [Ingest] stores a payload and inserts a queued
    row, or serves the cache; the fast tick of [Scheduler] claims it for a worker,
    rebuilds and submits the payload ([TaskRepository]), polls the worker and
    stores its result ([Results]), filling the cache; [TaskApi] and [Ocr] read
    the row and the result; the slow tick moves the fleet.  Third-party code is a
    class: [ObjectStore] clients, [FastApi], [Pydantic], [Sqlalchemy],
    [SqlalchemyMetadata], [OtelPackages], [Surroundings] (files, environment, YAML), [Http], [MinerU] and [MinerUIntake], [SsmClient],
    [MinerURelease], [Sha256], [LockServer], [DocumentClient], [ResultReader] (zip,
    JSON and UTF-8 decoding of a result); [Elsewhere] is what other processes do
    while a gateway request sleeps.  [Demo] instantiates the classes, and the
    Spec files run the program on it, from an upload to the worker's bytes.

    ** What is proved

    - the life of a task: [Lifecycle], [TaskRepository], [DispatchSpec] and
      [LifecycleSpec] show that ticks refine the machine [life], keep rows
      consistent ([task_wf]), never oversubscribe a worker, claim in order,
      settle failed submissions, and complete a task only with its result stored;
    - progress, in surroundings that work: [ProgressSpec] (a dispatch pass does all that
      the slots and its batch allow), [CompletionSpec] (a synchronisation pass stores the
      results of a batch), [DeliverySpec] (the dispatch loop brings every task to the
      answer of its worker, and in how many turns), [LivenessSpec] (recovery from zero
      workers), [JourneySpec] (a form that is uploaded is downloaded as what MinerU makes
      of exactly this form);
    - whose result it is: [ProvenanceSpec] (whatever fails, no task reads back the result
      of another);
    - submission: [IngestSpec] (staging within the limit, the queued payload is
      the form), [PayloadSpec] (the blob's round trip, names, keys, bounds);
    - boot: [BootSpec] (the precedence of the settings, the host that is bound, the
      database the migrations run on, log levels, the life of the engine),
      [SchemaSpec] (migration and bootstrap create what the models declare, and
      leave other tables alone), [AppSpec] (what the stack of middlewares makes of a
      request, routing), [MetricsSpec] (recording never raises);
    - replies: [GatewaySpec] (the key check, the result route, the synchronous
      parse), [OcrSpec] (base64, the OCR route), [NormalizeSpec] (the conversion
      equals a typed reference rendering);
    - the cache: [CacheSpec] (lookup, compare-and-swap, invalidation, keys);
    - the fleet: [Fleet] and [FleetSpec] (size, drains, power calls, failures),
      [FleetTypes] (columns stay in their enumerations), [Scaling] (the desired
      size);
    - retention: [Retention], [RetentionSpec]; the lock and the loops: [LockSpec];
      start-up and the EC2 provider: [StartupSpec];
    - the whole: [SystemSpec] (in every reachable world rows are consistent and
      typed and the fleet bounded, and each step moves tasks along their life;
      the scheduler process changes nothing without its checks and its lock);
      [RequestSpec] (serving any request, from the middlewares to the endpoint, is
      a sequence of those steps, and every request is answered).

    ** Bounds and fuel

    Recursion that is not structural has fuel that theorems show to be enough:
    [bounded_chunks] the length of the file, [submit_loop] one more than the
    number of workers (each turn excludes one), [next_destination] one more than
    the number of staged files, the JSON parser twice the length of its text;
    [dispatch_loop] and [poll_loop] have the code's own bounds (the batch, 300
    polls).  [run] and [acquire_loop] are the loops that run until stopped; the
    schedule and the fuel are the turns looked at, and theorems are about any.

    ** Approximations

    Times are integral microseconds.  Strings are code points below 256 (text
    outside them in messages stands for its UTF-8 bytes); JSON in [Json] has no
    floats, [Normalize] has its own values with floats.  The coroutines of a
    gather run one after the other, in any order, and processes interleave at the
    sleeps of a gateway request and between ticks.  A commit that fails in the
    database is one that wrote nothing.  Rows are not
    checked against column lengths and foreign keys (any commit may fail instead);
    content types and metadata of objects are not modelled.  Temporary files are a map inside a request's payload.

    ** Not modelled

    The text of log lines except those of the request log and the key check; the
    exporters and the instrumentation of OpenTelemetry; the making of clients and
    thread pools ([boto3], [httpx], SQLAlchemy's engine and sessions); Alembic's
    runner and its version table; uvicorn and FastAPI themselves: how middlewares nest
    and what is answered without a route is a class with laws, and bodies arrive
    decoded. *)
From Stdlib Require Export ZArith Lia.
From stdpp Require Export base gmap strings fin_maps sorting option numbers.
From stdpp Require Export list_basics list_relations list_monad list_misc list_tactics list_numbers list.

#[global] Open Scope Z_scope.
Declare Scope gateway_scope.
Delimit Scope gateway_scope with gw.
#[global] Open Scope gateway_scope.

(** ** Boolean tests the code writes with [==], [!=], [in] and [not in] *)

Notation "x ==? y" := (bool_decide (x = y)) (at level 70) : gateway_scope.
Notation "x !=? y" := (negb (bool_decide (x = y))) (at level 70) : gateway_scope.
Notation "x ∈? l" := (bool_decide (x ∈ l)) (at level 70) : gateway_scope.
Notation "x ∉? l" := (negb (bool_decide (x ∈ l))) (at level 70) : gateway_scope.

(** [x is None] and [x is not None]. *)
Definition is_none {A} (o : option A) : bool :=
  match o with None => true | Some _ => false end.
Definition not_none {A} (o : option A) : bool := negb (is_none o).

Lemma is_none_true {A} (o : option A) : is_none o = true -> o = None.
Proof. by destruct o. Qed.

(** Python truthiness of an optional string: [None] and [""] are false. *)
Definition truthy (o : option string) : bool :=
  match o with Some s => s !=? "" | None => false end.

(** [x or y] on optional strings, [x or ""]. *)
Definition str_or (o : option string) (d : string) : string :=
  match o with Some s => if s ==? "" then d else s | None => d end.

(** A datetime is a number of microseconds since the epoch, UTC; [seconds n] is
    [timedelta(seconds=n)] and [days n] is [timedelta(days=n)]. *)
Abbreviation time := Z (only parsing).
Definition seconds (n : Z) : Z := n * 1000000.
Definition days (n : Z) : Z := n * 86400 * 1000000.

(** SQL comparisons with a nullable column: NULL makes the test false. *)
Definition sql_lt (o : option Z) (c : Z) : bool :=
  match o with Some v => v <? c | None => false end.
Definition sql_le (o : option Z) (c : Z) : bool :=
  match o with Some v => v <=? c | None => false end.
Definition sql_eq {A} `{EqDecision A} (o : option A) (c : A) : bool := o ==? Some c.

Lemma sql_eq_some {A} `{EqDecision A} (a c : A) : sql_eq (Some a) c = (a ==? c).
Proof. unfold sql_eq. by repeat case_bool_decide; simplify_eq. Qed.
Lemma sql_eq_none {A} `{EqDecision A} (c : A) : sql_eq None c = false.
Proof. reflexivity. Qed.

(** ** Orderings of ORDER BY clauses *)

Definition nulls_first (a b : option Z) : bool :=
  match a, b with
  | None, _ => true
  | Some _, None => false
  | Some x, Some y => x <=? y
  end.

(** Lexicographic composition of two boolean preorders. *)
Definition lex {A} (le1 le2 : A -> A -> bool) (a b : A) : bool :=
  le1 a b && (negb (le1 b a) || le2 a b).

Definition by_key {A} (key : A -> Z) (a b : A) : bool := key a <=? key b.
Definition by_nulls_first {A} (key : A -> option Z) (a b : A) : bool :=
  nulls_first (key a) (key b).
Definition by_string {A} (key : A -> string) (a b : A) : bool :=
  String.leb (key a) (key b).
Definition unordered {A} (_ _ : A) : bool := true.

(** A boolean relation that ORDER BY may use: total and transitive. *)
Class TotalOrder {A} (le : A -> A -> bool) : Prop := {
  order_total a b : le a b = true \/ le b a = true;
  order_trans a b c : le a b = true -> le b c = true -> le a c = true
}.

Lemma order_refl {A} (le : A -> A -> bool) `{!TotalOrder le} a : le a a = true.
Proof. by destruct (order_total a a). Qed.

#[export] Instance by_key_order {A} (key : A -> Z) : TotalOrder (by_key key).
Proof. split; unfold by_key; intros; rewrite ?Z.leb_le in *; lia. Qed.

#[export] Instance by_nulls_first_order {A} (key : A -> option Z) : TotalOrder (by_nulls_first key).
Proof.
  split; unfold by_nulls_first; [intros a b|intros a b c].
  - destruct (key a), (key b); cbn; rewrite ?Z.leb_le; lia || auto.
  - destruct (key a), (key b), (key c); cbn; rewrite ?Z.leb_le; lia || done.
Qed.

#[export] Instance by_string_order {A} (key : A -> string) : TotalOrder (by_string key).
Proof.
  split; unfold by_string; [intros a b|intros a b c].
  - apply String.leb_total.
  - intros H1 H2. apply Is_true_true. apply Is_true_true in H1, H2.
    exact (transitivity (R := String.le) H1 H2).
Qed.

#[export] Instance unordered_order {A} : TotalOrder (@unordered A).
Proof. split; auto. Qed.

#[export] Instance lex_order {A} (le1 le2 : A -> A -> bool) `{!TotalOrder le1, !TotalOrder le2} :
  TotalOrder (lex le1 le2).
Proof.
  split; unfold lex; [intros a b|intros a b c].
  - pose proof (order_total (le := le1) a b). pose proof (order_total (le := le2) a b).
    destruct (le1 a b), (le1 b a), (le2 a b), (le2 b a); cbn; intuition.
  - pose proof (order_trans (le := le1) a b c). pose proof (order_trans (le := le1) b c a).
    pose proof (order_trans (le := le1) c a b). pose proof (order_trans (le := le2) a b c).
    destruct (le1 a b), (le1 b a), (le1 b c), (le1 c b), (le1 a c), (le1 c a),
      (le2 a b), (le2 b c), (le2 a c); cbn; intuition.
Qed.

Lemma sorted_head {A} (le : A -> A -> bool) `{!TotalOrder le} (l : list A) x :
  head (merge_sort le l) = Some x -> forall y, y ∈ l -> le x y = true.
Proof.
  assert (Htot : Total (fun a b => le a b)).
  { intros a b. destruct (order_total (le := le) a b) as [E|E]; rewrite E; cbn; auto. }
  assert (Htr : Transitive (fun a b => le a b)).
  { intros a b c H1%Is_true_true H2%Is_true_true. apply Is_true_true. by eapply order_trans. }
  intros Hh y Hy. pose proof (StronglySorted_merge_sort (fun a b => le a b) l) as Hs.
  rewrite <- (merge_sort_Permutation (fun a b => le a b) l) in Hy.
  change (merge_sort le l) with (merge_sort (fun a b => le a b) l) in Hh.
  destruct (merge_sort (fun a b => le a b) l) as [|z l']; [done|].
  injection Hh as ->. apply StronglySorted_inv in Hs as [_ Hf].
  apply elem_of_cons in Hy as [->|Hy]; [by apply order_refl|].
  rewrite Forall_forall in Hf. by apply Is_true_true, Hf.
Qed.

(** ** Lists *)

Lemma NoDup_fmap_filter {A B} (f : A -> B) (p : A -> bool) (l : list A) :
  NoDup (f <$> l) -> NoDup (f <$> List.filter p l).
Proof.
  induction l as [|x l IH]; cbn; [done|]. intros [Hx Hl]%NoDup_cons.
  destruct (p x); cbn; [|by auto]. apply NoDup_cons. split; [|by auto].
  contradict Hx. apply list_elem_of_fmap in Hx as (y & -> & Hy).
  apply list_elem_of_In, filter_In in Hy as [Hy _]. apply list_elem_of_fmap. exists y.
  by rewrite list_elem_of_In.
Qed.

#[export] Instance filter_perm {A} (P : A -> bool) :
  Proper (Permutation ==> Permutation) (List.filter P).
Proof.
  induction 1; cbn; [done|destruct (P x); [by constructor|done]| |by etrans].
  destruct (P x), (P y); (reflexivity || constructor).
Qed.

Lemma length_filter_le {A} (P Q : A -> bool) (l : list A) :
  (forall x, P x = true -> Q x = true) ->
  (length (List.filter P l) <= length (List.filter Q l))%nat.
Proof.
  intros HPQ. induction l as [|x l IH]; cbn; [lia|]. specialize (HPQ x).
  destruct (P x), (Q x); cbn; lia || (specialize (HPQ eq_refl); discriminate).
Qed.

Lemma length_filter_disjoint {A} (P Q R : A -> bool) (l : list A) :
  (forall x, P x = true -> R x = true /\ Q x = false) -> (forall x, Q x = true -> R x = true) ->
  (length (List.filter P l) + length (List.filter Q l) <= length (List.filter R l))%nat.
Proof.
  intros HP HQ. induction l as [|x l IH]; cbn; [lia|]. specialize (HP x). specialize (HQ x).
  destruct (P x), (Q x), (R x); cbn; intuition (lia || discriminate).
Qed.

(** ** Strings *)

(** [s.removeprefix(p)]. *)
Definition removeprefix (p s : string) : string :=
  if String.prefix p s then String.substring (String.length p) (String.length s - String.length p) s
  else s.

(** [s.startswith(p)]. *)
Abbreviation startswith s p := (String.prefix p s).

(** [s.lower()], code points below 256. *)
Definition lower_char (c : Ascii.ascii) : Ascii.ascii :=
  let n := Ascii.nat_of_ascii c in
  if ((65 <=? n)%nat && (n <=? 90)%nat) || ((192 <=? n)%nat && (n <=? 222)%nat && negb (n =? 215)%nat)
  then Ascii.ascii_of_nat (n + 32) else c.
Fixpoint lower (s : string) : string :=
  match s with EmptyString => "" | String c s => String (lower_char c) (lower s) end.

(** ** Case analysis *)

(** Split every boolean test in the goal into the proposition it decides. *)
Ltac decide_bools :=
  repeat match goal with
  | H : context [bool_decide ?P] |- _ => case_bool_decide
  | |- context [bool_decide ?P] => case_bool_decide
  end.

Ltac bool_hyps :=
  repeat match goal with
  | H : _ && _ = true |- _ => apply andb_true_iff in H as [? ?]
  | H : _ || _ = false |- _ => apply orb_false_iff in H as [? ?]
  | H : negb _ = true |- _ => apply negb_true_iff in H
  | H : negb _ = false |- _ => apply negb_false_iff in H
  | H : bool_decide _ = true |- _ => apply bool_decide_eq_true in H
  | H : bool_decide _ = false |- _ => apply bool_decide_eq_false in H
  | H : (_ <? _) = true |- _ => apply Z.ltb_lt in H
  | H : (_ <? _) = false |- _ => apply Z.ltb_ge in H
  | H : (_ <=? _) = true |- _ => apply Z.leb_le in H
  | H : (_ <=? _) = false |- _ => apply Z.leb_gt in H
  | H : (_ =? _) = true |- _ => apply Z.eqb_eq in H
  | H : (_ =? _) = false |- _ => apply Z.eqb_neq in H
  end.

Lemma str_or_self (a : string) : str_or (Some a) a = a.
Proof. cbn. destruct (a ==? "") eqn:E; by bool_hyps. Qed.

Lemma string_app_inj_l (p a b : string) : p +:+ a = p +:+ b -> a = b.
Proof. apply (inj (String.append p)). Qed.

Lemma string_app_cons c (a b : string) : String c a +:+ b = String c (a +:+ b).
Proof. reflexivity. Qed.

Lemma string_app_assoc (a b c : string) : a +:+ (b +:+ c) = (a +:+ b) +:+ c.
Proof. induction a as [|x a IH]; [done|]. rewrite !string_app_cons. by rewrite IH. Qed.

Lemma string_app_nil (a : string) : a +:+ "" = a.
Proof. induction a as [|x a IH]; [done|]. rewrite string_app_cons. by rewrite IH. Qed.

Lemma string_length_app (a b : string) :
  String.length (a +:+ b) = (String.length a + String.length b)%nat.
Proof.
  induction a as [|c a IH]; [done|].
  rewrite string_app_cons. cbn. by rewrite IH.
Qed.

(** A common suffix cancels. *)
Lemma string_app_inj_r (a b s : string) : a +:+ s = b +:+ s -> a = b.
Proof.
  revert b; induction a as [|c a IH]; intros [|d b] E; [done|..].
  1,2: exfalso; apply (f_equal String.length) in E;
    rewrite !string_length_app in E; cbn in E; lia.
  rewrite !string_app_cons in E. injection E as -> E. f_equal. auto.
Qed.

Lemma string_prefix_app (p s : string) : String.prefix p (p +:+ s) = true.
Proof.
  induction p as [|c p IH]; [by destruct s|].
  rewrite string_app_cons. cbn. by destruct (Ascii.ascii_dec c c).
Qed.

Lemma string_substring_all (s : string) : String.substring 0 (String.length s) s = s.
Proof. induction s as [|c s IH]; cbn; [done|by rewrite IH]. Qed.

Lemma removeprefix_app (p s : string) : removeprefix p (p +:+ s) = s.
Proof.
  unfold removeprefix. rewrite string_prefix_app, string_length_app.
  replace (String.length p + String.length s - String.length p)%nat with (String.length s) by lia.
  induction p as [|c p IH]; [apply string_substring_all|].
  rewrite string_app_cons. apply IH.
Qed.
