(* ===== verification/Models.v ===== *)
(** * Models: the rows of [db/models.py]

    One record per ORM class and, for the classes whose rows the code mutates,
    one variant of attribute assignments: [set_worker (W_healthy b) row] is the
    Python statement [row.healthy = b].  Primary keys of all tables are strings;
    datetimes are microseconds; the autoincrement id of [ScalingEvent] is the
    position of the event in the append-only list of the world. *)
From S2P Require Import Prelude.

(** Values of an options dictionary: a field given once is a string, a
    repeated field ([lang_list]) is a list of strings, and [file_names] is
    added to the blob by [create_queued_task]. *)
Inductive opt_value :=
| OptStr (s : string)
| OptList (l : list string).
Abbreviation options := (gmap string opt_value).

#[export] Instance opt_value_eq_dec : EqDecision opt_value.
Proof. solve_decision. Defined.

(** ** workers *)

(** [class Worker]. *)
Record Worker := mkWorker {
  w_id : string;
  w_provider : string;
  w_deployment_id : string;
  w_instance_id : option string;
  w_base_url : option string;
  w_generation : Z;
  w_desired_state : string;
  w_cloud_state : string;
  w_healthy : bool;
  w_draining : bool;
  w_drain_target : option string;
  w_replacement_for : option string;
  w_rotation_requested : bool;
  w_failure_count : Z;
  w_retry_after : option Z;
  w_stalled_at : option Z;
  w_last_error : option string;
  w_provisioning_detail : option string;
  w_ready_at : option Z;
  w_start_requested_at : option Z;
  w_last_active_at : option Z;
  w_last_health_checked_at : option Z;
  w_terminated_at : option Z;
  w_created_at : Z;
  w_updated_at : Z
}.

Inductive WorkerField :=
| W_id (v : string)
| W_provider (v : string)
| W_deployment_id (v : string)
| W_instance_id (v : option string)
| W_base_url (v : option string)
| W_generation (v : Z)
| W_desired_state (v : string)
| W_cloud_state (v : string)
| W_healthy (v : bool)
| W_draining (v : bool)
| W_drain_target (v : option string)
| W_replacement_for (v : option string)
| W_rotation_requested (v : bool)
| W_failure_count (v : Z)
| W_retry_after (v : option Z)
| W_stalled_at (v : option Z)
| W_last_error (v : option string)
| W_provisioning_detail (v : option string)
| W_ready_at (v : option Z)
| W_start_requested_at (v : option Z)
| W_last_active_at (v : option Z)
| W_last_health_checked_at (v : option Z)
| W_terminated_at (v : option Z)
| W_created_at (v : Z)
| W_updated_at (v : Z).

Definition setattr_worker (f : WorkerField) (r : Worker) : Worker := {|
  w_id := match f with W_id v => v | _ => w_id r end;
  w_provider := match f with W_provider v => v | _ => w_provider r end;
  w_deployment_id := match f with W_deployment_id v => v | _ => w_deployment_id r end;
  w_instance_id := match f with W_instance_id v => v | _ => w_instance_id r end;
  w_base_url := match f with W_base_url v => v | _ => w_base_url r end;
  w_generation := match f with W_generation v => v | _ => w_generation r end;
  w_desired_state := match f with W_desired_state v => v | _ => w_desired_state r end;
  w_cloud_state := match f with W_cloud_state v => v | _ => w_cloud_state r end;
  w_healthy := match f with W_healthy v => v | _ => w_healthy r end;
  w_draining := match f with W_draining v => v | _ => w_draining r end;
  w_drain_target := match f with W_drain_target v => v | _ => w_drain_target r end;
  w_replacement_for := match f with W_replacement_for v => v | _ => w_replacement_for r end;
  w_rotation_requested := match f with W_rotation_requested v => v | _ => w_rotation_requested r end;
  w_failure_count := match f with W_failure_count v => v | _ => w_failure_count r end;
  w_retry_after := match f with W_retry_after v => v | _ => w_retry_after r end;
  w_stalled_at := match f with W_stalled_at v => v | _ => w_stalled_at r end;
  w_last_error := match f with W_last_error v => v | _ => w_last_error r end;
  w_provisioning_detail := match f with W_provisioning_detail v => v | _ => w_provisioning_detail r end;
  w_ready_at := match f with W_ready_at v => v | _ => w_ready_at r end;
  w_start_requested_at := match f with W_start_requested_at v => v | _ => w_start_requested_at r end;
  w_last_active_at := match f with W_last_active_at v => v | _ => w_last_active_at r end;
  w_last_health_checked_at := match f with W_last_health_checked_at v => v | _ => w_last_health_checked_at r end;
  w_terminated_at := match f with W_terminated_at v => v | _ => w_terminated_at r end;
  w_created_at := match f with W_created_at v => v | _ => w_created_at r end;
  w_updated_at := match f with W_updated_at v => v | _ => w_updated_at r end
|}.

(** [for key, value in fields.items(): setattr(row, key, value)]. *)
Definition set_worker (fs : list WorkerField) (r : Worker) : Worker :=
  foldl (fun r f => setattr_worker f r) r fs.

#[export] Instance worker_eq_dec : EqDecision Worker.
Proof. solve_decision. Defined.

(** ** tasks *)

(** [class Task]. *)
Record Task := mkTask {
  t_task_id : string;
  t_worker_id : option string;
  t_upstream_task_id : option string;
  t_upstream_base_url : option string;
  t_backend : string;
  t_parse_method : string;
  t_file_names : list string;
  t_source : string;
  t_status : string;
  t_payload_key : option string;
  t_result_key : option string;
  t_result_format : option string;
  t_cache_key : option string;
  t_error : option string;
  t_options_blob : option options;
  t_dispatch_started_at : option Z;
  t_next_poll_at : option Z;
  t_client_expired_at : option Z;
  t_created_at : Z;
  t_started_at : option Z;
  t_completed_at : option Z;
  t_updated_at : Z
}.

Inductive TaskField :=
| T_task_id (v : string)
| T_worker_id (v : option string)
| T_upstream_task_id (v : option string)
| T_upstream_base_url (v : option string)
| T_backend (v : string)
| T_parse_method (v : string)
| T_file_names (v : list string)
| T_source (v : string)
| T_status (v : string)
| T_payload_key (v : option string)
| T_result_key (v : option string)
| T_result_format (v : option string)
| T_cache_key (v : option string)
| T_error (v : option string)
| T_options_blob (v : option options)
| T_dispatch_started_at (v : option Z)
| T_next_poll_at (v : option Z)
| T_client_expired_at (v : option Z)
| T_created_at (v : Z)
| T_started_at (v : option Z)
| T_completed_at (v : option Z)
| T_updated_at (v : Z).

Definition setattr_task (f : TaskField) (r : Task) : Task := {|
  t_task_id := match f with T_task_id v => v | _ => t_task_id r end;
  t_worker_id := match f with T_worker_id v => v | _ => t_worker_id r end;
  t_upstream_task_id := match f with T_upstream_task_id v => v | _ => t_upstream_task_id r end;
  t_upstream_base_url := match f with T_upstream_base_url v => v | _ => t_upstream_base_url r end;
  t_backend := match f with T_backend v => v | _ => t_backend r end;
  t_parse_method := match f with T_parse_method v => v | _ => t_parse_method r end;
  t_file_names := match f with T_file_names v => v | _ => t_file_names r end;
  t_source := match f with T_source v => v | _ => t_source r end;
  t_status := match f with T_status v => v | _ => t_status r end;
  t_payload_key := match f with T_payload_key v => v | _ => t_payload_key r end;
  t_result_key := match f with T_result_key v => v | _ => t_result_key r end;
  t_result_format := match f with T_result_format v => v | _ => t_result_format r end;
  t_cache_key := match f with T_cache_key v => v | _ => t_cache_key r end;
  t_error := match f with T_error v => v | _ => t_error r end;
  t_options_blob := match f with T_options_blob v => v | _ => t_options_blob r end;
  t_dispatch_started_at := match f with T_dispatch_started_at v => v | _ => t_dispatch_started_at r end;
  t_next_poll_at := match f with T_next_poll_at v => v | _ => t_next_poll_at r end;
  t_client_expired_at := match f with T_client_expired_at v => v | _ => t_client_expired_at r end;
  t_created_at := match f with T_created_at v => v | _ => t_created_at r end;
  t_started_at := match f with T_started_at v => v | _ => t_started_at r end;
  t_completed_at := match f with T_completed_at v => v | _ => t_completed_at r end;
  t_updated_at := match f with T_updated_at v => v | _ => t_updated_at r end
|}.

Definition set_task (fs : list TaskField) (r : Task) : Task :=
  foldl (fun r f => setattr_task f r) r fs.

#[export] Instance task_eq_dec : EqDecision Task.
Proof. solve_decision. Defined.

(** ** cache_entries *)

(** [class CacheEntry]. *)
Record CacheEntry := mkCacheEntry {
  c_cache_key : string;
  c_content_sha256 : string;
  c_options_hash : string;
  c_backend : string;
  c_parse_method : string;
  c_effort : string;
  c_object_key : option string;
  c_object_generation : Z;
  c_result_format : option string;
  c_size_bytes : option Z;
  c_hit_count : Z;
  c_expires_at : option Z;
  c_created_at : Z
}.

Inductive CacheField :=
| C_cache_key (v : string)
| C_content_sha256 (v : string)
| C_options_hash (v : string)
| C_backend (v : string)
| C_parse_method (v : string)
| C_effort (v : string)
| C_object_key (v : option string)
| C_object_generation (v : Z)
| C_result_format (v : option string)
| C_size_bytes (v : option Z)
| C_hit_count (v : Z)
| C_expires_at (v : option Z)
| C_created_at (v : Z).

Definition setattr_cache (f : CacheField) (r : CacheEntry) : CacheEntry := {|
  c_cache_key := match f with C_cache_key v => v | _ => c_cache_key r end;
  c_content_sha256 := match f with C_content_sha256 v => v | _ => c_content_sha256 r end;
  c_options_hash := match f with C_options_hash v => v | _ => c_options_hash r end;
  c_backend := match f with C_backend v => v | _ => c_backend r end;
  c_parse_method := match f with C_parse_method v => v | _ => c_parse_method r end;
  c_effort := match f with C_effort v => v | _ => c_effort r end;
  c_object_key := match f with C_object_key v => v | _ => c_object_key r end;
  c_object_generation := match f with C_object_generation v => v | _ => c_object_generation r end;
  c_result_format := match f with C_result_format v => v | _ => c_result_format r end;
  c_size_bytes := match f with C_size_bytes v => v | _ => c_size_bytes r end;
  c_hit_count := match f with C_hit_count v => v | _ => c_hit_count r end;
  c_expires_at := match f with C_expires_at v => v | _ => c_expires_at r end;
  c_created_at := match f with C_created_at v => v | _ => c_created_at r end
|}.

Definition set_cache (fs : list CacheField) (r : CacheEntry) : CacheEntry :=
  foldl (fun r f => setattr_cache f r) r fs.

#[export] Instance cache_eq_dec : EqDecision CacheEntry.
Proof. solve_decision. Defined.

(** ** scaling_events *)

(** [class ScalingEvent]: an audit record. *)
Record ScalingEvent := mkScalingEvent {
  e_worker_id : option string;
  e_action : string;
  e_reason : string;
  e_triggered_by : string;
  e_requester : option string;
  e_created_at : Z
}.

