(* ===== verification/CloudTypes.v ===== *)
(** * CloudTypes: [cloud/types.py], the vendor-neutral compute vocabulary

    Instance states are an enum; the persisted [Worker.cloud_state] and
    [desired_state] values are strings, as in the database. *)
From stdpp Require Import pretty.
From S2P Require Import Prelude.

Inductive InstanceState :=
| RUNNING | SUSPENDED | STARTING | STOPPING | TERMINATING | TERMINATED | UNKNOWN.

#[export] Instance InstanceState_eq_dec : EqDecision InstanceState.
Proof. solve_decision. Defined.

Definition CLOUD_STATE_PENDING := "pending".
Definition CLOUD_STATE_RUNNING := "running".
Definition CLOUD_STATE_STOPPING := "stopping".
Definition CLOUD_STATE_TERMINATING := "terminating".
Definition CLOUD_STATE_STOPPED := "stopped".
Definition CLOUD_STATE_TERMINATED := "terminated".
Definition CLOUD_STATE_UNKNOWN := "unknown".

(** [_INSTANCE_TO_CLOUD_STATE.get(state, CLOUD_STATE_UNKNOWN)]. *)
Definition cloud_state_from_instance (state : InstanceState) : string :=
  match state with
  | RUNNING => CLOUD_STATE_RUNNING
  | SUSPENDED => CLOUD_STATE_STOPPED
  | STARTING => CLOUD_STATE_PENDING
  | STOPPING => CLOUD_STATE_STOPPING
  | TERMINATING => CLOUD_STATE_TERMINATING
  | TERMINATED => CLOUD_STATE_TERMINATED
  | UNKNOWN => CLOUD_STATE_UNKNOWN
  end.

Definition TAG_MANAGED := "mineru-gateway-managed".
Definition TAG_DEPLOYMENT := "mineru-gateway-deployment".
Definition TAG_WORKER_ID := "mineru-gateway-worker-id".
Definition TAG_ROLE := "mineru-gateway-role".
Definition TAG_GENERATION := "mineru-gateway-generation".
Definition TAG_ROLE_WORKER := "worker".
Definition TAG_NAME := "Name".

Definition format_worker_instance_name (deployment_id worker_id : string) : string :=
  let suffix := removeprefix "cloud-" worker_id in
  deployment_id +:+ "-" +:+ suffix.

(** A dict literal: an association list in insertion order. *)
Definition build_worker_tags (worker_id deployment_id : string) (generation : Z)
  : list (string * string) :=
  [ (TAG_NAME, format_worker_instance_name deployment_id worker_id);
    (TAG_MANAGED, "true");
    (TAG_DEPLOYMENT, deployment_id);
    (TAG_WORKER_ID, worker_id);
    (TAG_ROLE, TAG_ROLE_WORKER);
    (TAG_GENERATION, pretty generation) ].

Record DiscoveredInstance := mkDiscovered {
  d_instance_id : string;
  d_worker_id : option string;
  d_state : InstanceState;
  d_tags : gmap string string
}.

Lemma cloud_state_from_instance_inj s1 s2 :
  cloud_state_from_instance s1 = cloud_state_from_instance s2 -> s1 = s2.
Proof. by destruct s1, s2. Qed.
