(* ===== verification/Config.v ===== *)
(** * Config: [config.py], the settings the core reads and their validators

    Each pydantic model is a record; each [model_validator] is a function from
    the record to the message of the [ValueError] it raises, if any, testing in
    the order of the code.  The float fields (the cleanup and the two poll
    intervals) are kept in microseconds, the unit to which [timedelta] rounds. *)
From S2P Require Import Prelude.

Definition MAX_FILE_SIZE_HARD_BYTES : Z := 1024 * 1024 * 1024.

Record AwsCloudConfig := mkAwsCloudConfig {
  region : string;
  launch_template_id : option string;
  launch_template_version : string;
  bucket : string;
  endpoint_url : option string;
  ec2_endpoint_url : option string
}.

Record ScalingConfig := mkScalingConfig {
  target_per_worker : Z;
  min_workers : Z;
  max_workers : Z;
  idle_cooldown_seconds : Z;
  scale_up_cooldown_seconds : Z
}.

Record ReconciliationConfig := mkReconciliationConfig {
  launch_readiness_timeout_seconds : Z;
  max_failure_count : Z;
  stalled_worker_grace_seconds : Z
}.

Record RetentionConfig := mkRetentionConfig {
  retention_days : Z;
  cleanup_interval_us : Z
}.

Record CacheConfig := mkCacheConfig {
  cache_enabled : bool;
  cache_ttl_seconds : Z;
  sweeper_interval_seconds : Z
}.

Record RotationConfig := mkRotationConfig {
  rotation_interval_seconds : Z;
  readiness_timeout_seconds : Z
}.

Record SchedulerConfig := mkSchedulerConfig {
  dispatch_poll_interval_us : Z;
  reconcile_poll_interval_us : Z
}.

Record AttributionConfig := mkAttributionConfig {
  attribution_enabled : bool;
  powered_by_header : string;
  version_header : string
}.

Record OtelConfig := mkOtelConfig {
  otel_enabled : bool;
  endpoint : option string;
  service_name : string;
  scheduler_service_name : string;
  metrics_export_interval_seconds : Z
}.

Record CloudConfig := mkCloudConfig {
  cloud_provider : string;
  aws : AwsCloudConfig
}.

Record AuthConfig := mkAuthConfig {
  auth_enabled : bool;
  api_key : option string
}.

Record GatewaySettings := mkGatewaySettings {
  deployment_id : string;
  database_url : string;
  host : string;
  port : Z;
  log_level : string;
  max_file_size_bytes : Z;
  task_sla_seconds : Z;
  cloud_workers_enabled : bool;
  scaling : ScalingConfig;
  reconciliation : ReconciliationConfig;
  retention : RetentionConfig;
  cache : CacheConfig;
  cloud : CloudConfig;
  rotation : RotationConfig;
  scheduler : SchedulerConfig;
  attribution : AttributionConfig;
  auth : AuthConfig;
  otel : OtelConfig
}.

(** The defaults of the model classes. *)
Definition default_settings : GatewaySettings := {|
  deployment_id := "dev-local"; database_url := "sqlite+aiosqlite:///./gateway.db"; host := "127.0.0.1";
  port := 8000; log_level := "INFO"; max_file_size_bytes := 0;
  task_sla_seconds := 3600; cloud_workers_enabled := false;
  scaling := mkScalingConfig 4 0 12 300 60;
  reconciliation := mkReconciliationConfig 1800 8 900;
  retention := mkRetentionConfig 30 (seconds 3600);
  cache := mkCacheConfig true 604800 600;
  cloud := mkCloudConfig "aws" (mkAwsCloudConfig "us-east-1" None "$Latest" "mineru-results" None None);
  rotation := mkRotationConfig 604800 1800;
  scheduler := mkSchedulerConfig 500000 (seconds 15);
  attribution := mkAttributionConfig true "MinerU" "MinerU-Version";
  auth := mkAuthConfig false None;
  otel := mkOtelConfig false None "mineru-gateway" "mineru-scheduler" 60
|}.

(** [not s.strip()]: every character is white space, code points below 256. *)
Definition is_space (c : Ascii.ascii) : bool :=
  let n := Ascii.nat_of_ascii c in
  ((9 <=? n)%nat && (n <=? 13)%nat) || ((28 <=? n)%nat && (n <=? 32)%nat)
  || (n =? 133)%nat || (n =? 160)%nat.
Fixpoint is_blank (s : string) : bool :=
  match s with
  | EmptyString => true
  | String c s => is_space c && is_blank s
  end.

(** [raise ValueError(msg)] at the first test that holds. *)
Definition first_error (tests : list (bool * string)) : option string :=
  snd <$> List.find fst tests.

Definition validate_scaling (c : ScalingConfig) : option string :=
  first_error
    [ (target_per_worker c <=? 0, "scaling.target_per_worker must be > 0");
      (min_workers c <? 0, "scaling.min_workers must be >= 0");
      (max_workers c <? 0, "scaling.max_workers must be >= 0");
      (max_workers c <? min_workers c, "scaling.min_workers must be <= max_workers") ].

Definition validate_reconciliation (c : ReconciliationConfig) : option string :=
  first_error
    [ (launch_readiness_timeout_seconds c <=? 0,
         "reconciliation.launch_readiness_timeout_seconds must be > 0");
      (max_failure_count c <=? 0, "reconciliation.max_failure_count must be > 0");
      (stalled_worker_grace_seconds c <=? 0,
         "reconciliation.stalled_worker_grace_seconds must be > 0") ].

Definition validate_retention (c : RetentionConfig) : option string :=
  first_error
    [ (retention_days c <=? 0, "retention.retention_days must be > 0");
      (cleanup_interval_us c <=? 0, "retention.cleanup_interval_seconds must be > 0") ].

Definition validate_rotation (c : RotationConfig) : option string :=
  first_error
    [ (rotation_interval_seconds c <=? 0, "rotation.interval_seconds must be > 0");
      (readiness_timeout_seconds c <=? 0, "rotation.readiness_timeout_seconds must be > 0") ].

Definition validate_scheduler (c : SchedulerConfig) : option string :=
  first_error
    [ (dispatch_poll_interval_us c <=? 0, "scheduler.dispatch_poll_interval_seconds must be > 0");
      (reconcile_poll_interval_us c <=? 0, "scheduler.reconcile_poll_interval_seconds must be > 0") ].

(** [_normalize_provider]: [inr] is the message of the [ValueError]. *)
Definition normalize_provider (v : option string) : string + string :=
  match v with
  | None => inl "aws"
  | Some v => if lower v !=? "aws" then inr "Only cloud.provider='aws' is supported" else inl (lower v)
  end.

Definition validate_auth (c : AuthConfig) : option string :=
  first_error
    [ (auth_enabled c && negb (truthy (api_key c)),
         "auth.api_key is required when auth.enabled is true") ].

Definition resolved_keys (c : AuthConfig) : list string :=
  match api_key c with Some k => if k ==? "" then [] else [k] | None => [] end.

Definition launch_template (c : CloudConfig) : option string * option string * string :=
  (launch_template_id (aws c), Some (launch_template_version (aws c)), region (aws c)).

Definition object_store_bucket (c : CloudConfig) : option string :=
  if bucket (aws c) ==? "" then None else Some (bucket (aws c)).

Definition is_object_store_configured (c : CloudConfig) : bool := truthy (object_store_bucket c).

(** [_validate_deployment_and_cloud]. *)
Definition validate_deployment_and_cloud (s : GatewaySettings) : option string :=
  first_error
    [ (is_blank (deployment_id s), "deployment_id is required");
      (max_file_size_bytes s <? 0, "max_file_size_bytes must be >= 0");
      (MAX_FILE_SIZE_HARD_BYTES <? max_file_size_bytes s,
         "max_file_size_bytes cannot exceed hard limit of 1073741824");
      (cloud_workers_enabled s && (cloud_provider (cloud s) ==? "aws")
         && negb (truthy (launch_template_id (aws (cloud s)))),
         "cloud.aws.launch_template_id is required when cloud workers are enabled");
      (negb (truthy (object_store_bucket (cloud s))),
         "cloud." +:+ cloud_provider (cloud s) +:+ " bucket/container name is required") ].

(** Settings that every validator accepts. *)
Definition valid_settings (s : GatewaySettings) : bool :=
  is_none (validate_scaling (scaling s)) && is_none (validate_reconciliation (reconciliation s))
  && is_none (validate_retention (retention s)) && is_none (validate_rotation (rotation s))
  && is_none (validate_scheduler (scheduler s))
  && is_none (validate_auth (auth s)) && is_none (validate_deployment_and_cloud s).

(** What the rest of the development uses of valid settings. *)
Record scaling_ok (c : ScalingConfig) : Prop := {
  target_pos : 0 < target_per_worker c;
  min_nonneg : 0 <= min_workers c;
  min_le_max : min_workers c <= max_workers c
}.

Lemma first_error_none l : first_error l = None -> Forall (fun t => t.1 = false) l.
Proof.
  unfold first_error. destruct (List.find fst l) eqn:E; cbn; [done|]. intros _.
  apply Forall_forall. intros t Ht%list_elem_of_In. exact (List.find_none _ _ E _ Ht).
Qed.

Lemma valid_settings_scaling s : valid_settings s = true -> scaling_ok (scaling s).
Proof.
  unfold valid_settings, validate_scaling. intros Hv. bool_hyps.
  match goal with H : is_none (first_error _) = true |- _ =>
    apply is_none_true, first_error_none in H end.
  repeat match goal with H : Forall _ (_ :: _) |- _ => apply Forall_cons_1 in H as [? ?] end.
  cbn in *. bool_hyps. split; lia.
Qed.

Lemma valid_settings_max_failures s :
  valid_settings s = true -> 0 < max_failure_count (reconciliation s).
Proof.
  unfold valid_settings, validate_reconciliation. intros Hv. bool_hyps.
  match goal with H : is_none (first_error [(launch_readiness_timeout_seconds _ <=? 0, _); _; _]) = true |- _ =>
    apply is_none_true, first_error_none in H;
    repeat apply Forall_cons_1 in H as [? H] end.
  cbn in *. bool_hyps. lia.
Qed.
