(* ===== verification/Scaling.v ===== *)
(** * Scaling: [scheduler/scaling.py], desired capacity from queue depth

    [math.ceil(depth / target)] is exact integer ceiling division: for a depth
    below 2^53 the correctly rounded quotient of two integers never rounds down
    to the integer below it. *)
From S2P Require Import Prelude.

Record ScalingInputs := mkScalingInputs {
  i_queue_depth : Z;
  i_serviceable_workers : Z;
  i_starting_workers : Z;
  i_draining_workers : Z;
  i_stopping_workers : Z
}.

Record ScalingSignal := mkScalingSignal {
  queue_depth : Z;
  serviceable_workers : Z;
  starting_workers : Z;
  draining_workers : Z;
  stopping_workers : Z;
  desired_workers : Z;
  target : Z
}.

Definition scaling_in_progress (s : ScalingSignal) : bool :=
  (0 <? starting_workers s) || (0 <? draining_workers s) || (0 <? stopping_workers s).

Definition should_scale_up (s : ScalingSignal) : bool :=
  serviceable_workers s + starting_workers s <? desired_workers s.

Definition should_scale_down (s : ScalingSignal) : bool :=
  (desired_workers s <? serviceable_workers s) && negb (scaling_in_progress s).

(** [math.ceil(a / b)]. *)
Definition ceil_div (a b : Z) : Z := - ((- a) / b).

Definition compute_scaling_signal (inputs : ScalingInputs)
    (target_per_worker min_workers max_workers : Z) : ScalingSignal :=
  let queue_desired :=
    if i_queue_depth inputs =? 0 then 0 else ceil_div (i_queue_depth inputs) target_per_worker in
  let floor := Z.max queue_desired (if 0 <? i_queue_depth inputs then 1 else 0) in
  let desired := Z.max min_workers (Z.min floor max_workers) in
  {| queue_depth := i_queue_depth inputs;
     serviceable_workers := i_serviceable_workers inputs;
     starting_workers := i_starting_workers inputs;
     draining_workers := i_draining_workers inputs;
     stopping_workers := i_stopping_workers inputs;
     desired_workers := desired;
     target := target_per_worker |}.

Lemma ceil_div_spec a b : 0 < b -> b * (ceil_div a b - 1) < a <= b * ceil_div a b.
Proof.
  intros Hb. unfold ceil_div.
  pose proof (Z.div_mod (- a) b ltac:(lia)). pose proof (Z.mod_pos_bound (- a) b Hb). nia.
Qed.

Lemma ceil_div_pos a b : 0 < a -> 0 < b -> 0 < ceil_div a b.
Proof. intros Ha Hb. pose proof (ceil_div_spec a b Hb). nia. Qed.

Lemma ceil_div_mono a a' b : 0 < b -> a <= a' -> ceil_div a b <= ceil_div a' b.
Proof.
  intros Hb Ha. pose proof (ceil_div_spec a b Hb). pose proof (ceil_div_spec a' b Hb). nia.
Qed.

(** The clamp written out: what the desired size is for a non-negative queue. *)
Lemma desired_clamp i t lo hi : 0 <= i_queue_depth i -> 0 < t ->
  desired_workers (compute_scaling_signal i t lo hi)
  = Z.max lo (Z.min (ceil_div (i_queue_depth i) t) hi).
Proof.
  intros Hq Ht. cbn. destruct (Z.eqb_spec (i_queue_depth i) 0) as [E|E].
  - rewrite E. cbn. unfold ceil_div. by rewrite Z.div_0_l by lia.
  - pose proof (ceil_div_pos (i_queue_depth i) t ltac:(lia) Ht).
    destruct (Z.ltb_spec 0 (i_queue_depth i)); lia.
Qed.

(** C39: the desired fleet is within [min_workers, max_workers]; below the
    maximum it has a slot for every queued task; and above the minimum no
    smaller fleet has. *)
Theorem desired_adequate i t lo hi :
  0 <= i_queue_depth i -> 0 < t -> lo <= hi ->
  let d := desired_workers (compute_scaling_signal i t lo hi) in
  lo <= d <= hi /\ (d < hi -> i_queue_depth i <= t * d) /\
  (lo < d -> t * (d - 1) < i_queue_depth i).
Proof.
  intros Hq Ht Hlh. cbv zeta. rewrite desired_clamp by done.
  pose proof (ceil_div_spec (i_queue_depth i) t Ht). nia.
Qed.

Lemma desired_adequate_witness :
  let d := desired_workers (compute_scaling_signal (mkScalingInputs 9 0 0 0 0) 4 0 12) in
  0 <= d <= 12 /\ (d < 12 -> 9 <= 4 * d) /\ (0 < d -> 4 * (d - 1) < 9).
Proof. apply (desired_adequate (mkScalingInputs 9 0 0 0 0)); cbn; lia. Defined.
