(* ===== verification/Json.v ===== *)
(** * Json: the fragment of Python's [json] module the gateway uses

    [dumps] with [ensure_ascii=True] and its two separators, and [loads], on
    values without floats.  A [str] is a [string] whose characters are code
    points below 256, so [uXXXX] escapes above [u00ff] are out of the
    fragment.  The parser recurses on fuel; [loads] supplies enough for every
    text the printer produces ([loads_dumps]). *)
From Stdlib Require Import DecimalString DecimalZ.
From S2P Require Import Prelude.

Unset Elimination Schemes.
Inductive json :=
| JNull
| JBool (b : bool)
| JInt (z : Z)
| JStr (s : string)
| JArr (l : list json)
| JObj (l : list (string * json)).
Set Elimination Schemes.

(** [d.get(k)] on a parsed object: the last binding wins. *)
Definition obj_get (k : string) (l : list (string * json)) : option json :=
  foldl (fun acc kv => if kv.1 ==? k then Some kv.2 else acc) None l.

(** ** Printing *)

Definition hex_digit (n : nat) : string :=
  match String.get n "0123456789abcdef" with
  | Some c => String c ""
  | None => ""
  end.

Definition chr (n : nat) : string := String (Ascii.ascii_of_nat n) "".

(** The two-character escapes of the double quote, the backslash and the five
    named control characters; a [u00xy] escape outside space to tilde. *)
Definition escape_char (c : Ascii.ascii) : string :=
  let n := Ascii.nat_of_ascii c in
  if (n =? 34)%nat then chr 92 +:+ chr 34
  else if (n =? 92)%nat then chr 92 +:+ chr 92
  else if (n =? 10)%nat then chr 92 +:+ "n"
  else if (n =? 13)%nat then chr 92 +:+ "r"
  else if (n =? 9)%nat then chr 92 +:+ "t"
  else if (n =? 8)%nat then chr 92 +:+ "b"
  else if (n =? 12)%nat then chr 92 +:+ "f"
  else if (n <? 32)%nat || (126 <? n)%nat
       then chr 92 +:+ "u00" +:+ hex_digit (n / 16) +:+ hex_digit (n mod 16)
  else String c "".

Fixpoint escape (s : string) : string :=
  match s with
  | EmptyString => ""
  | String c s => escape_char c +:+ escape s
  end.

Definition print_str (s : string) : string := chr 34 +:+ escape s +:+ chr 34.

Definition print_int (z : Z) : string := NilZero.string_of_int (Z.to_int z).

(** [item_sep.join(l)]. *)
Fixpoint join (sep : string) (l : list string) : string :=
  match l with
  | [] => ""
  | [x] => x
  | x :: l => x +:+ sep +:+ join sep l
  end.

Fixpoint dumps (item_sep key_sep : string) (j : json) : string :=
  match j with
  | JNull => "null"
  | JBool true => "true"
  | JBool false => "false"
  | JInt z => print_int z
  | JStr s => print_str s
  | JArr l => "[" +:+ join item_sep (map (dumps item_sep key_sep) l) +:+ "]"
  | JObj l => "{" +:+ join item_sep
      (map (fun kv => print_str kv.1 +:+ key_sep +:+ dumps item_sep key_sep kv.2) l) +:+ "}"
  end.

(** ** Parsing *)

Definition is_ws (c : Ascii.ascii) : bool :=
  let n := Ascii.nat_of_ascii c in
  (n =? 32)%nat || (n =? 10)%nat || (n =? 13)%nat || (n =? 9)%nat.

Fixpoint skip_ws (s : string) : string :=
  match s with
  | String c s' => if is_ws c then skip_ws s' else s
  | EmptyString => ""
  end.

Definition hex_value (c : Ascii.ascii) : option nat :=
  let n := Ascii.nat_of_ascii c in
  if (48 <=? n)%nat && (n <=? 57)%nat then Some (n - 48)%nat
  else if (97 <=? n)%nat && (n <=? 102)%nat then Some (n - 87)%nat
  else if (65 <=? n)%nat && (n <=? 70)%nat then Some (n - 55)%nat
  else None.

(** The character after a backslash, [u] apart. *)
Definition unescape (c : Ascii.ascii) : option Ascii.ascii :=
  let n := Ascii.nat_of_ascii c in
  if (n =? 34)%nat || (n =? 92)%nat || (n =? 47)%nat then Some c
  else if (n =? 110)%nat then Some (Ascii.ascii_of_nat 10)
  else if (n =? 114)%nat then Some (Ascii.ascii_of_nat 13)
  else if (n =? 116)%nat then Some (Ascii.ascii_of_nat 9)
  else if (n =? 98)%nat then Some (Ascii.ascii_of_nat 8)
  else if (n =? 102)%nat then Some (Ascii.ascii_of_nat 12)
  else None.

Definition cons_fst (c : Ascii.ascii) (r : option (string * string)) : option (string * string) :=
  match r with Some (s, rest) => Some (String c s, rest) | None => None end.

(** The rest of a string literal, after its opening quote. *)
Fixpoint parse_str (s : string) : option (string * string) :=
  match s with
  | EmptyString => None
  | String c s1 =>
      let n := Ascii.nat_of_ascii c in
      if (n =? 34)%nat then Some ("", s1)
      else if (n =? 92)%nat then
        match s1 with
        | String u s2 =>
            if (Ascii.nat_of_ascii u =? 117)%nat then
              match s2 with
              | String a (String b (String x (String y s3))) =>
                  match hex_value a, hex_value b, hex_value x, hex_value y with
                  | Some 0%nat, Some 0%nat, Some x, Some y =>
                      cons_fst (Ascii.ascii_of_nat (16 * x + y)) (parse_str s3)
                  | _, _, _, _ => None
                  end
              | _ => None
              end
            else match unescape u with
                 | Some e => cons_fst e (parse_str s2)
                 | None => None
                 end
        | EmptyString => None
        end
      else if (n <? 32)%nat then None
      else cons_fst c (parse_str s1)
  end.

Definition is_num (c : Ascii.ascii) : bool :=
  let n := Ascii.nat_of_ascii c in ((48 <=? n)%nat && (n <=? 57)%nat) || (n =? 45)%nat.

Fixpoint span_num (s : string) : string * string :=
  match s with
  | String c s' => if is_num c then let '(d, r) := span_num s' in (String c d, r) else ("", s)
  | EmptyString => ("", "")
  end.

(** An integer literal in the form [print_int] gives it. *)
Definition parse_int (s : string) : option (json * string) :=
  let '(d, rest) := span_num s in
  match NilZero.int_of_string d with
  | Some i => if print_int (Z.of_int i) ==? d then Some (JInt (Z.of_int i), rest) else None
  | None => None
  end.

Definition expect (p s : string) : option string :=
  if String.prefix p s
  then Some (String.substring (String.length p) (String.length s - String.length p) s)
  else None.

Definition starts (n : nat) (s : string) : option string :=
  match s with
  | String c s' => if (Ascii.nat_of_ascii c =? n)%nat then Some s' else None
  | EmptyString => None
  end.

Fixpoint parse_value (fuel : nat) (s : string) {struct fuel} : option (json * string) :=
  match fuel with
  | O => None
  | S fuel =>
      let s := skip_ws s in
      match starts 34 s with
      | Some s1 => '(v, r) ← parse_str s1 ; Some (JStr v, r)
      | None =>
      match starts 91 s with
      | Some s1 =>
          match starts 93 (skip_ws s1) with
          | Some r => Some (JArr [], r)
          | None => '(l, r) ← parse_items fuel s1 ; Some (JArr l, r)
          end
      | None =>
      match starts 123 s with
      | Some s1 =>
          match starts 125 (skip_ws s1) with
          | Some r => Some (JObj [], r)
          | None => '(l, r) ← parse_members fuel s1 ; Some (JObj l, r)
          end
      | None =>
      match expect "null" s with
      | Some r => Some (JNull, r)
      | None =>
      match expect "true" s with
      | Some r => Some (JBool true, r)
      | None =>
      match expect "false" s with
      | Some r => Some (JBool false, r)
      | None => parse_int s
      end end end end end end
  end
with parse_items (fuel : nat) (s : string) {struct fuel} : option (list json * string) :=
  match fuel with
  | O => None
  | S fuel =>
      '(v, r) ← parse_value fuel s ;
      match starts 44 (skip_ws r) with
      | Some r1 => '(l, r2) ← parse_items fuel r1 ; Some (v :: l, r2)
      | None => r1 ← starts 93 (skip_ws r) ; Some ([v], r1)
      end
  end
with parse_members (fuel : nat) (s : string) {struct fuel} : option (list (string * json) * string) :=
  match fuel with
  | O => None
  | S fuel =>
      s1 ← starts 34 (skip_ws s) ;
      '(k, r) ← parse_str s1 ;
      s2 ← starts 58 (skip_ws r) ;
      '(v, r) ← parse_value fuel s2 ;
      match starts 44 (skip_ws r) with
      | Some r1 => '(l, r2) ← parse_members fuel r1 ; Some ((k, v) :: l, r2)
      | None => r1 ← starts 125 (skip_ws r) ; Some ([(k, v)], r1)
      end
  end.

(** [json.loads]; [None] is a [JSONDecodeError]. *)
Definition loads (s : string) : option json :=
  match parse_value (2 * String.length s + 2) s with
  | Some (j, r) => if skip_ws r ==? "" then Some j else None
  | None => None
  end.

Example loads_example :
  loads (dumps ", " ": " (JObj [("a", JArr [JInt (-12); JStr "x"; JNull]); ("b", JObj [])]))
  = Some (JObj [("a", JArr [JInt (-12); JStr "x"; JNull]); ("b", JObj [])]).
Proof. vm_compute. reflexivity. Qed.

(** ** Round trip *)

Section json_induction.
Context (P : json -> Prop).
Context (HNull : P JNull) (HBool : forall b, P (JBool b)) (HInt : forall z, P (JInt z))
  (HStr : forall s, P (JStr s)) (HArr : forall l, Forall P l -> P (JArr l))
  (HObj : forall l, Forall (fun kv => P kv.2) l -> P (JObj l)).

Fixpoint json_ind (j : json) : P j :=
  match j with
  | JNull => HNull
  | JBool b => HBool b
  | JInt z => HInt z
  | JStr s => HStr s
  | JArr l => HArr l ((fix go l : Forall P l :=
      match l with [] => Forall_nil_2 _ | x :: l => Forall_cons_2 _ _ _ (json_ind x) (go l) end) l)
  | JObj l => HObj l ((fix go l : Forall (fun kv => P kv.2) l :=
      match l with [] => Forall_nil_2 _ | x :: l => Forall_cons_2 _ _ _ (json_ind x.2) (go l) end) l)
  end.
End json_induction.

Lemma parse_str_escape_char c t : parse_str (escape_char c +:+ t) = cons_fst c (parse_str t).
Proof. destruct c as [[] [] [] [] [] [] [] []]; reflexivity. Qed.

Lemma parse_str_escape s rest : parse_str (escape s +:+ chr 34 +:+ rest) = Some (s, rest).
Proof.
  induction s as [|c s IH]; [reflexivity|].
  cbn [escape]. rewrite <- string_app_assoc, parse_str_escape_char, IH. reflexivity.
Qed.

Fixpoint all_chars (p : Ascii.ascii -> bool) (s : string) : bool :=
  match s with EmptyString => true | String c s => p c && all_chars p s end.

(** The text does not begin with a character an integer could continue with. *)
Definition no_num (s : string) : bool :=
  match s with String c _ => negb (is_num c) | EmptyString => true end.

Lemma span_num_app s rest :
  all_chars is_num s = true -> no_num rest = true -> span_num (s +:+ rest) = (s, rest).
Proof.
  intros Hs Hr. induction s as [|c s IH]; cbn in Hs.
  - destruct rest as [|c rest]; [done|]. cbn in Hr.
    change ("" +:+ String c rest) with (String c rest). cbn. by destruct (is_num c).
  - bool_hyps. rewrite string_app_cons. cbn. rewrite H, IH by done. done.
Qed.

Lemma uint_chars d : all_chars is_num (NilEmpty.string_of_uint d) = true.
Proof. by induction d. Qed.

Lemma print_int_chars z : all_chars is_num (print_int z) = true.
Proof.
  unfold print_int, NilZero.string_of_int. destruct (Z.to_int z) as [d|d]; cbn;
    destruct d; cbn; rewrite ?uint_chars; done.
Qed.

Lemma print_int_cons z : exists c s, print_int z = String c s /\ is_num c = true.
Proof.
  pose proof (print_int_chars z) as Hc. destruct (print_int z) as [|c s] eqn:E.
  - exfalso. unfold print_int, NilZero.string_of_int in E.
    destruct (Z.to_int z) as [d|d]; destruct d; discriminate.
  - cbn in Hc. bool_hyps. eauto.
Qed.

Lemma to_int_not_nil z : Z.to_int z <> Decimal.Pos Decimal.Nil /\ Z.to_int z <> Decimal.Neg Decimal.Nil.
Proof.
  destruct z as [|p|p]; split; try discriminate; cbn; intros [= E];
    pose proof (DecimalPos.Unsigned.to_uint_nonnil p); contradiction.
Qed.

Lemma parse_int_print z rest :
  no_num rest = true -> parse_int (print_int z +:+ rest) = Some (JInt z, rest).
Proof.
  intros Hr. unfold parse_int. rewrite span_num_app by (apply print_int_chars || done).
  destruct (to_int_not_nil z) as [H1 H2].
  unfold print_int at 1. rewrite NilZero.isi by done.
  rewrite DecimalZ.of_to. by rewrite bool_decide_true.
Qed.

(** Separators are a comma or a colon and white space. *)
Definition sep_ok (c : Ascii.ascii) (sep : string) : Prop :=
  exists ws, sep = String c ws /\ all_chars is_ws ws = true.

Lemma skip_ws_app ws s : all_chars is_ws ws = true -> skip_ws (ws +:+ s) = skip_ws s.
Proof.
  induction ws as [|c ws IH]; cbn; [done|]. intros H. bool_hyps.
  rewrite string_app_cons. cbn. rewrite H. by apply IH.
Qed.

Lemma parse_value_ws fuel ws s :
  all_chars is_ws ws = true -> parse_value fuel (ws +:+ s) = parse_value fuel s.
Proof. intros Hws. destruct fuel; [done|]. cbn. by rewrite skip_ws_app. Qed.

(** Fuel the parser needs for a value. *)
Fixpoint need (j : json) : nat :=
  match j with
  | JArr l => S (foldr (fun x acc => S (Nat.max (need x) acc)) O l)
  | JObj l => S (foldr (fun kv acc => S (Nat.max (need kv.2) acc)) O l)
  | _ => 1%nat
  end.
Definition items_need (l : list json) : nat := foldr (fun x acc => S (Nat.max (need x) acc)) O l.
Definition members_need (l : list (string * json)) : nat :=
  foldr (fun kv acc => S (Nat.max (need kv.2) acc)) O l.

(** No printed value begins with white space or a closing bracket. *)
Lemma dumps_head isep ksep j : exists c s, dumps isep ksep j = String c s /\ is_ws c = false /\
  Ascii.nat_of_ascii c <> 93%nat /\ Ascii.nat_of_ascii c <> 125%nat.
Proof.
  destruct j as [|[]|z|s|l|l]; cbn.
  all: try (eexists _, _; split; [reflexivity|vm_compute; split; [reflexivity|split; discriminate]]).
  destruct (print_int_cons z) as (c & s & -> & Hc). exists c, s. split; [done|].
  revert Hc. destruct c as [[] [] [] [] [] [] [] []]; vm_compute; try discriminate;
    intros _; split; [reflexivity|split; discriminate| ..]; try reflexivity; split; discriminate.
Qed.

Lemma starts_num n c s : is_num c = true -> n ∈ [34; 91; 123]%nat -> starts n (String c s) = None.
Proof.
  intros Hc Hn. cbn. destruct (Nat.eqb_spec (Ascii.nat_of_ascii c) n) as [E|]; [|done]. exfalso.
  unfold is_num in Hc. rewrite E in Hc. revert Hc.
  repeat (apply elem_of_cons in Hn as [->|Hn]; [done|]). by apply elem_of_nil in Hn.
Qed.

Lemma expect_num c s p d r : is_num c = true -> p = String d r -> is_num d = false ->
  expect p (String c s) = None.
Proof.
  intros Hc -> Hd. unfold expect. cbn. destruct (Ascii.ascii_dec d c) as [->|]; [congruence|done].
Qed.

Lemma skip_ws_id c s : is_ws c = false -> skip_ws (String c s) = String c s.
Proof. intros E. cbn. by rewrite E. Qed.

Lemma expect_app p s : expect p (p +:+ s) = Some s.
Proof.
  unfold expect. pose proof (removeprefix_app p s) as E. unfold removeprefix in E.
  rewrite string_prefix_app in *. by rewrite E.
Qed.

Section roundtrip.
Context (isep ksep : string) (His : sep_ok (Ascii.ascii_of_nat 44) isep) (Hks : sep_ok (Ascii.ascii_of_nat 58) ksep).

Abbreviation out := (dumps isep ksep).

Definition parses (j : json) : Prop := forall fuel rest,
  (need j <= fuel)%nat -> no_num rest = true -> parse_value fuel (out j +:+ rest) = Some (j, rest).

Lemma parses_int z : parses (JInt z).
Proof.
  intros [|fuel] rest Hf Hr; [cbn in Hf; lia|]. cbn [dumps].
  pose proof (parse_int_print z rest Hr) as Hp.
  destruct (print_int_cons z) as (c & s & E & Hc). rewrite E, string_app_cons in *.
  assert (Hws : is_ws c = false).
  { revert Hc. by destruct c as [[] [] [] [] [] [] [] []]. }
  cbn [parse_value]. rewrite skip_ws_id by done.
  rewrite !(starts_num _ c) by (done || set_solver).
  by rewrite !(expect_num c) with (1 := Hc) (2 := eq_refl) by reflexivity.
Qed.

Lemma parses_str s : parses (JStr s).
Proof.
  intros [|fuel] rest Hf Hr; [cbn in Hf; lia|]. cbn [dumps]. unfold print_str.
  rewrite <- !string_app_assoc. cbn [parse_value].
  change (skip_ws (chr 34 +:+ escape s +:+ chr 34 +:+ rest))
    with (chr 34 +:+ escape s +:+ chr 34 +:+ rest).
  change (starts 34 (chr 34 +:+ escape s +:+ chr 34 +:+ rest))
    with (Some (escape s +:+ chr 34 +:+ rest)). cbn [mbind option_bind].
  by rewrite parse_str_escape.
Qed.

(** A separator ends an integer and is read as its first character. *)
Lemma starts_sep n c sep s :
  sep_ok c sep -> Ascii.nat_of_ascii c = n -> is_ws c = false ->
  exists ws, starts n (skip_ws (sep +:+ s)) = Some (ws +:+ s) /\ all_chars is_ws ws = true.
Proof.
  intros (ws & -> & Hws) Hn Hc. exists ws. split; [|done].
  rewrite string_app_cons, skip_ws_id by done. cbn. by rewrite Hn, Nat.eqb_refl.
Qed.

Lemma no_num_sep c sep s : sep_ok c sep -> is_num c = false -> no_num (sep +:+ s) = true.
Proof. intros (ws & -> & _) Hc. rewrite string_app_cons. cbn. by rewrite Hc. Qed.

Lemma parse_items_ws fuel ws s : all_chars is_ws ws = true ->
  parse_items fuel (ws +:+ s) = parse_items fuel s.
Proof. intros Hws. destruct fuel; [done|]. cbn [parse_items]. by rewrite parse_value_ws. Qed.

Lemma parse_items_join l fuel rest :
  l <> [] -> Forall parses l -> (items_need l <= fuel)%nat ->
  parse_items fuel (join isep (map out l) +:+ "]" +:+ rest) = Some (l, rest).
Proof.
  revert fuel; induction l as [|x l IH]; intros fuel Hne Hl Hf; [done|].
  apply Forall_cons in Hl as [Hx Hl]. cbn in Hf. fold (items_need l) in Hf.
  destruct fuel as [|fuel]; [lia|]. cbn [parse_items].
  destruct l as [|y l].
  - cbn [map join]. rewrite Hx by (done || lia). reflexivity.
  - cbn [map join]. change (out y :: map out l) with (map out (y :: l)).
    rewrite <- !string_app_assoc. rewrite Hx by (lia || by eapply no_num_sep).
    cbn [mbind option_bind].
    edestruct (starts_sep 44) as (ws & -> & Hws); [exact His|reflexivity|reflexivity|].
    rewrite parse_items_ws by done. by rewrite IH by (done || lia).
Qed.

Abbreviation member := (fun kv : string * json => print_str kv.1 +:+ ksep +:+ out kv.2).

Lemma parse_member_ws fuel ws s : all_chars is_ws ws = true ->
  parse_members fuel (ws +:+ s) = parse_members fuel s.
Proof. intros Hws. destruct fuel; [done|]. cbn. by rewrite skip_ws_app. Qed.

Lemma parse_members_join l fuel rest :
  l <> [] -> Forall (fun kv => parses kv.2) l -> (members_need l <= fuel)%nat ->
  parse_members fuel (join isep (map member l) +:+ "}" +:+ rest) = Some (l, rest).
Proof.
  revert fuel; induction l as [|[k x] l IH]; intros fuel Hne Hl Hf; [done|].
  apply Forall_cons in Hl as [Hx Hl]. cbn in Hx, Hf. fold (members_need l) in Hf.
  destruct fuel as [|fuel]; [lia|]. cbn [parse_members].
  assert (Hkey : forall t, (s1 ← starts 34 (skip_ws (print_str k +:+ t)) ; parse_str s1) = Some (k, t)).
  { intros t. unfold print_str. rewrite <- !string_app_assoc. apply parse_str_escape. }
  assert (Hpair : forall t, no_num t = true ->
    exists s1 s2, starts 34 (skip_ws (print_str k +:+ ksep +:+ out x +:+ t)) = Some s1 /\
      parse_str s1 = Some (k, ksep +:+ out x +:+ t) /\
      starts 58 (skip_ws (ksep +:+ out x +:+ t)) = Some s2 /\ parse_value fuel s2 = Some (x, t)).
  { intros t Ht. specialize (Hkey (ksep +:+ out x +:+ t)).
    destruct (starts 34 _) as [s1|]; [|done]. cbn in Hkey.
    edestruct (starts_sep 58) as (ws & -> & Hws); [exact Hks|reflexivity|reflexivity|].
    eexists _, _. repeat (split; [done|]). rewrite parse_value_ws by done. apply Hx; lia || done. }
  destruct l as [|y l].
  - cbn [map join fst snd]. rewrite <- !string_app_assoc.
    destruct (Hpair ("}" +:+ rest) eq_refl) as (s1 & s2 & -> & E1 & E2 & E3).
    cbn [mbind option_bind]. rewrite E1. cbn [mbind option_bind]. rewrite E2.
    cbn [mbind option_bind]. rewrite E3. reflexivity.
  - change (join isep (map member ((k, x) :: y :: l)))
      with ((print_str k +:+ ksep +:+ out x) +:+ isep +:+ join isep (map member (y :: l))).
    rewrite <- !string_app_assoc.
    edestruct (Hpair (isep +:+ join isep (map member (y :: l)) +:+ "}" +:+ rest))
      as (s1 & s2 & -> & E1 & E2 & E3); [by eapply no_num_sep|].
    cbn [mbind option_bind]. rewrite E1. cbn [mbind option_bind]. rewrite E2.
    cbn [mbind option_bind]. rewrite E3. cbn [mbind option_bind].
    edestruct (starts_sep 44) as (ws & -> & Hws); [exact His|reflexivity|reflexivity|].
    rewrite parse_member_ws by done. by rewrite IH by (done || lia).
Qed.

(** Not one of the characters that open a string, an array or an object. *)
Ltac not_opening s :=
  change (skip_ws s) with s; change (starts 34 s) with (@None string);
  change (starts 91 s) with (@None string); change (starts 123 s) with (@None string).

Lemma parses_null : parses JNull.
Proof.
  intros [|fuel] rest Hf _; [cbn in Hf; lia|]. cbn [parse_value dumps].
  not_opening ("null" +:+ rest). by rewrite expect_app.
Qed.

Lemma parses_bool b : parses (JBool b).
Proof.
  intros [|fuel] rest Hf _; [cbn in Hf; lia|]. destruct b; cbn [parse_value dumps].
  - not_opening ("true" +:+ rest). change (expect "null" ("true" +:+ rest)) with (@None string). by rewrite expect_app.
  - not_opening ("false" +:+ rest). change (expect "null" ("false" +:+ rest)) with (@None string).
    change (expect "true" ("false" +:+ rest)) with (@None string). by rewrite expect_app.
Qed.

Lemma items_open x l rest : starts 93 (skip_ws (join isep (map out (x :: l)) +:+ "]" +:+ rest)) = None.
Proof.
  destruct (dumps_head isep ksep x) as (c & s & E & Hc & H1 & _). cbn [map join].
  assert (Hj : exists t, join isep (map out (x :: l)) = String c t).
  { cbn [map join]. destruct (map out l); rewrite E; [eauto|]. rewrite string_app_cons. eauto. }
  destruct Hj as (t & Hj). cbn [map join] in Hj. rewrite Hj, string_app_cons, skip_ws_id by done.
  cbn. by rewrite (proj2 (Nat.eqb_neq _ _) H1).
Qed.

Lemma parses_arr l : Forall parses l -> parses (JArr l).
Proof.
  intros IH [|fuel] rest Hf Hr; [cbn in Hf; lia|].
  cbn [need] in Hf. fold (items_need l) in Hf. cbn [dumps]. rewrite <- !string_app_assoc.
  destruct l as [|x l]; [done|]. set (body := join isep (map out (x :: l)) +:+ "]" +:+ rest).
  change (parse_value (S fuel) ("[" +:+ body)) with
    (match starts 93 (skip_ws body) with
     | Some r => Some (JArr [], r)
     | None => '(l, r) ← parse_items fuel body ; Some (JArr l, r)
     end).
  unfold body. rewrite items_open. by rewrite parse_items_join by (done || lia).
Qed.

Lemma parses_obj l : Forall (fun kv => parses kv.2) l -> parses (JObj l).
Proof.
  intros IH [|fuel] rest Hf Hr; [cbn in Hf; lia|].
  cbn [need] in Hf. fold (members_need l) in Hf. cbn [dumps]. rewrite <- !string_app_assoc.
  destruct l as [|[k x] l]; [done|]. set (body := join isep (map member ((k, x) :: l)) +:+ "}" +:+ rest).
  assert (Hx : starts 125 (skip_ws body) = None).
  { unfold body. cbn [map join fst snd]. by destruct (map member l). }
  change (parse_value (S fuel) ("{" +:+ body)) with
    (match starts 125 (skip_ws body) with
     | Some r => Some (JObj [], r)
     | None => '(l, r) ← parse_members fuel body ; Some (JObj l, r)
     end).
  rewrite Hx. unfold body. by rewrite parse_members_join by (done || lia).
Qed.

(** Every value parses back from its text, whatever follows. *)
Lemma parse_dumps j : parses j.
Proof.
  induction j as [| | | |l IH|l IH] using json_ind; [apply parses_null|apply parses_bool|apply parses_int|apply parses_str
    |by apply parses_arr|by apply parses_obj].
Qed.

(** A value needs at most two units of fuel per character of its text. *)
Lemma join_need {A} (f : A -> string) (n : A -> nat) l :
  Forall (fun x => (n x <= 2 * String.length (f x) /\ 1 <= String.length (f x))%nat) l ->
  (foldr (fun x acc => S (Nat.max (n x) acc)) O l
   <= 2 * String.length (join isep (map f l)) + 1)%nat.
Proof.
  assert (Hs : (1 <= String.length isep)%nat) by (destruct His as (ws & -> & _); cbn; lia).
  induction 1 as [|x l [Hn Hl] _ IH]; [cbn; lia|].
  destruct l as [|y l]; [cbn in *; lia|].
  change (join isep (map f (x :: y :: l))) with (f x +:+ isep +:+ join isep (map f (y :: l))).
  rewrite !string_length_app. cbn [foldr] in *. lia.
Qed.

Lemma dumps_length j : (1 <= String.length (out j))%nat.
Proof. destruct (dumps_head isep ksep j) as (c & s & -> & _). cbn. lia. Qed.

Lemma need_bound j : (need j <= 2 * String.length (out j))%nat.
Proof.
  induction j as [|b|z|s|l IH|l IH] using json_ind.
  1-4: match goal with |- (need ?j <= _)%nat => pose proof (dumps_length j) end; cbn [need]; lia.
  - cbn [need dumps]. rewrite !string_length_app.
    pose proof (join_need out need l) as Hj. cbn [String.length].
    assert (Hl : Forall (fun x => (need x <= 2 * String.length (out x) /\ 1 <= String.length (out x))%nat) l).
    { eapply Forall_impl; [exact IH|]. intros x Hx. split; [exact Hx|apply dumps_length]. }
    specialize (Hj Hl). lia.
  - cbn [need dumps]. rewrite !string_length_app.
    pose proof (join_need member (fun kv => need kv.2) l) as Hj. cbn [String.length].
    assert (Hl : Forall (fun kv => (need kv.2 <= 2 * String.length (member kv) /\
                                    1 <= String.length (member kv))%nat) l).
    { eapply Forall_impl; [exact IH|]. intros x Hx. cbn beta.
      rewrite !string_length_app. pose proof (dumps_length x.2). cbn [String.length] in *. lia. }
    specialize (Hj Hl). lia.
Qed.

Lemma loads_out j : loads (out j) = Some j.
Proof.
  unfold loads. pose proof (need_bound j) as Hn.
  pose proof (parse_dumps j (2 * String.length (out j) + 2)%nat "" ltac:(lia) eq_refl) as Hp.
  rewrite string_app_nil in Hp. by rewrite Hp.
Qed.
End roundtrip.

(** The separators of [json.dumps] and of its compact form. *)
Lemma loads_dumps_default j : loads (dumps ", " ": " j) = Some j.
Proof. apply loads_out; eexists; split; reflexivity. Qed.

Lemma loads_dumps_compact j : loads (dumps "," ":" j) = Some j.
Proof. apply loads_out; eexists; split; reflexivity. Qed.

Lemma dumps_default_inj j j' : dumps ", " ": " j = dumps ", " ": " j' -> j = j'.
Proof.
  intros E. pose proof (loads_dumps_default j) as H. rewrite E, loads_dumps_default in H. congruence.
Qed.

(** ** What the printer writes is printable ASCII *)

Definition printable (c : Ascii.ascii) : bool :=
  let n := Ascii.nat_of_ascii c in (32 <=? n)%nat && (n <=? 126)%nat.

Lemma all_chars_app p a b : all_chars p (a +:+ b) = all_chars p a && all_chars p b.
Proof.
  induction a as [|c a IH]; [done|]. rewrite string_app_cons. cbn. by rewrite IH, andb_assoc.
Qed.

Lemma all_chars_weaken (p q : Ascii.ascii -> bool) s :
  (forall c, p c = true -> q c = true) -> all_chars p s = true -> all_chars q s = true.
Proof.
  intros Hpq. induction s as [|c s IH]; [done|]. cbn. rewrite !andb_true_iff. intros [? ?]. auto.
Qed.

Lemma escape_printable s : all_chars printable (escape s) = true.
Proof.
  induction s as [|c s IH]; [done|]. cbn [escape]. rewrite all_chars_app, IH.
  by destruct c as [[] [] [] [] [] [] [] []].
Qed.

Lemma join_printable sep l : all_chars printable sep = true ->
  Forall (fun s => all_chars printable s = true) l -> all_chars printable (join sep l) = true.
Proof.
  intros Hs Hl. induction Hl as [|x l Hx Hl IH]; [done|]. destruct Hl as [|y l Hy Hl]; [done|].
  change (join sep (x :: y :: l)) with (x +:+ sep +:+ join sep (y :: l)).
  by rewrite !all_chars_app, Hx, Hs, IH.
Qed.

Lemma dumps_printable isep ksep j : all_chars printable isep = true -> all_chars printable ksep = true ->
  all_chars printable (dumps isep ksep j) = true.
Proof.
  intros Hi Hk. induction j as [|b|z|s|l IH|l IH] using json_ind.
  - done.
  - by destruct b.
  - apply (all_chars_weaken is_num); [|apply print_int_chars]. by intros [[] [] [] [] [] [] [] []].
  - cbn [dumps]. unfold print_str. by rewrite !all_chars_app, escape_printable.
  - cbn [dumps]. rewrite !all_chars_app, join_printable; [done..|]. by apply Forall_map.
  - cbn [dumps]. rewrite !all_chars_app, join_printable; [done..|]. apply Forall_map.
    eapply Forall_impl; [exact IH|]. intros kv Hv. unfold print_str.
    by rewrite !all_chars_app, escape_printable, Hk, Hv.
Qed.

Lemma dumps_compact_inj j j' : dumps "," ":" j = dumps "," ":" j' -> j = j'.
Proof. intros E. apply (f_equal loads) in E. rewrite !loads_dumps_compact in E. congruence. Qed.
