(* ===== verification/World.v ===== *)
(** * World: the state every operation acts on, and the effect monad

    The world holds the database tables, the objects of the bucket, the cloud
    calls made so far, the scheduler's memory and a counter of interactions with
    the environment.  Everything the program does
    not decide itself (the clock, [uuid4], the order in which the database
    returns rows, a failing database) is an oracle of the class [Env], asked
    with the number of the interaction.  An operation is a function from a
    world to an outcome and a world; an exception keeps the effects that
    preceded it, as in Python. *)
From S2P Require Import Prelude Models.

(** ** Exceptions *)

(** [cloud/errors.py]. *)
Module Category.
Inductive CloudErrorCategory :=
| RETRYABLE | NOT_FOUND | AUTH | QUOTA | INVALID_ID | TERMINAL | UNKNOWN.
End Category.
Abbreviation CloudErrorCategory := Category.CloudErrorCategory.

#[export] Instance Category_eq_dec : EqDecision CloudErrorCategory.
Proof. solve_decision. Defined.

Definition category_value (c : CloudErrorCategory) : string :=
  match c with
  | Category.RETRYABLE => "retryable" | Category.NOT_FOUND => "not_found"
  | Category.AUTH => "auth" | Category.QUOTA => "quota"
  | Category.INVALID_ID => "invalid_id" | Category.TERMINAL => "terminal"
  | Category.UNKNOWN => "unknown"
  end.

(** The exception classes the code raises, catches or tests with [isinstance].
    [TimeoutException], [ConnectError], [RemoteProtocolError] and
    [HTTPStatusError] are httpx classes; [ClientError] is botocore's;
    [StatusCodeError] is any other exception that has a [status_code];
    [JSONDecodeError] is a subclass of [ValueError]. *)
Inductive exn :=
| KeyError (key : string)
| IntegrityError
| DatabaseError (msg : string)
| CloudError (category : CloudErrorCategory) (code message : string) (retryable : bool)
| ClientError (code message : string)
| HTTPStatusError (status : Z) (msg : string)
| TimeoutException (msg : string)
| ConnectError (msg : string)
| RemoteProtocolError (msg : string)
| OtherHTTPError (msg : string)
| OSError (msg : string)
| StatusCodeError (status : Z) (msg : string)
| ValueError (msg : string)
| JSONDecodeError (msg : string)
| BadZipFile (msg : string)
| AttributeError (msg : string)
| RuntimeError (msg : string)
| OtherException (msg : string).

(** [str(exc)]. *)
Definition exn_str (e : exn) : string :=
  match e with
  | KeyError k => "'" +:+ k +:+ "'"
  | IntegrityError => "integrity error"
  | CloudError c code m _ => category_value c +:+ ":" +:+ code +:+ ": " +:+ m
  | ClientError code m => code +:+ m
  | DatabaseError m | HTTPStatusError _ m | TimeoutException m | ConnectError m
  | RemoteProtocolError m | OtherHTTPError m | OSError m | StatusCodeError _ m
  | ValueError m | JSONDecodeError m | BadZipFile m | AttributeError m | RuntimeError m | OtherException m => m
  end.

(** [Diverged] is a loop that ran out of fuel; no handler catches it. *)
Inductive outcome (A : Type) :=
| Ok (a : A)
| Raise (e : exn)
| Diverged.
Arguments Ok {A} a.
Arguments Raise {A} e.
Arguments Diverged {A}.

Definition is_ok {A} (o : outcome A) : bool :=
  match o with Ok _ => true | _ => false end.

(** ** The world *)

(** Requests to the cloud that create, start, stop or destroy a VM, in the order
    they are made: the observable side of the scheduler. *)
Inductive CloudCall :=
| CallLaunch (worker_id : string)
| CallStart (instance_id : string)
| CallStop (instance_id : string)
| CallTerminate (instance_id : string).

(** The mutable attributes of the [Scheduler] object and of its lock; [lock] is
    [None] for a lock without [verify], else whether the connection is open and
    whether the lock is held. *)
Record Memory := mkMemory {
  last_scale_up : option Z;
  next_cleanup_at : option Z;
  next_cache_sweep_at : option Z;
  next_rotation_check_at : option Z;
  lock : option (bool * bool)
}.

(** The tables, the bucket, the calls made so far, the process's memory, and
    the number of interactions. *)
Record World := mkWorld {
  workers : gmap string Worker;
  tasks : gmap string Task;
  cache_entries : gmap string CacheEntry;
  scaling_events : list ScalingEvent;
  objects : gmap string (list Byte.byte);
  calls : list CloudCall;
  memory : Memory;
  step : nat
}.

Definition bump (w : World) : World :=
  mkWorld (workers w) (tasks w) (cache_entries w) (scaling_events w) (objects w) (calls w) (memory w) (S (step w)).
Definition with_workers (m : gmap string Worker) (w : World) : World :=
  mkWorld m (tasks w) (cache_entries w) (scaling_events w) (objects w) (calls w) (memory w) (step w).
Definition with_tasks (m : gmap string Task) (w : World) : World :=
  mkWorld (workers w) m (cache_entries w) (scaling_events w) (objects w) (calls w) (memory w) (step w).
Definition with_cache (m : gmap string CacheEntry) (w : World) : World :=
  mkWorld (workers w) (tasks w) m (scaling_events w) (objects w) (calls w) (memory w) (step w).
Definition with_events (l : list ScalingEvent) (w : World) : World :=
  mkWorld (workers w) (tasks w) (cache_entries w) l (objects w) (calls w) (memory w) (step w).
Definition with_objects (m : gmap string (list Byte.byte)) (w : World) : World :=
  mkWorld (workers w) (tasks w) (cache_entries w) (scaling_events w) m (calls w) (memory w) (step w).
Definition with_calls (l : list CloudCall) (w : World) : World :=
  mkWorld (workers w) (tasks w) (cache_entries w) (scaling_events w) (objects w) l (memory w) (step w).
Definition with_memory (m : Memory) (w : World) : World :=
  mkWorld (workers w) (tasks w) (cache_entries w) (scaling_events w) (objects w) (calls w) m (step w).

(** What the environment decides. *)
Class Env := {
  env_clock : nat -> Z;
  env_uuid : nat -> string;
  env_shuffle : forall {A : Type}, nat -> list A -> list A;
  env_shuffle_perm : forall {A : Type} n (l : list A), env_shuffle n l ≡ₚ l;
  env_db_fault : nat -> option exn
}.

(** ** The monad *)

Definition M (A : Type) : Type := World -> outcome A * World.

#[export] Instance M_ret : MRet M := fun A a w => (Ok a, w).
#[export] Instance M_bind : MBind M := fun A B f m w =>
  match m w with
  | (Ok a, w') => f a w'
  | (Raise e, w') => (Raise e, w')
  | (Diverged, w') => (Diverged, w')
  end.

Definition raise {A} (e : exn) : M A := fun w => (Raise e, w).
Definition diverge {A} : M A := fun w => (Diverged, w).
Definition gets {A} (f : World -> A) : M A := fun w => (Ok (f w), w).
Definition modify (f : World -> World) : M unit := fun w => (Ok tt, f w).

(** [try: m except Exception as e: h e]; a handler that re-raises the classes
    it does not name gives [except Cls]. *)
Definition try_ {A} (m : M A) (h : exn -> M A) : M A := fun w =>
  match m w with
  | (Raise e, w') => h e w'
  | r => r
  end.

(** [try: m finally: c]; [c] is not run when [m] has not ended. *)
Definition finally_ {A} (m : M A) (c : M unit) : M A :=
  a ← try_ m (fun e => c ;; raise e) ; c ;; mret a.

(** [for x in l: body x]. *)
Fixpoint for_each {A} (l : list A) (body : A -> M unit) : M unit :=
  match l with
  | [] => mret tt
  | x :: l => body x ;; for_each l body
  end.

(** A loop that threads an accumulator, [for x in l: acc = body(acc, x)]. *)
Fixpoint fold_m {A B} (l : list A) (acc : B) (body : B -> A -> M B) : M B :=
  match l with
  | [] => mret acc
  | x :: l => acc ← body acc x ; fold_m l acc body
  end.

(** A loop that appends one value per element, [[body(x) for x in l]]. *)
Fixpoint map_m {A B} (l : list A) (body : A -> M B) : M (list B) :=
  match l with
  | [] => mret []
  | x :: l => y ← body x ; ys ← map_m l body ; mret (y :: ys)
  end.

Section effects.
Context `{Env}.

(** The number of this interaction. *)
Definition tick : M nat := fun w => (Ok (step w), bump w).

(** [util/datetime.py now_utc]. *)
Definition now_utc : M Z := n ← tick ; mret (env_clock n).

(** [uuid.uuid4().hex]. *)
Definition uuid4_hex : M string := n ← tick ; mret (env_uuid n).

(** [asyncio.gather] over [l]: every coroutine runs, in an order the event
    loop chooses; the results are in the order of [l], unless one raised: then
    the first exception is raised. *)
Definition gather {A B} (l : list A) (body : A -> M B) : M (list B) :=
  n ← tick ;
  '(results, exc) ← fold_m (env_shuffle n (zip (seq 0 (length l)) l)) ([], None)
    (fun '(results, exc) '(i, x) =>
       try_ (v ← body x ; mret (results ++ [(i, v)], exc))
            (fun e => mret (results, match exc with None => Some e | Some e0 => Some e0 end))) ;
  match exc with
  | None => mret (merge_sort (fun a b => Nat.leb a.1 b.1) results).*2
  | Some e => raise e
  end.
End effects.

Lemma bind_unfold {A B} (m : M A) (f : A -> M B) w :
  (m ≫= f) w = match m w with
               | (Ok a, w') => f a w'
               | (Raise e, w') => (Raise e, w')
               | (Diverged, w') => (Diverged, w')
               end.
Proof. reflexivity. Qed.
