(* ===== verification/Database.v ===== *)
(** * Database: tables, sessions, queries and commits

    A table is an instance of the class [Table]: where the world keeps it, how
    attributes are assigned, what the column defaults and [onupdate] do, and
    the UNIQUE constraint beside the primary key.  A session is read-only until
    its [commit], which applies a list of writes atomically: when a constraint
    or the database fails, no table changes.  [Put id fs] is the UPDATE that
    flushes the attribute assignments [fs] made on a loaded row; it writes
    nothing when no value changes and stamps [updated_at] otherwise, unless the
    code assigned [updated_at] itself.  A query returns the selected rows by
    its ORDER BY clause, rows that tie in an order the database chooses. *)
From S2P Require Import Prelude Models World.

Inductive row_op (A F : Type) :=
| Add (r : A)
| Put (id : string) (fs : list F)
| Del (id : string).
Arguments Add {A F} r.
Arguments Put {A F} id fs.
Arguments Del {A F} id.

Class Table (A F : Type) := {
  row_dec :: EqDecision A;
  row_key : A -> string;
  assign : list F -> A -> A;
  inserted : Z -> Z -> A -> A;
  needs_stamp : A -> A -> bool;
  stamp_row : Z -> A -> A;
  row_conflict : gmap string A -> string -> A -> bool;
  table : World -> gmap string A;
  set_table : gmap string A -> World -> World;
  table_set m w : table (set_table m w) = m;
  table_of_tables w w' : workers w' = workers w -> tasks w' = tasks w ->
    cache_entries w' = cache_entries w -> table w' = table w
}.

(** [instance_id] is UNIQUE in [workers]. *)
Definition instance_id_taken (m : gmap string Worker) (id : string) (r : Worker) : bool :=
  match w_instance_id r with
  | None => false
  | Some iid =>
      existsb (fun kr => (kr.1 !=? id) && (w_instance_id kr.2 ==? Some iid)) (map_to_list m)
  end.

#[export] Program Instance workers_table : Table Worker WorkerField := {|
  row_key := w_id; assign := set_worker;
  inserted c u := set_worker [W_created_at c; W_updated_at u];
  needs_stamp r r' := w_updated_at r ==? w_updated_at r';
  stamp_row u := set_worker [W_updated_at u];
  row_conflict := instance_id_taken;
  table := workers; set_table := with_workers |}.
Solve Obligations with done.

#[export] Program Instance tasks_table : Table Task TaskField := {|
  row_key := t_task_id; assign := set_task;
  inserted c u := set_task [T_created_at c; T_updated_at u];
  needs_stamp r r' := t_updated_at r ==? t_updated_at r';
  stamp_row u := set_task [T_updated_at u];
  row_conflict _ _ _ := false;
  table := tasks; set_table := with_tasks |}.
Solve Obligations with done.

#[export] Program Instance cache_table : Table CacheEntry CacheField := {|
  row_key := c_cache_key; assign := set_cache;
  inserted c _ := set_cache [C_created_at c];
  needs_stamp _ _ := false;
  stamp_row _ r := r;
  row_conflict _ _ _ := false;
  table := cache_entries; set_table := with_cache |}.
Solve Obligations with done.

Inductive write :=
| OnWorker (op : row_op Worker WorkerField)
| OnTask (op : row_op Task TaskField)
| OnCache (op : row_op CacheEntry CacheField)
| AddEvent (e : ScalingEvent).

Definition guard_db (b : bool) : M unit := if b then mret tt else raise IntegrityError.

Section database.
Context `{Env}.

Definition store_row {A F} `{Table A F} (id : string) (r : A) : M unit :=
  m ← gets table ;
  guard_db (negb (row_conflict m id r)) ;;
  modify (set_table (<[id := r]> m)).

Definition flush_row {A F} `{Table A F} (op : row_op A F) : M unit :=
  match op with
  | Add r =>
      fresh ← gets (fun w => is_none (table w !! row_key r)) ;
      guard_db fresh ;;
      created ← now_utc ; updated ← now_utc ;
      store_row (row_key r) (inserted created updated r)
  | Put id fs =>
      row ← gets (fun w => table w !! id) ;
      match row with
      | None => raise (DatabaseError "stale row")
      | Some r =>
          let r' := assign fs r in
          if r ==? r' then mret tt
          else if needs_stamp r r' then u ← now_utc ; store_row id (stamp_row u r')
          else store_row id r'
      end
  | Del id => modify (fun w => set_table (delete id (table w)) w)
  end.

Definition add_event (e : ScalingEvent) : M unit :=
  created ← now_utc ;
  modify (fun w => with_events (scaling_events w ++
    [mkScalingEvent (e_worker_id e) (e_action e) (e_reason e) (e_triggered_by e)
       (e_requester e) created]) w).

Definition flush (wr : write) : M unit :=
  match wr with
  | OnWorker op => flush_row op
  | OnTask op => flush_row op
  | OnCache op => flush_row op
  | AddEvent e => add_event e
  end.

(** A database that fails raises the exception of the oracle. *)
Definition db_fault : M unit :=
  n ← tick ; match env_db_fault n with Some e => raise e | None => mret tt end.

(** [async with get_db_session() as session]. *)
Definition open_session : M unit := db_fault.

(** The tables as they were; nothing else is undone. *)
Definition rollback (before after : World) : World :=
  mkWorld (workers before) (tasks before) (cache_entries before) (scaling_events before)
    (objects after) (calls after) (memory after) (step after).

Definition commit (ws : list write) : M unit := fun w =>
  match (db_fault ;; for_each ws flush) w with
  | (Ok _, w') => (Ok tt, w')
  | (r, w') => (r, rollback w w')
  end.

(** [session.get(Model, key)]. *)
Definition get_row {A F} `{Table A F} (id : string) : M (option A) := gets (fun w => table w !! id).

(** [select(Model).where(where_).order_by(order)]. *)
Definition select {A F} `{Table A F} (where_ : World -> A -> bool)
    (order : World -> A -> A -> bool) : M (list A) :=
  n ← tick ;
  gets (fun w => merge_sort (order w)
                   (List.filter (where_ w) (env_shuffle n (map_to_list (table w)).*2))).

(** [select(func.count(...)).where(where_)]. *)
Definition select_count {A F} `{Table A F} (where_ : World -> A -> bool) : M Z :=
  l ← select where_ (fun _ => unordered) ; mret (Z.of_nat (length l)).
End database.
