(* ===== verification/Logic.v ===== *)
(** * Logic: reasoning about what an operation does to the world

    [evolves R m]: whatever the outcome, [m] moves the world along the preorder
    [R].  Invariants ([preserves]), frames ("leaves the tasks alone") and
    monotone facts ("terminal rows never change") are all instances; the
    lemmas for the combinators are in the hint database [evolve], and the
    tactic [evolve] applies them. *)
From S2P Require Import Prelude Models World Database.

Lemma omap_cons {A B} (f : A -> option B) x l :
  omap f (x :: l) = match f x with Some y => y :: omap f l | None => omap f l end.
Proof. reflexivity. Qed.

(** Worlds that differ only in the interaction counter. *)
Definition same_data (w w' : World) : Prop :=
  workers w' = workers w /\ tasks w' = tasks w /\ cache_entries w' = cache_entries w /\
  scaling_events w' = scaling_events w /\ objects w' = objects w /\ calls w' = calls w /\
  memory w' = memory w.

#[export] Instance same_data_preorder : PreOrder same_data.
Proof. split; unfold same_data; [by intros w|]. intros a b c; intuition congruence. Qed.

(** A preorder that ignores the interaction counter. *)
Class Benign (R : relation World) : Prop := {
  benign_preorder :: PreOrder R;
  benign : forall w w', same_data w w' -> R w w'
}.

Definition evolves {A} (R : relation World) (m : M A) : Prop :=
  forall w, (m w).1 <> Diverged /\ R w (m w).2.

(** [I] as a preorder: it is not lost. *)
Definition keeps (I : World -> Prop) : relation World := fun w w' => I w -> I w'.
Abbreviation preserves I m := (evolves (keeps I) m).

#[export] Instance keeps_preorder I : PreOrder (keeps I).
Proof. split; unfold keeps; repeat intro; auto. Qed.

#[export] Instance same_data_benign : Benign same_data.
Proof. split; [apply _|done]. Qed.

Create HintDb evolve.

Section evolve.
Context `{Env} (R : relation World) `{!Benign R}.

Lemma evolves_ret {A} (a : A) : evolves R (mret a).
Proof. intros w. cbn. split; [discriminate|reflexivity]. Qed.

Lemma evolves_raise {A} e : evolves R (@raise A e).
Proof. intros w. cbn. split; [discriminate|reflexivity]. Qed.

Lemma evolves_gets {A} (f : World -> A) : evolves R (gets f).
Proof. intros w. cbn. split; [discriminate|reflexivity]. Qed.

Lemma evolves_bind {A B} (m : M A) (f : A -> M B) :
  evolves R m -> (forall a, evolves R (f a)) -> evolves R (m ≫= f).
Proof.
  intros Hm Hf w. rewrite bind_unfold. specialize (Hm w).
  destruct (m w) as [[a|e|] w']; cbn in *; destruct Hm as [Hn Hm]; [|by split|done].
  destruct (Hf a w') as [Hd Ha]. split; [done|]. by etrans.
Qed.

Lemma evolves_try {A} (m : M A) (h : exn -> M A) :
  evolves R m -> (forall e, evolves R (h e)) -> evolves R (try_ m h).
Proof.
  intros Hm Hh w. unfold try_. specialize (Hm w).
  destruct (m w) as [[a|e|] w']; cbn in *; destruct Hm as [Hn Hm]; [by split| |done].
  destruct (Hh e w') as [Hd Ha]. split; [done|]. by etrans.
Qed.

Lemma evolves_for_each {A} (l : list A) (body : A -> M unit) :
  (forall x, x ∈ l -> evolves R (body x)) -> evolves R (for_each l body).
Proof.
  induction l as [|x l IH]; intros Hb; cbn; [apply evolves_ret|].
  apply evolves_bind; [apply Hb; left|]. intros _. apply IH. intros y Hy. apply Hb. by right.
Qed.

Lemma evolves_fold_m {A B} (l : list A) (acc : B) (body : B -> A -> M B) :
  (forall b x, x ∈ l -> evolves R (body b x)) -> evolves R (fold_m l acc body).
Proof.
  revert acc; induction l as [|x l IH]; intros acc Hb; cbn; [apply evolves_ret|].
  apply evolves_bind; [apply Hb; left|].
  intros b. apply IH. intros b' y Hy. apply Hb. by right.
Qed.

Lemma evolves_map_m {A B} (l : list A) (body : A -> M B) :
  (forall x, x ∈ l -> evolves R (body x)) -> evolves R (map_m l body).
Proof.
  induction l as [|x l IH]; intros Hb; cbn; [apply evolves_ret|].
  apply evolves_bind; [apply Hb; left|]. intros y.
  apply evolves_bind; [apply IH; intros z Hz; apply Hb; by right|intros ys; apply evolves_ret].
Qed.

Lemma evolves_same_data {A} (m : M A) : evolves same_data m -> evolves R m.
Proof. intros Hm w. destruct (Hm w). split; [done|]. by apply benign. Qed.

Lemma evolves_tick : evolves R tick.
Proof. intros w. split; [done|]. apply benign. by repeat split. Qed.

Lemma evolves_now_utc : evolves R now_utc.
Proof. apply evolves_bind; [apply evolves_tick|intros; apply evolves_ret]. Qed.

Lemma evolves_uuid4_hex : evolves R uuid4_hex.
Proof. apply evolves_bind; [apply evolves_tick|intros; apply evolves_ret]. Qed.

Lemma evolves_open_session : evolves R open_session.
Proof.
  apply evolves_bind; [apply evolves_tick|]. intros n.
  destruct (env_db_fault n); [apply evolves_raise|apply evolves_ret].
Qed.

Lemma evolves_get_row {A F} `{Table A F} id : evolves R (get_row (A:=A) id).
Proof. apply evolves_gets. Qed.

Lemma evolves_select {A F} `{Table A F} where_ order : evolves R (select (A:=A) where_ order).
Proof. apply evolves_bind; [apply evolves_tick|intros; apply evolves_gets]. Qed.

Lemma evolves_select_count {A F} `{Table A F} where_ : evolves R (select_count (A:=A) where_).
Proof. apply evolves_bind; [apply evolves_select|intros; apply evolves_ret]. Qed.

Lemma evolves_gather {A B} (l : list A) (body : A -> M B) :
  (forall x, x ∈ l -> evolves R (body x)) -> evolves R (gather l body).
Proof.
  intros Hb. apply evolves_bind; [apply evolves_tick|]. intros n.
  apply evolves_bind.
  - apply evolves_fold_m. intros [results exc] [i x] Hx.
    rewrite env_shuffle_perm in Hx. apply elem_of_zip_r in Hx.
    apply evolves_try; [|intros; apply evolves_ret].
    apply evolves_bind; [by apply Hb|intros; apply evolves_ret].
  - intros [results [e|]]; [apply evolves_raise|apply evolves_ret].
Qed.
End evolve.

#[export] Hint Resolve evolves_ret evolves_raise evolves_gets
  evolves_tick evolves_now_utc evolves_uuid4_hex evolves_open_session evolves_get_row
  evolves_select evolves_select_count : evolve.

(** One structural step; [evolve] repeats it and leaves the commits. *)
Ltac evolve_step :=
  match goal with
  | |- forall _, _ => intro
  | |- evolves _ (for_each _ _) => apply evolves_for_each; [try apply _|intros]
  | |- evolves _ (fold_m _ _ _) => apply evolves_fold_m; [try apply _|intros]
  | |- evolves _ (map_m _ _) => apply evolves_map_m; [try apply _|intros]
  | |- evolves _ (gather _ _) => apply evolves_gather; [try apply _|intros]
  | |- evolves _ (try_ _ _) => apply evolves_try; [try apply _| |intros]
  | |- evolves _ (mbind _ _) => apply evolves_bind; [try apply _| |intros]
  | |- evolves _ (match ?x with _ => _ end) => destruct x
  | |- evolves _ ((match ?x with _ => _ end) _) => destruct x
  | |- evolves _ (let _ := _ in _) => cbv zeta
  | |- evolves _ _ => solve [eauto with evolve typeclass_instances]
  end.
Ltac evolve := repeat evolve_step.

(** The same, with the value of a pure first operation substituted in the rest:
    for commits whose assignments are computed step by step. *)
Lemma evolves_bind_assoc R {A B C} (m : M A) (g : A -> M B) (f : B -> M C) :
  evolves R (m ≫= (fun a => g a ≫= f)) -> evolves R ((m ≫= g) ≫= f).
Proof.
  intros Hm w. specialize (Hm w). revert Hm. unfold mbind, M_bind.
  by destruct (m w) as [[a|e|] w'].
Qed.

Ltac evolve_deep := repeat first
  [ lazymatch goal with
    | |- evolves ?R (mbind ?f (mret ?a)) => change (evolves R (f a)); cbv beta
    | |- evolves _ (mbind _ (mbind _ _)) => apply evolves_bind_assoc
    | |- evolves _ (mbind _ (match ?x with _ => _ end)) => destruct x
    end
  | evolve_step ].

(** ** Rows of a table *)

(** Every row, present or absent, is related to what is under its key after. *)
Definition rows_evolve {A F} `{Table A F} (P : string -> option A -> option A -> Prop) : relation World :=
  fun w w' => forall k, P k (table w !! k) (table w' !! k).

Section rows.
Context {A F} `{Table A F} (P : string -> option A -> option A -> Prop) `{!forall k, PreOrder (P k)}.

#[export] Instance rows_evolve_preorder : PreOrder (rows_evolve P).
Proof.
  split; [by intros w k|]. intros a b c Hab Hbc k. etrans; [apply Hab|apply Hbc].
Qed.
End rows.

#[export] Instance rows_evolve_benign {A F} `{Table A F} P `{!forall k, PreOrder (P k)} :
  Benign (rows_evolve (A:=A) P).
Proof.
  split; [apply _|]. intros w w' (? & ? & ? & _) k.
  by rewrite (table_of_tables w w') by done.
Qed.

(** The table is left alone. *)
Definition same_table (A : Type) {F} `{Table A F} : relation World :=
  fun w w' => table (A:=A) w' = table w.

#[export] Instance same_table_benign {A F} `{Table A F} : Benign (same_table A).
Proof.
  split.
  - split; unfold same_table; [done|]. intros a b c E1 E2. by rewrite E2.
  - intros w w' (? & ? & ? & _). by apply table_of_tables.
Qed.

Lemma same_table_rows {A F} `{Table A F} P `{!forall k, PreOrder (P k)} {B} (m : M B) :
  evolves (same_table A) m -> evolves (rows_evolve (A:=A) P) m.
Proof. intros Hm w. destruct (Hm w) as [? Ht]. split; [done|]. intros k. by rewrite Ht. Qed.

(** What a [Put] leaves in the table: the assigned row, stamped or not. *)
Definition flushed {A F} `{Table A F} (fs : list F) (r r' : A) : Prop :=
  r' = assign fs r \/ exists u, r' = stamp_row u (assign fs r).

(** The row operation takes rows along [P], given the table it starts from. *)
Definition op_ok {A F} `{Table A F} (P : string -> option A -> option A -> Prop)
    (m : gmap string A) (op : row_op A F) : Prop :=
  match op with
  | Add r => m !! row_key r = None -> forall c u, P (row_key r) None (Some (inserted c u r))
  | Put id fs => forall r r', m !! id = Some r -> flushed fs r r' -> P id (Some r) (Some r')
  | Del id => forall r, m !! id = Some r -> P id (Some r) None
  end.

Definition op_key {A F} `{Table A F} (op : row_op A F) : string :=
  match op with Add r => row_key r | Put id _ => id | Del id => id end.

(** The table's own operations among the writes of a commit. *)
Class Writes (A F : Type) `{Table A F} := {
  op_of : write -> option (row_op A F);
  op_of_some `{Env} wr op : op_of wr = Some op -> flush wr = flush_row op;
  op_of_none `{Env} wr : op_of wr = None -> evolves (same_table A) (flush wr)
}.

Section flush.
Context `{Env} {A F} `{Table A F}.

Lemma evolves_store_row R `{!Benign R} id (r : A) :
  (forall w, R w (set_table (<[id := r]> (table w)) w)) -> evolves R (store_row id r).
Proof.
  intros HR w. unfold store_row. rewrite bind_unfold. cbn.
  rewrite bind_unfold. destruct (row_conflict _ _ _); cbn; (split; [done|]); [reflexivity|apply HR].
Qed.

(** An operation that only writes the table, one row at a time. *)
Lemma evolves_flush_row R `{!Benign R} (op : row_op A F) :
  (forall m w, R w (set_table m w)) -> evolves R (flush_row op).
Proof.
  intros HR. destruct op as [r|id fs|id]; cbn [flush_row]; evolve.
  all: try (apply evolves_store_row; [done|intros; apply HR]).
  - unfold guard_db. evolve.
  - intros w. split; [done|apply HR].
Qed.

Lemma flush_row_run P `{!forall k, PreOrder (P k)} (op : row_op A F) w :
  op_ok P (table w) op ->
  P (op_key op) (table w !! op_key op) (table (flush_row op w).2 !! op_key op) /\
  (forall k, k <> op_key op -> table (flush_row op w).2 !! k = table w !! k).
Proof.
  assert (Hbump : forall w0, table (bump w0) = table w0)
    by (intros w0; by apply table_of_tables).
  assert (Hstore : forall id r w0, (forall w1, table w1 = table w0 -> P id (table w0 !! id) (Some r)) ->
    P id (table w0 !! id) (table (store_row id r w0).2 !! id) /\
    (forall k, k <> id -> table (store_row id r w0).2 !! k = table w0 !! k)).
  { intros id r w0 HP. unfold store_row. rewrite bind_unfold. cbn. rewrite bind_unfold.
    destruct (row_conflict _ _ _); cbn; [by split|]. rewrite table_set. split.
    - rewrite lookup_insert_eq. by apply (HP w0).
    - intros k Hk. by rewrite lookup_insert_ne by done. }
  destruct op as [r|id fs|id]; cbn [flush_row op_ok op_key]; intros Hok.
  - rewrite bind_unfold. cbn. rewrite bind_unfold.
    destruct (table w !! row_key r) eqn:E; cbn; [rewrite E; by split|].
    specialize (Hstore (row_key r) (inserted (env_clock (step w)) (env_clock (S (step w))) r)
                  (bump (bump w))).
    rewrite !Hbump in Hstore. rewrite E in Hstore. rewrite !bind_unfold. cbn.
    apply Hstore. auto.
  - rewrite bind_unfold. cbn. destruct (table w !! id) as [r|] eqn:E; cbn; [|rewrite E; by split].
    case_bool_decide; cbn; [rewrite E; by split|].
    destruct (needs_stamp _ _).
    + specialize (Hstore id (stamp_row (env_clock (step w)) (assign fs r)) (bump w)).
      rewrite !Hbump, E in Hstore. rewrite bind_unfold. cbn.
      apply Hstore. intros _ _. apply (Hok r); [done|right; eauto].
    + specialize (Hstore id (assign fs r) w). rewrite E in Hstore.
      apply Hstore. intros _ _. apply (Hok r); [done|by left].
  - cbn. rewrite table_set. split.
    + rewrite lookup_delete_eq. destruct (table w !! id) eqn:E; [by apply Hok|done].
    + intros k Hk. by rewrite lookup_delete_ne by done.
Qed.
End flush.

Lemma op_ok_ext {A F} `{Table A F} P (m m' : gmap string A) op :
  m !! op_key op = m' !! op_key op -> op_ok P m op -> op_ok P m' op.
Proof. destruct op; cbn; intros E Hok; rewrite <- E; done. Qed.

Lemma evolves_add_event `{Env} R `{!Benign R} e :
  (forall l w, R w (with_events l w)) -> evolves R (add_event e).
Proof. intros HR. unfold add_event. evolve. intros w. split; [done|apply HR]. Qed.

(** ** Commits touch neither the bucket nor the process, and return or raise *)

Definition same_objects : relation World := fun w w' => objects w' = objects w.


#[export] Instance same_objects_benign : Benign same_objects.
Proof.
  split; [split; unfold same_objects; [done|intros a b c; congruence]|].
  by intros w w' (_ & _ & _ & _ & E & _).
Qed.

(** The calls made and the process's memory. *)
Definition same_process : relation World := fun w w' => calls w' = calls w /\ memory w' = memory w.

#[export] Instance same_process_benign : Benign same_process.
Proof.
  split; [split; unfold same_process; [done|intros a b c; intuition congruence]|].
  by intros w w' (_ & _ & _ & _ & _ & ? & ?).
Qed.

(** A preorder that no write to a table and no rollback disturbs. *)
Lemma evolves_commit_any `{Env} R `{!Benign R} ws :
  (forall m w, R w (with_workers m w)) -> (forall m w, R w (with_tasks m w)) ->
  (forall m w, R w (with_cache m w)) -> (forall l w, R w (with_events l w)) ->
  (forall w w', R w w' -> R w (rollback w w')) -> evolves R (commit ws).
Proof.
  intros H1 H2 H3 H4 Hr w.
  assert (Hall : evolves R (db_fault ;; for_each ws flush)).
  { apply evolves_bind; [apply _|apply evolves_open_session, _|].
    intros _. apply evolves_for_each; [apply _|]. intros [op|op|op|e] _; cbn [flush].
    4: by apply evolves_add_event. all: apply evolves_flush_row; [apply _|]; assumption. }
  destruct (Hall w) as [Hd Ho]. unfold commit.
  destruct ((db_fault ;; for_each ws flush) w) as [[[]|e|] w1]; cbn in *; [by split| |done].
  split; [done|by apply Hr].
Qed.

Lemma evolves_commit_objects `{Env} ws : evolves same_objects (commit ws).
Proof. by apply evolves_commit_any; [apply _|..]. Qed.

Lemma evolves_commit_process `{Env} ws : evolves same_process (commit ws).
Proof. by apply evolves_commit_any; [apply _|..]. Qed.

Lemma commit_returns `{Env} ws w : (commit ws w).1 <> Diverged.
Proof. apply evolves_commit_objects. Qed.

Section commit.
Context `{Env} {A F} `{Writes A F} (P : string -> option A -> option A -> Prop) `{!forall k, PreOrder (P k)}.

Lemma flush_all_rows ws w0 w :
  Forall (op_ok P (table w0)) (omap op_of ws) ->
  NoDup (op_key <$> omap op_of ws) ->
  (forall op, op ∈ omap op_of ws -> table w !! op_key op = table w0 !! op_key op) ->
  rows_evolve P w (for_each ws flush w).2.
Proof.
  revert w; induction ws as [|wr ws IH]; intros w Hok Hnd Heq; [done|].
  cbn [for_each]. rewrite bind_unfold. rewrite omap_cons in *.
  destruct (op_of wr) as [op|] eqn:E.
  - apply Forall_cons_1 in Hok as [Hop Hok]. cbn in Hnd; apply NoDup_cons in Hnd as [Hni Hnd].
    rewrite (op_of_some _ _ E).
    assert (Hop' : op_ok P (table w) op).
    { eapply op_ok_ext; [|exact Hop]. symmetry. apply Heq. left. }
    destruct (flush_row_run P op w Hop') as [Hk Ho].
    assert (Hstep : rows_evolve P w (flush_row op w).2).
    { intros k. destruct (decide (k = op_key op)) as [->|Hne]; [done|].
      by rewrite Ho. }
    destruct (flush_row op w) as [[[]|e|] w1]; cbn [fst snd] in *; [|exact Hstep..].
    etrans; [exact Hstep|]. apply IH; [done..|].
    intros op' Hin. rewrite Ho; [apply Heq; by right|].
    intros Heqk. apply Hni. rewrite <- Heqk. apply list_elem_of_fmap; by exists op'.
  - destruct (op_of_none _ E w) as [_ Hframe]. unfold same_table in Hframe.
    destruct (flush wr w) as [[[]|e|] w1]; cbn in *.
    2,3: intros k; by rewrite Hframe.
    intros k. rewrite <- Hframe. revert k.
    apply IH; [done..|]. intros op Hin. rewrite Hframe. by apply Heq.
Qed.

(** The rule for commits: check the operations on the table at hand. *)
Lemma commit_rows ws w :
  Forall (op_ok P (table w)) (omap op_of ws) ->
  NoDup (op_key <$> omap op_of ws) ->
  rows_evolve P w (commit ws w).2.
Proof.
  intros Hok Hnd. unfold commit.
  assert (Hdb : evolves same_data db_fault) by apply evolves_open_session, _.
  rewrite bind_unfold. destruct (Hdb w) as [_ Hdb'].
  destruct (db_fault w) as [[[]|e|] w1] eqn:E; cbn in Hdb'.
  2,3: cbn; intros k; by rewrite (table_of_tables w (rollback w w1)).
  assert (Ht : table w1 = table w) by (destruct Hdb' as (? & ? & ? & _); by apply table_of_tables).
  pose proof (flush_all_rows ws w w1 Hok Hnd ltac:(intros; by rewrite Ht)) as Hf.
  destruct (for_each ws flush w1) as [[[]|e|] w2]; cbn in *.
  2,3: intros k; by rewrite (table_of_tables w (rollback w w2)).
  intros k. rewrite <- Ht. apply Hf.
Qed.

Lemma evolves_commit_rows ws :
  (forall m, Forall (op_ok P m) (omap op_of ws)) ->
  NoDup (op_key <$> omap op_of ws) ->
  evolves (rows_evolve P) (commit ws).
Proof. intros Hok Hnd w. split; [apply commit_returns|by apply commit_rows]. Qed.

(** Operations that follow [P] whatever the table, in any number. *)
Lemma evolves_commit_all ws :
  (forall op m, op ∈ omap op_of ws -> op_ok P m op) -> evolves (rows_evolve P) (commit ws).
Proof.
  intros Hok w.
  assert (Hall : evolves (rows_evolve P) (db_fault ;; for_each ws flush)).
  { apply evolves_bind; [apply _|apply evolves_open_session, _|].
    intros _. apply evolves_for_each; [apply _|]. intros wr Hwr.
    destruct (op_of wr) as [op|] eqn:E.
    - rewrite (op_of_some _ _ E). intros w1.
      assert (Hop : op_ok P (table w1) op).
      { apply Hok. apply list_elem_of_omap. eauto. }
      split.
      + assert (Benign (fun _ _ => True)) by (split; [by split|done]).
        by apply (evolves_flush_row (fun _ _ => True) op).
      + destruct (flush_row_run P op w1 Hop) as [Hk Ho]. intros k.
        destruct (decide (k = op_key op)) as [->|Hne]; [done|]. by rewrite Ho.
    - apply same_table_rows; [done|]. by apply op_of_none. }
  split; [apply commit_returns|]. destruct (Hall w) as [_ Ho]. unfold commit.
  destruct ((db_fault ;; for_each ws flush) w) as [[[]|e|] w1]; cbn in *; [done| |].
  all: intros k; by rewrite (table_of_tables w (rollback w w1)).
Qed.
End commit.

(** ** The three tables *)

Ltac solve_frame :=
  intros ? [op|op|op|e] Hop; try discriminate Hop; cbn [flush];
  first [ apply evolves_flush_row; [apply _|intros; reflexivity]
        | apply evolves_add_event; [apply _|intros; reflexivity] ].

Definition workers_op (wr : write) : option (row_op Worker WorkerField) :=
  match wr with OnWorker op => Some op | _ => None end.
#[export] Instance workers_writes : Writes Worker WorkerField.
Proof. refine {| op_of := workers_op |}; [by intros ? [] ? [= ->]|solve_frame]. Defined.

Definition tasks_op (wr : write) : option (row_op Task TaskField) :=
  match wr with OnTask op => Some op | _ => None end.
#[export] Instance tasks_writes : Writes Task TaskField.
Proof. refine {| op_of := tasks_op |}; [by intros ? [] ? [= ->]|solve_frame]. Defined.

Definition cache_op (wr : write) : option (row_op CacheEntry CacheField) :=
  match wr with OnCache op => Some op | _ => None end.
#[export] Instance cache_writes : Writes CacheEntry CacheField.
Proof. refine {| op_of := cache_op |}; [by intros ? [] ? [= ->]|solve_frame]. Defined.

Section frames.
Context `{Env}.

(** A commit without operations on a table leaves the table alone. *)
Lemma evolves_commit_frame {A F} `{Writes A F} ws :
  omap op_of ws = [] -> evolves (same_table A) (commit ws).
Proof.
  intros E w. split; [apply commit_returns|]. apply map_eq. intros k. symmetry.
  pose proof (commit_rows (A:=A) (fun _ => eq) ws w) as Hc. rewrite E in Hc.
  specialize (Hc ltac:(constructor) ltac:(constructor)). apply Hc.
Qed.

(** ** What a successful flush did *)

Lemma flush_row_ok {A F} `{Table A F} (op : row_op A F) w u w' :
  flush_row op w = (Ok u, w') ->
  match op with
  | Add r => table w !! row_key r = None /\
             exists c s, table w' = <[row_key r := inserted c s r]> (table w)
  | Put id fs => exists r r', table w !! id = Some r /\ flushed fs r r' /\
             table w' = <[id := r']> (table w)
  | Del id => table w' = delete id (table w)
  end.
Proof.
  assert (Hbump : forall w0, table (bump w0) = table (A:=A) w0)
    by (intros w0; by apply table_of_tables).
  assert (Hstore : forall id (r : A) w0 u0 w1, store_row id r w0 = (Ok u0, w1) ->
    table w1 = <[id := r]> (table w0)).
  { intros id r w0 u0 w1. unfold store_row. rewrite bind_unfold. cbn. rewrite bind_unfold.
    destruct (row_conflict _ _ _); cbn; intros [= _ <-]. by rewrite table_set. }
  destruct op as [r|id fs|id]; cbn [flush_row].
  - rewrite bind_unfold. cbn. rewrite bind_unfold.
    destruct (table w !! row_key r); cbn; [done|]. rewrite !bind_unfold. cbn.
    intros Hs%Hstore. rewrite !Hbump in Hs. eauto.
  - rewrite bind_unfold. cbn. destruct (table w !! id) as [r|] eqn:E; cbn; [|done].
    case_bool_decide as Heq; cbn.
    { intros [= _ <-]. exists r, r. split; [done|]. split; [left; by rewrite <- Heq|].
      by rewrite insert_id. }
    destruct (needs_stamp _ _); [rewrite bind_unfold; cbn|]; intros Hs%Hstore.
    + rewrite Hbump in Hs. exists r, (stamp_row (env_clock (step w)) (assign fs r)).
      split; [done|]. split; [right; eauto|done].
    + exists r, (assign fs r). split; [done|]. split; [by left|done].
  - intros [= _ <-]. by rewrite table_set.
Qed.
End frames.

#[export] Hint Resolve evolves_commit_objects evolves_commit_process : evolve.

(** ** Successful runs

    [mrun H] takes a hypothesis [m w = (Ok a, w')] apart along the structure of
    [m]: one hypothesis per bind, environment steps resolved. *)
Lemma bind_ok {A B} (m : M A) (f : A -> M B) w b w' :
  (m ≫= f) w = (Ok b, w') -> exists a w1, m w = (Ok a, w1) /\ f a w1 = (Ok b, w').
Proof. rewrite bind_unfold. destruct (m w) as [[a|e|] w1]; [|done..]. eauto. Qed.

Lemma ret_ok {A} (a b : A) w w' : (mret a : M A) w = (Ok b, w') -> b = a /\ w' = w.
Proof. by intros [= -> ->]. Qed.

Section runs.
Context `{Env}.

Lemma now_utc_ok w t w' : now_utc w = (Ok t, w') -> t = env_clock (step w) /\ w' = bump w.
Proof. by intros [= <- <-]. Qed.

Lemma open_session_ok w u w' : open_session w = (Ok u, w') -> w' = bump w.
Proof.
  unfold open_session, db_fault. rewrite bind_unfold. cbn.
  by destruct (env_db_fault _); cbn; intros [= _ <-].
Qed.

Lemma get_row_ok {A F} `{Table A F} id w o w' :
  get_row (A:=A) id w = (Ok o, w') -> o = table w !! id /\ w' = w.
Proof. by intros [= <- <-]. Qed.

Lemma commit_ok ws w u w' :
  commit ws w = (Ok u, w') -> for_each ws flush (bump w) = (Ok tt, w').
Proof.
  unfold commit, db_fault. rewrite !bind_unfold. cbn.
  destruct (env_db_fault (step w)); cbn; [done|].
  by destruct (for_each ws flush (bump w)) as [[[]|e|] w1]; intros [= _ <-].
Qed.

Lemma table_bump {A F} `{Table A F} w : table (A:=A) (bump w) = table w.
Proof. by apply table_of_tables. Qed.

(** One write. *)
Lemma commit_put_ok {A F} `{Writes A F} wr id fs w u w' :
  op_of wr = Some (Put id fs) -> commit [wr] w = (Ok u, w') ->
  exists r r', table w !! id = Some r /\ flushed fs r r' /\ table w' = <[id := r']> (table w).
Proof.
  intros E Hc%commit_ok. cbn in Hc. apply bind_ok in Hc as ([] & w1 & Hf & [_ ->]%ret_ok).
  rewrite (op_of_some _ _ E) in Hf. apply flush_row_ok in Hf. by rewrite table_bump in Hf.
Qed.

Lemma commit_add_ok {A F} `{Writes A F} wr r w u w' :
  op_of wr = Some (Add r) -> commit [wr] w = (Ok u, w') ->
  table w !! row_key r = None /\
  exists c s, table w' = <[row_key r := inserted c s r]> (table w).
Proof.
  intros E Hc%commit_ok. cbn in Hc. apply bind_ok in Hc as ([] & w1 & Hf & [_ ->]%ret_ok).
  rewrite (op_of_some _ _ E) in Hf. apply flush_row_ok in Hf. by rewrite table_bump in Hf.
Qed.

(** A query never fails; its rows are the rows of the table that satisfy the
    WHERE clause, the first one minimal for the ORDER BY clause. *)
Lemma select_run {A F} `{Table A F} P o w : exists l,
  select P o w = (Ok l, bump w) /\
  (forall r, r ∈ l <-> P (bump w) r = true /\ exists k, table w !! k = Some r) /\
  (TotalOrder (o (bump w)) -> forall r, head l = Some r -> forall r', r' ∈ l -> o (bump w) r r' = true).
Proof.
  eexists. split; [reflexivity|].
  assert (Hin : forall r : A, r ∈ merge_sort (o (bump w)) (List.filter (P (bump w))
              (env_shuffle (step w) (map_to_list (table (bump w))).*2)) <->
            P (bump w) r = true /\ exists k, table w !! k = Some r).
  { intros r. rewrite merge_sort_Permutation, list_elem_of_In, filter_In, <- list_elem_of_In,
      env_shuffle_perm, table_bump, list_elem_of_fmap. split.
    - intros [([k r'] & -> & Hk%elem_of_map_to_list) HP]. cbn. eauto.
    - intros [HP [k Hk]]. split; [|done]. exists (k, r). by rewrite elem_of_map_to_list. }
  split; [exact Hin|]. intros Ho r Hr r' Hr'.
  eapply sorted_head; [exact Ho|exact Hr|].
  by rewrite (merge_sort_Permutation (o (bump w))) in Hr'.
Qed.

Lemma select_ok {A F} `{Table A F} P o w l w' : select P o w = (Ok l, w') ->
  w' = bump w /\ (forall r : A, r ∈ l <-> P w' r = true /\ exists k, table w !! k = Some r).
Proof. intros E. destruct (select_run P o w) as (l' & E' & Hin & _). rewrite E' in E. by injection E as <- <-. Qed.

Lemma select_perm {A F} `{Table A F} P o w l w' : select P o w = (Ok l, w') ->
  w' = bump w /\ l ≡ₚ List.filter (P w') (map_to_list (table (A:=A) w)).*2.
Proof.
  intros E. cbn -[merge_sort] in E. injection E as <- <-. split; [done|].
  rewrite merge_sort_Permutation, env_shuffle_perm. by rewrite table_bump.
Qed.

(** The number of rows of the table that satisfy [P]. *)
Definition count_rows {A F} `{Table A F} (P : A -> bool) (w : World) : Z :=
  Z.of_nat (length (List.filter P (map_to_list (table w)).*2)).

Lemma select_count_ok {A F} `{Table A F} P w n w' : select_count (A:=A) P w = (Ok n, w') ->
  w' = bump w /\ n = count_rows (P w') w.
Proof.
  unfold select_count. intros E. apply bind_ok in E as (l & w1 & Hs & [-> ->]%ret_ok).
  apply select_perm in Hs as [-> Hp]. split; [done|]. unfold count_rows. by rewrite Hp.
Qed.

Lemma select_head_ok {A F} `{Table A F} P o w l w' r : TotalOrder (o w') ->
  select P o w = (Ok l, w') -> head l = Some r ->
  P w' r = true /\ (exists k, table w !! k = Some r) /\
  forall k r', table w !! k = Some r' -> P w' r' = true -> o w' r r' = true.
Proof.
  intros Ho E Hh. destruct (select_run P o w) as (l' & E' & Hin & Hmin).
  rewrite E' in E. injection E as <- <-.
  assert (Hr : r ∈ l') by (destruct l'; [done|]; injection Hh as ->; left).
  apply Hin in Hr as [HP Hk]. split; [done|]. split; [done|].
  intros k r' Hk' HP'. apply (Hmin Ho r Hh). apply Hin. eauto.
Qed.

(** Rows under their own key: the keys of a query's result are distinct. *)
Definition keyed (A : Type) {F} `{Table A F} (w : World) : Prop :=
  forall k r, table (A:=A) w !! k = Some r -> row_key r = k.

Lemma select_keys {A F} `{Table A F} P o w l w' :
  keyed A w -> select P o w = (Ok l, w') -> NoDup (row_key <$> l).
Proof.
  intros Hk [= <- _]. rewrite (merge_sort_Permutation (o (bump w))).
  apply NoDup_fmap_filter. rewrite env_shuffle_perm, table_bump.
  assert (E : row_key <$> (map_to_list (table (A:=A) w)).*2 = (map_to_list (table w)).*1).
  { rewrite <- list_fmap_compose. apply list_fmap_ext. intros i [k r] Hi.
    apply list_elem_of_lookup_2, elem_of_map_to_list in Hi. by apply Hk. }
  rewrite E. apply NoDup_fst_map_to_list.
Qed.
End runs.

Ltac mrun1 H :=
  lazymatch type of H with
  | mret _ _ = (Ok _, _) => apply ret_ok in H; destruct H as [? ?]; subst
  | now_utc _ = (Ok _, _) => apply now_utc_ok in H; destruct H as [? ?]; subst
  | open_session _ = (Ok _, _) => apply open_session_ok in H; subst
  | get_row _ _ = (Ok _, _) => apply get_row_ok in H; destruct H as [? ?]; subst
  | mbind _ _ _ = (Ok _, _) =>
      let a := fresh "a" in let w1 := fresh "w" in let H1 := fresh "Hm" in
      apply bind_ok in H; destruct H as (a & w1 & H1 & H); try mrun1 H1
  end.
Ltac mrun H := repeat mrun1 H.
