(* ===== verification/Hoare.v ===== *)
(** * Hoare: total-correctness reasoning about runs

    [wp m Q X w]: from the world [w] the operation [m] returns a value with [Q]
    or raises an exception with [X]; it does not run out of fuel.  A commit is
    described by its [effects], write after write, on the three tables.
    [maintains I m] is an invariant of a whole operation. *)
From S2P Require Import Prelude Models World Database Logic.

Definition wp {A} (m : M A) (Q : A -> World -> Prop) (X : exn -> World -> Prop) (w : World) : Prop :=
  match m w with
  | (Ok a, w') => Q a w'
  | (Raise e, w') => X e w'
  | (Diverged, _) => False
  end.

Definition maintains (I : World -> Prop) {A} (m : M A) : Prop :=
  forall w, I w -> wp m (fun _ => I) (fun _ => I) w.

(** A predicate on the data of a world, not on the interaction counter. *)
Class Stable (I : World -> Prop) : Prop := stable : forall w w', same_data w w' -> I w -> I w'.

Lemma stable_bump I `{!Stable I} w : I w -> I (bump w).
Proof. apply stable. by repeat split. Qed.

(** ** What a commit wrote *)

Definition row_effect {A F} `{Table A F} (op : row_op A F) (m m' : gmap string A) : Prop :=
  match op with
  | Add r => m !! row_key r = None /\ exists c s, m' = <[row_key r := inserted c s r]> m
  | Put id fs => exists r r', m !! id = Some r /\ flushed fs r r' /\ m' = <[id := r']> m
  | Del id => m' = delete id m
  end.

Definition write_effect (wr : write) (w w' : World) : Prop :=
  match wr with
  | OnWorker op => row_effect op (workers w) (workers w') /\ tasks w' = tasks w /\
                   cache_entries w' = cache_entries w
  | OnTask op => row_effect op (tasks w) (tasks w') /\ workers w' = workers w /\
                 cache_entries w' = cache_entries w
  | OnCache op => row_effect op (cache_entries w) (cache_entries w') /\ workers w' = workers w /\
                  tasks w' = tasks w
  | AddEvent _ => workers w' = workers w /\ tasks w' = tasks w /\
                  cache_entries w' = cache_entries w
  end.

Fixpoint effects (ws : list write) (w w' : World) : Prop :=
  match ws with
  | [] => workers w' = workers w /\ tasks w' = tasks w /\ cache_entries w' = cache_entries w
  | wr :: ws => exists w1, write_effect wr w w1 /\ effects ws w1 w'
  end.

(** The tables are as they were. *)
Definition same_tables (w w' : World) : Prop :=
  workers w' = workers w /\ tasks w' = tasks w /\ cache_entries w' = cache_entries w.

Section commits.
Context `{Env}.

Lemma flush_effect wr w u w' : flush wr w = (Ok u, w') -> write_effect wr w w'.
Proof.
  assert (Hf : forall A F (T : Table A F) R (B : Benign R), (forall m w0, R w0 (set_table (A:=A) m w0)) ->
    forall (op : row_op A F), flush_row op w = (Ok u, w') -> R w w').
  { intros A F T R B HR op E. pose proof (evolves_flush_row R op HR w) as [_ He]. by rewrite E in He. }
  destruct wr as [op|op|op|e]; cbn [flush write_effect]; intros E.
  1-3: split; [by apply flush_row_ok in E|].
  - split; [exact (Hf Worker WorkerField _ (same_table Task) _ (fun _ _ => eq_refl) op E)|exact (Hf Worker WorkerField _ (same_table CacheEntry) _ (fun _ _ => eq_refl) op E)].
  - split; [exact (Hf Task TaskField _ (same_table Worker) _ (fun _ _ => eq_refl) op E)|exact (Hf Task TaskField _ (same_table CacheEntry) _ (fun _ _ => eq_refl) op E)].
  - split; [exact (Hf CacheEntry CacheField _ (same_table Worker) _ (fun _ _ => eq_refl) op E)|exact (Hf CacheEntry CacheField _ (same_table Task) _ (fun _ _ => eq_refl) op E)].
  - pose proof (evolves_add_event (same_table Worker) e ltac:(done) w) as [_ H1].
    pose proof (evolves_add_event (same_table Task) e ltac:(done) w) as [_ H2].
    pose proof (evolves_add_event (same_table CacheEntry) e ltac:(done) w) as [_ H3].
    rewrite E in H1, H2, H3. done.
Qed.

Lemma flush_effects ws w u w' : for_each ws flush w = (Ok u, w') -> effects ws w w'.
Proof.
  revert w; induction ws as [|wr ws IH]; intros w; cbn [for_each effects].
  - by intros [= _ <-].
  - intros E. apply bind_ok in E as ([] & w1 & H1 & H2). exists w1.
    split; [by eapply flush_effect|by apply IH].
Qed.

Lemma commit_effects ws w u w' : commit ws w = (Ok u, w') -> effects ws w w' /\ objects w' = objects w.
Proof.
  intros E. split.
  - apply commit_ok in E as Hf. apply flush_effects in Hf.
    destruct ws; [exact Hf|]. destruct Hf as (w1 & Hw & He). exists w1. split; [|done].
    revert Hw. by destruct w0 as [[]|[]|[]|].
  - destruct (evolves_commit_objects ws w) as [_ Ho]. by rewrite E in Ho.
Qed.

Lemma commit_raise ws w e w' : commit ws w = (Raise e, w') -> same_tables w w' /\ objects w' = objects w.
Proof.
  intros E. split.
  - unfold commit in E. destruct ((db_fault ;; for_each ws flush) w) as [[[]|e'|] w1]; [done| |done].
    by injection E as <- <-.
  - destruct (evolves_commit_objects ws w) as [_ Ho]. by rewrite E in Ho.
Qed.
End commits.

(** ** Rules *)

Section rules.
Context `{Env}.
Implicit Types (X : exn -> World -> Prop) (w : World).

Lemma wp_mono {A} (m : M A) (Q Q' : A -> World -> Prop) X X' w :
  wp m Q X w -> (forall a w', Q a w' -> Q' a w') -> (forall e w', X e w' -> X' e w') -> wp m Q' X' w.
Proof. unfold wp. destruct (m w) as [[a|e|] w']; auto. Qed.

Lemma wp_bind {A B} (m : M A) (f : A -> M B) Q X w :
  wp m (fun a => wp (f a) Q X) X w -> wp (m ≫= f) Q X w.
Proof. unfold wp. rewrite bind_unfold. by destruct (m w) as [[a|e|] w']. Qed.

Lemma wp_try {A} (m : M A) h (Q : A -> World -> Prop) X w :
  wp m Q (fun e => wp (h e) Q X) w -> wp (try_ m h) Q X w.
Proof. unfold wp, try_. by destruct (m w) as [[a|e|] w']. Qed.

Lemma wp_lift {A} (o : outcome A) (m : M A) (Q : A -> World -> Prop) X w :
  m w = (o, w) -> match o with Ok a => Q a w | Raise e => X e w | Diverged => False end ->
  wp m Q X w.
Proof. unfold wp. by intros ->. Qed.

Lemma wp_now_utc (Q : Z -> World -> Prop) X w : (forall t, Q t (bump w)) -> wp now_utc Q X w.
Proof. intros HQ. apply HQ. Qed.

Lemma wp_uuid4_hex (Q : string -> World -> Prop) X w : (forall t, Q t (bump w)) -> wp uuid4_hex Q X w.
Proof. intros HQ. apply HQ. Qed.

Lemma wp_open_session (Q : unit -> World -> Prop) X w :
  Q tt (bump w) -> (forall e, X e (bump w)) -> wp open_session Q X w.
Proof.
  intros HQ HX. unfold wp, open_session, db_fault. rewrite bind_unfold. cbn.
  by destruct (env_db_fault _); cbn.
Qed.

Lemma wp_select {A F} `{Table A F} P o (Q : list A -> World -> Prop) X w :
  (forall l, l ≡ₚ List.filter (P (bump w)) (map_to_list (table w)).*2 ->
     (TotalOrder (o (bump w)) -> forall r, head l = Some r -> forall r', r' ∈ l -> o (bump w) r r' = true) ->
     Q l (bump w)) ->
  wp (select P o) Q X w.
Proof.
  intros HQ. unfold wp. destruct (select_run P o w) as (l & E & Hin & Hmin). rewrite E.
  apply HQ; [|done]. by apply select_perm in E as [_ E].
Qed.

Lemma wp_commit ws (Q : unit -> World -> Prop) X w :
  (forall w', effects ws w w' -> objects w' = objects w -> Q tt w') ->
  (forall e w', same_tables w w' -> objects w' = objects w -> X e w') -> wp (commit ws) Q X w.
Proof.
  intros HQ HX. unfold wp. destruct (commit ws w) as [[[]|e|] w'] eqn:E.
  - apply commit_effects in E as [??]. auto.
  - apply commit_raise in E as [??]. auto.
  - destruct (commit_returns ws w). by rewrite E.
Qed.

(** The rows of one table follow [P] when every operation on it does. *)
Lemma wp_commit_rows {A F} `{Writes A F} P `{!forall k, PreOrder (P k)} ws
    (Q : unit -> World -> Prop) X w :
  Forall (op_ok P (table (A:=A) w)) (omap op_of ws) -> NoDup (op_key <$> omap op_of ws) ->
  (forall w', rows_evolve (A:=A) P w w' -> effects ws w w' -> objects w' = objects w -> Q tt w') ->
  (forall e w', same_tables w w' -> objects w' = objects w -> X e w') -> wp (commit ws) Q X w.
Proof.
  intros Hok Hnd HQ HX. pose proof (commit_rows P ws w Hok Hnd) as Hr. unfold wp.
  destruct (commit ws w) as [[[]|e|] w'] eqn:E.
  - apply commit_effects in E as [??]. auto.
  - apply commit_raise in E as [??]. auto.
  - destruct (commit_returns ws w). by rewrite E.
Qed.

Lemma wp_evolves {A} R (m : M A) (Q : A -> World -> Prop) X w :
  evolves R m -> (forall a w', R w w' -> Q a w') -> (forall e w', R w w' -> X e w') -> wp m Q X w.
Proof.
  intros Hm HQ HX. unfold wp. destruct (Hm w) as [Hd HR].
  destruct (m w) as [[a|e|] w']; cbn in *; auto.
Qed.

Lemma evolves_wp {A} R (m : M A) :
  (forall w, wp m (fun _ => R w) (fun _ => R w) w) -> evolves R m.
Proof.
  intros Hm w. specialize (Hm w). unfold wp in Hm.
  destruct (m w) as [[a|e|] w']; cbn; [by split..|done].
Qed.

(** Loops and [gather] keep what their bodies keep. *)
Lemma wp_for_each_inv {A} (J : World -> Prop) X (l : list A) body w :
  (forall x w', x ∈ l -> J w' -> wp (body x) (fun _ => J) X w') -> J w ->
  wp (for_each l body) (fun _ => J) X w.
Proof.
  revert w; induction l as [|x l IH]; intros w Hb HJ; cbn [for_each]; [exact HJ|].
  apply wp_bind. eapply wp_mono; [apply Hb; [left|done]| |done].
  intros [] w1 HJ1. apply IH; [|done]. intros y w' Hy. apply Hb. by right.
Qed.

Lemma wp_fold_m_inv {A B} (J : B -> World -> Prop) X (l : list A) acc (body : B -> A -> M B) w :
  (forall b x w', x ∈ l -> J b w' -> wp (body b x) J X w') -> J acc w ->
  wp (fold_m l acc body) J X w.
Proof.
  revert acc w; induction l as [|x l IH]; intros acc w Hb HJ; cbn [fold_m]; [exact HJ|].
  apply wp_bind. eapply wp_mono; [apply Hb; [left|done]| |done].
  intros b w1 HJ1. apply IH; [|done]. intros b' y w' Hy. apply Hb. by right.
Qed.

Lemma wp_map_m {A B} (J : World -> Prop) X (R : A -> B -> Prop) (l : list A) (body : A -> M B) w :
  (forall x w', x ∈ l -> J w' -> wp (body x) (fun b w1 => J w1 /\ R x b) X w') -> J w ->
  wp (map_m l body) (fun bs w1 => J w1 /\ Forall2 R l bs) X w.
Proof.
  revert w; induction l as [|x l IH]; intros w Hb HJ; cbn [map_m]; [by split|].
  apply wp_bind. eapply wp_mono; [apply Hb; [left|done]| |done].
  intros b w1 [HJ1 HR]. apply wp_bind. eapply wp_mono; [apply IH; [|done]| |done].
  - intros y w' Hy. apply Hb. by right.
  - intros bs w2 [HJ2 HRs]. split; [done|]. by constructor.
Qed.

Lemma wp_gather_inv {A B} (J : World -> Prop) `{!Stable J} (l : list A) (body : A -> M B) w :
  (forall x w', x ∈ l -> J w' -> wp (body x) (fun _ => J) (fun _ => J) w') -> J w ->
  wp (gather l body) (fun _ => J) (fun _ => J) w.
Proof.
  intros Hb HJ. unfold gather. apply wp_bind. apply wp_bind.
  apply wp_mono with (Q := fun _ => J) (X := fun _ => J); [| |done].
  - apply (wp_fold_m_inv (fun _ => J)); [|by apply stable_bump].
    intros [results exc] [i x] w' Hx HJ'. rewrite env_shuffle_perm in Hx. apply elem_of_zip_r in Hx.
    apply wp_try, wp_bind. eapply wp_mono; [by apply Hb|intros a w1 H1; exact H1|intros e w1 H1; exact H1].
  - intros [results [e|]] w' HJ'; exact HJ'.
Qed.
End rules.

Lemma evolves_maintains I {A} (m : M A) : evolves (keeps I) m -> maintains I m.
Proof.
  intros Hm w HI. unfold wp. destruct (Hm w) as [Hd Hk].
  destruct (m w) as [[a|e|] w']; cbn in *; auto.
Qed.

(** ** Invariants of all rows of a table *)

Definition all_rows {A F} `{Table A F} (G : string -> A -> Prop) (w : World) : Prop :=
  forall k r, table w !! k = Some r -> G k r.

#[export] Instance all_rows_stable {A F} `{Table A F} G : Stable (all_rows (A:=A) G).
Proof. intros w w' (? & ? & ? & _) HG k r. rewrite (table_of_tables w w') by done. apply HG. Qed.

#[export] Instance stable_and I J `{!Stable I, !Stable J} : Stable (fun w => I w /\ J w).
Proof. intros w w' E [? ?]. split; by eapply stable. Qed.

(** A row is good after if it was good before. *)
Definition good_rows {A} (G : string -> A -> Prop) (k : string) (o o' : option A) : Prop :=
  (forall r, o = Some r -> G k r) -> forall r', o' = Some r' -> G k r'.

#[export] Instance good_rows_preorder {A} (G : string -> A -> Prop) k : PreOrder (good_rows G k).
Proof. split; unfold good_rows; [auto|]. intros a b c H1 H2 H3. by apply H2, H1. Qed.

Lemma all_rows_evolve {A F} `{Table A F} G w w' :
  rows_evolve (A:=A) (good_rows G) w w' -> all_rows (A:=A) G w -> all_rows (A:=A) G w'.
Proof. intros He HG k. apply He. apply HG. Qed.

Lemma all_rows_tables {A F} `{Table A F} G w w' :
  same_tables w w' -> all_rows (A:=A) G w -> all_rows (A:=A) G w'.
Proof. intros (? & ? & ?) HG k. rewrite (table_of_tables w w') by done. apply HG. Qed.

(** ** Stepping through an operation *)

Ltac tables := cbn [table workers_table tasks_table cache_table row_key bump workers tasks
  cache_entries objects scaling_events] in *.

(** [wp_go] stops at case analyses; [wp_steps] performs them. *)
Ltac wp_go1 :=
  lazymatch goal with
  | |- wp (mbind _ _) _ _ _ => apply wp_bind
  | |- wp (mret ?a) ?Q ?X ?w => change (Q a w); cbv beta
  | |- wp (raise ?e) ?Q ?X ?w => change (X e w); cbv beta
  | |- wp (gets ?f) ?Q ?X ?w => change (Q (f w) w); cbv beta
  | |- wp (get_row ?id) ?Q ?X ?w => change (Q (table w !! id) w); cbv beta; tables
  | |- wp now_utc _ _ _ => apply wp_now_utc; intros ?
  | |- wp uuid4_hex _ _ _ => apply wp_uuid4_hex; intros ?
  | |- wp open_session _ _ _ => apply wp_open_session; [|intros ?]
  | |- wp (let _ := _ in _) _ _ _ => cbv zeta
  end.
Ltac wp_go := repeat wp_go1.
Ltac wp_step :=
  first [ wp_go1 | lazymatch goal with
  | |- wp (if ?b then _ else _) _ _ _ => destruct b eqn:?
  | |- wp (match ?o with Some _ => _ | None => _ end) _ _ _ => destruct o eqn:?
  end ].
Ltac wp_steps := repeat wp_step.

Section row_commits.
Context `{Env} {A F} `{Writes A F} (G : string -> A -> Prop).
Implicit Types (w : World).

(** Rows may be stamped by the [onupdate] clock without harm. *)
Class StampOk := stamp_ok : forall k u r, G k r -> G k (stamp_row u r).
Context `{!StampOk}.

Lemma flushed_good k fs (r r' : A) : flushed fs r r' -> G k (assign fs r) -> G k r'.
Proof. intros [->|[u ->]] HG; [done|by apply stamp_ok]. Qed.

Lemma wp_put_good wr id fs w :
  op_of wr = Some (Put id fs) -> all_rows G w ->
  (forall r, table w !! id = Some r -> G id r -> G id (assign fs r)) ->
  wp (commit [wr]) (fun _ => all_rows G) (fun _ => all_rows G) w.
Proof.
  intros E HG Hput. apply (wp_commit_rows (good_rows G)).
  - cbn. rewrite E. repeat constructor. cbn. intros r r' Hr Hf Hold ? [= <-].
    eapply flushed_good; [exact Hf|]. apply Hput; auto.
  - cbn. rewrite E. apply NoDup_singleton.
  - intros w' He _ _. by eapply all_rows_evolve.
  - intros e w' Ht _. by eapply all_rows_tables.
Qed.

(** One UPDATE for each row a query returned. *)
Lemma wp_puts_good (on : row_op A F -> write) (fields : A -> list F -> Prop) rows writes w :
  (forall op, op_of (on op) = Some op) -> all_rows G w ->
  NoDup (row_key <$> rows) -> (forall r, r ∈ rows -> table w !! row_key r = Some r) ->
  Forall2 (fun r wr => exists fs, wr = on (Put (row_key r) fs) /\ fields r fs) rows writes ->
  (forall r fs, r ∈ rows -> G (row_key r) r -> fields r fs -> G (row_key r) (assign fs r)) ->
  wp (commit writes) (fun _ => all_rows G) (fun _ => all_rows G) w.
Proof.
  intros Hon HG Hnd Hin Hws Hput.
  assert (Hkeys : op_key <$> omap op_of writes = row_key <$> rows).
  { clear Hnd Hin Hput. induction Hws as [|r wr rows writes (fs & -> & _) _ IH]; [done|].
    rewrite omap_cons, Hon. cbn. by rewrite IH. }
  apply (wp_commit_rows (good_rows G)).
  - clear Hkeys Hnd. induction Hws as [|r wr rows writes (fs & -> & Hfs) _ IH]; [constructor|].
    rewrite omap_cons, Hon. constructor.
    + cbn. rewrite (Hin r) by left. intros ? r' [= <-] Hf Hold ? [= <-].
      eapply flushed_good; [exact Hf|]. apply Hput; [left| |done].
      apply Hold. done.
    + apply IH; intros; [apply Hin|apply Hput]; (by right) || done.
  - by rewrite Hkeys.
  - intros w' He _ _. by eapply all_rows_evolve.
  - intros e w' Ht _. by eapply all_rows_tables.
Qed.

Lemma wp_add_good wr r w :
  op_of wr = Some (Add r) -> all_rows G w ->
  (forall c u, G (row_key r) (inserted c u r)) ->
  wp (commit [wr]) (fun _ => all_rows G) (fun _ => all_rows G) w.
Proof.
  intros E HG Hadd. apply (wp_commit_rows (good_rows G)).
  - cbn. rewrite E. repeat constructor. cbn. intros _ c u _ ? [= <-]. apply Hadd.
  - cbn. rewrite E. apply NoDup_singleton.
  - intros w' He _ _. by eapply all_rows_evolve.
  - intros e w' Ht _. by eapply all_rows_tables.
Qed.
End row_commits.

(** The rows of a query, when every row is stored under its key. *)
Lemma select_rows {A F} `{Table A F} P (l : list A) w :
  keyed A w -> l ≡ₚ List.filter P (map_to_list (table (A:=A) w)).*2 ->
  NoDup (row_key <$> l) /\
  (forall r, r ∈ l -> P r = true /\ table w !! row_key r = Some r).
Proof.
  intros Hk Hl. split.
  - rewrite Hl. apply NoDup_fmap_filter.
    assert (E : row_key <$> (map_to_list (table (A:=A) w)).*2 = (map_to_list (table w)).*1).
    { rewrite <- list_fmap_compose. apply list_fmap_ext. intros i [k r] Hi.
      apply list_elem_of_lookup_2, elem_of_map_to_list in Hi. by apply Hk. }
    rewrite E. apply NoDup_fst_map_to_list.
  - intros r Hr. rewrite Hl in Hr. apply list_elem_of_In, filter_In in Hr as [Hr HP].
    split; [done|]. apply list_elem_of_In, list_elem_of_fmap in Hr as ([k r'] & -> & Hkr).
    apply elem_of_map_to_list in Hkr. cbn. by rewrite (Hk k r' Hkr).
Qed.

(** Prove the current operation for the invariant [I], then go on with it. *)
Ltac wp_inv I :=
  apply wp_mono with (Q := fun _ => I) (X := fun _ => I);
  [ | let a := fresh "a" in let w1 := fresh "w1" in let HI := fresh "HI" in intros a w1 HI
    | let e := fresh "e" in let w1 := fresh "w1" in let HI := fresh "HI" in intros e w1 HI;
      try exact HI ].

(** ** Counting rows *)

Definition count_map {A} (P : A -> bool) (m : gmap string A) : nat :=
  length (List.filter P (map_to_list m).*2).

Lemma count_map_fresh {A} (P : A -> bool) m k (r : A) : m !! k = None ->
  count_map P (<[k := r]> m) = (count_map P m + (if P r then 1 else 0))%nat.
Proof.
  intros Hk. unfold count_map. rewrite map_to_list_insert by done. cbn.
  destruct (P r); cbn; lia.
Qed.

(** An UPDATE changes a count by what it does to its row. *)
Lemma count_map_insert {A} (P : A -> bool) m k (r r' : A) : m !! k = Some r ->
  (count_map P (<[k := r']> m) + (if P r then 1 else 0)
   = count_map P m + (if P r' then 1 else 0))%nat.
Proof.
  intros Hk. rewrite <- (insert_id m k r Hk) at 2. rewrite <- !(insert_delete_eq m k).
  rewrite !count_map_fresh by apply lookup_delete_eq. lia.
Qed.

Lemma count_map_size {A} (P : A -> bool) (m : gmap string A) :
  count_map P m = size (filter (fun kr : string * A => P kr.2 = true) m).
Proof.
  induction m as [|k r m Hk IH] using map_ind; [done|].
  rewrite count_map_fresh, IH by done. destruct (P r) eqn:E.
  - rewrite map_filter_insert_True by done. rewrite map_size_insert_None; [lia|].
    by apply map_lookup_filter_None_2; left.
  - rewrite map_filter_insert_False by (cbn; congruence). rewrite delete_id by done. lia.
Qed.

(** No row joins those counted. *)
Lemma count_map_mono {A} (P : A -> bool) (m m' : gmap string A) :
  (forall k r', m' !! k = Some r' -> P r' = true -> exists r, m !! k = Some r /\ P r = true) ->
  (count_map P m' <= count_map P m)%nat.
Proof.
  intros HP. rewrite !count_map_size, <- !size_dom. apply subseteq_size.
  intros k. rewrite !elem_of_dom. intros [r' [Hr' HPr']%map_lookup_filter_Some].
  destruct (HP k r' Hr' HPr') as (r & Hr & HPr). exists r. by apply map_lookup_filter_Some.
Qed.

(** One row written. *)
Lemma all_rows_insert {A F} `{Table A F} G k (r : A) w w' :
  all_rows (A:=A) G w -> table w' = <[k := r]> (table w) -> G k r -> all_rows (A:=A) G w'.
Proof.
  intros HG E Hr k' r' Hk'. rewrite E in Hk'.
  destruct (decide (k' = k)) as [->|Hne].
  - rewrite lookup_insert_eq in Hk'. by injection Hk' as <-.
  - rewrite lookup_insert_ne in Hk' by done. by apply HG.
Qed.

Lemma all_rows_same {A F} `{Table A F} G w w' :
  all_rows (A:=A) G w -> table (A:=A) w' = table w -> all_rows (A:=A) G w'.
Proof. intros HG E k r Hk. rewrite E in Hk. by apply HG. Qed.

Lemma evolves_and {A} R1 R2 (m : M A) :
  evolves R1 m -> evolves R2 m -> evolves (fun w w' => R1 w w' /\ R2 w w') m.
Proof. intros H1 H2 w. destruct (H1 w) as [Hd ?], (H2 w) as [_ ?]. by repeat split. Qed.

(** [try: m except Exception: a] never raises. *)
Lemma wp_swallow {A} R (m : M A) (a : A) w : evolves R m ->
  wp (try_ m (fun _ => mret a)) (fun _ w' => R w w') (fun _ _ => False) w.
Proof.
  intros Hm. unfold wp, try_. destruct (Hm w) as [Hd HR].
  by destruct (m w) as [[b|e|] w'].
Qed.
