(* ===== verification/Storage.v ===== *)
(** * Storage: the object store interface and [tasks/storage.py]

    [ObjectStore] is the part of [CloudStorageProvider] (cloud/base.py) that
    tasks and cache use, as a class: the operations, and what callers rely on.
    An operation never touches the database and has the obvious effect when
    it succeeds; when it raises, the effect may or may not have happened (a
    request that timed out).  The theorems of the
    task and cache components are proved against this interface; the S3 store
    implements it. *)
From S2P Require Import Prelude Models World Database Logic.

(** Only the bucket and the interaction counter may differ. *)
Definition same_db : relation World := fun w w' =>
  workers w' = workers w /\ tasks w' = tasks w /\ cache_entries w' = cache_entries w /\
  scaling_events w' = scaling_events w /\ calls w' = calls w /\ memory w' = memory w.

#[export] Instance same_db_benign : Benign same_db.
Proof.
  split.
  - split; unfold same_db; [by intros w|]. intros a b c; intuition congruence.
  - unfold same_data, same_db. intuition.
Qed.

Class ObjectStore := {
  store_put : string -> list Byte.byte -> M Z;
  store_get : string -> M (list Byte.byte);
  store_delete : string -> M bool;
  store_copy : string -> string -> M unit;

  store_put_db key data : evolves same_db (store_put key data);
  store_get_data key : evolves same_data (store_get key);
  store_delete_db key : evolves same_db (store_delete key);
  store_copy_db src dst : evolves same_db (store_copy src dst);

  store_put_spec key data w :
    match store_put key data w with
    | (Ok n, w') => objects w' = <[key := data]> (objects w) /\ n = Z.of_nat (length data)
    | (Raise _, w') => objects w' = objects w \/ objects w' = <[key := data]> (objects w)
    | (Diverged, _) => False
    end;
  store_get_spec key w :
    match store_get key w with
    | (Ok data, _) => objects w !! key = Some data
    | (Raise _, _) => True
    | (Diverged, _) => False
    end;
  store_delete_spec key w :
    match store_delete key w with
    | (Ok _, w') => objects w' = delete key (objects w)
    | (Raise _, w') => objects w' = objects w \/ objects w' = delete key (objects w)
    | (Diverged, _) => False
    end;
  store_copy_spec src dst w :
    match store_copy src dst w with
    | (Ok _, w') => exists data, objects w !! src = Some data /\
                                 objects w' = <[dst := data]> (objects w)
    | (Raise _, w') => objects w' = objects w \/
        exists data, objects w !! src = Some data /\ objects w' = <[dst := data]> (objects w)
    | (Diverged, _) => False
    end
}.

Definition PAYLOAD_PREFIX := "payloads".
Definition RESULT_PREFIX := "results".
Definition CACHE_PREFIX := "cache".
Definition RESULT_FORMAT_ZIP := "zip".
Definition RESULT_FORMAT_MISTRAL_JSON := "mistral_json".

Definition payload_key (task_id : string) : string :=
  PAYLOAD_PREFIX +:+ "/" +:+ task_id +:+ ".bin".

Definition result_key (task_id result_format : string) : string :=
  if result_format ==? RESULT_FORMAT_MISTRAL_JSON
  then RESULT_PREFIX +:+ "/" +:+ task_id +:+ ".json"
  else RESULT_PREFIX +:+ "/" +:+ task_id +:+ ".zip".

Definition cache_object_key (cache_key : string) (generation : option string) : string :=
  let base := CACHE_PREFIX +:+ "/" +:+ cache_key in
  match generation with
  | Some g => if g ==? "" then base else base +:+ "/" +:+ g
  | None => base
  end.

Definition task_status_url (task_id : string) : string := "/tasks/" +:+ task_id.
Definition task_result_url (task_id : string) : string := "/tasks/" +:+ task_id +:+ "/result".

(** Best-effort delete: [False] instead of an exception, no-op without a key. *)
Definition safe_delete `{ObjectStore} (key : option string) : M bool :=
  match key with
  | None => mret true
  | Some k =>
      if k ==? "" then mret true
      else try_ (_ ← store_delete k ; mret true) (fun _ => mret false)
  end.

(** Keys of different kinds never collide, and within a kind the key
    determines the task and the format. *)
Lemma payload_key_inj a b : payload_key a = payload_key b -> a = b.
Proof.
  unfold payload_key. intros E%string_app_inj_l%string_app_inj_l. by apply string_app_inj_r in E.
Qed.

Lemma suffix_zip_json a b : a +:+ ".zip" = b +:+ ".json" -> False.
Proof.
  assert (Hlast : forall s t, String.get (String.length s) (s +:+ t) = String.get 0 t).
  { induction s as [|x s IH]; intros t; [done|]. rewrite string_app_cons. apply IH. }
  intros E. change ".zip" with (".zi" +:+ "p") in E. change ".json" with (".jso" +:+ "n") in E.
  rewrite !string_app_assoc in E.
  pose proof (Hlast (a +:+ ".zi") "p") as H1. pose proof (Hlast (b +:+ ".jso") "n") as H2.
  assert (Hlen : String.length (a +:+ ".zi") = String.length (b +:+ ".jso")).
  { apply (f_equal String.length) in E. repeat rewrite string_length_app in E. rewrite !string_length_app.
    change (String.length ".zi") with 3%nat in *. change (String.length ".jso") with 4%nat in *.
    change (String.length "p") with 1%nat in *. change (String.length "n") with 1%nat in *. lia. }
  rewrite E, Hlen, H2 in H1. discriminate.
Qed.

Section safe_delete.
Context `{ObjectStore}.

Lemma safe_delete_db key : evolves same_db (safe_delete key).
Proof.
  destruct key as [k|]; cbn; [|evolve]. destruct (k ==? ""); evolve. apply store_delete_db.
Qed.

(** [True] only when nothing is left under the key. *)
Lemma safe_delete_spec key w :
  match safe_delete key w with
  | (Ok true, w') => objects w' = match key with
                                  | Some k => if k ==? "" then objects w else delete k (objects w)
                                  | None => objects w
                                  end
  | (Ok false, w') => objects w' = objects w \/
                      exists k, key = Some k /\ objects w' = delete k (objects w)
  | _ => False
  end.
Proof.
  destruct key as [k|]; cbn; [|done]. destruct (k ==? "") eqn:E; cbn; [done|].
  unfold try_. rewrite bind_unfold. pose proof (store_delete_spec k w) as Hs.
  destruct (store_delete k w) as [[?|?|] ?]; cbn; [done| |done].
  destruct Hs as [|]; [by left|right; by exists k].
Qed.
End safe_delete.
#[export] Hint Resolve safe_delete_db : evolve.

(** ** Frames *)

(** Neither a task nor a worker changes. *)
Definition same_rows : relation World := fun w w' => tasks w' = tasks w /\ workers w' = workers w.

#[export] Instance same_rows_benign : Benign same_rows.
Proof.
  split; [split; unfold same_rows; [done|intros a b c; intuition congruence]|].
  by intros w w' (? & ? & _).
Qed.

Lemma evolves_db_rows {A} (m : M A) : evolves same_db m -> evolves same_rows m.
Proof. intros Hm w. destruct (Hm w) as [Hd (? & ? & _)]. by split. Qed.

Lemma evolves_commit_same_rows `{Env} ws :
  omap (op_of (A:=Task)) ws = [] -> omap (op_of (A:=Worker)) ws = [] -> evolves same_rows (commit ws).
Proof.
  intros Et Ew w. destruct (evolves_commit_frame (A:=Task) ws Et w) as [Hd H1].
  destruct (evolves_commit_frame (A:=Worker) ws Ew w) as [_ H2]. by split.
Qed.

(** Result objects stay as they are: the cache owns other keys. *)
Definition same_results : relation World := fun w w' =>
  forall id fmt, objects w' !! result_key id fmt = objects w !! result_key id fmt.

#[export] Instance same_results_benign : Benign same_results.
Proof.
  split; [split; unfold same_results; [done|]|].
  - intros a b c H1 H2 id fmt. by rewrite H2.
  - intros w w' (_ & _ & _ & _ & E & _) id fmt. by rewrite E.
Qed.

Lemma evolves_objects_results {A} (m : M A) : evolves same_objects m -> evolves same_results m.
Proof. intros Hm w. destruct (Hm w) as [Hd E]. split; [done|]. intros id fmt. by rewrite E. Qed.

Lemma cache_not_result k g id fmt : cache_object_key k g <> result_key id fmt.
Proof.
  unfold cache_object_key, result_key. cbv zeta.
  destruct g as [g|]; [destruct (g ==? "")|]; destruct (fmt ==? _); discriminate.
Qed.

Section object_frames.
Context `{ObjectStore}.

Lemma store_copy_results src k g : evolves same_results (store_copy src (cache_object_key k g)).
Proof.
  intros w. destruct (store_copy_db src (cache_object_key k g) w) as [Hd _]. split; [done|].
  pose proof (store_copy_spec src (cache_object_key k g) w) as Hs. intros id fmt.
  destruct (store_copy _ _ w) as [[a|e|] w']; cbn in *; [| |done].
  2: destruct Hs as [->|Hs]; [done|].
  all: destruct Hs as (data & _ & ->); rewrite lookup_insert_ne; [done|apply cache_not_result].
Qed.

Lemma safe_delete_results k g : evolves same_results (safe_delete (Some (cache_object_key k g))).
Proof.
  intros w. destruct (safe_delete_db (Some (cache_object_key k g)) w) as [Hd _]. split; [done|].
  pose proof (safe_delete_spec (Some (cache_object_key k g)) w) as Hs. intros id fmt.
  destruct (safe_delete _ w) as [[[]|e|] w']; cbn in *; try done.
  - rewrite Hs. destruct (_ ==? ""); [done|]. rewrite lookup_delete_ne; [done|apply cache_not_result].
  - destruct Hs as [->|(k0 & [= <-] & ->)]; [done|]. rewrite lookup_delete_ne; [done|apply cache_not_result].
Qed.
End object_frames.
