(* ===== verification/Status.v ===== *)
(** * Status: [tasks/status.py] and [tasks/errors.py]

    Task statuses, the sets of statuses the rest of the program tests, the
    normalisation of a worker's status report, and the retry classification of
    dispatch errors. *)
From S2P Require Import Prelude Models World.

Definition TASK_QUEUED := "queued".
Definition TASK_DISPATCHING := "dispatching".
Definition TASK_PROCESSING := "processing".
Definition TASK_STORING_RESULT := "storing_result".
Definition TASK_COMPLETED := "completed".
Definition TASK_FAILED := "failed".
Definition TASK_EXPIRED := "expired".

Definition TASK_STATUSES_TERMINAL := [TASK_COMPLETED; TASK_FAILED; TASK_EXPIRED].
Definition TASK_STATUSES_AUTOSCALE_DEMAND := [TASK_QUEUED; TASK_DISPATCHING; TASK_PROCESSING].
Definition TASK_STATUSES_COMPUTE_CAPACITY := [TASK_DISPATCHING; TASK_PROCESSING].
Definition TASK_STATUSES_DRAIN_BLOCKERS := [TASK_DISPATCHING; TASK_PROCESSING; TASK_STORING_RESULT].

Definition UPSTREAM_ACCEPTED_NONTERMINAL := ["queued"; "pending"; "processing"].

(** [_UPSTREAM_TO_INTERNAL], keys in the dict's order. *)
Definition UPSTREAM_TO_INTERNAL : list (string * string) :=
  [ ("completed", TASK_COMPLETED); ("failed", TASK_FAILED); ("expired", TASK_EXPIRED);
    (TASK_DISPATCHING, TASK_DISPATCHING); (TASK_PROCESSING, TASK_PROCESSING);
    (TASK_STORING_RESULT, TASK_STORING_RESULT) ].

(** [d.get(k)] on a dict literal. *)
Fixpoint assoc {A} (k : string) (l : list (string * A)) : option A :=
  match l with
  | [] => None
  | (k', v) :: l => if k ==? k' then Some v else assoc k l
  end.

Definition normalize_upstream_status (status : option string) (current : string) : string :=
  match status with
  | None => current
  | Some s =>
      let mapped := if s ∈? UPSTREAM_ACCEPTED_NONTERMINAL then Some TASK_PROCESSING
                    else assoc s UPSTREAM_TO_INTERNAL in
      match mapped with
      | None => current
      | Some mapped =>
          if (current ∈? [TASK_PROCESSING; TASK_DISPATCHING; TASK_STORING_RESULT])
             && (mapped ∈? [TASK_QUEUED; TASK_DISPATCHING])
          then current else mapped
      end
  end.

(** The fields of a worker's status payload that the code reads; [None] is an
    absent key, [Some None] a JSON null. *)
Record upstream_payload := mkPayload {
  p_status : option (option string);
  p_backend : option string;
  p_file_names : option (list string);
  p_error : option (option string)
}.

(** [updates]: the assignments [setattr] makes on the row. *)
Definition apply_upstream_payload (row_status : string) (payload : upstream_payload)
  : list TaskField :=
  match p_status payload with
  | Some s => [T_status (normalize_upstream_status s row_status)] | None => [] end
  ++ match p_backend payload with Some b => [T_backend b] | None => [] end
  ++ match p_file_names payload with Some l => [T_file_names l] | None => [] end
  ++ match p_error payload with Some e => [T_error e] | None => [] end.

(** ** Error classification *)

Inductive ErrorClass := INFRA | CONTENT.

#[export] Instance ErrorClass_eq_dec : EqDecision ErrorClass.
Proof. solve_decision. Defined.

Definition class_of_status (status : Z) : ErrorClass :=
  if (400 <=? status) && (status <? 500) && negb (status =? 429) then CONTENT else INFRA.

(** The [isinstance] ladder; a [DatabaseError] and the like have no
    [status_code] attribute. *)
Definition classify_error (exc : exn) : ErrorClass :=
  match exc with
  | HTTPStatusError status _ => class_of_status status
  | TimeoutException _ | ConnectError _ | RemoteProtocolError _ | OSError _ => INFRA
  | StatusCodeError status _ => class_of_status status
  | _ => INFRA
  end.

Definition should_retry (exc : exn) : bool := classify_error exc ==? INFRA.

(** ** Lemmas *)

Definition TASK_STATUSES := [TASK_QUEUED; TASK_DISPATCHING; TASK_PROCESSING;
  TASK_STORING_RESULT; TASK_COMPLETED; TASK_FAILED; TASK_EXPIRED].

(** The statuses a report can move a task to. *)
Definition UPSTREAM_TARGETS := [TASK_PROCESSING; TASK_DISPATCHING; TASK_STORING_RESULT;
  TASK_COMPLETED; TASK_FAILED; TASK_EXPIRED].

Lemma assoc_elem {A} k (l : list (string * A)) v : assoc k l = Some v -> (k, v) ∈ l.
Proof.
  induction l as [|[k' v'] l IH]; cbn; [done|].
  case_bool_decide; [intros [= ->]; subst; left | right; auto].
Qed.

(** Every report yields the current status or one of the mapped ones. *)
Lemma normalize_cases s cur :
  normalize_upstream_status s cur = cur \/ normalize_upstream_status s cur ∈ UPSTREAM_TARGETS.
Proof.
  unfold normalize_upstream_status. destruct s as [s|]; [|by left].
  destruct (s ∈? UPSTREAM_ACCEPTED_NONTERMINAL).
  - cbn. destruct (_ && _); [by left | right; by vm_compute; left].
  - destruct (assoc s UPSTREAM_TO_INTERNAL) as [m|] eqn:E; [|by left].
    destruct (_ && _); [by left|right].
    apply assoc_elem in E. unfold UPSTREAM_TO_INTERNAL in E.
    repeat (apply elem_of_cons in E as [[= -> ->]|E]; [by vm_compute; repeat constructor|]).
    by apply elem_of_nil in E.
Qed.
