(* ===== verification/Lifecycle.v ===== *)
(** * Lifecycle: the life of a task, as a state machine

    The abstract machine the scheduler promises: a queued task is claimed for a
    worker, may change worker or return to the queue until a worker accepts it,
    then runs there under one upstream identity, stores its result and is done,
    or fails.  A row stands for a phase; [lawful] relates two worlds when every
    row of the first is still there and its phase moved along the machine. *)
From S2P Require Import Prelude Models World Database Logic Status.

(** The worker, the upstream id and the base URL of an accepted task. *)
Definition Handoff : Type := option string * option string * option string.

Inductive phase :=
| Queued
| Dispatching (worker : option string)
| Running (h : Handoff)
| Storing (h : Handoff)
| Done (status : string) (result : option string) (completed : option time).

Inductive life : relation phase :=
| life_claim wk : life Queued (Dispatching wk)
| life_reassign wk wk' : life (Dispatching wk) (Dispatching wk')
| life_requeue wk : life (Dispatching wk) Queued
| life_reject wk t : life (Dispatching wk) (Done TASK_FAILED None t)
| life_accept wk uid url : life (Dispatching wk) (Running (wk, uid, url))
| life_finish h : life (Running h) (Storing h)
| life_resume h : life (Storing h) (Running h)
| life_fail h st t : st ∈ [TASK_FAILED; TASK_EXPIRED] -> life (Running h) (Done st None t)
| life_store h key t : life (Storing h) (Done TASK_COMPLETED (Some key) (Some t)).

Lemma done_stays st k t p : rtc life (Done st k t) p -> p = Done st k t.
Proof. intros Hr. apply rtc_inv in Hr as [->|(p' & Hl & _)]; [done|inversion Hl]. Qed.

(** Once accepted, a task keeps its worker and its upstream identity. *)
Lemma accepted_stays h p p' : rtc life p p' -> p = Running h \/ p = Storing h ->
  p' = Running h \/ p' = Storing h \/ exists st k t, p' = Done st k t.
Proof.
  induction 1 as [p|p q p' Hl Hr IH]; [intros [->| ->]; auto|].
  intros [->| ->]; inversion Hl; subst; try (apply IH; by auto);
    apply done_stays in Hr as ->; eauto 10.
Qed.

(** ** Rows *)

Definition handoff (r : Task) : Handoff := (t_worker_id r, t_upstream_task_id r, t_upstream_base_url r).

Definition phase_of (r : Task) : phase :=
  let st := t_status r in
  if st ==? TASK_QUEUED then Queued
  else if st ==? TASK_DISPATCHING then Dispatching (t_worker_id r)
  else if st ==? TASK_PROCESSING then Running (handoff r)
  else if st ==? TASK_STORING_RESULT then Storing (handoff r)
  else Done st (t_result_key r) (t_completed_at r).

Lemma phase_queued r : t_status r = TASK_QUEUED -> phase_of r = Queued.
Proof. intros E. unfold phase_of. by rewrite E. Qed.
Lemma phase_dispatching r : t_status r = TASK_DISPATCHING -> phase_of r = Dispatching (t_worker_id r).
Proof. intros E. unfold phase_of. by rewrite E. Qed.
Lemma phase_running r : t_status r = TASK_PROCESSING -> phase_of r = Running (handoff r).
Proof. intros E. unfold phase_of. by rewrite E. Qed.
Lemma phase_storing r : t_status r = TASK_STORING_RESULT -> phase_of r = Storing (handoff r).
Proof. intros E. unfold phase_of. by rewrite E. Qed.
Lemma phase_done r : t_status r ∈ TASK_STATUSES_TERMINAL ->
  phase_of r = Done (t_status r) (t_result_key r) (t_completed_at r).
Proof.
  unfold TASK_STATUSES_TERMINAL. intros Hin. unfold phase_of.
  repeat (apply elem_of_cons in Hin as [->|Hin]; [done|]). by apply elem_of_nil in Hin.
Qed.

(** The columns a phase is made of are the same. *)
Lemma phase_ext r r' :
  t_status r' = t_status r -> t_worker_id r' = t_worker_id r ->
  t_upstream_task_id r' = t_upstream_task_id r -> t_upstream_base_url r' = t_upstream_base_url r ->
  t_completed_at r' = t_completed_at r -> t_result_key r' = t_result_key r -> phase_of r' = phase_of r.
Proof. unfold phase_of, handoff. by intros -> -> -> -> -> ->. Qed.

Lemma phase_flushed fs r r' : flushed fs r r' -> phase_of r' = phase_of (set_task fs r).
Proof. by intros [->|[u ->]]. Qed.

(** A report on an accepted task, and the acceptance itself. *)
Definition REPORTED : list string := [TASK_PROCESSING; TASK_STORING_RESULT; TASK_FAILED; TASK_EXPIRED].

Lemma running_reported h r' : handoff r' = h -> t_result_key r' = None -> t_status r' ∈ REPORTED ->
  rtc life (Running h) (phase_of r').
Proof.
  unfold REPORTED. intros Hh Hk Hs. repeat (apply elem_of_cons in Hs as [Hs|Hs]); [..|by apply elem_of_nil in Hs].
  - by rewrite phase_running, Hh.
  - rewrite phase_storing, Hh by done. apply rtc_once, life_finish.
  - rewrite phase_done, Hs, Hk by (rewrite Hs; by apply (bool_decide_eq_true _)). apply rtc_once, life_fail. left.
  - rewrite phase_done, Hs, Hk by (rewrite Hs; by apply (bool_decide_eq_true _)). apply rtc_once, life_fail. right; left.
Qed.

Lemma lives_report r r' : t_status r ∈ [TASK_PROCESSING; TASK_STORING_RESULT] -> handoff r' = handoff r ->
  t_result_key r' = None -> t_status r' ∈ REPORTED -> rtc life (phase_of r) (phase_of r').
Proof.
  intros Hr Hh Hk Hs. apply elem_of_cons in Hr as [Hr|Hr%list_elem_of_singleton].
  - rewrite phase_running by done. by apply running_reported.
  - rewrite phase_storing by done. eapply rtc_l; [apply life_resume|]. by apply running_reported.
Qed.

Lemma lives_accept r r' : t_status r = TASK_DISPATCHING -> t_worker_id r' = t_worker_id r ->
  t_result_key r' = None -> t_status r' ∈ REPORTED -> rtc life (phase_of r) (phase_of r').
Proof.
  intros Hr Hw Hk Hs. rewrite phase_dispatching by done. eapply rtc_l; [|by apply (running_reported (handoff r'))].
  unfold handoff. rewrite Hw. apply life_accept.
Qed.

Lemma lives_claim r r' : t_status r = TASK_QUEUED -> t_status r' = TASK_DISPATCHING ->
  rtc life (phase_of r) (phase_of r').
Proof. intros E E'. rewrite phase_queued, phase_dispatching by done. apply rtc_once, life_claim. Qed.
Lemma lives_reassign r r' : t_status r = TASK_DISPATCHING -> t_status r' = TASK_DISPATCHING ->
  rtc life (phase_of r) (phase_of r').
Proof. intros E E'. rewrite !phase_dispatching by done. apply rtc_once, life_reassign. Qed.
Lemma lives_requeue r r' : t_status r = TASK_DISPATCHING -> t_status r' = TASK_QUEUED ->
  rtc life (phase_of r) (phase_of r').
Proof. intros E E'. rewrite phase_dispatching, phase_queued by done. apply rtc_once, life_requeue. Qed.
Lemma lives_reject r r' : t_status r = TASK_DISPATCHING -> t_status r' = TASK_FAILED -> t_result_key r' = None ->
  rtc life (phase_of r) (phase_of r').
Proof.
  intros E E' Hk. rewrite phase_dispatching, phase_done by (done || (rewrite E'; by apply (bool_decide_eq_true _))).
  rewrite E', Hk. apply rtc_once, life_reject.
Qed.
Lemma lives_store r r' key : t_status r = TASK_STORING_RESULT -> t_status r' = TASK_COMPLETED ->
  t_result_key r' = Some key -> not_none (t_completed_at r') = true -> rtc life (phase_of r) (phase_of r').
Proof.
  intros E E' Hk Hc. rewrite phase_storing, phase_done by (done || (rewrite E'; by apply (bool_decide_eq_true _))).
  rewrite E', Hk. destruct (t_completed_at r'); [|done]. apply rtc_once, life_store.
Qed.

(** ** Worlds *)

Definition lawful_row (_ : string) (o o' : option Task) : Prop :=
  forall r, o = Some r -> exists r', o' = Some r' /\ rtc life (phase_of r) (phase_of r').

#[export] Instance lawful_row_preorder k : PreOrder (lawful_row k).
Proof.
  split; unfold lawful_row; [intros o r ->; by exists r|].
  intros a b c Hab Hbc r Hr. destruct (Hab r Hr) as (r1 & -> & H1). destruct (Hbc r1 eq_refl) as (r2 & -> & H2).
  exists r2. split; [done|]. by etrans.
Qed.

Definition lawful : relation World := rows_evolve (A:=Task) lawful_row.

#[export] Instance lawful_preorder : PreOrder lawful := rows_evolve_preorder lawful_row.
#[export] Instance lawful_benign : Benign lawful := rows_evolve_benign lawful_row.

Lemma lawful_same w w' : tasks w' = tasks w -> lawful w w'.
Proof. intros E k. cbn. rewrite E. reflexivity. Qed.

(** An UPDATE of one row. *)
Lemma lawful_put w w' k r r' : tasks w !! k = Some r -> tasks w' = <[k := r']> (tasks w) ->
  rtc life (phase_of r) (phase_of r') -> lawful w w'.
Proof.
  intros Hr E Hl k'. cbn. rewrite E. destruct (decide (k' = k)) as [->|Hne].
  - rewrite lookup_insert_eq, Hr. intros ? [= <-]. by exists r'.
  - rewrite lookup_insert_ne by done. reflexivity.
Qed.

Definition terminal (r : Task) : Prop := t_status r ∈ TASK_STATUSES_TERMINAL.

(** A terminal row stays, with its status, its result and its completion time. *)
Definition settled_row (_ : string) (o o' : option Task) : Prop :=
  forall r, o = Some r -> terminal r -> exists r', o' = Some r' /\
    t_status r' = t_status r /\ t_result_key r' = t_result_key r /\
    t_completed_at r' = t_completed_at r.
Definition settled : relation World := rows_evolve (A:=Task) settled_row.

Lemma lawful_settled w w' : lawful w w' -> settled w w'.
Proof.
  intros Hl k r Hr Ht. destruct (Hl k r Hr) as (r' & Hr' & Hp). exists r'. split; [done|].
  rewrite (phase_done r Ht) in Hp. apply done_stays in Hp. unfold phase_of in Hp.
  repeat case_match; by simplify_eq.
Qed.
