(* ===== verification/TaskRows.v ===== *)
(** * TaskRows: the task rows of [scheduler/task_repository.py]

    The methods of [TaskRepository] that only read and write rows: creation,
    client expiry, recovery of stale claims, the transitions of a dispatched
    task, and retention.  Dispatch, status synchronisation and result
    persistence build on them. *)
From S2P Require Import Prelude Models World Database Logic Hoare Status Lifecycle.

Definition HEALTH_BATCH : nat := 32.
Definition DISPATCH_CLAIM_TIMEOUT_SECONDS : Z := 120.
Definition POLL_RETRY_DELAY_SECONDS : Z := 30.

(** [Task(task_id=..., backend=..., parse_method=..., file_names=...,
    status=..., source=...)]: the other columns are NULL; [created_at] and
    [updated_at] are set when the row is inserted. *)
Definition Task_new (task_id backend parse_method : string) (file_names : list string)
    (status source : string) : Task :=
  mkTask task_id None None None backend parse_method file_names source status
    None None None None None None None None None 0 None None 0.

Section rows.
Context `{Env}.

(** [await session.refresh(row)]. *)
Definition refresh_row {A F} `{Table A F} (id : string) : M A :=
  row ← get_row (A:=A) id ;
  match row with
  | None => raise (DatabaseError "could not refresh instance")
  | Some r => mret r
  end.

Definition create_queued_task (task_id : string) (file_names : list string)
    (backend parse_method : string) (opts : options) (payload_key : option string)
    (source : string) (cache_key : option string) : M Task :=
  let options_blob := <["file_names" := OptList file_names]> opts in
  open_session ;;
  let row := set_task [T_payload_key payload_key; T_options_blob (Some options_blob);
                       T_cache_key cache_key]
    (Task_new task_id backend parse_method file_names TASK_QUEUED source) in
  commit [OnTask (Add row)] ;;
  refresh_row task_id.

Definition clear_cache_key (task_id : string) : M unit :=
  open_session ;;
  row ← get_row (A:=Task) task_id ;
  match row with
  | None => mret tt
  | Some _ => commit [OnTask (Put task_id [T_cache_key None])]
  end.

Definition sla_clause (cutoff : time) (t : Task) : bool :=
  (t_status t ∈? [TASK_PROCESSING; TASK_DISPATCHING; TASK_STORING_RESULT])
  && is_none (t_client_expired_at t)
  && not_none (t_dispatch_started_at t)
  && sql_lt (t_dispatch_started_at t) cutoff.

Definition expire_client_sla_tasks (sla_seconds : Z) : M Z :=
  now ← now_utc ;
  let cutoff := now - seconds sla_seconds in
  open_session ;;
  rows ← select (fun _ => sla_clause cutoff) (fun _ => unordered) ;
  writes ← map_m rows (fun row =>
    now ← now_utc ;
    mret (OnTask (Put (t_task_id row) [T_client_expired_at (Some now)]))) ;
  commit writes ;;
  mret (Z.of_nat (length rows)).

Definition complete_with_result (task_id result_key_value result_format : string)
  : M (option string) :=
  open_session ;;
  row ← get_row (A:=Task) task_id ;
  match row with
  | None => raise (KeyError task_id)
  | Some row =>
      completed ← (match t_completed_at row with
                   | None => now ← now_utc ; mret [T_completed_at (Some now)]
                   | Some _ => mret []
                   end) ;
      commit [OnTask (Put task_id ([T_result_key (Some result_key_value);
                T_result_format (Some result_format); T_status TASK_COMPLETED] ++ completed))] ;;
      mret (t_cache_key row)
  end.

Definition stale_clause (cutoff : time) (t : Task) : bool :=
  (t_status t ==? TASK_DISPATCHING)
  && is_none (t_upstream_task_id t)
  && not_none (t_dispatch_started_at t)
  && sql_lt (t_dispatch_started_at t) cutoff.

(** The assignments that return a claimed task to the queue. *)
Definition requeue_fields : list TaskField :=
  [T_status TASK_QUEUED; T_dispatch_started_at None; T_worker_id None].

Definition recover_stale_dispatch_claims : M Z :=
  now ← now_utc ;
  let cutoff := now - seconds DISPATCH_CLAIM_TIMEOUT_SECONDS in
  open_session ;;
  rows ← select (fun _ => stale_clause cutoff) (fun _ => unordered) ;
  commit ((fun row => OnTask (Put (t_task_id row) requeue_fields)) <$> rows) ;;
  mret (Z.of_nat (length rows)).

Definition mark_processing (task_id worker_id upstream_task_id upstream_base_url upstream_status : string)
  : M unit :=
  open_session ;;
  row ← get_row (A:=Task) task_id ;
  match row with
  | None => mret tt
  | Some row =>
      let normalized := normalize_upstream_status (Some upstream_status) TASK_PROCESSING in
      status ← (if normalized ==? TASK_COMPLETED then mret [T_status TASK_STORING_RESULT]
                else if normalized ∈? TASK_STATUSES_TERMINAL
                then now ← now_utc ; mret [T_status normalized; T_completed_at (Some now)]
                else mret [T_status normalized]) ;
      started ← (match t_started_at row with
                 | None => now ← now_utc ; mret [T_started_at (Some now)]
                 | Some _ => mret []
                 end) ;
      commit [OnTask (Put task_id ([T_worker_id (Some worker_id);
                T_upstream_task_id (Some upstream_task_id);
                T_upstream_base_url (Some upstream_base_url)] ++ status ++ started))]
  end.

Definition mark_failed (task_id error : string) : M unit :=
  open_session ;;
  row ← get_row (A:=Task) task_id ;
  match row with
  | None => mret tt
  | Some _ =>
      now ← now_utc ;
      commit [OnTask (Put task_id [T_status TASK_FAILED; T_error (Some error);
                                   T_completed_at (Some now)])]
  end.

(** [updates["status"]] of the dictionary [apply_upstream_payload] returns. *)
Definition updated_status (payload : upstream_payload) (row_status : string) : option string :=
  match p_status payload with
  | Some s => Some (normalize_upstream_status s row_status)
  | None => None
  end.

(** The method of the same name: a completed report becomes
    [storing_result], a failure sets [completed_at] once. *)
Definition apply_upstream_payload_row (task_id : string) (payload : upstream_payload)
  : M (option Task) :=
  open_session ;;
  row ← get_row (A:=Task) task_id ;
  match row with
  | None => mret None
  | Some row =>
      let updates := apply_upstream_payload (t_status row) payload in
      let new_status := updated_status payload (t_status row) in
      let updates := if sql_eq new_status TASK_COMPLETED
                     then updates ++ [T_status TASK_STORING_RESULT] else updates in
      completed ← (if (sql_eq new_status TASK_FAILED || sql_eq new_status TASK_EXPIRED)
                      && is_none (t_completed_at row)
                   then now ← now_utc ; mret [T_completed_at (Some now)] else mret []) ;
      commit [OnTask (Put task_id (updates ++ completed))] ;;
      row ← refresh_row task_id ;
      mret (Some row)
  end.

Definition defer_task_poll (task_id : string) : M unit :=
  open_session ;;
  row ← get_row (A:=Task) task_id ;
  match row with
  | None => mret tt
  | Some _ =>
      now ← now_utc ;
      commit [OnTask (Put task_id [T_next_poll_at (Some (now + seconds POLL_RETRY_DELAY_SECONDS))])]
  end.

(** [_pollable_clause], the clock read when the query is built. *)
Definition pollable_clause (now : time) (t : Task) : bool :=
  is_none (t_next_poll_at t) || sql_le (t_next_poll_at t) now.

Definition poll_order : World -> Task -> Task -> bool :=
  fun _ => lex (by_nulls_first t_next_poll_at) (by_key t_updated_at).

Definition unstored_clause (t : Task) : bool :=
  (t_status t ==? TASK_STORING_RESULT) && is_none (t_result_key t)
  && not_none (t_upstream_task_id t) && not_none (t_upstream_base_url t).

Definition list_unstored_completed (limit : nat) : M (list Task) :=
  open_session ;;
  now ← now_utc ;
  rows ← select (fun _ t => unstored_clause t && pollable_clause now t) poll_order ;
  mret (take limit rows).

Definition list_retention_expired_tasks (cutoff : time) (limit : nat) : M (list Task) :=
  open_session ;;
  rows ← select (fun _ t => (t_status t ∈? TASK_STATUSES_TERMINAL)
                            && not_none (t_completed_at t) && sql_lt (t_completed_at t) cutoff)
                (fun _ => by_nulls_first t_completed_at) ;
  mret (take limit rows).

Definition delete_task (task_id : string) : M bool :=
  open_session ;;
  row ← get_row (A:=Task) task_id ;
  match row with
  | None => mret false
  | Some _ => commit [OnTask (Del task_id)] ;; mret true
  end.
End rows.

(** ** The life of a task row *)

(** What the columns of a row say in each status. *)
Definition task_wf (r : Task) : bool :=
  let st := t_status r in
  if st ==? TASK_QUEUED then
    is_none (t_worker_id r) && is_none (t_dispatch_started_at r)
    && is_none (t_upstream_task_id r) && is_none (t_upstream_base_url r) && is_none (t_result_key r)
  else if st ==? TASK_DISPATCHING then
    not_none (t_worker_id r) && not_none (t_dispatch_started_at r)
    && is_none (t_upstream_task_id r) && is_none (t_upstream_base_url r) && is_none (t_result_key r)
  else if st ∈? [TASK_PROCESSING; TASK_STORING_RESULT] then
    not_none (t_worker_id r) && not_none (t_dispatch_started_at r) && not_none (t_started_at r)
    && not_none (t_upstream_task_id r) && not_none (t_upstream_base_url r) && is_none (t_result_key r)
  else if st ==? TASK_COMPLETED then
    not_none (t_completed_at r) && not_none (t_result_key r)
  else (st ∈? [TASK_FAILED; TASK_EXPIRED]) && not_none (t_completed_at r) && is_none (t_result_key r).

Definition task_good (k : string) (r : Task) : Prop := t_task_id r = k /\ task_wf r = true.

(** Every row is stored under its id and consistent with its status. *)
Definition tasks_ok : World -> Prop := all_rows task_good.

#[export] Instance tasks_ok_stable : Stable tasks_ok := all_rows_stable task_good.

#[export] Instance task_good_stamp : StampOk task_good.
Proof. by intros k u r [? ?]. Qed.

Lemma tasks_ok_keyed w : tasks_ok w -> keyed Task w.
Proof. intros HI k r Hr. by apply HI in Hr as [? _]. Qed.

(** The columns [task_wf] reads are the same. *)
Lemma task_wf_ext r r' :
  t_status r' = t_status r -> t_worker_id r' = t_worker_id r ->
  t_dispatch_started_at r' = t_dispatch_started_at r -> t_started_at r' = t_started_at r ->
  t_upstream_task_id r' = t_upstream_task_id r -> t_upstream_base_url r' = t_upstream_base_url r ->
  t_completed_at r' = t_completed_at r -> t_result_key r' = t_result_key r ->
  task_wf r' = task_wf r.
Proof. unfold task_wf. by intros -> -> -> -> -> -> -> ->. Qed.

(** [task_wf] of a row whose status is known. *)
Lemma task_wf_queued r : t_status r = TASK_QUEUED -> task_wf r =
    is_none (t_worker_id r) && is_none (t_dispatch_started_at r)
    && is_none (t_upstream_task_id r) && is_none (t_upstream_base_url r) && is_none (t_result_key r).
Proof. intros E. unfold task_wf. by rewrite E. Qed.
Lemma task_wf_dispatching r : t_status r = TASK_DISPATCHING -> task_wf r =
    not_none (t_worker_id r) && not_none (t_dispatch_started_at r)
    && is_none (t_upstream_task_id r) && is_none (t_upstream_base_url r) && is_none (t_result_key r).
Proof. intros E. unfold task_wf. by rewrite E. Qed.
Lemma task_wf_running r : t_status r = TASK_PROCESSING \/ t_status r = TASK_STORING_RESULT -> task_wf r =
    not_none (t_worker_id r) && not_none (t_dispatch_started_at r) && not_none (t_started_at r)
    && not_none (t_upstream_task_id r) && not_none (t_upstream_base_url r) && is_none (t_result_key r).
Proof. intros [E|E]; unfold task_wf; by rewrite E. Qed.
Lemma task_wf_completed r : t_status r = TASK_COMPLETED -> task_wf r =
    not_none (t_completed_at r) && not_none (t_result_key r).
Proof. intros E. unfold task_wf. by rewrite E. Qed.
Lemma task_wf_failed r : t_status r = TASK_FAILED \/ t_status r = TASK_EXPIRED -> task_wf r =
    not_none (t_completed_at r) && is_none (t_result_key r).
Proof. intros [E|E]; unfold task_wf; by rewrite E. Qed.

(** Only a completed task has a result. *)
Lemma no_result r : task_wf r = true -> t_status r <> TASK_COMPLETED -> t_result_key r = None.
Proof.
  unfold task_wf. cbv zeta. intros Hw Hc.
  assert (Hk : is_none (t_result_key r) = true) by (decide_bools; bool_hyps; done).
  by apply is_none_true.
Qed.

Lemma task_wf_status r : task_wf r = true -> t_status r ∈ TASK_STATUSES.
Proof.
  unfold task_wf. cbv zeta. intros Hw.
  assert (Hin : forall st, t_status r = st -> (st ∈? TASK_STATUSES) = true -> t_status r ∈ TASK_STATUSES)
    by (intros ? -> Hb; by apply bool_decide_eq_true in Hb).
  assert (Hl : forall l, t_status r ∈ l -> Forall (fun st => (st ∈? TASK_STATUSES) = true) l ->
    t_status r ∈ TASK_STATUSES).
  { intros l H1 H2. rewrite Forall_forall in H2. by apply (Hin (t_status r)), H2. }
  decide_bools; try (by eapply Hin); try (by eapply Hl; [done|repeat constructor]).
Qed.

(** The statuses after dispatch, of an accepted report. *)
Lemma normalized_running s cur : cur ∈ [TASK_PROCESSING; TASK_STORING_RESULT] ->
  normalize_upstream_status s cur ∈
    [TASK_PROCESSING; TASK_STORING_RESULT; TASK_COMPLETED; TASK_FAILED; TASK_EXPIRED].
Proof.
  intros Hcur. apply elem_of_cons in Hcur as [->|Hcur%list_elem_of_singleton]; [|subst cur].
  all: unfold normalize_upstream_status, UPSTREAM_TO_INTERNAL, assoc; destruct s as [s|];
    [|by apply (bool_decide_eq_true _)].
  all: destruct (s ∈? UPSTREAM_ACCEPTED_NONTERMINAL); [by apply (bool_decide_eq_true _)|].
  all: repeat (case_bool_decide; [by apply (bool_decide_eq_true _)|]);
    by apply (bool_decide_eq_true _).
Qed.

(** Columns known from the tests of [task_wf]. *)
Ltac wf_columns :=
  cbn -[is_none not_none];
  repeat match goal with
  | E : is_none _ = true |- _ => rewrite E
  | E : not_none _ = true |- _ => rewrite E
  | E : _ = Some _ |- context [not_none ?x] => rewrite E
  | E : is_none ?x = false |- context [not_none ?x] =>
      replace (not_none x) with true by (unfold not_none; by rewrite E)
  end;
  try reflexivity; try done.

(** Evaluate the tests on literals. *)
Ltac concrete := repeat match goal with
  | E : bool_decide _ = ?b |- _ =>
      vm_compute in E; first [discriminate E | clear E]
  end.

Ltac decide_literals :=
  repeat match goal with
  | |- context [bool_decide ?P] =>
      let v := eval vm_compute in (bool_decide P) in
      lazymatch v with true => idtac | false => idtac end;
      change (bool_decide P) with v
  end; cbn [orb andb].

(** The columns the life of a task is about are the same. *)
Definition quiet (r r' : Task) : Prop :=
  t_task_id r' = t_task_id r /\ t_status r' = t_status r /\ t_worker_id r' = t_worker_id r /\
  t_dispatch_started_at r' = t_dispatch_started_at r /\ t_started_at r' = t_started_at r /\
  t_upstream_task_id r' = t_upstream_task_id r /\ t_upstream_base_url r' = t_upstream_base_url r /\
  t_completed_at r' = t_completed_at r /\ t_result_key r' = t_result_key r.

Definition quiet_row (_ : string) (o o' : option Task) : Prop :=
  match o, o' with
  | Some r, Some r' => quiet r r'
  | None, None => True
  | _, _ => False
  end.

#[export] Instance quiet_row_preorder k : PreOrder (quiet_row k).
Proof.
  split; [intros [r|]; by repeat split|].
  intros [a|] [b|] [c|]; cbn; try done. unfold quiet. intuition congruence.
Qed.

(** No task moves. *)
Definition calm : relation World := rows_evolve (A:=Task) quiet_row.
#[export] Instance calm_preorder : PreOrder calm := rows_evolve_preorder quiet_row.
#[export] Instance calm_benign : Benign calm := rows_evolve_benign quiet_row.

Lemma calm_lookup w w' k r' : calm w w' -> tasks w' !! k = Some r' ->
  exists r, tasks w !! k = Some r /\ quiet r r'.
Proof.
  intros Hc E. specialize (Hc k). cbn in Hc. rewrite E in Hc.
  destruct (tasks w !! k) as [r|]; [|done]. by exists r.
Qed.

Lemma calm_tasks_ok w w' : calm w w' -> tasks_ok w -> tasks_ok w'.
Proof.
  intros Hc HI k r' E. destruct (calm_lookup _ _ _ _ Hc E) as (r & Hr & Hq).
  apply HI in Hr as [Hid Hw]. destruct Hq as (E0 & E1 & E2 & E3 & E4 & E5 & E6 & E7 & E8).
  split; [congruence|]. by rewrite (task_wf_ext r r').
Qed.

Lemma calm_lawful w w' : calm w w' -> lawful w w'.
Proof.
  intros Hc k r E. specialize (Hc k). rewrite E in Hc.
  destruct (table w' !! k) as [r'|]; [|done]. destruct Hc as (E0 & E1 & E2 & E3 & E4 & E5 & E6 & E7 & E8).
  exists r'. split; [done|]. by rewrite (phase_ext r r').
Qed.

(** An assignment to other columns. *)
Definition quiet_fields (fs : list TaskField) : Prop := forall r, quiet r (set_task fs r).

Lemma quiet_flushed fs r r' : quiet_fields fs -> flushed fs r r' -> quiet r r'.
Proof. intros Hq [->|[u ->]]; exact (Hq r). Qed.

Section calm_ops.
Context `{Env}.

Lemma put_calm id fs : quiet_fields fs -> evolves calm (commit [OnTask (Put id fs)]).
Proof.
  intros Hq. apply (evolves_commit_rows (A:=Task) quiet_row); [intros m|apply NoDup_singleton].
  apply Forall_singleton. intros r r' _ Hf. by eapply quiet_flushed.
Qed.

Lemma defer_task_poll_calm id : evolves calm (defer_task_poll id).
Proof. unfold defer_task_poll. evolve. by apply put_calm. Qed.


Lemma effects_tasks ws : forall w w', Forall (fun wr => exists op, wr = OnTask op) ws ->
  effects ws w w' -> workers w' = workers w /\ cache_entries w' = cache_entries w.
Proof.
  induction ws as [|wr ws IH]; intros w w' Hws; cbn [effects].
  - by intros (? & _ & ?).
  - apply Forall_cons in Hws as [[op ->] Hws]. intros (w1 & (_ & E1 & E2) & He).
    apply IH in He as [E3 E4]; [|done]. split; congruence.
Qed.

(** One UPDATE for each task a query returned. *)
Lemma wp_task_puts P `{!forall k, PreOrder (P k)} (fields : Task -> list TaskField -> Prop)
    rows writes w :
  NoDup (t_task_id <$> rows) -> (forall r, r ∈ rows -> tasks w !! t_task_id r = Some r) ->
  Forall2 (fun r wr => exists fs, wr = OnTask (Put (t_task_id r) fs) /\ fields r fs) rows writes ->
  (forall r fs r', r ∈ rows -> fields r fs -> flushed fs r r' -> P (t_task_id r) (Some r) (Some r')) ->
  wp (commit writes)
    (fun _ w' => rows_evolve (A:=Task) P w w' /\ workers w' = workers w)
    (fun _ w' => tasks w' = tasks w /\ workers w' = workers w) w.
Proof.
  intros Hnd Hin Hws Hput.
  assert (Hkeys : op_key <$> omap (op_of (A:=Task)) writes = t_task_id <$> rows).
  { clear Hnd Hin Hput. induction Hws as [|r wr rows writes (fs & -> & _) _ IH]; [done|].
    rewrite omap_cons. cbn. f_equal. exact IH. }
  assert (Hon : Forall (fun wr => exists op, wr = OnTask op) writes).
  { clear Hkeys Hnd Hin Hput. induction Hws as [|r wr rows writes (fs & -> & _) _ IH]; constructor; eauto. }
  apply (wp_commit_rows (A:=Task) P).
  - clear Hkeys Hnd Hon. induction Hws as [|r wr rows writes (fs & -> & Hfs) _ IH]; [constructor|].
    rewrite omap_cons. constructor.
    + cbn. rewrite (Hin r) by left. intros ? r' [= <-] Hf. eapply Hput; [left|done..].
    + apply IH; intros; [apply Hin; by right|eapply Hput; [by right|done..]].
  - by rewrite Hkeys.
  - intros w' He Heff _. split; [done|]. by apply (effects_tasks _ _ _ Hon) in Heff as [? _].
  - by intros e w' (? & ? & _) _.
Qed.

Lemma expire_calm sla w : tasks_ok w ->
  wp (expire_client_sla_tasks sla)
    (fun _ w' => calm w w' /\ workers w' = workers w)
    (fun _ w' => calm w w' /\ workers w' = workers w) w.
Proof.
  intros HI. assert (Hsame : forall w', tasks w' = tasks w -> workers w' = workers w ->
    calm w w' /\ workers w' = workers w) by (intros w' E ?; split; [intros k; cbn; by rewrite E|done]).
  unfold expire_client_sla_tasks. wp_go; [|by apply Hsame].
  apply wp_select. intros rows Hrows _. apply wp_bind.
  apply (select_rows _ rows w (tasks_ok_keyed _ HI)) in Hrows as [Hnd Hin].
  eapply wp_mono; [apply (wp_map_m (fun w' => tasks w' = tasks w /\ workers w' = workers w) _
    (fun r wr => exists fs, wr = OnTask (Put (t_task_id r) fs) /\
                            exists t, fs = [T_client_expired_at t]))| |].
  - intros r w1 _ Hw1. wp_go. split; [exact Hw1|]. eauto.
  - done.
  - intros writes w1 [[Et Ew] Hws]. apply wp_bind.
    eapply wp_mono; [eapply (wp_task_puts quiet_row _ rows writes); [done| |exact Hws|]| |].
    + intros r Hr. rewrite Et. by apply Hin.
    + intros r fs r' _ (t' & ->) Hf. eapply quiet_flushed; [|exact Hf]. by intros r0.
    + intros u w2 [Hc Ew2]. wp_go. split; [|congruence]. intros k. specialize (Hc k). cbn in *.
      by rewrite Et in Hc.
    + intros e w2 [Et2 Ew2]. apply Hsame; congruence.
  - intros e w1 HX. exact HX.
Qed.
End calm_ops.

Section invariants.
Context `{Env}.

Abbreviation keeps_tasks m := (maintains tasks_ok m).

Lemma create_queued_task_ok task_id file_names backend parse_method opts pk source ck :
  keeps_tasks (create_queued_task task_id file_names backend parse_method opts pk source ck).
Proof.
  intros w HI. unfold create_queued_task. wp_steps; [|exact HI].
  wp_inv tasks_ok; [eapply (wp_add_good task_good); [reflexivity|exact HI|by intros]|].
  unfold refresh_row. wp_steps; exact HI0.
Qed.

(** An UPDATE of columns [task_wf] does not read. *)
Lemma put_ok id fs w : tasks_ok w ->
  (forall r, tasks w !! id = Some r -> task_good id r -> task_good id (set_task fs r)) ->
  wp (commit [OnTask (Put id fs)]) (fun _ => tasks_ok) (fun _ => tasks_ok) w.
Proof. intros HI Hr. by eapply (wp_put_good task_good). Qed.

Lemma clear_cache_key_calm task_id : evolves calm (clear_cache_key task_id).
Proof. unfold clear_cache_key. evolve. by apply put_calm. Qed.

Lemma complete_with_result_ok id key fmt : keeps_tasks (complete_with_result id key fmt).
Proof.
  intros w HI. unfold complete_with_result. wp_go; [|exact HI].
  destruct (tasks w !! id) as [r|] eqn:Er; [|exact HI]. wp_go.
  destruct (t_completed_at r) as [t|] eqn:Et; wp_go.
  all: wp_inv tasks_ok; [|wp_go; exact HI0].
  all: apply put_ok; [exact HI|]; intros r0 Hr0 [? _]; split; [done|];
    rewrite task_wf_completed by reflexivity; cbn; try done.
  tables. replace r0 with r by congruence. by rewrite Et.
Qed.

Lemma requeue_good r : task_good (t_task_id r) r -> t_status r = TASK_DISPATCHING ->
  task_good (t_task_id r) (set_task requeue_fields r).
Proof.
  intros [? Hw] Hs. rewrite task_wf_dispatching in Hw by done. split; [done|].
  rewrite task_wf_queued by reflexivity. bool_hyps. wf_columns.
Qed.

Lemma recover_stale_dispatch_claims_ok : keeps_tasks recover_stale_dispatch_claims.
Proof.
  intros w HI. unfold recover_stale_dispatch_claims. wp_steps; try exact HI.
  apply wp_select. intros rows Hrows _. apply wp_bind.
  apply (select_rows _ rows (bump (bump w)) (tasks_ok_keyed (bump (bump w)) HI)) in Hrows as [Hnd Hin].
  wp_inv tasks_ok; [|wp_steps; exact HI0].
  eapply (wp_puts_good task_good OnTask (fun r fs => fs = requeue_fields /\ t_status r = TASK_DISPATCHING) rows);
    [done|exact HI|done|intros r Hr; by apply Hin| |].
  - apply Forall2_fmap_r, Forall_Forall2_diag, Forall_forall. intros r Hr. eexists. split; [done|].
    split; [done|]. apply Hin in Hr as [Hc _]. unfold stale_clause in Hc. by bool_hyps.
  - intros r fs _ Hg [-> Hs]. by apply requeue_good.
Qed.

Lemma mark_failed_ok id error w : tasks_ok w ->
  (forall r, tasks w !! id = Some r -> t_status r <> TASK_COMPLETED) ->
  wp (mark_failed id error) (fun _ => tasks_ok) (fun _ => tasks_ok) w.
Proof.
  intros HI Hs. unfold mark_failed. wp_go; [|exact HI].
  destruct (tasks w !! id) as [r|] eqn:Er; [|exact HI]. wp_go. specialize (Hs r eq_refl).
  apply put_ok; [exact HI|]. intros r0 Hr0 [? Hw]. split; [done|].
  tables. replace r0 with r in * by congruence.
  rewrite task_wf_failed by (by left). unfold task_wf in Hw.
  decide_bools; bool_hyps; wf_columns.
Qed.

Lemma mark_processing_ok id wid uid url st w : tasks_ok w ->
  (forall r, tasks w !! id = Some r -> t_status r = TASK_DISPATCHING) ->
  wp (mark_processing id wid uid url st) (fun _ => tasks_ok) (fun _ => tasks_ok) w.
Proof.
  intros HI Hs. unfold mark_processing.
  set (n := normalize_upstream_status (Some st) TASK_PROCESSING).
  assert (Hn : n ∈ [TASK_PROCESSING; TASK_STORING_RESULT; TASK_COMPLETED; TASK_FAILED; TASK_EXPIRED]).
  { apply normalized_running. left. }
  clearbody n. wp_go; [|exact HI]. destruct (tasks w !! id) as [r|] eqn:Er; [|exact HI].
  specialize (Hs r eq_refl). apply HI in Er as Hg. destruct Hg as [Hid Hw].
  rewrite task_wf_dispatching in Hw by done. bool_hyps.
  assert (Hput : forall fs w', tasks w' = tasks w -> task_good id (set_task fs r) ->
    wp (commit [OnTask (Put id fs)]) (fun _ => tasks_ok) (fun _ => tasks_ok) w').
  { intros fs w' Ew Hfs. apply put_ok.
    - intros k r' Hr'. apply HI. tables. by rewrite <- Ew.
    - intros r' Hr' _. rewrite Ew in Hr'. by replace r' with r by congruence. }
  repeat (apply elem_of_cons in Hn as [->|Hn]; [
    wp_steps; concrete; (apply Hput; [done|split; [done|]]);
    first [rewrite task_wf_running by (first [by left|by right])
      |rewrite task_wf_failed by (first [by left|by right])];
    wf_columns |]); by apply elem_of_nil in Hn.
Qed.

(** A worker's report never disturbs a task that is still running. *)
(** A report changes no column that the life of a task is about, but the status. *)
Lemma reported_columns p r : let r1 := set_task (apply_upstream_payload (t_status r) p) r in
  (t_task_id r1 = t_task_id r /\ t_worker_id r1 = t_worker_id r /\
   t_dispatch_started_at r1 = t_dispatch_started_at r /\ t_started_at r1 = t_started_at r /\
   t_upstream_task_id r1 = t_upstream_task_id r /\ t_upstream_base_url r1 = t_upstream_base_url r /\
   t_completed_at r1 = t_completed_at r /\ t_result_key r1 = t_result_key r) /\
  t_status r1 = match updated_status p (t_status r) with Some n => n | None => t_status r end.
Proof.
  unfold apply_upstream_payload, updated_status.
  destruct (p_status p), (p_backend p), (p_file_names p), (p_error p); by repeat split.
Qed.

Lemma reported_status p st n : st ∈ [TASK_PROCESSING; TASK_STORING_RESULT] -> updated_status p st = Some n ->
  n ∈ [TASK_PROCESSING; TASK_STORING_RESULT; TASK_COMPLETED; TASK_FAILED; TASK_EXPIRED].
Proof. intros Hs. unfold updated_status. destruct (p_status p); [|done]. intros [= <-]. by apply normalized_running. Qed.

Lemma apply_upstream_payload_row_ok id p w : tasks_ok w ->
  (forall r, tasks w !! id = Some r -> t_status r ∈ [TASK_PROCESSING; TASK_STORING_RESULT]) ->
  wp (apply_upstream_payload_row id p) (fun _ => tasks_ok) (fun _ => tasks_ok) w.
Proof.
  intros HI Hs. unfold apply_upstream_payload_row. wp_go; [|exact HI].
  destruct (tasks w !! id) as [r|] eqn:Er; [|exact HI]. specialize (Hs r eq_refl). wp_go.
  apply HI in Er as Hg. destruct Hg as [Hid Hw].
  rewrite task_wf_running in Hw by (apply elem_of_cons in Hs as [?|?%list_elem_of_singleton]; auto). bool_hyps.
  destruct (reported_columns p r) as [(E1 & E2 & E3 & E4 & E5 & E6 & E7 & E8) Est].
  set (fs := apply_upstream_payload _ _) in *. set (r1 := set_task fs r) in *.
  assert (Hput : forall extra w', tasks w' = tasks w -> task_wf (set_task extra r1) = true ->
    t_task_id (set_task extra r1) = t_task_id r1 ->
    wp (commit [OnTask (Put id (fs ++ extra))])
       (fun _ => wp (row ← refresh_row (A:=Task) id ; mret (Some row))
                    (fun _ => tasks_ok) (fun _ => tasks_ok)) (fun _ => tasks_ok) w').
  { intros extra w' Ew Hwf Hk. wp_inv tasks_ok.
    - apply put_ok; [intros k r' Hr'; apply HI; tables; by rewrite <- Ew|].
      intros r' Hr' _. rewrite Ew in Hr'. replace r' with r by congruence.
      replace (set_task (fs ++ extra) r) with (set_task extra r1)
        by (unfold r1, set_task; by rewrite foldl_app).
      split; [congruence|done].
    - unfold refresh_row. wp_steps; exact HI0. }
  assert (Hcols : not_none (t_worker_id r1) = true /\ not_none (t_dispatch_started_at r1) = true /\
    not_none (t_started_at r1) = true /\ not_none (t_upstream_task_id r1) = true /\
    not_none (t_upstream_base_url r1) = true /\ is_none (t_result_key r1) = true)
    by (rewrite E2, E3, E4, E5, E6, E8; done).
  destruct Hcols as (? & ? & ? & ? & ? & ?). pose proof (reported_status p (t_status r)) as Hst.
  destruct (updated_status p (t_status r)) as [n|].
  - specialize (Hst n Hs eq_refl). rewrite !sql_eq_some, <- E7. clearbody r1 fs.
    repeat (apply elem_of_cons in Hst as [->|Hst]; [
      decide_literals; wp_steps; rewrite <- ?app_assoc; (apply Hput; [done| |done]);
      first [rewrite task_wf_running by (first [by left|by right|by rewrite Est; left|by rewrite Est; right])
        |rewrite task_wf_failed by (first [by left|by right|by rewrite Est; left|by rewrite Est; right])];
      wf_columns |]); by apply elem_of_nil in Hst.
  - rewrite !sql_eq_none. cbn [orb andb]. wp_go. apply Hput; [done| |done]. cbn [set_task foldl].
    rewrite task_wf_running by (rewrite Est; apply elem_of_cons in Hs as [?|?%list_elem_of_singleton]; auto). wf_columns.
Qed.

Lemma delete_task_ok id : keeps_tasks (delete_task id).
Proof.
  intros w HI. unfold delete_task. wp_steps; try exact HI. wp_inv tasks_ok; [|exact HI0].
  apply (wp_commit_rows (good_rows task_good)).
  - apply Forall_singleton. by intros ? _ ? ? [=].
  - apply NoDup_singleton.
  - intros w' He _ _. by apply (all_rows_evolve _ _ _ He).
  - intros e w' Ht _. by apply (all_rows_tables _ _ _ Ht).
Qed.

Lemma list_unstored_completed_data limit : evolves same_data (list_unstored_completed limit).
Proof. unfold list_unstored_completed. evolve. Qed.

Lemma list_retention_expired_tasks_data cutoff limit :
  evolves same_data (list_retention_expired_tasks cutoff limit).
Proof. unfold list_retention_expired_tasks. evolve. Qed.

Lemma recover_lawful w : tasks_ok w ->
  wp recover_stale_dispatch_claims
    (fun _ w' => lawful w w' /\ workers w' = workers w)
    (fun _ w' => lawful w w' /\ workers w' = workers w) w.
Proof.
  intros HI. assert (Hsame : forall w', tasks w' = tasks w -> workers w' = workers w ->
    lawful w w' /\ workers w' = workers w) by (intros; split; [by apply lawful_same|done]).
  unfold recover_stale_dispatch_claims. wp_go; [|by apply Hsame].
  apply wp_select. intros rows Hrows _. apply wp_bind.
  apply (select_rows _ rows w (tasks_ok_keyed _ HI)) in Hrows as [Hnd Hin].
  eapply wp_mono; [apply (wp_task_puts lawful_row (fun _ fs => fs = requeue_fields) rows)| |].
  - done.
  - intros r Hr. apply Hin in Hr as [_ Hr]. exact Hr.
  - apply Forall2_fmap_r, Forall_Forall2_diag, Forall_forall. eauto.
  - intros r fs r' Hr -> Hf ? [= <-]. exists r'. split; [done|]. apply Hin in Hr as [Hc _].
    unfold stale_clause in Hc. bool_hyps.
    rewrite (phase_flushed _ _ _ Hf). by apply lives_requeue.
  - intros u w2 [Hs Ew2]. wp_go. split; [exact Hs|exact Ew2].
  - intros e w2 [Et2 Ew2]. by apply Hsame.
Qed.

(** A commit of one UPDATE of a row that is there. *)
Lemma wp_put_task id fs r w : tasks w !! id = Some r ->
  wp (commit [OnTask (Put id fs)])
    (fun _ w' => exists r', flushed fs r r' /\ tasks w' = <[id := r']> (tasks w) /\
                            workers w' = workers w /\ objects w' = objects w)
    (fun _ w' => tasks w' = tasks w /\ workers w' = workers w /\ objects w' = objects w) w.
Proof.
  intros Hr. apply wp_commit.
  - intros w' (w1 & ((r1 & r' & Hr1 & Hf & Et) & Ew & _) & Ew2 & Et2 & _) Eo. tables.
    assert (r1 = r) as -> by congruence. exists r'. repeat split; congruence.
  - by intros e w' (? & ? & _) ?.
Qed.

(** What completion writes. *)
Lemma complete_with_result_spec id key fmt w :
  wp (complete_with_result id key fmt)
    (fun ck w' => exists r r', tasks w !! id = Some r /\ ck = t_cache_key r /\
       tasks w' = <[id := r']> (tasks w) /\ t_status r' = TASK_COMPLETED /\
       t_result_key r' = Some key /\ t_result_format r' = Some fmt /\ t_task_id r' = t_task_id r /\
       (forall t, t_completed_at r = Some t -> t_completed_at r' = Some t) /\
       not_none (t_completed_at r') = true /\
       workers w' = workers w /\ objects w' = objects w)
    (fun _ w' => tasks w' = tasks w /\ workers w' = workers w /\ objects w' = objects w) w.
Proof.
  unfold complete_with_result. wp_go; [|done].
  destruct (tasks w !! id) as [r|] eqn:Er; [|done]. wp_go.
  destruct (t_completed_at r) as [t|] eqn:Et; wp_go.
  all: eapply wp_mono; [by apply wp_put_task| |by intros e w1 HX].
  all: intros u w1 (r' & Hf & Et1 & Ew1 & Eo1); wp_go; exists r, r';
    destruct Hf as [->|[u' ->]]; repeat split; try done; cbn; by rewrite ?Et.
Qed.

(** What a report writes leaves the task with its worker. *)
Lemma report_columns r p (extra : list TaskField) : t_result_key r = None ->
  t_status r ∈ [TASK_PROCESSING; TASK_STORING_RESULT] ->
  extra = [] \/ (exists now, extra = [T_completed_at (Some now)]) ->
  let new_status := updated_status p (t_status r) in
  let updates := apply_upstream_payload (t_status r) p in
  let updates := if sql_eq new_status TASK_COMPLETED then updates ++ [T_status TASK_STORING_RESULT] else updates in
  rtc life (phase_of r) (phase_of (set_task (updates ++ extra) r)).
Proof.
  intros Hk Hs Hx. cbv zeta. set (r' := set_task _ r).
  assert (Hr' : handoff r' = handoff r /\ t_result_key r' = None /\
    t_status r' = match updated_status p (t_status r) with
                  | Some n => if n ==? TASK_COMPLETED then TASK_STORING_RESULT else n
                  | None => t_status r end).
  { unfold r', apply_upstream_payload, updated_status, sql_eq, handoff.
    destruct (p_status p) as [s|]; cbn; [case_bool_decide|].
    all: destruct (p_backend p), (p_file_names p), (p_error p), Hx as [->|[now ->]]; split_and!; try done;
      case_bool_decide; (reflexivity || congruence). }
  destruct Hr' as (Hh & Hk' & Hs'). apply lives_report; try done. rewrite Hs'. unfold updated_status, REPORTED.
  destruct (p_status p) as [s|]; cbn.
  - pose proof (normalized_running s _ Hs) as Hn. case_bool_decide as Hc; [by apply (bool_decide_eq_true _)|].
    set_solver.
  - set_solver.
Qed.

(** A running task that is reported on stays in the table, in a running or a
    failed state; no other row changes. *)
Lemma apply_upstream_payload_row_spec id p w r : tasks w !! id = Some r ->
  let lives r' := t_result_key r = None -> t_status r ∈ [TASK_PROCESSING; TASK_STORING_RESULT] ->
                  rtc life (phase_of r) (phase_of r') in
  wp (apply_upstream_payload_row id p)
    (fun o w' => exists r', o = Some r' /\ tasks w' = <[id := r']> (tasks w) /\ workers w' = workers w /\ lives r')
    (fun _ w' => workers w' = workers w /\
       (tasks w' = tasks w \/ exists r', tasks w' = <[id := r']> (tasks w) /\ lives r')) w.
Proof.
  intros Er lives. unfold apply_upstream_payload_row. wp_go; [|by auto]. rewrite Er. wp_go.
  assert (Hput : forall fs w', tasks w' = tasks w -> workers w' = workers w -> lives (set_task fs r) ->
    wp (commit [OnTask (Put id fs)])
      (fun _ => wp (row ← refresh_row (A:=Task) id ; mret (Some row))
        (fun o w' => exists r', o = Some r' /\ tasks w' = <[id := r']> (tasks w) /\ workers w' = workers w /\ lives r')
        (fun _ w' => workers w' = workers w /\
           (tasks w' = tasks w \/ exists r', tasks w' = <[id := r']> (tasks w) /\ lives r')))
      (fun _ w' => workers w' = workers w /\
         (tasks w' = tasks w \/ exists r', tasks w' = <[id := r']> (tasks w) /\ lives r')) w').
  { intros fs w' Et Ew Hl. eapply wp_mono; [apply (wp_put_task id fs r); by rewrite Et| |].
    - intros u w1 (r' & Hf & Et1 & Ew1 & _). unfold refresh_row. wp_go.
      rewrite Et1, lookup_insert_eq. wp_go. exists r'. rewrite Et1, Et. split; [done|]. split; [done|].
      split; [congruence|]. unfold lives in *. by rewrite (phase_flushed _ _ _ Hf).
    - intros e w1 (Et1 & Ew1 & _). split; [congruence|]. left. congruence. }
  wp_steps; (apply Hput; [done..|]); intros Hk Hs; apply report_columns; eauto.
Qed.
End invariants.
