(* ===== verification/Payload.v ===== *)
(** * Payload: the blob a task's upload travels in

    The gateway packs the staged form of a request into one object
    ([gateway/ingest.py _pack_payload]); the scheduler rebuilds the form from it
    to submit it to a worker ([scheduler/task_repository.py _rebuild_payload]).
    The content of a staged file stands for its path.  Admission limits
    ([gateway/admission.py]), bounded reads ([util/io.py]) and upload names
    ([util/upload_paths.py]) are part of the two directions. *)
From Stdlib Require Import Strings.Byte.
From stdpp Require Import pretty.
From S2P Require Import Prelude Models Config World Json.

(** ** Fallible pure code, and its lifting into the monad *)

#[export] Instance outcome_ret : MRet outcome := @Ok.
#[export] Instance outcome_bind : MBind outcome := fun A B f m =>
  match m with Ok a => f a | Raise e => Raise e | Diverged => Diverged end.

Definition lift {A} (o : outcome A) : M A := fun w => (o, w).

(** ** Bytes *)

Definition byte_of_Z (z : Z) : Byte.byte :=
  match Byte.of_N (Z.to_N z) with Some b => b | None => "000"%byte end.
Definition Z_of_byte (b : Byte.byte) : Z := Z.of_N (Byte.to_N b).

(** [struct.pack("!I", n)]. *)
Definition pack_u32 (n : Z) : outcome (list Byte.byte) :=
  if (0 <=? n) && (n <? 2 ^ 32) then
    Ok [byte_of_Z (Z.shiftr n 24); byte_of_Z (Z.land (Z.shiftr n 16) 255);
        byte_of_Z (Z.land (Z.shiftr n 8) 255); byte_of_Z (Z.land n 255)]
  else Raise (OtherException "struct.error: 'I' format requires 0 <= number <= 4294967295").

(** [struct.unpack("!I", b)[0]]. *)
Definition unpack_u32 (b : list Byte.byte) : Z :=
  foldl (fun acc x => Z.shiftl acc 8 + Z_of_byte x) 0 b.

(** [s.encode("utf-8")] and [b.decode("utf-8")], code points below 256. *)
Definition encode_char (c : Ascii.ascii) : list Byte.byte :=
  let n := Z.of_nat (Ascii.nat_of_ascii c) in
  if n <? 128 then [byte_of_Z n] else [byte_of_Z (192 + n / 64); byte_of_Z (128 + n mod 64)].
Fixpoint encode_utf8 (s : string) : list Byte.byte :=
  match s with EmptyString => [] | String c s => encode_char c ++ encode_utf8 s end.

Fixpoint decode_utf8 (l : list Byte.byte) : option string :=
  match l with
  | [] => Some ""
  | b :: l =>
      let n := Z_of_byte b in
      if n <? 128 then String (Ascii.ascii_of_byte b) <$> decode_utf8 l
      else if (194 <=? n) && (n <=? 195) then
        match l with
        | c :: l =>
            if (128 <=? Z_of_byte c) && (Z_of_byte c <? 192)
            then String (Ascii.ascii_of_nat (Z.to_nat ((n - 192) * 64 + (Z_of_byte c - 128))))
                   <$> decode_utf8 l
            else None
        | [] => None
        end
      else None
  end.

(** [l[i:j]]: indices beyond the ends are clamped, negative ones count from
    the end. *)
Definition clamp_index (n i : Z) : Z := if i <? 0 then Z.max 0 (n + i) else Z.min i n.
Definition py_slice {A} (l : list A) (i j : Z) : list A :=
  let n := Z.of_nat (length l) in
  let a := clamp_index n i in
  take (Z.to_nat (clamp_index n j - a)) (drop (Z.to_nat a) l).

(** ** Admission: [gateway/admission.py] and [util/io.py] *)

Definition effective_file_size_limit (settings : GatewaySettings) : Z :=
  let soft := max_file_size_bytes settings in
  if soft <=? 0 then MAX_FILE_SIZE_HARD_BYTES else Z.min soft MAX_FILE_SIZE_HARD_BYTES.

Definition file_too_large (size limit : Z) : exn :=
  StatusCodeError 413 ("File too large (" +:+ pretty size +:+ " > " +:+ pretty limit +:+ " bytes).").

Definition check_file_size (content_length : option Z) (settings : GatewaySettings) : outcome unit :=
  let limit := effective_file_size_limit settings in
  match content_length with
  | Some n => if limit <? n then Raise (file_too_large n limit) else Ok tt
  | None => Ok tt
  end.

Definition enforce_byte_limit (size : Z) (settings : GatewaySettings) : outcome unit :=
  let limit := effective_file_size_limit settings in
  if limit <? size then Raise (file_too_large size limit) else Ok tt.

Definition READ_CHUNK_SIZE : Z := 2 ^ 20.

(** [handle.read(n)]: up to [n] elements and what is left. *)
Fixpoint read_chunk {A} (n : Z) (l : list A) : list A * list A :=
  match l with
  | [] => ([], [])
  | x :: l' => if n <=? 0 then ([], l) else let '(c, r) := read_chunk (n - 1) l' in (x :: c, r)
  end.

(** The loop of [iter_bounded_file], the chunks it yields in a list.  A chunk
    is not empty, so the length of the file is fuel enough. *)
Fixpoint bounded_chunks (settings : GatewaySettings) (fuel : nat) (total : Z) (data : list Byte.byte)
  : outcome (list (list Byte.byte)) :=
  match data, fuel with
  | [], _ => Ok []
  | _, O => Diverged
  | _, S fuel =>
      let '(chunk, rest) := read_chunk READ_CHUNK_SIZE data in
      let total := total + Z.of_nat (length chunk) in
      enforce_byte_limit total settings ;;
      chunks ← bounded_chunks settings fuel total rest ;
      Ok (chunk :: chunks)
  end.
Definition iter_bounded_file (settings : GatewaySettings) (data : list Byte.byte)
  : outcome (list (list Byte.byte)) := bounded_chunks settings (length data) 0 data.

Definition read_bounded_file (settings : GatewaySettings) (data : list Byte.byte)
  : outcome (list Byte.byte) :=
  chunks ← iter_bounded_file settings data ; Ok (concat chunks).

(** ** Upload names: [util/upload_paths.py] *)

Fixpoint contains_char (c : Ascii.ascii) (s : string) : bool :=
  match s with EmptyString => false | String d s => Ascii.eqb c d || contains_char c s end.
Fixpoint replace_char (c d : Ascii.ascii) (s : string) : string :=
  match s with
  | EmptyString => ""
  | String x s => String (if Ascii.eqb c x then d else x) (replace_char c d s)
  end.
(** [s.split(c)]: never empty. *)
Fixpoint split_char (c : Ascii.ascii) (s : string) : list string :=
  match s with
  | EmptyString => [""]
  | String x s =>
      if Ascii.eqb c x then "" :: split_char c s
      else match split_char c s with
           | p :: l => String x p :: l
           | [] => [String x ""]
           end
  end.

Definition SLASH : Ascii.ascii := Ascii.ascii_of_nat 47.
Definition BACKSLASH : Ascii.ascii := Ascii.ascii_of_nat 92.
Definition NUL : Ascii.ascii := Ascii.ascii_of_nat 0.

(** [UnsafeUploadNameError] is a [ValueError]. *)
Definition sanitize_client_filename (name : string) : outcome string :=
  if (name ==? "") || is_blank name then Raise (ValueError "upload name is blank")
  else if contains_char NUL name then Raise (ValueError "upload name contains NUL")
  else if startswith name "/" then Raise (ValueError "absolute upload paths are not allowed")
  else if contains_char SLASH name || contains_char BACKSLASH name
       then Raise (ValueError "path separators are not allowed in upload names")
  else
    let normalized := replace_char BACKSLASH SLASH name in
    let parts := List.filter (fun p => p ∉? [""; "."]) (split_char SLASH normalized) in
    if existsb (fun p => p ==? "..") parts then Raise (ValueError "path traversal in upload name")
    else
      let safe := join "/" parts in
      if safe ==? "" then Raise (ValueError "upload name is empty after sanitization") else Ok safe.

(** ** The form *)

Record StagedUpload := mkUpload {
  u_field_name : string;
  u_upload_name : string;
  u_content_type : string;
  u_data : list Byte.byte
}.

Record MultipartPayload := mkMultipart {
  mp_fields : list (string * string);
  mp_uploads : list StagedUpload
}.

(** One entry of [header["uploads"]]. *)
Definition upload_entry (u : StagedUpload) (offset size : Z) : json :=
  JObj [ ("field_name", JStr (u_field_name u)); ("upload_name", JStr (u_upload_name u));
         ("content_type", JStr (u_content_type u)); ("offset", JInt offset); ("size", JInt size) ].

(** The loop over the uploads: header entries and file chunks. *)
Fixpoint pack_uploads (settings : GatewaySettings) (offset : Z) (l : list StagedUpload)
  : outcome (list json * list (list Byte.byte)) :=
  match l with
  | [] => Ok ([], [])
  | u :: l =>
      data ← read_bounded_file settings (u_data u) ;
      let size := Z.of_nat (length data) in
      '(entries, chunks) ← pack_uploads settings (offset + size) l ;
      Ok (upload_entry u offset size :: entries, data :: chunks)
  end.

Definition payload_header (fields : list (string * string)) (entries : list json)
  : list (string * json) :=
  [ ("fields", JArr (map (fun f => JArr [JStr f.1; JStr f.2]) fields)); ("uploads", JArr entries) ].

Definition pack_payload (settings : GatewaySettings) (payload : MultipartPayload)
  : outcome (list Byte.byte) :=
  '(entries, file_chunks) ← pack_uploads settings 0 (mp_uploads payload) ;
  let header := payload_header (mp_fields payload) entries in
  let header_bytes := encode_utf8 (dumps ", " ": " (JObj header)) in
  header_len ← pack_u32 (Z.of_nat (length header_bytes)) ;
  Ok (header_len ++ header_bytes ++ concat file_chunks).

(** [u[key]]: a header that is not shaped as [pack_payload] shapes it raises. *)
Definition item_str (l : list (string * json)) (key : string) : outcome string :=
  match obj_get key l with
  | None => Raise (KeyError key)
  | Some (JStr s) => Ok s
  | Some _ => Raise (OtherException "TypeError")
  end.
Definition item_int (l : list (string * json)) (key : string) : outcome Z :=
  match obj_get key l with
  | None => Raise (KeyError key)
  | Some (JInt z) => Ok z
  | Some _ => Raise (OtherException "TypeError")
  end.
(** [header.get(key, [])]. *)
Definition get_list (l : list (string * json)) (key : string) : outcome (list json) :=
  match obj_get key l with
  | None => Ok []
  | Some (JArr l) => Ok l
  | Some _ => Raise (OtherException "TypeError")
  end.

Fixpoint map_o {A B} (f : A -> outcome B) (l : list A) : outcome (list B) :=
  match l with
  | [] => Ok []
  | x :: l => y ← f x ; ys ← map_o f l ; Ok (y :: ys)
  end.

Definition rebuild_upload (file_data : list Byte.byte) (u : json) : outcome StagedUpload :=
  match u with
  | JObj u =>
      offset ← item_int u "offset" ;
      size ← item_int u "size" ;
      let data := py_slice file_data offset (offset + size) in
      client_name ← (match obj_get "upload_name" u with
                     | None => Ok "upload"
                     | Some (JStr s) => Ok s
                     | Some _ => Raise (OtherException "TypeError")
                     end) ;
      safe_name ← sanitize_client_filename client_name ;
      field_name ← item_str u "field_name" ;
      content_type ← item_str u "content_type" ;
      Ok (mkUpload field_name safe_name content_type data)
  | _ => Raise (OtherException "TypeError")
  end.

Definition rebuild_field (f : json) : outcome (string * string) :=
  match f with
  | JArr [JStr k; JStr v] => Ok (k, v)
  | _ => Raise (OtherException "TypeError")
  end.

Definition rebuild_header (header : list (string * json)) (file_data : list Byte.byte)
  : outcome (option MultipartPayload) :=
  entries ← get_list header "uploads" ;
  uploads ← map_o (rebuild_upload file_data) entries ;
  fs ← get_list header "fields" ;
  fields ← map_o rebuild_field fs ;
  Ok (Some (mkMultipart fields uploads)).

(** [_rebuild_payload] from the blob on: [None] for a blob that is too short. *)
Definition rebuild_blob (blob : list Byte.byte) : outcome (option MultipartPayload) :=
  if Z.of_nat (length blob) <? 4 then Ok None
  else
    let header_len := unpack_u32 (py_slice blob 0 4) in
    match decode_utf8 (py_slice blob 4 (4 + header_len)) with
    | None => Raise (ValueError "UnicodeDecodeError")
    | Some text =>
        match loads text with
        | None => Raise (JSONDecodeError "JSONDecodeError")
        | Some (JObj header) =>
            rebuild_header header (py_slice blob (4 + header_len) (Z.of_nat (length blob)))
        | Some _ => Raise (AttributeError "get")
        end
    end.

(** ** Bytes: round trips *)

Lemma Z_of_byte_of_Z z : 0 <= z < 256 -> Z_of_byte (byte_of_Z z) = z.
Proof.
  intros Hz. unfold byte_of_Z, Z_of_byte. destruct (Byte.of_N (Z.to_N z)) as [b|] eqn:E.
  - apply Byte.to_of_N in E. rewrite E. lia.
  - apply Byte.of_N_None_iff in E. lia.
Qed.

Lemma unpack_pack_u32 n l : pack_u32 n = Ok l -> unpack_u32 l = n /\ length l = 4%nat.
Proof.
  unfold pack_u32. destruct (_ && _) eqn:E; [|done]. bool_hyps. intros [= <-]. split; [|done].
  unfold unpack_u32. cbn [foldl]. change 255 with (Z.ones 8).
  rewrite !Z.land_ones, !Z.shiftr_div_pow2, !Z.shiftl_mul_pow2 by lia.
  assert (n / 2 ^ 24 < 256) by (apply Z.div_lt_upper_bound; lia).
  pose proof (Z.div_pos n (2 ^ 24) ltac:(lia) ltac:(lia)).
  pose proof (Z.mod_pos_bound (n / 2 ^ 16) (2 ^ 8) ltac:(lia)).
  pose proof (Z.mod_pos_bound (n / 2 ^ 8) (2 ^ 8) ltac:(lia)).
  pose proof (Z.mod_pos_bound n (2 ^ 8) ltac:(lia)).
  rewrite !Z_of_byte_of_Z by lia.
  pose proof (Z.div_mod (n / 2 ^ 16) (2 ^ 8) ltac:(lia)) as E1.
  pose proof (Z.div_mod (n / 2 ^ 8) (2 ^ 8) ltac:(lia)) as E2.
  pose proof (Z.div_mod n (2 ^ 8) ltac:(lia)) as E3.
  rewrite !Z.div_div in E1, E2 by lia. change (2 ^ 16 * 2 ^ 8) with (2 ^ 24) in *.
  change (2 ^ 8 * 2 ^ 8) with (2 ^ 16) in *. lia.
Qed.

Lemma decode_encode_char c l : decode_utf8 (encode_char c ++ l) = String c <$> decode_utf8 l.
Proof. destruct c as [[] [] [] [] [] [] [] []]; reflexivity. Qed.

Lemma decode_encode s : decode_utf8 (encode_utf8 s) = Some s.
Proof.
  induction s as [|c s IH]; [done|]. cbn [encode_utf8]. by rewrite decode_encode_char, IH.
Qed.

Lemma py_slice_app {A} (a b c : list A) i j :
  i = Z.of_nat (length a) -> j = i + Z.of_nat (length b) -> py_slice (a ++ b ++ c) i j = b.
Proof.
  intros -> ->. unfold py_slice, clamp_index. rewrite !length_app.
  rewrite !(proj2 (Z.ltb_ge _ _)) by lia. rewrite !Z.min_l by lia.
  rewrite Nat2Z.id, drop_app_length.
  replace (Z.to_nat _) with (length b) by lia. apply take_app_length.
Qed.

Lemma py_slice_suffix {A} (a b : list A) i :
  i = Z.of_nat (length a) -> py_slice (a ++ b) i (Z.of_nat (length (a ++ b))) = b.
Proof.
  intros Hi. rewrite <- (app_nil_r b) at 1. apply py_slice_app; [done|]. rewrite length_app. lia.
Qed.

(** ** Bounded reads *)

Lemma read_chunk_app {A} n (l : list A) c r :
  read_chunk n l = (c, r) -> l = c ++ r /\ (0 < n -> l <> [] -> c <> []).
Proof.
  revert n c r; induction l as [|x l IH]; cbn; intros n c r E; [injection E as <- <-; done|].
  destruct (Z.leb_spec n 0); [injection E as <- <-; split; [done|lia]|].
  destruct (read_chunk (n - 1) l) as [c' r'] eqn:E'. injection E as <- <-.
  apply IH in E' as [-> _]. done.
Qed.

(** Reading enforces the limit on the whole, and returns the file unchanged. *)
Lemma bounded_chunks_spec settings fuel total data : (length data <= fuel)%nat -> 0 <= total ->
  let limit := effective_file_size_limit settings in
  match bounded_chunks settings fuel total data with
  | Ok chunks => concat chunks = data /\
      (data = [] \/ total + Z.of_nat (length data) <= limit)
  | Raise e => limit < total + Z.of_nat (length data) /\
      exists size, e = file_too_large size limit
  | Diverged => False
  end.
Proof.
  intros Hf Ht. cbv zeta. revert total data Hf Ht; induction fuel as [|fuel IH];
    intros total [|b data] Hf Ht; cbn [bounded_chunks]; try (cbn in Hf; lia); try by auto.
  destruct (read_chunk READ_CHUNK_SIZE (b :: data)) as [c r] eqn:E.
  apply read_chunk_app in E as [Hd Hc]. specialize (Hc ltac:(done) ltac:(done)).
  assert (Hlen : (0 < length c)%nat) by (destruct c; [done|cbn; lia]).
  rewrite Hd, length_app in Hf |- *. unfold enforce_byte_limit.
  destruct (Z.ltb_spec (effective_file_size_limit settings) (total + Z.of_nat (length c)));
    cbn [mbind outcome_bind].
  - split; [lia|eauto].
  - specialize (IH (total + Z.of_nat (length c)) r ltac:(lia) ltac:(lia)).
    destruct (bounded_chunks _ _ _ r) as [chunks|e|]; cbn; [|destruct IH as [? ?]; split; [lia|done]|done].
    destruct IH as [<- [Hr|Hr]]; split; try done; right; [rewrite Hr; cbn|]; lia.
Qed.

Lemma limit_pos settings : 0 < effective_file_size_limit settings.
Proof.
  unfold effective_file_size_limit, MAX_FILE_SIZE_HARD_BYTES.
  destruct (Z.leb_spec (max_file_size_bytes settings) 0); lia.
Qed.

Lemma read_bounded_ok settings data d :
  read_bounded_file settings data = Ok d ->
  d = data /\ Z.of_nat (length data) <= effective_file_size_limit settings.
Proof.
  unfold read_bounded_file, iter_bounded_file. intros E.
  pose proof (bounded_chunks_spec settings (length data) 0 data ltac:(lia) ltac:(lia)) as Hs. cbv zeta in Hs.
  destruct (bounded_chunks _ _ _ _) as [chunks|e|]; [|done..]. cbn in E. injection E as <-.
  destruct Hs as [Hc Hs]. split; [done|].
  destruct Hs as [->|?]; [cbn; pose proof (limit_pos settings); lia|lia].
Qed.

(** ** Names *)

Lemma split_char_none c s : contains_char c s = false -> split_char c s = [s].
Proof.
  induction s as [|x s IH]; cbn; [done|]. intros [E1 E2]%orb_false_iff. rewrite E1, IH by done. done.
Qed.

Lemma replace_char_none c d s : contains_char c s = false -> replace_char c d s = s.
Proof.
  induction s as [|x s IH]; cbn; [done|]. intros [E1 E2]%orb_false_iff. by rewrite E1, IH.
Qed.

(** A name is accepted as it is or rejected, never rewritten. *)
Lemma sanitize_id name safe : sanitize_client_filename name = Ok safe -> safe = name.
Proof.
  unfold sanitize_client_filename.
  destruct (_ || is_blank name); [done|]. destruct (contains_char NUL name); [done|].
  destruct (startswith name "/"); [done|].
  destruct (contains_char SLASH name || contains_char BACKSLASH name) eqn:E; [done|].
  apply orb_false_iff in E as [E1 E2]. rewrite replace_char_none, split_char_none by done.
  cbn. destruct (name ∉? [""; "."]); cbn; [|done].
  destruct (name ==? ".."); cbn; [done|]. case_bool_decide; [done|]. by intros [= ->].
Qed.

(** ** The round trip *)

Definition names_safe (p : MultipartPayload) : Prop :=
  Forall (fun u => sanitize_client_filename (u_upload_name u) = Ok (u_upload_name u)) (mp_uploads p).

Lemma rebuild_upload_entry u file_data offset size :
  sanitize_client_filename (u_upload_name u) = Ok (u_upload_name u) ->
  py_slice file_data offset (offset + size) = u_data u ->
  rebuild_upload file_data (upload_entry u offset size) = Ok u.
Proof.
  intros Hs Hd. unfold rebuild_upload, upload_entry. set (l := [_; _; _; _; _]).
  change (item_int l "offset") with (Ok offset). change (item_int l "size") with (Ok size).
  change (obj_get "upload_name" l) with (Some (JStr (u_upload_name u))).
  change (item_str l "field_name") with (Ok (u_field_name u)).
  change (item_str l "content_type") with (Ok (u_content_type u)).
  cbn -[sanitize_client_filename py_slice]. rewrite Hs. cbn -[py_slice]. rewrite Hd. by destruct u.
Qed.

Lemma rebuild_pack_uploads settings prefix l entries chunks :
  Forall (fun u => sanitize_client_filename (u_upload_name u) = Ok (u_upload_name u)) l ->
  pack_uploads settings (Z.of_nat (length prefix)) l = Ok (entries, chunks) ->
  map_o (rebuild_upload (prefix ++ concat chunks)) entries = Ok l.
Proof.
  revert prefix entries chunks; induction l as [|u l IH]; intros prefix entries chunks Hl; cbn.
  { by intros [= <- <-]. }
  apply Forall_cons in Hl as [Hu Hl].
  destruct (read_bounded_file settings (u_data u)) as [data|e|] eqn:Er; cbn; [|done..].
  apply read_bounded_ok in Er as [-> _].
  rewrite <- Nat2Z.inj_add, <- length_app.
  destruct (pack_uploads settings _ l) as [[es cs]|e|] eqn:Ep; cbn; [|done..].
  intros [= <- <-]. cbn [map_o concat].
  rewrite rebuild_upload_entry; [|done|by apply py_slice_app].
  cbn. rewrite app_assoc. by rewrite (IH (prefix ++ u_data u) es cs Hl Ep).
Qed.

Lemma map_o_fields l : map_o rebuild_field (map (fun f => JArr [JStr f.1; JStr f.2]) l) = Ok l.
Proof. induction l as [|[k v] l IH]; cbn; [done|]. by rewrite IH. Qed.

Lemma rebuild_layout hl hb data text header :
  length hl = 4%nat -> unpack_u32 hl = Z.of_nat (length hb) ->
  decode_utf8 hb = Some text -> loads text = Some (JObj header) ->
  rebuild_blob (hl ++ hb ++ data) = rebuild_header header data.
Proof.
  intros Hlen Hun Hd Hl. unfold rebuild_blob.
  rewrite (proj2 (Z.ltb_ge _ _)) by (rewrite !length_app; lia).
  replace (py_slice (hl ++ hb ++ data) 0 4) with hl
    by (symmetry; apply (py_slice_app [] hl (hb ++ data)); cbn; lia).
  rewrite Hun. cbv zeta. rewrite py_slice_app by lia. rewrite Hd, Hl.
  by rewrite app_assoc, py_slice_suffix by (rewrite length_app; lia).
Qed.

Lemma rebuild_pack settings p blob : names_safe p ->
  pack_payload settings p = Ok blob -> rebuild_blob blob = Ok (Some p).
Proof.
  intros Hn. unfold pack_payload.
  destruct (pack_uploads settings 0 (mp_uploads p)) as [[entries chunks]|e|] eqn:Ep; [|done..].
  cbn [mbind outcome_bind]. cbv zeta.
  destruct (pack_u32 _) as [hl|e|] eqn:Eu; [|done..]. cbn [mbind outcome_bind]. intros Hb.
  assert (Hb' : blob = hl ++ encode_utf8 (dumps ", " ": " (JObj (payload_header (mp_fields p) entries)))
                  ++ concat chunks) by congruence.
  subst blob. clear Hb.
  apply unpack_pack_u32 in Eu as [Hun Hlen].
  erewrite rebuild_layout; [|done|done|apply decode_encode|apply loads_dumps_default].
  unfold rebuild_header. set (l := payload_header _ _).
  change (get_list l "uploads") with (Ok entries).
  change (get_list l "fields") with (Ok (map (fun f => JArr [JStr f.1; JStr f.2]) (mp_fields p))).
  pose proof (rebuild_pack_uploads settings [] (mp_uploads p) entries chunks Hn Ep) as Hr.
  cbn [app] in Hr. cbn -[map_o rebuild_upload]. rewrite Hr. cbn -[map_o].
  rewrite map_o_fields. cbn. by destruct p.
Qed.

(** Rebuilding always returns or raises. *)
Lemma bind_returns {A B} (o : outcome A) (f : A -> outcome B) :
  o <> Diverged -> (forall a, f a <> Diverged) -> (o ≫= f) <> Diverged.
Proof. destruct o; cbn; auto. Qed.

Lemma map_o_returns {A B} (f : A -> outcome B) l : (forall x, f x <> Diverged) -> map_o f l <> Diverged.
Proof.
  intros Hf. induction l as [|x l IH]; cbn [map_o]; [done|].
  apply bind_returns; [apply Hf|]. intros y. by apply bind_returns.
Qed.

Lemma sanitize_returns s : sanitize_client_filename s <> Diverged.
Proof. unfold sanitize_client_filename. repeat case_match; try done. Qed.

Lemma rebuild_blob_returns blob : rebuild_blob blob <> Diverged.
Proof.
  assert (Hitem : forall l k, item_str l k <> Diverged /\ item_int l k <> Diverged /\ get_list l k <> Diverged).
  { intros l k. unfold item_str, item_int, get_list. repeat split; by repeat case_match. }
  unfold rebuild_blob. case_match; [done|]. case_match; [|done]. case_match; [|done].
  case_match; try done. unfold rebuild_header.
  repeat (apply bind_returns; [|intros ?]); try apply Hitem; try done; apply map_o_returns.
  - intros [| | | | |u]; try done. unfold rebuild_upload.
    repeat (apply bind_returns; [|intros ?]); try apply Hitem; try apply sanitize_returns; try done.
    by repeat case_match.
  - intros f. unfold rebuild_field. by repeat case_match.
Qed.
