(* ===== verification/PyText.v ===== *)
(** * PyText: the Python text and time functions the gateway uses

    [str.strip], [in], [rfind], [int(str)], [pathlib] stems and suffixes,
    [str(uuid)], and [util/datetime.py to_iso], on strings of code points below
    256. *)
From S2P Require Import Prelude Models Config Json Payload.

(** ** Strings *)

Fixpoint lstrip (s : string) : string :=
  match s with String c s' => if is_space c then lstrip s' else s | EmptyString => "" end.
(** [s.rstrip()]: a blank rest is dropped. *)
Fixpoint rstrip (s : string) : string :=
  match s with
  | EmptyString => ""
  | String c s' => if is_blank s then "" else String c (rstrip s')
  end.
Definition strip (s : string) : string := rstrip (lstrip s).

(** [p in s]. *)
Fixpoint contains_str (p s : string) : bool :=
  String.prefix p s || match s with String _ s => contains_str p s | EmptyString => false end.

(** [s.rfind(c)]: [None] for -1. *)
Fixpoint rfind (c : Ascii.ascii) (s : string) : option nat :=
  match s with
  | EmptyString => None
  | String d s => match rfind c s with
                  | Some i => Some (S i)
                  | None => if Ascii.eqb c d then Some 0%nat else None
                  end
  end.

(** [PurePath.suffix] and [PurePath.stem] of a name without separators. *)
Definition DOT : Ascii.ascii := Ascii.ascii_of_nat 46.
Definition split_suffix (name : string) : string * string :=
  match rfind DOT name with
  | Some i => if (0 <? i)%nat && (i <? String.length name - 1)%nat
              then (String.substring 0 i name, String.substring i (String.length name - i) name)
              else (name, "")
  | None => (name, "")
  end.
Definition path_stem (name : string) : string := (split_suffix name).1.
Definition path_suffix (name : string) : string := (split_suffix name).2.

(** The value of a decimal literal: digits with single underscores between. *)
Definition digit_value (c : Ascii.ascii) : option Z :=
  let n := Z.of_nat (Ascii.nat_of_ascii c) in
  if (48 <=? n) && (n <=? 57) then Some (n - 48) else None.
Fixpoint decimal (acc : option Z) (s : string) : option Z :=
  match s, acc with
  | EmptyString, _ => acc
  | String c s', _ =>
      match digit_value c with
      | Some d => decimal (Some (10 * default 0 acc + d)) s'
      | None => if Ascii.eqb c (Ascii.ascii_of_nat 95) && not_none acc then
                  match s' with
                  | String c' _ => if not_none (digit_value c') then decimal acc s' else None
                  | EmptyString => None
                  end
                else None
      end
  end.

(** [int(s)]: [None] is a [ValueError].  More than 4300 digits are refused. *)
Definition py_int (s : string) : option Z :=
  let s := strip s in
  let digits := match s with
                | String c s' => if Ascii.eqb c (Ascii.ascii_of_nat 43) || Ascii.eqb c (Ascii.ascii_of_nat 45)
                                 then s' else s
                | EmptyString => ""
                end in
  let count := length (List.filter (fun c => not_none (digit_value c)) (String.list_ascii_of_string digits)) in
  if (4300 <? count)%nat then None
  else (if startswith s "-" then Z.opp else id) <$> decimal None digits.

(** [str(uuid)] from its 32 hexadecimal digits. *)
Definition uuid_str (hex : string) : string :=
  String.substring 0 8 hex +:+ "-" +:+ String.substring 8 4 hex +:+ "-" +:+ String.substring 12 4 hex
  +:+ "-" +:+ String.substring 16 4 hex +:+ "-" +:+ String.substring 20 12 hex.

(** ** Times *)

(** The civil date of a day number (1970-01-01 is day 0), proleptic Gregorian. *)
Definition civil_of_days (days : Z) : Z * Z * Z :=
  let z := days + 719468 in
  let era := z / 146097 in
  let doe := z mod 146097 in
  let yoe := (doe - doe / 1460 + doe / 36524 - doe / 146096) / 365 in
  let doy := doe - (365 * yoe + yoe / 4 - yoe / 100) in
  let mp := (5 * doy + 2) / 153 in
  let d := doy - (153 * mp + 2) / 5 + 1 in
  let m := if mp <? 10 then mp + 3 else mp - 9 in
  (yoe + era * 400 + (if m <=? 2 then 1 else 0), m, d).

Fixpoint zeros (n : nat) : string := match n with O => "" | S n => "0" +:+ zeros n end.
Definition pad (width : nat) (z : Z) : string :=
  let s := print_int z in zeros (width - String.length s) +:+ s.

(** [datetime.isoformat()] of a UTC time; microseconds only when there are. *)
Definition isoformat (t : time) : string :=
  let '(y, m, d) := civil_of_days (t / 86400000000) in
  let us := t mod 86400000000 in
  let s := us / 1000000 in
  pad 4 y +:+ "-" +:+ pad 2 m +:+ "-" +:+ pad 2 d +:+ "T"
  +:+ pad 2 (s / 3600) +:+ ":" +:+ pad 2 (s / 60 mod 60) +:+ ":" +:+ pad 2 (s mod 60)
  +:+ (if us mod 1000000 =? 0 then "" else "." +:+ pad 6 (us mod 1000000)) +:+ "+00:00".

Definition to_iso (t : option time) : option string := isoformat <$> t.

Example isoformat_epoch : isoformat 0 = "1970-01-01T00:00:00+00:00".
Proof. vm_compute. reflexivity. Qed.
Example isoformat_leap : isoformat 951827696000123 = "2000-02-29T12:34:56.000123+00:00".
Proof. vm_compute. reflexivity. Qed.
Example isoformat_2027 : isoformat 1800000000000000 = "2027-01-15T08:00:00+00:00".
Proof. vm_compute. reflexivity. Qed.
Example py_int_examples :
  map py_int [" 12 "; "+1_000"; "-7"; "1__0"; "_1"; "1_"; ""; "12a"; "-"] =
  [Some 12; Some 1000; Some (-7); None; None; None; None; None; None].
Proof. vm_compute. reflexivity. Qed.
Example path_examples :
  map split_suffix ["a.pdf"; "a.b.c"; ".bashrc"; "a."; "noext"] =
  [("a", ".pdf"); ("a.b", ".c"); (".bashrc", ""); ("a.", ""); ("noext", "")].
Proof. vm_compute. reflexivity. Qed.

(** ** Facts *)

(** A stem and a suffix make up the name. *)
Lemma substring_split (s : string) (i : nat) : (i <= String.length s)%nat ->
  String.substring 0 i s +:+ String.substring i (String.length s - i) s = s.
Proof.
  revert i; induction s as [|c s IH]; intros [|i] Hi; cbn in *; [done|lia| |].
  - by rewrite string_substring_all.
  - rewrite string_app_cons. f_equal. apply IH. lia.
Qed.

Lemma split_suffix_app name : path_stem name +:+ path_suffix name = name.
Proof.
  unfold path_stem, path_suffix, split_suffix. destruct (rfind DOT name) as [i|]; [|apply string_app_nil].
  destruct (_ && _) eqn:E; [|apply string_app_nil]. cbn. apply andb_true_iff in E as [_ E].
  apply Nat.ltb_lt in E. apply substring_split. lia.
Qed.
