(* ===== verification/S3.v ===== *)
(** * S3: [cloud/aws/s3.py], the bucket behind the object store interface

    The aioboto3 client is third-party: its operations on the configured bucket
    are a class, with the behaviour S3 documents.  [S3ObjectStore] wraps them;
    the instance [s3_object_store] discharges the interface the task and cache
    components are proved against.  A body is the bytes it carries; content
    types and user metadata are not kept in the bucket of the world. *)
From S2P Require Import Prelude Models World Database Logic Hoare Payload Storage.

(** The fields of a [head_object] response the code reads. *)
Record HeadResponse := mkHead {
  h_content_length : option Z;
  h_content_type : option string;
  h_metadata : option (gmap string string);
  h_last_modified : option Z
}.

(** [s3_iter_chunks] is [None] for a body without a chunked read. *)
Class S3Client := {
  s3_head_bucket : M unit;
  s3_put_object : string -> list Byte.byte -> M unit;
  s3_get_object : string -> M (list Byte.byte);
  s3_iter_chunks : string -> Z -> M (option (list (list Byte.byte)));
  s3_head_object : string -> M HeadResponse;
  s3_delete_object : string -> M unit;
  s3_copy_object : string -> string -> M unit;

  s3_head_bucket_data : evolves same_data s3_head_bucket;
  s3_put_db key body : evolves same_db (s3_put_object key body);
  s3_get_data key : evolves same_data (s3_get_object key);
  s3_iter_chunks_data key n : evolves same_data (s3_iter_chunks key n);
  s3_head_data key : evolves same_data (s3_head_object key);
  s3_delete_db key : evolves same_db (s3_delete_object key);
  s3_copy_db src dst : evolves same_db (s3_copy_object src dst);

  s3_put_effect key body w : let '(o, w') := s3_put_object key body w in
    objects w' = <[key := body]> (objects w) \/ is_ok o = false /\ objects w' = objects w;
  s3_get_effect key w body w' : s3_get_object key w = (Ok body, w') -> objects w !! key = Some body;
  s3_iter_chunks_effect key n w l w' :
    s3_iter_chunks key n w = (Ok (Some l), w') -> objects w !! key = Some (concat l);
  s3_head_effect key w h w' : s3_head_object key w = (Ok h, w') -> is_Some (objects w !! key);
  s3_delete_effect key w : let '(o, w') := s3_delete_object key w in
    objects w' = delete key (objects w) \/ is_ok o = false /\ objects w' = objects w;
  s3_copy_effect src dst w : let '(o, w') := s3_copy_object src dst w in
    (exists body, objects w !! src = Some body /\ objects w' = <[dst := body]> (objects w)) \/
    is_ok o = false /\ objects w' = objects w
}.

Definition MISSING_OBJECT_CODES : list string := ["404"; "NoSuchKey"].
Definition MISSING_BUCKET_CODES : list string := ["404"; "NoSuchBucket"].
Definition AUTH_ERROR_CODES : list string := ["403"; "AccessDenied"].

Module S3ObjectStore.
(** What the store is built with; its session and client are the class
    [S3Client]. *)
Record t := mkS3ObjectStore {
  store_bucket : string;
  store_endpoint_url : option string;
  store_region : string
}.

Section store.
Context `{S3Client}.

Definition classify_s3_prepare_error (code message : string) : exn :=
  if code ∈? AUTH_ERROR_CODES then CloudError Category.AUTH code message false
  else if code ∈? MISSING_BUCKET_CODES then CloudError Category.NOT_FOUND code message false
  else CloudError Category.UNKNOWN code message false.

Definition prepare : M unit :=
  try_ s3_head_bucket (fun e =>
    match e with
    | ClientError code message => raise (classify_s3_prepare_error code message)
    | e => raise e
    end).

Definition put (key : string) (data : list Byte.byte) : M Z :=
  s3_put_object key data ;; mret (Z.of_nat (length data)).

(** The [except ClientError] of [get], [stream] and [head]. *)
Definition missing_key {A} (key : string) (e : exn) : M A :=
  match e with
  | ClientError code message =>
      if code ∈? MISSING_OBJECT_CODES then raise (KeyError key) else raise e
  | e => raise e
  end.

Definition get (key : string) : M (list Byte.byte) := try_ (s3_get_object key) (missing_key key).

(** [for offset in range(0, len(data), chunk_size): yield data[offset:offset+chunk_size]]. *)
Definition slices {A} (chunk_size : Z) (data : list A) : list (list A) :=
  (fun i => py_slice data (Z.of_nat i * chunk_size) (Z.of_nat i * chunk_size + chunk_size))
    <$> seq 0 (Z.to_nat ((Z.of_nat (length data) + chunk_size - 1) / chunk_size)).

(** The chunks of the generator, in a list; [chunk_size] is positive. *)
Definition stream (key : string) (chunk_size : Z) : M (list (list Byte.byte)) :=
  try_ (chunks ← s3_iter_chunks key chunk_size ;
        match chunks with
        | Some chunks => mret chunks
        | None => data ← s3_get_object key ; mret (slices chunk_size data)
        end) (missing_key key).

Definition exists_ (key : string) : M bool :=
  try_ (_ ← s3_head_object key ; mret true)
    (fun e => match e with
     | ClientError code message => if code ∈? MISSING_OBJECT_CODES then mret false else raise e
     | e => raise e
     end).

Definition delete_ (key : string) : M bool := s3_delete_object key ;; mret true.

Definition copy (source destination : string) : M unit := s3_copy_object source destination.

(** The dict of four entries; [metadata] defaults to [{}]. *)
Definition head_ (key : string) : M HeadResponse :=
  try_ (resp ← s3_head_object key ;
        mret (mkHead (h_content_length resp) (h_content_type resp)
                (Some (default ∅ (h_metadata resp))) (h_last_modified resp)))
       (missing_key key).

(** ** Lemmas *)

Lemma missing_key_data {A} key e : evolves same_data (missing_key (A:=A) key e).
Proof. unfold missing_key. evolve. Qed.

Lemma get_data key : evolves same_data (get key).
Proof. unfold get. evolve; [apply s3_get_data|]. all: intros; apply missing_key_data. Qed.

Lemma py_slice_nonneg {A} (data : list A) a n : 0 <= a -> 0 <= n ->
  py_slice data a (a + n) = take (Z.to_nat n) (drop (Z.to_nat a) data).
Proof.
  intros Ha Hn. unfold py_slice, clamp_index. rewrite !(proj2 (Z.ltb_ge _ 0)) by lia.
  destruct (Z.le_gt_cases a (Z.of_nat (length data))) as [Hle|Hgt].
  - rewrite (Z.min_l a) by lia. destruct (Z.le_gt_cases (a + n) (Z.of_nat (length data))).
    + f_equal. lia.
    + rewrite !firstn_all2; [done|rewrite length_drop; lia..].
  - rewrite !drop_ge by lia. by rewrite !take_nil.
Qed.

(** The slices of a positive size make up the data. *)
Lemma slices_take {A} n (data : list A) k : 0 < n ->
  concat ((fun i => py_slice data (Z.of_nat i * n) (Z.of_nat i * n + n)) <$> seq 0 k)
  = take (Z.to_nat (Z.of_nat k * n)) data.
Proof.
  intros Hn. induction k as [|k IH]; [done|].
  rewrite seq_S, fmap_app, concat_app, IH. cbn [fmap list_fmap concat]. rewrite app_nil_r.
  rewrite py_slice_nonneg by lia. cbn [Nat.add]. rewrite take_take_drop. f_equal. lia.
Qed.

Lemma slices_concat {A} n (data : list A) : 0 < n -> concat (slices n data) = data.
Proof.
  intros Hn. unfold slices. rewrite slices_take by done. apply firstn_all2.
  set (l := Z.of_nat (length data)). pose proof (Z.div_mod (l + n - 1) n ltac:(lia)).
  pose proof (Z.mod_pos_bound (l + n - 1) n Hn). pose proof (Z.div_pos (l + n - 1) n ltac:(lia) Hn).
  rewrite Z2Nat.id by lia. apply Nat2Z.inj_le. rewrite Z2Nat.id by nia. fold l. lia.
Qed.
End store.
End S3ObjectStore.

(** ** The interface is implemented *)

#[export] Program Instance s3_object_store `{S3Client} : ObjectStore := {|
  store_put := S3ObjectStore.put; store_get := S3ObjectStore.get;
  store_delete := S3ObjectStore.delete_; store_copy := S3ObjectStore.copy |}.
Next Obligation. intros. unfold S3ObjectStore.put. evolve. apply s3_put_db. Qed.
Next Obligation. intros. apply S3ObjectStore.get_data. Qed.
Next Obligation. intros. unfold S3ObjectStore.delete_. evolve. apply s3_delete_db. Qed.
Next Obligation. intros. apply s3_copy_db. Qed.
Next Obligation.
  intros ? key data w. pose proof (s3_put_effect key data w) as He.
  unfold S3ObjectStore.put. rewrite bind_unfold. destruct (s3_put_db key data w) as [Hd _].
  destruct (s3_put_object key data w) as [[[]|e|] w']; cbn in *; [| |done].
  - split; [|done]. by destruct He as [|[]].
  - destruct He as [|[]]; auto.
Qed.
Next Obligation.
  intros ? key w. unfold S3ObjectStore.get, try_. destruct (s3_get_data key w) as [Hd _].
  destruct (s3_get_object key w) as [[body|e|] w'] eqn:E; [by eapply s3_get_effect| |done].
  unfold S3ObjectStore.missing_key. destruct e; try done. cbn. by destruct (_ ∈? _).
Qed.
Next Obligation.
  intros ? key w. pose proof (s3_delete_effect key w) as He.
  unfold S3ObjectStore.delete_. rewrite bind_unfold. destruct (s3_delete_db key w) as [Hd _].
  destruct (s3_delete_object key w) as [[[]|e|] w']; cbn in *; [| |done]; destruct He as [|[]]; auto; done.
Qed.
Next Obligation.
  intros ? src dst w. pose proof (s3_copy_effect src dst w) as He.
  unfold S3ObjectStore.copy. destruct (s3_copy_db src dst w) as [Hd _].
  destruct (s3_copy_object src dst w) as [[[]|e|] w']; cbn in *; [| |done]; destruct He as [|[]]; auto; done.
Qed.
