(* ===== verification/Upstream.v ===== *)
(** * Upstream: the worker's HTTP interface

    [httpx] and MinerU are third-party: a GET and a submission are operations
    of the environment, assumed only to return or raise without touching the
    database or the bucket.  [scheduler/_http.py] is the wrapper the scheduler
    uses.  A response carries its decoded JSON body, [None] when decoding
    raises [JSONDecodeError]. *)
From S2P Require Import Prelude Models World Database Logic Hoare Json Payload Status.

Record Response := mkResponse {
  r_status : Z;
  r_content : list Byte.byte;
  r_json : option json
}.

Class Http `{Env} := {
  http_get : string -> M Response;
  http_get_data url : evolves same_data (http_get url)
}.

(** [mineru.cli.router.submit_payload_to_upstream]: the upstream task id and
    status. *)
Class MinerU `{Env} := {
  submit_payload_to_upstream : string -> MultipartPayload -> M (string * string);
  submit_data url p : evolves same_data (submit_payload_to_upstream url p)
}.
#[export] Hint Resolve http_get_data submit_data : evolve.

(** [resp.raise_for_status()]: any status outside 2xx raises. *)
Definition raise_for_status (r : Response) : M unit :=
  if (200 <=? r_status r) && (r_status r <? 300) then mret tt
  else raise (HTTPStatusError (r_status r) "status error").

(** [httpx.HTTPError] and its subclasses, and [ValueError]. *)
Definition is_http_error (e : exn) : bool :=
  match e with
  | HTTPStatusError _ _ | TimeoutException _ | ConnectError _ | RemoteProtocolError _
  | OtherHTTPError _ => true
  | _ => false
  end.
Definition is_value_error (e : exn) : bool :=
  match e with ValueError _ | JSONDecodeError _ => true | _ => false end.

(** [resp.json()]. *)
Definition resp_json (r : Response) : M json :=
  match r_json r with
  | Some j => mret j
  | None => raise (JSONDecodeError "JSONDecodeError")
  end.

Definition worker_json_get `{Http} (url : string) : M (option json) :=
  try_ (resp ← http_get url ; raise_for_status resp ;; j ← resp_json resp ; mret (Some j))
       (fun e => if is_http_error e || is_value_error e then mret None else raise e).

(** The status report as [apply_upstream_payload] reads it; [None] for a body
    it raises on.  A status that is not a string maps to no internal status,
    exactly as a null. *)
Definition report_of_json (j : json) : option upstream_payload :=
  match j with
  | JObj l =>
      status ← (match obj_get "status" l with
                | None => Some None
                | Some (JStr s) => Some (Some (Some s))
                | Some (JNull | JBool _ | JInt _) => Some (Some None)
                | Some _ => None
                end) ;
      backend ← (match obj_get "backend" l with
                 | None => Some None
                 | Some (JStr s) => Some (Some s)
                 | Some _ => None
                 end) ;
      file_names ← (match obj_get "file_names" l with
                    | None => Some None
                    | Some (JArr names) =>
                        names ← mapM (fun n => match n with JStr s => Some s | _ => None end) names ;
                        Some (Some names)
                    | Some _ => None
                    end) ;
      error ← (match obj_get "error" l with
               | None => Some None
               | Some (JStr s) => Some (Some (Some s))
               | Some JNull => Some (Some None)
               | Some _ => None
               end) ;
      Some (mkPayload status backend file_names error)
  | _ => None
  end.

Section data.
Context `{Http}.

Lemma worker_json_get_data url : evolves same_data (worker_json_get url).
Proof. unfold worker_json_get, raise_for_status, resp_json. evolve. Qed.
End data.
#[export] Hint Resolve worker_json_get_data : evolve.
