(* ===== verification/WorkerRepository.v ===== *)
(** * WorkerRepository: [scheduler/worker_repository.py] and [util/ids.py]

    The SQL clauses are boolean predicates on a row (and, for correlated
    subqueries, on the world); the repository's methods are operations of the
    monad, each session ending in at most one commit. *)
From S2P Require Import Prelude Models CloudTypes Config Scaling World Database Logic Hoare Status.

Definition RETRY_SECONDS : list Z := [5; 15; 30; 60; 120].
Definition RETRY_CAP_SECONDS : Z := 300.

(** [l[i]]: a negative index counts from the end; [None] is IndexError. *)
Definition py_index {A} (l : list A) (i : Z) : option A :=
  if 0 <=? i then l !! Z.to_nat i
  else if 0 <=? Z.of_nat (length l) + i then l !! Z.to_nat (Z.of_nat (length l) + i)
  else None.

Definition retry_delay (failure_count : Z) : option Z :=
  if failure_count <=? Z.of_nat (length RETRY_SECONDS)
  then py_index RETRY_SECONDS (failure_count - 1)
  else Some RETRY_CAP_SECONDS.

(** [util/ids.py]. *)
Definition SHORT_ID_LENGTH : nat := 12.
Definition short_id `{Env} : M string :=
  h ← uuid4_hex ; mret (String.substring 0 SHORT_ID_LENGTH h).
Definition worker_id `{Env} : M string := s ← short_id ; mret ("cloud-" +:+ s).

(** [Worker(id=..., provider=..., deployment_id=..., desired_state=...,
    cloud_state=...)]: the other columns take their defaults; [created_at] and
    [updated_at] are set when the row is inserted. *)
Definition Worker_new (id provider deployment_id desired_state cloud_state : string) : Worker :=
  mkWorker id provider deployment_id None None 0 desired_state cloud_state false false None None
    false 0 None None None None None None None None None 0 0.

Section repository.
Context (settings : GatewaySettings).

Definition max_failures : Z := max_failure_count (reconciliation settings).

(** ** Clauses *)

Definition deployment_clause (r : Worker) : bool :=
  (w_deployment_id r ==? deployment_id settings)
  && (w_provider r ==? cloud_provider (cloud settings))
  && is_none (w_terminated_at r).

Definition stalled_clause (r : Worker) : bool := max_failures <=? w_failure_count r.

Definition serviceable_clause (r : Worker) : bool :=
  deployment_clause r
  && (w_desired_state r ==? CLOUD_STATE_RUNNING)
  && (w_cloud_state r ==? CLOUD_STATE_RUNNING)
  && w_healthy r
  && not_none (w_base_url r)
  && negb (w_draining r)
  && (w_failure_count r <? max_failures).

Definition health_check_clause (r : Worker) : bool :=
  deployment_clause r
  && is_none (w_terminated_at r)
  && not_none (w_base_url r)
  && (w_desired_state r ==? CLOUD_STATE_RUNNING)
  && (w_cloud_state r ∈? [CLOUD_STATE_RUNNING; CLOUD_STATE_PENDING])
  && negb (w_draining r).

Definition ready_serviceable_clause (r : Worker) : bool :=
  serviceable_clause r && not_none (w_ready_at r).

(** Correlated count of the tasks of a worker in [statuses]. *)
Definition task_count (statuses : list string) (w : World) (id : string) : Z :=
  Z.of_nat (length (List.filter (fun t => sql_eq (t_worker_id t) id && (t_status t ∈? statuses))
                      (map_to_list (tasks w)).*2)).

Definition compute_capacity (w : World) (id : string) : Z :=
  task_count TASK_STATUSES_COMPUTE_CAPACITY w id.
Definition drain_blockers (w : World) (id : string) : Z :=
  task_count TASK_STATUSES_DRAIN_BLOCKERS w id.

Definition dispatchable_clause (w : World) (r : Worker) : bool :=
  serviceable_clause r && (compute_capacity w (w_id r) <? target_per_worker (scaling settings)).

Definition provisioning_clause (r : Worker) : bool :=
  let launching :=
    (w_desired_state r ==? CLOUD_STATE_RUNNING)
    && (w_cloud_state r ∈? [CLOUD_STATE_PENDING; CLOUD_STATE_UNKNOWN; "starting"]) in
  let bootstrapping :=
    (w_desired_state r ==? CLOUD_STATE_RUNNING)
    && (w_cloud_state r ==? CLOUD_STATE_RUNNING)
    && negb (w_healthy r)
    && is_none (w_ready_at r) in
  deployment_clause r && (launching || bootstrapping) && negb (w_draining r)
  && (w_failure_count r <? max_failures).

Definition draining_clause (r : Worker) : bool :=
  deployment_clause r && w_draining r
  && (w_desired_state r !=? CLOUD_STATE_TERMINATED)
  && is_none (w_terminated_at r).

Definition stopping_clause (r : Worker) : bool :=
  deployment_clause r && is_none (w_terminated_at r)
  && ((w_cloud_state r ∈? [CLOUD_STATE_STOPPING; CLOUD_STATE_TERMINATING])
      || ((w_desired_state r ∈? [CLOUD_STATE_STOPPED; CLOUD_STATE_TERMINATED])
          && (w_cloud_state r ∉? [CLOUD_STATE_STOPPED; CLOUD_STATE_TERMINATED]))).

Definition stalled_and_active_clause (r : Worker) : bool :=
  deployment_clause r && stalled_clause r && (w_desired_state r !=? CLOUD_STATE_TERMINATED).

Definition rotation_eligible_clause (r : Worker) : bool :=
  deployment_clause r
  && (w_desired_state r ==? CLOUD_STATE_RUNNING)
  && (w_cloud_state r ==? CLOUD_STATE_RUNNING)
  && w_healthy r
  && negb (w_draining r)
  && is_none (w_replacement_for r)
  && not_none (w_instance_id r).

Definition active_replacement_clause (r : Worker) : bool :=
  deployment_clause r && not_none (w_replacement_for r)
  && (w_desired_state r !=? CLOUD_STATE_TERMINATED).

Definition pending_finalize_clause (r : Worker) : bool :=
  deployment_clause r
  && (w_desired_state r ==? CLOUD_STATE_TERMINATED)
  && (w_cloud_state r ==? CLOUD_STATE_TERMINATED).

Definition idle_clause (idle_before : Z) (w : World) (r : Worker) : bool :=
  deployment_clause r
  && (w_desired_state r ==? CLOUD_STATE_RUNNING)
  && (w_cloud_state r ==? CLOUD_STATE_RUNNING)
  && w_healthy r
  && negb (w_draining r)
  && is_none (w_replacement_for r)
  && not_none (w_ready_at r)
  && sql_lt (w_ready_at r) idle_before
  && (drain_blockers w (w_id r) =? 0)
  && (is_none (w_last_active_at r) || sql_lt (w_last_active_at r) idle_before).

(** In-memory mirror of [deployment_clause], as the code has it. *)
Definition row_in_deployment (r : Worker) : bool :=
  (w_deployment_id r ==? deployment_id settings)
  && (w_provider r ==? cloud_provider (cloud settings)).

Section methods.
Context `{Env}.

(** ** Query helpers *)

Definition count_where (where_ : World -> Worker -> bool) : M Z :=
  open_session ;; select_count where_.

Definition list_where (where_ : World -> Worker -> bool)
    (order : World -> Worker -> Worker -> bool) (limit : option nat) : M (list Worker) :=
  open_session ;;
  rows ← select where_ order ;
  mret (match limit with Some n => take n rows | None => rows end).

Definition get_one_where (where_ : World -> Worker -> bool)
    (order : World -> Worker -> Worker -> bool) : M (option Worker) :=
  rows ← list_where where_ order (Some 1%nat) ; mret (head rows).

Definition any (P : Worker -> bool) : World -> Worker -> bool := fun _ => P.
Definition no_order : World -> Worker -> Worker -> bool := fun _ => unordered.

Definition list_deployment_workers : M (list Worker) :=
  list_where (any deployment_clause) no_order None.

Definition commit_fields (id : string) (fields : list WorkerField) : M unit :=
  match fields with
  | [] => mret tt
  | _ =>
      now ← now_utc ;
      open_session ;;
      row ← get_row (A:=Worker) id ;
      match row with
      | None => mret tt
      | Some _ => commit [OnWorker (Put id (fields ++ [W_updated_at now]))]
      end
  end.

(** The least loaded dispatchable worker; ties by the longest idle, then by
    id.  The assignment of [last_active_at] is pending in the caller's
    session, so it is returned with the row. *)
Definition dispatch_order (w : World) : Worker -> Worker -> bool :=
  lex (by_key (fun r => compute_capacity w (w_id r)))
    (lex (by_nulls_first w_last_active_at) (by_string w_id)).

Definition acquire_dispatchable (excluded_ids : gset string) : M (option (Worker * write)) :=
  rows ← select (fun w r => dispatchable_clause w r && negb (bool_decide (w_id r ∈ excluded_ids)))
                dispatch_order ;
  match head rows with
  | None => mret None
  | Some r =>
      now ← now_utc ;
      let fs := [W_last_active_at (Some now)] in
      mret (Some (set_worker fs r, OnWorker (Put (w_id r) fs)))
  end.

Definition count_workers : M Z := count_where (any deployment_clause).
Definition count_serviceable_workers : M Z := count_where (any serviceable_clause).
Definition count_starting_workers : M Z := count_where (any provisioning_clause).
Definition count_draining_workers : M Z := count_where (any draining_clause).
Definition count_stopping_workers : M Z := count_where (any stopping_clause).
Definition find_stalled_workers : M (list Worker) :=
  list_where (any stalled_and_active_clause) no_order None.
Definition count_stalled_workers : M Z := count_where (any stalled_and_active_clause).

Definition count_queue_depth : M Z :=
  open_session ;;
  select_count (fun _ t => t_status t ∈? TASK_STATUSES_AUTOSCALE_DEMAND).

Definition count_recoverable_workers : M Z :=
  serviceable ← count_serviceable_workers ;
  starting ← count_starting_workers ;
  mret (serviceable + starting).

Definition collect_scaling_inputs : M ScalingInputs :=
  queue_depth ← count_queue_depth ;
  serviceable ← count_serviceable_workers ;
  starting ← count_starting_workers ;
  draining ← count_draining_workers ;
  stopping ← count_stopping_workers ;
  mret (mkScalingInputs queue_depth serviceable starting draining stopping).

Definition find_stopped_worker : M (option Worker) :=
  get_one_where (any (fun r =>
    deployment_clause r
    && (w_desired_state r ==? CLOUD_STATE_STOPPED)
    && (w_cloud_state r ==? CLOUD_STATE_STOPPED)
    && not_none (w_instance_id r)
    && negb (w_draining r))) no_order.

(** [coalesce(last_active_at, ready_at)]. *)
Definition idle_since (r : Worker) : option Z :=
  match w_last_active_at r with Some t => Some t | None => w_ready_at r end.

Definition find_idle_worker (idle_before : Z) : M (option Worker) :=
  get_one_where (idle_clause idle_before) (fun _ => by_nulls_first idle_since).

Definition find_draining_workers : M (list Worker) :=
  list_where (any draining_clause) no_order None.

Definition count_inflight_tasks (id : string) : M Z :=
  open_session ;;
  select_count (fun _ t => sql_eq (t_worker_id t) id && (t_status t ∈? TASK_STATUSES_DRAIN_BLOCKERS)).

Definition count_unstored_results (id : string) : M Z :=
  open_session ;;
  select_count (fun _ t =>
    sql_eq (t_worker_id t) id && (t_status t ==? TASK_STORING_RESULT)
    && (is_none (t_result_key t) || sql_eq (t_result_key t) "")).

Definition get_ready_replacement_for (id : string) : M (option Worker) :=
  get_one_where (any (fun r => ready_serviceable_clause r && sql_eq (w_replacement_for r) id))
    (fun _ => by_key w_created_at).

Definition has_active_replacement_for (id : string) : M bool :=
  count ← count_where (any (fun r =>
    deployment_clause r && sql_eq (w_replacement_for r) id
    && (w_desired_state r !=? CLOUD_STATE_TERMINATED))) ;
  mret (0 <? count).

Definition count_active_replacements : M Z := count_where (any active_replacement_clause).

Definition find_replacement_workers : M (list Worker) :=
  list_where (any (fun r => deployment_clause r && not_none (w_replacement_for r))) no_order None.

Definition find_emergency_rotation_target : M (option Worker) :=
  get_one_where (any (fun r => rotation_eligible_clause r && w_rotation_requested r))
    (fun _ => by_key w_created_at).

Definition find_scheduled_rotation_target (created_before : Z) : M (option Worker) :=
  get_one_where (any (fun r => rotation_eligible_clause r && (w_created_at r <? created_before)))
    (fun _ => by_key w_created_at).

Definition find_workers_pending_termination_finalize : M (list Worker) :=
  list_where (any pending_finalize_clause) no_order None.

Definition list_health_check_candidates (limit : nat) : M (list Worker) :=
  list_where (any health_check_clause)
    (fun _ => lex (by_nulls_first w_last_health_checked_at) (by_string w_id)) (Some limit).

(** ** Writers *)

Definition scaling_event (action reason : string) (worker_id : option string)
    (triggered_by : string) (requester : option string) : write :=
  AddEvent (mkScalingEvent worker_id action reason triggered_by requester 0).

Definition record_scaling_event_now (action reason : string) (worker_id : option string)
    (triggered_by : string) (requester : option string) : M unit :=
  open_session ;; commit [scaling_event action reason worker_id triggered_by requester].

Definition record_failure (id error : string) (retryable : bool) : M unit :=
  open_session ;;
  row ← get_row (A:=Worker) id ;
  match row with
  | None => mret tt
  | Some r =>
      let count := w_failure_count r + 1 in
      let counted := [W_failure_count count; W_last_error (Some error)] in
      if max_failures <=? count then
        stalled_at ← (match w_stalled_at r with
                      | None => now ← now_utc ; mret [W_stalled_at (Some now)]
                      | Some _ => mret []
                      end) ;
        commit [OnWorker (Put id (counted ++ [W_healthy false; W_retry_after None] ++ stalled_at
                  ++ [W_draining true; W_drain_target (Some CLOUD_STATE_TERMINATED)]))]
      else if retryable then
        now ← now_utc ;
        match retry_delay count with
        | None => raise (OtherException "tuple index out of range")
        | Some d => commit [OnWorker (Put id (counted ++ [W_retry_after (Some (now + seconds d))]))]
        end
      else commit [OnWorker (Put id counted)]
  end.

(** The assignments one health probe makes on its worker's row. *)
Definition health_fields (r : Worker) (ok : bool) (error : option string) (provisioning : bool)
  : M (list WorkerField) :=
  checked_at ← now_utc ;
  if ok then
    ready ← (if (w_desired_state r ==? CLOUD_STATE_RUNNING)
                && (w_cloud_state r ==? CLOUD_STATE_RUNNING)
                && is_none (w_ready_at r)
             then now ← now_utc ; mret [W_ready_at (Some now); W_start_requested_at None]
             else mret []) ;
    mret ([W_last_health_checked_at (Some checked_at); W_healthy true; W_last_error None;
           W_provisioning_detail None] ++ ready)
  else
    mret [W_last_health_checked_at (Some checked_at); W_healthy false;
          if provisioning then W_provisioning_detail error else W_last_error error].

Definition apply_health_checks (results : list (Worker * bool * option string * bool)) : M Z :=
  open_session ;;
  '(healthy_count, writes) ← fold_m results (0, []) (fun '(healthy_count, writes) '(worker, ok, error, provisioning) =>
    row ← get_row (A:=Worker) (w_id worker) ;
    match row with
    | None => mret (healthy_count, writes)
    | Some r =>
        fields ← health_fields r ok error provisioning ;
        mret (if ok then healthy_count + 1 else healthy_count,
              writes ++ [OnWorker (Put (w_id worker) fields)])
    end) ;
  commit writes ;;
  mret healthy_count.

Definition create_cloud_worker : M string :=
  id ← worker_id ;
  now ← now_utc ;
  let worker := set_worker [W_start_requested_at (Some now)]
    (Worker_new id (cloud_provider (cloud settings)) (deployment_id settings)
       CLOUD_STATE_RUNNING CLOUD_STATE_PENDING) in
  open_session ;;
  commit [OnWorker (Add worker)] ;;
  mret id.

Definition reset_cloud_failures (id : string) : M unit :=
  open_session ;;
  row ← get_row (A:=Worker) id ;
  match row with
  | None => mret tt
  | Some r =>
      commit [OnWorker (Put id ([W_failure_count 0; W_retry_after None]
                ++ if w_healthy r then [W_last_error None] else []))]
  end.

Definition reset_worker_failures (id : string) : M unit := reset_cloud_failures id.

Definition finalize_disappeared_instance (id reason : string) : M unit :=
  now ← now_utc ;
  commit_fields id
    [ W_desired_state CLOUD_STATE_TERMINATED; W_cloud_state CLOUD_STATE_TERMINATED;
      W_instance_id None; W_base_url None; W_ready_at None; W_healthy false;
      W_retry_after None; W_last_error (Some reason); W_terminated_at (Some now) ].

Definition finalize_terminated_worker (id : string) : M unit :=
  open_session ;;
  replacements ← select (any (fun r => sql_eq (w_replacement_for r) id)) no_order ;
  row ← get_row (A:=Worker) id ;
  terminated ← (match row with
                | None => mret []
                | Some _ => now ← now_utc ; mret [OnWorker (Put id [W_terminated_at (Some now)])]
                end) ;
  commit (((fun repl => OnWorker (Put (w_id repl) [W_replacement_for None])) <$> replacements)
          ++ terminated).

Definition start_rotation_replacement (old : Worker) : M string :=
  replacement_id ← worker_id ;
  now ← now_utc ;
  let replacement := set_worker
    [ W_replacement_for (Some (w_id old)); W_generation (w_generation old + 1);
      W_start_requested_at (Some now) ]
    (Worker_new replacement_id (cloud_provider (cloud settings)) (deployment_id settings)
       CLOUD_STATE_RUNNING CLOUD_STATE_PENDING) in
  open_session ;;
  row ← get_row (A:=Worker) (w_id old) ;
  commit (OnWorker (Add replacement)
          :: match row with
             | None => []
             | Some _ => [OnWorker (Put (w_id old) [W_rotation_requested false])]
             end) ;;
  mret replacement_id.

Definition get_worker (id : string) : M (option Worker) :=
  open_session ;;
  row ← get_row (A:=Worker) id ;
  mret (match row with
        | None => None
        | Some r =>
            if not_none (w_terminated_at r) then None
            else if (w_deployment_id r !=? deployment_id settings)
                    || (w_provider r !=? cloud_provider (cloud settings)) then None
            else Some r
        end).

Definition list_workers : M (list Worker) :=
  list_where (any deployment_clause) (fun _ => by_key w_created_at) None.

(** The three admin intents share their frame: load the row, check that it is
    in the deployment, assign, record the event, commit, refresh. *)
Definition admin_intent (id action reason : string) (requester : option string)
    (fields : Worker -> list WorkerField) : M (option Worker) :=
  open_session ;;
  row ← get_row (A:=Worker) id ;
  match row with
  | None => mret None
  | Some r =>
      if negb (row_in_deployment r) then mret None
      else
        commit [OnWorker (Put id (fields r));
                scaling_event action reason (Some id) "admin" requester] ;;
        get_row (A:=Worker) id
  end.

Definition set_drain_intent (id drain_target reason : string) (requester : option string)
  : M (option Worker) :=
  admin_intent id "drain" reason requester
    (fun _ => [W_draining true; W_drain_target (Some drain_target)]).

Definition set_rotation_requested (id reason : string) (requester : option string)
  : M (option Worker) :=
  admin_intent id "rotate" reason requester (fun _ => [W_rotation_requested true]).

Definition recover_worker (id reason : string) (requester : option string) : M (option Worker) :=
  admin_intent id "recover" reason requester
    (fun r => [W_failure_count 0; W_retry_after None] ++
       match w_stalled_at r with
       | Some _ => [W_stalled_at None; W_draining false; W_drain_target None]
       | None => []
       end).
End methods.
End repository.

(** ** Backoff *)

(** every counted failure has a backoff, between 5 and 300 seconds, that
    never shrinks as failures accumulate. *)
Theorem retry_delay_schedule (n m : Z) : 1 <= n -> n <= m ->
  exists d d', retry_delay n = Some d /\ retry_delay m = Some d' /\
               5 <= d /\ d <= d' /\ d' <= RETRY_CAP_SECONDS.
Proof.
  assert (Hshape : forall k, 1 <= k ->
    exists d, retry_delay k = Some d /\
      (k = 1 /\ d = 5 \/ k = 2 /\ d = 15 \/ k = 3 /\ d = 30 \/ k = 4 /\ d = 60 \/
       k = 5 /\ d = 120 \/ 6 <= k /\ d = 300)).
  { intros k Hk. unfold retry_delay. destruct (Z.leb_spec k (Z.of_nat (length RETRY_SECONDS))) as [Hle|Hgt];
      cbn in *; [|eexists; split; [reflexivity|unfold RETRY_CAP_SECONDS; lia]].
    assert (k = 1 \/ k = 2 \/ k = 3 \/ k = 4 \/ k = 5) as [->|[->|[->|[->| ->]]]] by lia;
      eexists; (split; [reflexivity|lia]). }
  intros Hn Hm. destruct (Hshape n Hn) as (d & Ed & Hd), (Hshape m ltac:(lia)) as (d' & Ed' & Hd').
  exists d, d'. unfold RETRY_CAP_SECONDS. repeat split; (done || lia).
Qed.

Lemma retry_delay_schedule_witness : exists d d', retry_delay 2 = Some d /\ retry_delay 7 = Some d' /\
               5 <= d /\ d <= d' /\ d' <= RETRY_CAP_SECONDS.
Proof. apply (retry_delay_schedule 2 7); lia. Defined.

(** ** Clauses *)

Section clauses.
Context (settings : GatewaySettings).

Lemma deployment_clause_split r :
  deployment_clause settings r = row_in_deployment settings r && is_none (w_terminated_at r).
Proof. reflexivity. Qed.

(** No worker is counted both as serviceable and as starting. *)
Lemma serviceable_not_provisioning r :
  serviceable_clause settings r = true -> provisioning_clause settings r = false.
Proof.
  unfold serviceable_clause, provisioning_clause. intros Hs. bool_hyps.
  match goal with E : w_cloud_state r = _, E' : w_healthy r = true |- _ => rewrite E, E' end.
  replace (CLOUD_STATE_RUNNING ∈? [CLOUD_STATE_PENDING; CLOUD_STATE_UNKNOWN; "starting"])
    with false by reflexivity.
  cbn [negb]. by rewrite ?andb_false_r.
Qed.
End clauses.

Section counting.
Context (settings : GatewaySettings) `{Env}.

Lemma count_where_ok P w n w' :
  count_where P w = (Ok n, w') -> n = count_rows (P w') w /\ w' = bump (bump w).
Proof.
  unfold count_where. intros E. mrun E. by apply select_count_ok in E as [-> ->].
Qed.

Lemma serviceable_in_deployment r :
  serviceable_clause settings r = true -> deployment_clause settings r = true.
Proof. unfold serviceable_clause. intros Hr. by bool_hyps. Qed.

(** One snapshot never counts a worker twice: the serviceable and the
    starting workers together are among the workers of the deployment. *)
Theorem recoverable_within_fleet w n w' m w'' :
  count_recoverable_workers settings w = (Ok n, w') ->
  count_workers settings w' = (Ok m, w'') -> 0 <= n <= m.
Proof.
  unfold count_recoverable_workers, count_workers. intros E Em. mrun E.
  apply count_where_ok in Hm as [-> ->], Hm0 as [-> ->], Em as [-> ->].
  unfold count_rows, any.
  repeat match goal with |- context [table ?v] => rewrite (table_of_tables w v) by done end.
  assert (Hin : forall r, provisioning_clause settings r = true -> deployment_clause settings r = true).
  { intros r Hr. unfold provisioning_clause in Hr. by bool_hyps. }
  pose proof (length_filter_disjoint (serviceable_clause settings) (provisioning_clause settings)
    (deployment_clause settings) (map_to_list (table (A:=Worker) w)).*2
    (fun r Hr => conj (serviceable_in_deployment r Hr) (serviceable_not_provisioning settings r Hr))
    Hin). lia.
Qed.
End counting.

(** ** Acquiring a worker *)

(** Every worker is stored under its id. *)
Definition workers_keyed : World -> Prop := all_rows (fun k r => w_id r = k).
#[export] Instance workers_keyed_stable : Stable workers_keyed := all_rows_stable _.
#[export] Instance workers_keyed_stamp : StampOk (fun k r => w_id r = k).
Proof. by intros k u r. Qed.

Lemma task_count_map statuses w id : task_count statuses w id =
  Z.of_nat (count_map (fun t => sql_eq (t_worker_id t) id && (t_status t ∈? statuses)) (tasks w)).
Proof. reflexivity. Qed.

(** What [acquire_dispatchable] hands out: a row of the table, serviceable, with
    a free slot and not excluded, and the one the ORDER BY puts first. *)
Record acquired (settings : GatewaySettings) (excluded : gset string) (w : World)
    (worker : Worker) (touch : write) (r : Worker) (t : time) : Prop := {
  acq_row : workers w !! w_id r = Some r;
  acq_worker : worker = set_worker [W_last_active_at (Some t)] r;
  acq_touch : touch = OnWorker (Put (w_id r) [W_last_active_at (Some t)]);
  acq_serviceable : serviceable_clause settings r = true;
  acq_slot : compute_capacity w (w_id r) < target_per_worker (scaling settings);
  acq_excluded : w_id r ∉ excluded;
  acq_first : forall r', workers w !! w_id r' = Some r' -> dispatchable_clause settings w r' = true ->
    w_id r' ∉ excluded -> dispatch_order w r r' = true
}.

Section acquire.
Context (settings : GatewaySettings) `{Env}.

Lemma wp_acquire excluded (Q : option (Worker * write) -> World -> Prop) X w :
  workers_keyed w ->
  ((forall r, workers w !! w_id r = Some r -> dispatchable_clause settings w r = true ->
      w_id r ∈ excluded) -> Q None (bump w)) ->
  (forall worker touch r t, acquired settings excluded w worker touch r t ->
     Q (Some (worker, touch)) (bump (bump w))) ->
  wp (acquire_dispatchable settings excluded) Q X w.
Proof.
  intros HK HN HS. unfold acquire_dispatchable. wp_go. apply wp_select. intros rows Hrows Hmin.
  assert (Hin : forall r, r ∈ rows <-> (dispatchable_clause settings w r
      && negb (bool_decide (w_id r ∈ excluded))) = true /\ workers w !! w_id r = Some r).
  { intros r. rewrite Hrows, list_elem_of_In, filter_In, <- list_elem_of_In, list_elem_of_fmap. split.
    - intros [([k r'] & -> & Hk%elem_of_map_to_list) HP]. cbn. split; [exact HP|].
      by rewrite (HK k r' Hk).
    - intros [HP Hk]. split; [|exact HP]. exists (w_id r, r). by rewrite elem_of_map_to_list. }
  specialize (Hmin ltac:(unfold dispatch_order; apply _)).
  destruct (head rows) as [r|] eqn:Eh; wp_go.
  - specialize (Hmin r eq_refl).
    assert (Hr : r ∈ rows) by (destruct rows; [done|injection Eh as ->; left]).
    apply Hin in Hr as [HP Hk]. unfold dispatchable_clause in HP. bool_hyps.
    eapply HS. split; try done.
    intros r' Hk' Hd' Hex'. apply (Hmin r'), Hin. split; [|done].
    rewrite Hd'. by rewrite bool_decide_false.
  - apply HN. intros r Hk Hd. destruct rows; [|done].
    destruct (decide (w_id r ∈ excluded)) as [|Hex]; [done|]. exfalso.
    assert (Hr : r ∈ []) by (apply Hin; rewrite Hd, bool_decide_false by done; done).
    by apply elem_of_nil in Hr.
Qed.
End acquire.

(** ** Writers leave the tasks alone and only touch the rows *)

(** Assignments of the two columns that say when a worker was last used. *)
Definition touching (fs : list WorkerField) : Prop := forall r, exists t u,
  set_worker fs r = set_worker [W_last_active_at t; W_updated_at u] r.

Definition touched_row (_ : string) (o o' : option Worker) : Prop :=
  match o, o' with
  | Some r, Some r' => exists t u, r' = set_worker [W_last_active_at t; W_updated_at u] r
  | None, None => True
  | _, _ => False
  end.

#[export] Instance touched_row_preorder k : PreOrder (touched_row k).
Proof.
  split.
  - intros [r|]; [|done]. exists (w_last_active_at r), (w_updated_at r). by destruct r.
  - intros [a|] [b|] [c|]; cbn; try done. intros (t & u & ->) (t' & u' & ->). by exists t', u'.
Qed.

Definition touched : relation World := rows_evolve (A:=Worker) touched_row.
#[export] Instance touched_preorder : PreOrder touched := rows_evolve_preorder touched_row.

(** The rows are under their ids, and those of [w0] up to touching. *)
Definition fleet_kept (w0 w : World) : Prop := workers_keyed w /\ touched w0 w.

Lemma fleet_kept_start w : workers_keyed w -> fleet_kept w w.
Proof. by split. Qed.

Lemma fleet_kept_same w0 w w' : workers w' = workers w -> fleet_kept w0 w -> fleet_kept w0 w'.
Proof. intros E [HK HT]. split; [by eapply all_rows_same|]. intros k. cbn. rewrite E. apply HT. Qed.

Lemma fleet_kept_trans w0 w w' : fleet_kept w0 w -> fleet_kept w w' -> fleet_kept w0 w'.
Proof. intros [_ H1] [HK H2]. split; [done|by etrans]. Qed.

Lemma touching_flushed fs r r' : touching fs -> flushed fs r r' ->
  exists t u, r' = set_worker [W_last_active_at t; W_updated_at u] r.
Proof.
  intros Hf [->|[v ->]]; destruct (Hf r) as (t & u & E); cbn; rewrite E; [by eauto|]. by exists t, v.
Qed.

Lemma fleet_kept_put w0 w w' id fs r r' : touching fs -> flushed fs r r' -> workers w !! id = Some r ->
  workers w' = <[id := r']> (workers w) -> fleet_kept w0 w -> fleet_kept w0 w'.
Proof.
  intros Hfs Hf Er Ew HF. eapply fleet_kept_trans; [exact HF|]. destruct HF as [HK _].
  destruct (touching_flushed _ _ _ Hfs Hf) as (t & u & ->). split.
  - eapply all_rows_insert; [exact HK|exact Ew|]. by apply HK in Er.
  - intros k. cbn. rewrite Ew. destruct (decide (k = id)) as [->|Hne].
    + rewrite Er, lookup_insert_eq. by exists t, u.
    + by rewrite lookup_insert_ne.
Qed.

(** Literal assignments that only touch. *)
Ltac touch_row := let r := fresh "r" in intros ? r; repeat eexists; destruct r; reflexivity.

Definition fleet_ok (w0 w : World) : Prop := fleet_kept w0 w /\ tasks w = tasks w0.

Section writers.
Context (settings : GatewaySettings) `{Env}.

(** An UPDATE of the row [id]. *)
Lemma wp_put_worker id fs r w : workers w !! id = Some r ->
  wp (commit [OnWorker (Put id fs)])
    (fun _ w' => exists r', flushed fs r r' /\ workers w' = <[id := r']> (workers w) /\
                            tasks w' = tasks w /\ objects w' = objects w)
    (fun _ w' => workers w' = workers w /\ tasks w' = tasks w /\ objects w' = objects w) w.
Proof.
  intros Hr. apply wp_commit.
  - intros w' (w1 & ((r1 & r' & Hr1 & Hf & Ew) & Et & _) & Ew2 & Et2 & _) Eo. tables.
    assert (r1 = r) as -> by congruence. exists r'. repeat split; congruence.
  - by intros e w' (? & ? & _) ?.
Qed.

Lemma commit_fields_ok id fs w0 w :
  (forall u, touching (fs ++ [W_updated_at u])) -> fleet_ok w0 w ->
  wp (commit_fields id fs) (fun _ => fleet_ok w0) (fun _ => fleet_ok w0) w.
Proof.
  intros Hfs [HF HT]. assert (Hsame : forall w', workers w' = workers w -> tasks w' = tasks w -> fleet_ok w0 w').
  { intros w' E1 E2. split; [by eapply fleet_kept_same|congruence]. }
  unfold commit_fields. destruct fs as [|f fs]; [by apply Hsame|].
  wp_go; [|by apply Hsame]. destruct (workers w !! id) as [r|] eqn:Er; [|by apply Hsame].
  eapply wp_mono; [by apply wp_put_worker| |by intros e w' (? & ? & _); apply Hsame].
  intros u w' (r' & Hf & Ew & Et & _). split; [|by rewrite Et]. by eapply fleet_kept_put.
Qed.
End writers.

(** ** Queries read *)

Section queries.
Context (R : relation World) `{!Benign R} `{Env}.

Lemma evolves_list_where P o n : evolves R (list_where P o n).
Proof. unfold list_where. evolve. Qed.
Lemma evolves_get_one_where P o : evolves R (get_one_where P o).
Proof. unfold get_one_where, list_where. evolve. Qed.
Lemma evolves_count_where P : evolves R (count_where P).
Proof. unfold count_where. evolve. Qed.
Lemma evolves_count_inflight_tasks id : evolves R (count_inflight_tasks id).
Proof. unfold count_inflight_tasks. evolve. Qed.
Lemma evolves_count_unstored_results id : evolves R (count_unstored_results id).
Proof. unfold count_unstored_results. evolve. Qed.
Lemma evolves_get_worker settings id : evolves R (get_worker settings id).
Proof. unfold get_worker. evolve. Qed.
Lemma evolves_collect_scaling_inputs settings : evolves R (collect_scaling_inputs settings).
Proof.
  unfold collect_scaling_inputs, count_queue_depth, count_serviceable_workers, count_starting_workers,
    count_draining_workers, count_stopping_workers, count_where. evolve.
Qed.
End queries.
#[export] Hint Resolve evolves_list_where evolves_get_one_where evolves_count_where
  evolves_count_inflight_tasks evolves_count_unstored_results evolves_get_worker
  evolves_collect_scaling_inputs : evolve.
