(* ===== verification/CacheService.v ===== *)
(** * CacheService: [scheduler/cache_service.py]

    The dedup cache: its keys, and the operations on [cache_entries] and the
    cache-owned objects.  SHA-256 is a parameter; a digest is 64 characters. *)
From S2P Require Import Prelude Models Config World Database Logic Hoare Json Payload Storage Status TaskRows.
From S2P Require Import WorkerRepository.

Class Sha256 := {
  sha256_hex : list Byte.byte -> string;
  sha256_length b : String.length (sha256_hex b) = 64%nat
}.

(** ** Keys *)

Definition REPEATED_OPTION_FIELDS : list string := ["lang_list"].

(** [zip(a, b, strict=True)]. *)
Fixpoint zip_strict {A B} (a : list A) (b : list B) : outcome (list (A * B)) :=
  match a, b with
  | [], [] => Ok []
  | x :: a, y :: b => l ← zip_strict a b ; Ok ((x, y) :: l)
  | _, _ => Raise (ValueError "zip() arguments have different lengths")
  end.

Section keys.
Context `{Sha256}.

Definition compute_file_records (file_names : list string) (contents : list (list Byte.byte))
  : outcome (list (string * string)) :=
  l ← zip_strict file_names contents ; Ok (map (fun nc => (nc.1, sha256_hex nc.2)) l).

(** The digest of the chunks, fed one after the other. *)
Definition hash_file_at_path (settings : GatewaySettings) (file : list Byte.byte) : outcome string :=
  chunks ← iter_bounded_file settings file ; Ok (sha256_hex (concat chunks)).

Definition compute_file_records_from_paths (settings : GatewaySettings)
    (file_names : list string) (files : list (list Byte.byte)) : outcome (list (string * string)) :=
  l ← zip_strict file_names files ;
  map_o (fun nf => d ← hash_file_at_path settings nf.2 ; Ok (nf.1, d)) l.

(** A field of [REPEATED_OPTION_FIELDS] collects its values, another field
    keeps the last one; no field is ignored. *)
Definition add_option (opts : options) (field : string * string) : options :=
  if field.1 ∈? REPEATED_OPTION_FIELDS then
    match opts !! field.1 with
    | Some (OptList l) => <[field.1 := OptList (l ++ [field.2])]> opts
    | _ => <[field.1 := OptList [field.2]]> opts
    end
  else <[field.1 := OptStr field.2]> opts.

Definition sort_option (v : opt_value) : opt_value :=
  match v with OptList l => OptList (merge_sort String.leb l) | v => v end.

Definition build_cache_options_from_payload (fields : list (string * string)) : options :=
  let opts := foldl add_option ∅ fields in
  foldl (fun opts key => alter sort_option key opts) opts REPEATED_OPTION_FIELDS.

Definition NEWLINE : string := chr 10.

Definition content_sha256_from_records (file_records : list (string * string)) : string :=
  sha256_hex (encode_utf8 (join NEWLINE (map (fun nd => nd.1 +:+ ":" +:+ nd.2) file_records))).

Definition json_of_option (v : opt_value) : json :=
  match v with OptStr s => JStr s | OptList l => JArr (map JStr l) end.

(** [json.dumps(options, sort_keys=True)]: no value is [None]. *)
Definition canonical_options (opts : options) : string :=
  dumps ", " ": " (JObj (map (fun kv => (kv.1, json_of_option kv.2))
                           (merge_sort (fun a b => String.leb a.1 b.1) (map_to_list opts)))).

Definition records_blob (file_records : list (string * string)) : string :=
  dumps "," ":" (JArr (map (fun nd => JArr [JStr nd.1; JStr nd.2]) file_records)).

Definition key_material (file_records : list (string * string)) (opts : options) : string :=
  records_blob file_records +:+ NEWLINE +:+ canonical_options opts.

(** The cache key and the options hash. *)
Definition compute_cache_key (file_records : list (string * string)) (opts : options)
  : string * string :=
  (sha256_hex (encode_utf8 (key_material file_records opts)),
   sha256_hex (encode_utf8 (canonical_options opts))).
End keys.

(** ** The service *)

(** [_RefreshKwargs]. *)
Record RefreshKwargs := mkRefresh {
  k_content_sha256 : string;
  k_options_hash : string;
  k_backend : string;
  k_parse_method : string;
  k_effort : string;
  k_result_format : string;
  k_ttl_seconds : option Z
}.

(** [x or None] on an optional string. *)
Definition or_none (o : option string) : option string := if truthy o then o else None.

Section service.
Context (settings : GatewaySettings) `{Env} `{!ObjectStore}.

Definition row_is_expired (row : CacheEntry) : M bool :=
  match c_expires_at row with
  | None => mret false
  | Some t => now ← now_utc ; mret (t <? now)
  end.

(** The assignments of the [content_sha256 is not None] branch. *)
Definition refresh_fields (row : CacheEntry) (k : RefreshKwargs) : M (list CacheField) :=
  let ttl := default (cache_ttl_seconds (cache settings)) (k_ttl_seconds k) in
  expires ← (if ttl =? 0 then mret None
             else now ← now_utc ; mret (Some (now + seconds ttl))) ;
  mret [ C_content_sha256 (k_content_sha256 k);
         C_options_hash (str_or (Some (k_options_hash k)) (c_options_hash row));
         C_backend (str_or (Some (k_backend k)) (c_backend row));
         C_parse_method (str_or (Some (k_parse_method k)) (c_parse_method row));
         C_effort (str_or (Some (k_effort k)) (c_effort row));
         C_result_format (if k_result_format k ==? "" then c_result_format row
                          else Some (k_result_format k));
         C_expires_at expires ].

(** Clear an expired generation in place: the previous object key. *)
Definition reset_expired_row (row : CacheEntry) (k : option RefreshKwargs) : M (option string) :=
  let stale_key := or_none (c_object_key row) in
  refreshed ← (match k with None => mret [] | Some k => refresh_fields row k end) ;
  commit [OnCache (Put (c_cache_key row)
            ([C_object_key (Some ""); C_object_generation (c_object_generation row + 1);
              C_hit_count 0] ++ refreshed))] ;;
  _ ← refresh_row (A:=CacheEntry) (c_cache_key row) ;
  mret stale_key.

Definition delete_stale_object (key : option string) : M unit :=
  _ ← safe_delete key ; mret tt.

Definition lookup (cache_key : string) : M (option CacheEntry) :=
  open_session ;;
  row ← get_row (A:=CacheEntry) cache_key ;
  match row with
  | None => mret None
  | Some row =>
      expired ← row_is_expired row ;
      if expired : bool then
        stale_key ← reset_expired_row row None ;
        delete_stale_object stale_key ;;
        mret None
      else if negb (truthy (c_object_key row)) then mret None
      else
        let hit := [C_hit_count (c_hit_count row + 1)] in
        commit [OnCache (Put cache_key hit)] ;;
        mret (Some (set_cache hit row))
  end.

Definition build_placeholder_row (cache_key : string) (k : RefreshKwargs) : M CacheEntry :=
  (* [ttl_seconds or self._settings.cache.ttl_seconds] *)
  let effective_ttl := match k_ttl_seconds k with
                       | Some t => if t =? 0 then cache_ttl_seconds (cache settings) else t
                       | None => cache_ttl_seconds (cache settings)
                       end in
  expires ← (if effective_ttl =? 0 then mret None
             else now ← now_utc ; mret (Some (now + seconds effective_ttl))) ;
  mret (mkCacheEntry cache_key (k_content_sha256 k) (k_options_hash k) (k_backend k)
          (k_parse_method k) (k_effort k) (Some "") 0 (Some (k_result_format k)) None 0 expires 0).

(** Reset the row if it has expired; its object is deleted after. *)
Definition refresh_if_expired (row : CacheEntry) (k : RefreshKwargs) : M unit :=
  expired ← row_is_expired row ;
  if expired : bool then
    stale_key ← reset_expired_row row (Some k) ;
    delete_stale_object stale_key
  else mret tt.

Definition create_placeholder (cache_key : string) (k : RefreshKwargs) : M CacheEntry :=
  open_session ;;
  row ← get_row (A:=CacheEntry) cache_key ;
  match row with
  | Some row => refresh_if_expired row k ;; refresh_row cache_key
  | None =>
      row ← build_placeholder_row cache_key k ;
      try_ (commit [OnCache (Add row)])
        (fun e => match e with
           | IntegrityError =>
               row ← get_row (A:=CacheEntry) cache_key ;
               match row with
               | None => raise IntegrityError
               | Some row => refresh_if_expired row k
               end
           | e => raise e
           end) ;;
      refresh_row cache_key
  end.

(** The compare-and-swap [UPDATE]: the row count. *)
Definition no_object (r : CacheEntry) : bool :=
  is_none (c_object_key r) || sql_eq (c_object_key r) "".
Definition populate_matches (expected_generation : Z) (r : CacheEntry) : bool :=
  (c_object_generation r =? expected_generation) && no_object r.

(** The part of [populate_from_task] after the read of the generation: it may
    run in any world, whatever happened since. *)
Definition populate_cas (cache_key dest result_format : string) (expected_generation : Z) : M unit :=
  row ← get_row (A:=CacheEntry) cache_key ;
  match row with
  | Some r =>
      if populate_matches expected_generation r then
        try_ (commit [OnCache (Put cache_key
                [C_object_key (Some dest); C_result_format (Some result_format);
                 C_object_generation (expected_generation + 1)])])
             (fun e => _ ← safe_delete (Some dest) ; raise e)
      else _ ← safe_delete (Some dest) ; mret tt
  | None => _ ← safe_delete (Some dest) ; mret tt
  end.

Definition populate_from_task (task_id cache_key result_format : string) : M unit :=
  let src := result_key task_id RESULT_FORMAT_ZIP in
  generation ← short_id ;
  let dest := cache_object_key cache_key (Some generation) in
  copied ← try_ (store_copy src dest ;; mret true)
    (fun e => match e with KeyError _ => mret false | e => raise e end) ;
  if copied : bool then
    open_session ;;
    row ← get_row (A:=CacheEntry) cache_key ;
    match row with
    | None => _ ← safe_delete (Some dest) ; mret tt
    | Some row => populate_cas cache_key dest result_format (c_object_generation row)
    end
  else mret tt.

Definition create_hit_task (task_id : string) (entry : CacheEntry) (file_names : list string)
  : M Task :=
  let dest_key := result_key task_id RESULT_FORMAT_ZIP in
  copied ← (if truthy (c_object_key entry)
            then store_copy (str_or (c_object_key entry) "") dest_key ;; mret true
            else mret false) ;
  try_ (
    open_session ;;
    now ← now_utc ;
    let row := set_task [T_result_key (Some dest_key); T_result_format (c_result_format entry);
                         T_cache_key (Some (c_cache_key entry)); T_completed_at (Some now)]
      (Task_new task_id (c_backend entry) (c_parse_method entry) file_names TASK_COMPLETED "cache") in
    commit [OnTask (Add row)] ;;
    refresh_row task_id)
  (fun e =>
    (if copied : bool then _ ← safe_delete (Some dest_key) ; mret tt else mret tt) ;;
    raise e).

(** The first [UPDATE] of [invalidate], in any world. *)
Definition invalidate_claim (cache_key : string) (claimed_generation : Z) : M bool :=
  row ← get_row (A:=CacheEntry) cache_key ;
  match row with
  | Some r =>
      if c_object_generation r =? claimed_generation then
        commit [OnCache (Put cache_key [C_object_key (Some "");
                                        C_object_generation (claimed_generation + 1)])] ;;
        mret true
      else mret false
  | None => mret false
  end.

(** The final [DELETE] of [invalidate]. *)
Definition invalidate_remove (cache_key : string) (new_generation : Z) : M bool :=
  open_session ;;
  row ← get_row (A:=CacheEntry) cache_key ;
  match row with
  | Some r =>
      if populate_matches new_generation r
      then commit [OnCache (Del cache_key)] ;; mret true
      else mret false
  | None => mret false
  end.

Definition invalidate (cache_key : string) : M bool :=
  open_session ;;
  row ← get_row (A:=CacheEntry) cache_key ;
  match row with
  | None => mret false
  | Some row =>
      let object_key := or_none (c_object_key row) in
      let new_generation := c_object_generation row + 1 in
      claimed ← invalidate_claim cache_key (c_object_generation row) ;
      if claimed : bool then
        deleted ← (match object_key with None => mret true | Some _ => safe_delete object_key end) ;
        if deleted : bool then invalidate_remove cache_key new_generation else mret false
      else mret false
  end.

Definition SWEEP_LIMIT : nat := 100.

(** One row of the sweep: 1 if it was removed. *)
Definition sweep_one (row : CacheEntry) : M Z :=
  deleted ← (if truthy (c_object_key row) then safe_delete (c_object_key row) else mret true) ;
  if deleted : bool then
    open_session ;;
    db_row ← get_row (A:=CacheEntry) (c_cache_key row) ;
    match db_row with
    | Some db_row =>
        if c_object_generation db_row =? c_object_generation row
        then commit [OnCache (Del (c_cache_key row))] ;; mret 1
        else mret 0
    | None => mret 0
    end
  else mret 0.

Definition sweep_expired : M Z :=
  now ← now_utc ;
  open_session ;;
  rows ← select (A:=CacheEntry)
    (fun _ r => not_none (c_expires_at r) && sql_lt (c_expires_at r) now) (fun _ => unordered) ;
  fold_m (take SWEEP_LIMIT rows) 0 (fun removed row => n ← sweep_one row ; mret (removed + n)).
End service.

(** ** Frames *)

Section frames.
Context (settings : GatewaySettings) `{Env} `{!ObjectStore}.

Ltac db_rows := apply evolves_db_rows;
  first [apply store_copy_db | apply safe_delete_db | apply store_delete_db].

(** Populating the cache touches neither tasks, workers nor results. *)
Lemma populate_from_task_rows id k fmt : evolves same_rows (populate_from_task id k fmt).
Proof.
  unfold populate_from_task, populate_cas, short_id. evolve; try db_rows.
  by apply evolves_commit_same_rows.
Qed.

Lemma populate_from_task_results id k fmt : evolves same_results (populate_from_task id k fmt).
Proof.
  unfold populate_from_task, populate_cas, short_id. evolve.
  all: try apply store_copy_results; try apply safe_delete_results.
  apply evolves_objects_results, evolves_commit_objects.
Qed.
End frames.
