(* ===== verification/Ingest.v ===== *)
(** * Ingest: [gateway/ingest.py], from a request to a queued row

    The intake pipeline: the multipart form is staged under the byte limit, the
    upload names are checked and the files moved to internal paths
    ([util/upload_paths.py]), the cache is asked, the payload is stored and the
    row is inserted.  A staged request owns a temporary directory, a map from
    paths in it to bytes; [opened] reads the files a payload points at.  Multipart
    parsing and three functions of MinerU are third-party: the parsed form is
    part of the request, the functions are the class [MinerUIntake].  Every
    caller in the repository leaves [cache_service] to its default. *)
From S2P Require Import Prelude Models Config World Database Logic Hoare Json Payload PyText Storage Status.
From S2P Require Import TaskRows WorkerRepository CacheService.

(** [normalize_upload_filename], [MultipartPayload.get_field_value] and
    [validate_public_http_client_request], the latter as the exception it
    raises, if any. *)
Class MinerUIntake := {
  normalize_upload_filename : string -> string;
  get_field_value : list (string * string) -> string -> option string;
  http_client_refused : bool -> bool -> string -> option string -> option exn
}.

(** ** Requests and replies *)

(** One part of a parsed multipart form. *)
Inductive FormValue :=
| FormFile (filename content_type : option string) (data : list Byte.byte)
| FormText (value : string).

(** What the handlers read of a request and of [app.state].  [rq_form] is the
    result of [request.form()]; [rq_force] and [rq_cache_control] are [""] when
    absent. *)
Record Request := mkRequest {
  rq_form : list (string * FormValue) + exn;
  rq_force : string;
  rq_cache_control : string;
  rq_content_length : option string;
  rq_public_bind_exposed : bool;
  rq_allow_public_http_client : bool
}.

Inductive Reply :=
| JSONResponse (status_code : Z) (content : list (string * json))
| ZipResponse (content : list Byte.byte) (filename : option string).

Record IngestResult := mkIngestResult {
  ir_task_id : string;
  ir_cache_hit : bool;
  ir_status : string;
  ir_response : Reply
}.

Definition DEFAULT_BACKEND := "hybrid-engine".
Definition DEFAULT_PARSE_METHOD := "auto".
Definition DEFAULT_EFFORT := "medium".

(** [options.get(key, default)]; only [lang_list] is a list. *)
Definition option_str (opts : options) (key d : string) : string :=
  match opts !! key with Some (OptStr s) => s | _ => d end.

(** ** Staging *)

(** [StagedUpload] with its path. *)
Record StagedFile := mkStagedFile {
  f_field_name : string;
  f_upload_name : string;
  f_content_type : string;
  f_path : string
}.

(** A temporary directory and the payload in it. *)
Record Staged := mkStaged {
  st_files : gmap string (list Byte.byte);
  st_fields : list (string * string);
  st_uploads : list StagedFile
}.

Definition open_upload (files : gmap string (list Byte.byte)) (u : StagedFile) : StagedUpload :=
  mkUpload (f_field_name u) (f_upload_name u) (f_content_type u) (default [] (files !! f_path u)).
Definition opened (s : Staged) : MultipartPayload :=
  mkMultipart (st_fields s) (map (open_upload (st_files s)) (st_uploads s)).

(** The loop of [_build_upload_destination]; among one more candidates than
    there are files one is free. *)
Definition upload_candidate (filename : string) (index : Z) : string :=
  path_stem filename +:+ "__upload_" +:+ print_int index +:+ path_suffix filename.
Fixpoint next_destination (fuel : nat) (files : gmap string (list Byte.byte)) (filename : string)
    (index : Z) : outcome string :=
  match fuel with
  | O => Diverged
  | S fuel =>
      let candidate := upload_candidate filename index in
      if is_none (files !! candidate) then Ok candidate
      else next_destination fuel files filename (index + 1)
  end.
Definition build_upload_destination (files : gmap string (list Byte.byte)) (filename : string)
  : outcome string :=
  if is_none (files !! filename) then Ok filename
  else next_destination (S (size files)) files filename 2.

Section intake.
Context (settings : GatewaySettings) `{Env} `{!MinerUIntake}.

(** One item of the form; the second component counts the bytes read. *)
Definition stage_item (acc : Staged * Z) (item : string * FormValue) : M (Staged * Z) :=
  let '(s, total_bytes) := acc in
  match item.2 with
  | FormFile filename content_type data =>
      original_name ← (if truthy filename then mret (str_or filename "")
                       else id ← uuid4_hex ; mret ("upload-" +:+ uuid_str id)) ;
      destination ← lift (build_upload_destination (st_files s)
                            (normalize_upload_filename original_name)) ;
      chunks ← lift (bounded_chunks settings (length data) total_bytes data) ;
      let content := concat chunks in
      mret (mkStaged (<[destination := content]> (st_files s)) (st_fields s)
              (st_uploads s ++ [mkStagedFile item.1 original_name
                                  (str_or content_type "application/octet-stream") destination]),
            total_bytes + Z.of_nat (length content))
  | FormText value =>
      mret (mkStaged (st_files s) (st_fields s ++ [(item.1, value)]) (st_uploads s), total_bytes)
  end.

Definition stage_bounded_multipart_request (request : Request) : M Staged :=
  match rq_form request with
  | inl items => '(s, _) ← fold_m items (mkStaged ∅ [] [], 0) stage_item ; mret s
  | inr e => raise e
  end.

(** A path under the temporary directory and the checked client name; a name of
    hexadecimal digits never leaves the directory. *)
Definition internal_upload_path (client_name : string) : M (string * string) :=
  safe_name ← lift (sanitize_client_filename client_name) ;
  internal_name ← uuid4_hex ;
  mret (internal_name, safe_name).

(** [shutil.move]. *)
Definition move_file (src dst : string) (files : gmap string (list Byte.byte))
  : gmap string (list Byte.byte) :=
  match files !! src with Some data => <[dst := data]> (delete src files) | None => files end.

Definition rewrite_upload (acc : gmap string (list Byte.byte) * list StagedFile) (u : StagedFile)
  : M (gmap string (list Byte.byte) * list StagedFile) :=
  '(path, safe_name) ← internal_upload_path (f_upload_name u) ;
  mret (move_file (f_path u) path acc.1,
        acc.2 ++ [mkStagedFile (f_field_name u) safe_name (f_content_type u) path]).

Definition rewrite_staged_uploads (s : Staged) : M Staged :=
  '(files, rewritten) ← fold_m (st_uploads s) (st_files s, []) rewrite_upload ;
  mret (mkStaged files (st_fields s) rewritten).

Definition should_skip_cache (request : Request) : bool :=
  if lower (rq_force request) ∈? ["true"; "1"; "yes"] then true
  else contains_str "no-cache" (lower (rq_cache_control request)).

Definition validate_http_client_policy (payload : MultipartPayload)
    (public_bind_exposed allow_public_http_client : bool) : M unit :=
  match http_client_refused public_bind_exposed allow_public_http_client
          (str_or (get_field_value (mp_fields payload) "backend") "")
          (get_field_value (mp_fields payload) "server_url") with
  | None => mret tt
  | Some e => raise e
  end.

Definition pending_response (task_id source : string) : Reply :=
  JSONResponse 202
    [ ("task_id", JStr task_id); ("status", JStr TASK_QUEUED); ("source", JStr source);
      ("status_url", JStr (task_status_url task_id)); ("result_url", JStr (task_result_url task_id)) ].

(** ** The cache *)

Context `{!ObjectStore} `{!Sha256}.

Definition hash_staged_payload (payload : MultipartPayload)
  : outcome (list (string * string) * options) :=
  file_records ← compute_file_records_from_paths settings
    (map u_upload_name (mp_uploads payload)) (map u_data (mp_uploads payload)) ;
  Ok (file_records, build_cache_options_from_payload (mp_fields payload)).

Definition build_cache_hit_result (entry : CacheEntry) (file_names : list string) (has_store : bool)
  : M IngestResult :=
  hex ← uuid4_hex ;
  let task_id := uuid_str hex in
  if negb has_store then raise (RuntimeError "Object store required for cache hits")
  else
    _ ← create_hit_task task_id entry file_names ;
    mret (mkIngestResult task_id true TASK_COMPLETED
            (JSONResponse 202 [("task_id", JStr task_id); ("status", JStr TASK_COMPLETED);
                               ("source", JStr "cache")])).

(** [has_cache]: whether [cache] is a service. *)
Definition resolve_cache (has_cache : bool) (file_records : list (string * string))
    (file_names : list string) (opts : options) (backend parse_method : string)
    (skip_cache has_store : bool) : M (option string * option IngestResult) :=
  if negb has_cache || skip_cache || negb (cache_enabled (cache settings)) then mret (None, None)
  else
    let '(cache_key, options_hash) := compute_cache_key file_records opts in
    let content_sha256 := content_sha256_from_records file_records in
    let placeholder :=
      try_ (_ ← create_placeholder settings cache_key
                  (mkRefresh content_sha256 options_hash backend parse_method
                     (option_str opts "effort" DEFAULT_EFFORT) RESULT_FORMAT_ZIP
                     (Some (cache_ttl_seconds (cache settings)))) ;
            mret (Some cache_key, None))
           (fun _ => mret (None, None)) in
    cache_entry ← CacheService.lookup settings cache_key ;
    match cache_entry with
    | Some entry =>
        if truthy (c_object_key entry) then
          result ← build_cache_hit_result entry file_names has_store ;
          mret (Some cache_key, Some result)
        else placeholder
    | None => placeholder
    end.

(** ** The queue *)

Definition store_payload (task_id : string) (payload : MultipartPayload) (has_store : bool)
  : M (option string) :=
  if negb has_store then mret None
  else
    payload_bytes ← lift (pack_payload settings payload) ;
    let key := payload_key task_id in
    _ ← store_put key payload_bytes ;
    mret (Some key).

(** The [try] covers both calls; [payload_key] is still [None] in its handler
    when storing raised. *)
Definition create_task_with_payload (task_id : string) (payload : MultipartPayload)
    (file_names : list string) (backend parse_method : string) (opts : options)
    (cache_key : option string) (has_store : bool) (source : string) : M unit :=
  payload_key ← store_payload task_id payload has_store ;
  try_ (_ ← create_queued_task task_id file_names backend parse_method opts payload_key source cache_key ;
        mret tt)
       (fun e =>
          (if not_none payload_key && has_store
           then _ ← safe_delete payload_key ; mret tt else mret tt) ;;
          raise e).

Definition ingest_payload (payload : MultipartPayload) (has_store : bool) (source : string)
    (skip_cache public_bind_exposed allow_public_http_client : bool) : M IngestResult :=
  validate_http_client_policy payload public_bind_exposed allow_public_http_client ;;
  let file_names := map u_upload_name (mp_uploads payload) in
  '(file_records, opts) ← lift (hash_staged_payload payload) ;
  let backend := option_str opts "backend" DEFAULT_BACKEND in
  let parse_method := option_str opts "parse_method" DEFAULT_PARSE_METHOD in
  let has_cache := has_store && cache_enabled (cache settings) in
  '(cache_key, cache_hit) ← resolve_cache has_cache file_records file_names opts backend
                              parse_method skip_cache has_store ;
  match cache_hit with
  | Some result => mret result
  | None =>
      hex ← uuid4_hex ;
      let task_id := uuid_str hex in
      create_task_with_payload task_id payload file_names backend parse_method opts cache_key
        has_store source ;;
      mret (mkIngestResult task_id false TASK_QUEUED (pending_response task_id source))
  end.

(** The temporary directory is removed on every way out; it is not part of the
    world. *)
Definition ingest_task (request : Request) (has_store : bool) (source : string) : M IngestResult :=
  staged ← stage_bounded_multipart_request request ;
  payload ← try_ (rewrite_staged_uploads staged)
                 (fun e => match e with ValueError m => raise (StatusCodeError 422 m) | e => raise e end) ;
  ingest_payload (opened payload) has_store source (should_skip_cache request)
    (rq_public_bind_exposed request) (rq_allow_public_http_client request).
End intake.
