(* ===== verification/Results.v ===== *)
(** * Results: [tasks/results.py], from the worker to the bucket

    A finished task's result is fetched from its worker, stored, and only then
    does the row point at it. *)
From S2P Require Import Prelude Models Config World Database Logic Hoare Json Storage Status TaskRows.
From S2P Require Import Upstream CacheService.

Section results.
Context (settings : GatewaySettings) `{Env} `{!ObjectStore} `{!Http}.

Definition store_result (task_id : string) (data : list Byte.byte) (result_format : string)
  : M string :=
  let key := result_key task_id result_format in
  _ ← store_put key data ;
  mret key.

(** [cache_service] is given by a flag: the scheduler passes its own. *)
Definition fetch_and_store_result (task_id upstream_task_id upstream_base_url : string)
    (cache_service : bool) : M (string * list Byte.byte) :=
  let result_url := upstream_base_url +:+ "/tasks/" +:+ upstream_task_id +:+ "/result" in
  resp ← http_get result_url ;
  raise_for_status resp ;;
  key ← store_result task_id (r_content resp) RESULT_FORMAT_ZIP ;
  cache_key ← try_ (complete_with_result task_id key RESULT_FORMAT_ZIP)
                   (fun e => _ ← safe_delete (Some key) ; raise e) ;
  (if cache_service && truthy cache_key
   then try_ (populate_from_task task_id (str_or cache_key "") RESULT_FORMAT_ZIP)
             (fun _ => mret tt)
   else mret tt) ;;
  mret (key, r_content resp).

Definition read_result (task_id : string) : M (list Byte.byte * option string) :=
  open_session ;;
  row ← get_row (A:=Task) task_id ;
  match row with
  | Some row =>
      match t_result_key row with
      | Some key => data ← store_get key ; mret (data, t_result_format row)
      | None => raise (KeyError task_id)
      end
  | None => raise (KeyError task_id)
  end.
End results.

Section durability.
Context `{Env} `{!ObjectStore} `{!Http}.

Lemma store_put_wp key data w :
  wp (store_put key data)
    (fun _ w' => same_db w w' /\ objects w' = <[key := data]> (objects w))
    (fun _ w' => same_db w w') w.
Proof.
  destruct (store_put_db key data w) as [Hd Hdb]. pose proof (store_put_spec key data w) as Hs.
  unfold wp. destruct (store_put key data w) as [[n|e|] w']; cbn in *; [|done..].
  by destruct Hs.
Qed.

(** What a completed fetch leaves behind: the bytes under the key, and a
    completed row that points at them. *)
Lemma fetch_and_store_result_wp id uid url cs w :
  wp (fetch_and_store_result id uid url cs)
    (fun '(key, body) w' => key = result_key id RESULT_FORMAT_ZIP /\
       objects w' !! key = Some body /\ workers w' = workers w /\
       exists r r', tasks w !! id = Some r /\ tasks w' = <[id := r']> (tasks w) /\
         t_task_id r' = t_task_id r /\ t_status r' = TASK_COMPLETED /\ t_result_key r' = Some key /\
         t_result_format r' = Some RESULT_FORMAT_ZIP /\ not_none (t_completed_at r') = true /\
         (forall t, t_completed_at r = Some t -> t_completed_at r' = Some t))
    (fun _ w' => same_rows w w') w.
Proof.
  unfold fetch_and_store_result. apply wp_bind.
  eapply (wp_evolves same_data); [apply http_get_data| |by intros e w1 (? & ? & _)].
  intros resp w1 (E1 & E2 & _). apply wp_bind. unfold raise_for_status.
  destruct (_ && _); [|by split]. wp_go. unfold store_result. apply wp_bind.
  eapply wp_mono; [apply store_put_wp| |intros e w2 (? & ? & _); split; congruence].
  intros n w2 [(E3 & E4 & _) Eo]. wp_go. apply wp_try.
  eapply wp_mono; [apply complete_with_result_spec| |].
  - intros ck w3 (r & r' & Hr & -> & Et & Hs & Hk & Hf & Hid & Hc & Hc' & Ew & Eo3).
    apply wp_bind.
    assert (Hpop : wp (if cs && truthy (t_cache_key r)
        then try_ (populate_from_task id (str_or (t_cache_key r) "") RESULT_FORMAT_ZIP) (fun _ => mret tt)
        else mret tt)
      (fun _ w4 => same_rows w3 w4 /\ same_results w3 w4) (fun _ _ => False) w3).
    { destruct (_ && _); [|split; reflexivity]. apply (wp_swallow (fun v v' => same_rows v v' /\ same_results v v')).
      apply evolves_and; [apply populate_from_task_rows|apply populate_from_task_results]. }
    eapply wp_mono; [exact Hpop| |done]. intros u w4 [[Et4 Ew4] Ho4]. wp_go.
    split; [done|]. split; [by rewrite Ho4, Eo3, Eo, lookup_insert_eq|]. split; [congruence|].
    exists r, r'. rewrite Et4, Et, E4, E2. rewrite E4, E2 in Hr. by repeat (split; [done|]).
  - intros e w3 (Et & Ew & _). apply wp_bind.
    eapply (wp_evolves same_db); [apply safe_delete_db| |].
    + intros b w4 (? & ? & _). wp_go. split; congruence.
    + intros e' w4 (? & ? & _). split; congruence.
Qed.
End durability.
