(* ===== verification/Normalize.v ===== *)
(** * Normalize: [protocol/normalize.py] and the OCR models it fills

    A decoded JSON document is a Python value: a number may be a float, a key may
    be missing and a value of any type may stand anywhere, so every access has
    Python's dynamic checks.  Reading an archive, decoding its members' text and
    JSON is the class [ResultReader]: it yields code points and floats, which
    [Json] does not have. *)
From S2P Require Import Prelude Models World Json Payload PyText.

(** ** Python values *)

(** A float is [m * 2^e], an infinity or not a number. *)
Inductive pyfloat := Finite (m e : Z) | Infinite | NaN.

Inductive value :=
| VNone
| VBool (b : bool)
| VInt (z : Z)
| VFloat (f : pyfloat)
| VStr (s : string)
| VList (l : list value)
| VDict (l : list (string * value)).

Definition type_error {A} : outcome A := Raise (OtherException "TypeError").

(** [bool(v)]. *)
Definition truth (v : value) : bool :=
  match v with
  | VNone | VBool false => false
  | VBool true => true
  | VInt z => negb (z =? 0)
  | VFloat (Finite m _) => negb (m =? 0)
  | VFloat _ => true
  | VStr s => s !=? ""
  | VList l => match l with [] => false | _ => true end
  | VDict l => match l with [] => false | _ => true end
  end.

(** [a or b]. *)
Definition or_else (a b : value) : value := if truth a then a else b.

(** A dict is its items, with distinct keys. *)
Fixpoint assoc (k : string) (l : list (string * value)) : option value :=
  match l with [] => None | (k', v) :: l => if k ==? k' then Some v else assoc k l end.
(** [d.get(k, default)]: only a dict has [get]. *)
Definition get_default (d : value) (k : string) (default_ : value) : outcome value :=
  match d with
  | VDict l => Ok (default default_ (assoc k l))
  | _ => Raise (AttributeError "get")
  end.
Definition get (d : value) (k : string) : outcome value := get_default d k VNone.

(** [for x in v]. *)
Definition iter (v : value) : outcome (list value) :=
  match v with
  | VList l => Ok l
  | VDict l => Ok (map (fun kv => VStr kv.1) l)
  | VStr s => Ok (map (fun c => VStr (String c "")) (String.list_ascii_of_string s))
  | _ => type_error
  end.

(** [int(v)]: a float is truncated toward zero. *)
Definition to_int (v : value) : outcome Z :=
  match v with
  | VInt z => Ok z
  | VBool b => Ok (if b then 1 else 0)
  | VFloat (Finite m e) => Ok (if 0 <=? e then m * 2 ^ e else Z.quot m (2 ^ (- e)))
  | VFloat Infinite => Raise (OtherException "OverflowError")
  | VFloat NaN => Raise (ValueError "cannot convert float NaN to integer")
  | VStr s => match py_int s with Some z => Ok z | None => Raise (ValueError "invalid literal for int()") end
  | _ => type_error
  end.

(** [len(v)]. *)
Definition len (v : value) : outcome Z :=
  match v with
  | VStr s => Ok (Z.of_nat (String.length s))
  | VList l => Ok (Z.of_nat (length l))
  | VDict l => Ok (Z.of_nat (length l))
  | _ => type_error
  end.

(** [v[i]] for a non-negative [i]; the keys of a decoded dict are strings. *)
Definition item (v : value) (i : nat) : outcome value :=
  match v with
  | VList l => match l !! i with Some x => Ok x | None => Raise (OtherException "IndexError") end
  | VStr s => match String.get i s with
              | Some c => Ok (VStr (String c ""))
              | None => Raise (OtherException "IndexError")
              end
  | VDict _ => Raise (KeyError (print_int (Z.of_nat i)))
  | _ => type_error
  end.

(** [" ".join(parts)] and [v.strip()]. *)
Definition join_parts (parts : list value) : outcome string :=
  match mapM (fun p => match p with VStr s => Some s | _ => None end) parts with
  | Some l => Ok (join " " l)
  | None => type_error
  end.
Definition strip_value (v : value) : outcome string :=
  match v with VStr s => Ok (strip s) | _ => Raise (AttributeError "strip") end.

(** [[f(i, x) for i, x in enumerate(l, i)]]. *)
Fixpoint map_outcome {A B} (f : nat -> A -> outcome B) (i : nat) (l : list A) : outcome (list B) :=
  match l with
  | [] => Ok []
  | x :: l => y ← f i x ; ys ← map_outcome f (S i) l ; Ok (y :: ys)
  end.
(** [for x in l: acc = f(acc, x)]. *)
Fixpoint fold_outcome {A B} (f : B -> A -> outcome B) (acc : B) (l : list A) : outcome B :=
  match l with [] => Ok acc | x :: l => acc ← f acc x ; fold_outcome f acc l end.

(** ** [protocol/ocr_models.py] *)

Record OCRPageImage := mkImage {
  img_id : string;
  image_base64 : option string;
  top_left_x : option Z;
  top_left_y : option Z;
  bottom_right_x : option Z;
  bottom_right_y : option Z;
  image_annotation : option string
}.

(** [dimensions]: dpi, width and height. *)
Record OCRPage := mkPage {
  page_index : Z;
  markdown : string;
  images : list OCRPageImage;
  dimensions : option (Z * Z * Z)
}.

(** ** Blocks *)

(** One span: its content is added unless it is empty. *)
Definition add_span (parts : list value) (span : value) : outcome (list value) :=
  content ← get span "content" ;
  text ← (if truth content then Ok content
          else text ← get span "text" ; Ok (or_else text (VStr ""))) ;
  Ok (if truth text then parts ++ [text] else parts).

Definition add_line (parts : list value) (line : value) : outcome (list value) :=
  spans ← get line "spans" ;
  spans ← iter (or_else spans (VList [])) ;
  fold_outcome add_span parts spans.

Definition extract_block_text (block : value) : outcome string :=
  lines ← get block "lines" ;
  lines ← iter (or_else lines (VList [])) ;
  parts ← fold_outcome add_line [] lines ;
  joined ← join_parts parts ;
  let text := strip joined in
  if text !=? "" then Ok text
  else
    text ← get block "text" ;
    content ← get block "content" ;
    strip_value (or_else (or_else text content) (VStr "")).

Definition include_images (block : value) : outcome bool :=
  blocks ← get block "blocks" ;
  caption ← get block "img_caption" ;
  body ← get block "image_body" ;
  Ok (truth (or_else (or_else blocks caption) body)).

(** [int(bbox[i]) if len(bbox) > i else None]. *)
Definition coordinate (bbox : value) (i : nat) : outcome (option Z) :=
  n ← len bbox ;
  if n >? Z.of_nat i then x ← item bbox i ; z ← to_int x ; Ok (Some z) else Ok None.

Definition extract_image (block : value) (idx : nat) : outcome OCRPageImage :=
  bbox ← get block "bbox" ;
  let bbox := or_else bbox (VList [VInt 0; VInt 0; VInt 0; VInt 0]) in
  x0 ← coordinate bbox 0 ;
  y0 ← coordinate bbox 1 ;
  x1 ← coordinate bbox 2 ;
  y1 ← coordinate bbox 3 ;
  Ok (mkImage ("img-" +:+ print_int (Z.of_nat idx)) None x0 y0 x1 y1 None).

(** ** Pages *)

Definition is_dict (v : value) : bool := match v with VDict _ => true | _ => false end.
Definition is_str (v : value) (s : string) : bool := match v with VStr t => t ==? s | _ => false end.

(** One turn of the loop over the blocks. *)
Definition add_block (acc : list string * list OCRPageImage) (block : value)
  : outcome (list string * list OCRPageImage) :=
  let '(md_parts, images) := acc in
  btype ← get_default block "type" (VStr "") ;
  text ← extract_block_text block ;
  let md_parts :=
    if text !=? "" then
      if existsb (is_str btype) ["table"; "image"; "figure"]
      then md_parts ++ [chr 10 +:+ chr 10 +:+ text +:+ chr 10 +:+ chr 10]
      else md_parts ++ [text]
    else md_parts in
  with_image ← (if existsb (is_str btype) ["image"; "figure"] then include_images block else Ok false) ;
  if with_image : bool then
    img ← extract_image block (length images) ;
    Ok (md_parts, images ++ [img])
  else Ok (md_parts, images).

Definition page_dimensions (page_size : value) : outcome (option (Z * Z * Z)) :=
  match page_size with
  | VList l =>
      if (2 <=? length l)%nat then
        w ← item page_size 0 ; w ← to_int w ;
        h ← item page_size 1 ; h ← to_int h ;
        Ok (Some (72, w, h))
      else Ok None
  | _ => Ok None
  end.

Definition normalize_page (page_idx : nat) (page : value) : outcome OCRPage :=
  let fallback := VInt (Z.of_nat page_idx) in
  let no_size := VList [VInt 0; VInt 0] in
  '(idx, page_size) ←
    (if is_dict page then
       idx ← get_default page "page_idx" fallback ;
       page_size ← get page "page_size" ;
       size ← get page "size" ;
       Ok (idx, or_else (or_else page_size size) no_size)
     else Ok (fallback, no_size)) ;
  dims ← page_dimensions page_size ;
  blocks ← (if is_dict page then
              blocks ← get page "blocks" ;
              para_blocks ← get page "para_blocks" ;
              Ok (or_else (or_else blocks para_blocks) (VList []))
            else Ok (VList [])) ;
  blocks ← iter blocks ;
  '(md_parts, images) ← fold_outcome add_block ([], []) blocks ;
  index ← to_int idx ;
  Ok (mkPage index (match md_parts with [] => "" | _ => strip (join " " md_parts) end) images dims).

Definition normalize_middle_json (middle : value) : outcome (list OCRPage) :=
  pdf_info ← get middle "pdf_info" ;
  pdf_info' ← get middle "_pdf_info" ;
  pages ← iter (or_else (or_else pdf_info pdf_info') (VList [])) ;
  map_outcome normalize_page 0 pages.

Definition normalize_markdown (markdown : string) : list OCRPage := [mkPage 0 markdown [] None].

(** ** Archives *)

(** [zipfile.ZipFile(...).namelist()] with what [read] returns or raises for each
    name; [json.loads(data)]; [data.decode("utf-8", errors="replace")]. *)
Class ResultReader := {
  zip_entries : list Byte.byte -> list (string * (list Byte.byte + exn)) + exn;
  json_loads : list Byte.byte -> value + exn;
  utf8_replace : list Byte.byte -> string
}.

Definition of_sum {A} (x : A + exn) : outcome A := match x with inl a => Ok a | inr e => Raise e end.

(** The dict [extract_from_zip] fills. *)
Record Extracted := mkExtracted {
  ex_middle_json : option value;
  ex_markdown : option string;
  ex_extra_md : option (list string)
}.
Definition extracted_keys (r : Extracted) : list string :=
  (if not_none (ex_middle_json r) then ["middle_json"] else [])
  ++ (if not_none (ex_markdown r) then ["markdown"] else [])
  ++ (if not_none (ex_extra_md r) then ["extra_md"] else []).

Definition endswith (s suffix : string) : bool :=
  (String.length suffix <=? String.length s)%nat
  && (String.substring (String.length s - String.length suffix) (String.length suffix) s ==? suffix).

Section archives.
Context `{!ResultReader}.

Definition extract_entry (result : Extracted) (entry : string * (list Byte.byte + exn))
  : outcome Extracted :=
  let '(name, contents) := entry in
  if endswith name "/" then Ok result
  else
    data ← of_sum contents ;
    if endswith name "middle.json" then
      middle ← of_sum (json_loads data) ;
      Ok (mkExtracted (Some middle) (ex_markdown result) (ex_extra_md result))
    else if endswith name ".md" && ("full.md" ∉? extracted_keys result) then
      Ok (mkExtracted (ex_middle_json result) (Some (utf8_replace data)) (ex_extra_md result))
    else if endswith name ".md" then
      Ok (mkExtracted (ex_middle_json result) (ex_markdown result)
            (Some (default [] (ex_extra_md result) ++ [utf8_replace data])))
    else Ok result.

Definition extract_from_zip (zip_bytes : list Byte.byte) : outcome Extracted :=
  entries ← of_sum (zip_entries zip_bytes) ;
  fold_outcome extract_entry (mkExtracted None None None) entries.

Definition normalize_fallback (markdown_fallback : option string) : list OCRPage :=
  if truthy markdown_fallback then normalize_markdown (str_or markdown_fallback "")
  else [mkPage 0 "" [] None].

(** The [try] covers the archive and its conversion. *)
Definition normalize_result (zip_bytes : option (list Byte.byte)) (markdown_fallback : option string)
  : outcome (list OCRPage) :=
  match zip_bytes with
  | Some ((_ :: _) as data) =>
      match (extracted ← extract_from_zip data ;
             match ex_middle_json extracted, ex_markdown extracted with
             | Some middle, _ => pages ← normalize_middle_json middle ; Ok (Some pages)
             | None, Some markdown => Ok (Some (normalize_markdown markdown))
             | None, None => Ok None
             end) with
      | Ok (Some pages) => Ok pages
      | Ok None | Raise (BadZipFile _) | Raise (JSONDecodeError _) => Ok (normalize_fallback markdown_fallback)
      | Raise e => Raise e
      | Diverged => Diverged
      end
  | _ => Ok (normalize_fallback markdown_fallback)
  end.
End archives.
