(* ===== verification/TaskApi.v ===== *)
(** * TaskApi: the task routes of the gateway

    [gateway/task_flow.py] and [gateway/api/tasks.py], with the admission check
    ([gateway/admission.py]) in front of them.  The gateway reads task rows only;
    while a synchronous route sleeps between two polls the scheduler and the
    other processes run: [elsewhere] is any change of the world.  An
    [HTTPException] is a [StatusCodeError]; FastAPI turns it into a reply. *)
From S2P Require Import Prelude Models Config World Database Logic Hoare Json Payload PyText Storage Status.
From S2P Require Import TaskRows CacheService Results Ingest.

Class Elsewhere := {
  elsewhere : M unit;
  elsewhere_returns w : exists w', elsewhere w = (Ok tt, w')
}.

(** [None] is JSON's null. *)
Definition opt_json (o : option string) : json := match o with Some s => JStr s | None => JNull end.

(** ** Admission *)

(** A Content-Length that is not a number is let through. *)
Definition check_admission (settings : GatewaySettings) (request : Request) : outcome unit :=
  match rq_content_length request with
  | Some cl => match py_int cl with
               | Some n => check_file_size (Some n) settings
               | None => Ok tt
               end
  | None => Ok tt
  end.

(** ** The flow of a task *)

Definition FAILURE_STATUSES : list string := [TASK_FAILED; TASK_EXPIRED].
Definition POLL_ITERATIONS : nat := 300.

Definition require_store (has_store : bool) (detail : string) : option Reply :=
  if has_store then None else Some (JSONResponse 503 [("detail", JStr detail)]).

Definition is_poll_complete (row : Task) : bool :=
  if (t_status row ==? TASK_COMPLETED) && truthy (t_result_key row) then true
  else if t_status row ∈? FAILURE_STATUSES then true
  else not_none (t_client_expired_at row).

Definition client_sla_expired_response (task_id status : string) : Reply :=
  JSONResponse 202
    [ ("task_id", JStr task_id); ("status", JStr status); ("client_sla_expired", JBool true);
      ("message", JStr "Client SLA expired; task execution continues. Check status and result endpoints.");
      ("status_url", JStr (task_status_url task_id)); ("result_url", JStr (task_result_url task_id)) ].

Section flow.
Context (settings : GatewaySettings) `{Env} `{!ObjectStore}.

Definition load_task (task_id : string) : M (option Task) :=
  open_session ;; get_row (A:=Task) task_id.

Definition fetch_result_or_none (task_id : string) : M (option (list Byte.byte)) :=
  try_ ('(data, _) ← read_result task_id ; mret (Some data))
       (fun e => match e with KeyError _ => mret None | e => raise e end).

Definition try_fetch_result_bytes (task_id : string) (row : Task) (has_store : bool)
  : M (option (list Byte.byte)) :=
  if negb has_store || (t_status row !=? TASK_COMPLETED) || negb (truthy (t_result_key row))
  then mret None
  else fetch_result_or_none task_id.

(** The bytes of the result, or the reply of a branch without one. *)
Definition resolve_sync_result (task_id : string) (row : option Task) (has_store : bool)
  : M (list Byte.byte + Reply) :=
  match row with
  | None => mret (inr (JSONResponse 409 [("detail", JStr "Processing failed"); ("error", JStr "task disappeared")]))
  | Some row =>
      if t_status row ∈? FAILURE_STATUSES then
        mret (inr (JSONResponse 409 [("detail", JStr "Processing failed"); ("error", opt_json (t_error row))]))
      else
        data ← try_fetch_result_bytes task_id row has_store ;
        match data with
        | Some data => mret (inl data)
        | None =>
            if not_none (t_client_expired_at row)
            then mret (inr (client_sla_expired_response task_id (t_status row)))
            else if negb (is_poll_complete row) then
              mret (inr (JSONResponse 202 [("task_id", JStr task_id); ("status", JStr (t_status row));
                                           ("message", JStr "Result is not ready yet")]))
            else mret (inr (JSONResponse 404 [("detail", JStr "Result not yet stored")]))
        end
  end.

Context `{!Elsewhere}.

(** The polls left, and the row seen last. *)
Fixpoint poll_loop (n : nat) (task_id : string) (last : option Task) : M (option Task) :=
  match n with
  | O => mret last
  | S n =>
      row ← load_task task_id ;
      match row with
      | None => mret None
      | Some r => if is_poll_complete r then mret (Some r)
                  else elsewhere ;; poll_loop n task_id (Some r)
      end
  end.
Definition poll_task_until_terminal (task_id : string) : M (option Task) :=
  poll_loop POLL_ITERATIONS task_id None.

(** ** Routes *)

Definition get_task_status (task_id : string) : M Reply :=
  row ← load_task task_id ;
  match row with
  | None => mret (JSONResponse 404 [("detail", JStr "Task not found")])
  | Some row =>
      mret (JSONResponse 200
        [ ("task_id", JStr (t_task_id row)); ("status", JStr (t_status row)); ("backend", JStr (t_backend row));
          ("file_names", JArr (map JStr (t_file_names row))); ("error", opt_json (t_error row));
          ("created_at", opt_json (to_iso (Some (t_created_at row))));
          ("started_at", opt_json (to_iso (t_started_at row)));
          ("completed_at", opt_json (to_iso (t_completed_at row)));
          ("client_expired_at", opt_json (to_iso (t_client_expired_at row)));
          ("status_url", JStr (task_status_url task_id)); ("result_url", JStr (task_result_url task_id)) ])
  end.

Definition get_task_result (task_id : string) (has_store : bool) : M Reply :=
  row ← load_task task_id ;
  match row with
  | None => mret (JSONResponse 404 [("detail", JStr "Task not found")])
  | Some row =>
      if t_status row ∈? [TASK_FAILED; TASK_EXPIRED] then
        mret (JSONResponse 409 [("detail", JStr "Task execution failed"); ("error", opt_json (t_error row))])
      else if (t_status row !=? TASK_COMPLETED) || negb (truthy (t_result_key row)) then
        mret (JSONResponse 202 [("task_id", JStr task_id); ("status", JStr (t_status row));
                                ("message", JStr "Task result is not ready yet")])
      else
        data ← (if has_store then fetch_result_or_none task_id else mret None) ;
        match data with
        | Some data => mret (ZipResponse data (Some (task_id +:+ ".zip")))
        | None => mret (JSONResponse 404 [("detail", JStr "Result not yet stored")])
        end
  end.

Context `{!MinerUIntake} `{!Sha256}.

Definition submit_task (request : Request) (has_store : bool) : M Reply :=
  lift (check_admission settings request) ;;
  match require_store has_store "Object store not configured — POST /tasks requires durable payload storage." with
  | Some reply => mret reply
  | None => result ← ingest_task settings request has_store "tasks" ; mret (ir_response result)
  end.

Definition file_parse (request : Request) (has_store : bool) : M Reply :=
  lift (check_admission settings request) ;;
  match require_store has_store "Object store not configured — /file_parse requires durable payload storage." with
  | Some reply => mret reply
  | None =>
      result ← ingest_task settings request has_store "tasks" ;
      let task_id := ir_task_id result in
      cached ← (if ir_cache_hit result && has_store then fetch_result_or_none task_id else mret None) ;
      match cached with
      | Some data => mret (ZipResponse data None)
      | None =>
          row ← poll_task_until_terminal task_id ;
          resolved ← resolve_sync_result task_id row has_store ;
          match resolved with
          | inl data => mret (ZipResponse data None)
          | inr reply => mret reply
          end
      end
  end.
End flow.
