(* ===== verification/Ocr.v ===== *)
(** * Ocr: [POST /v1/ocr]

    [gateway/api/ocr.py] and the part of [gateway/ingest.py] that turns its JSON
    request into the payload the multipart routes stage: the inline document in
    base64, the document behind a URL, and the form of the options.  The HTTP
    client that downloads a document is third-party: [DocumentClient] yields the
    status, the chunks and the exception that ends the stream, if any. *)
From S2P Require Import Prelude Models Config World Database Logic Hoare Json Payload PyText Storage Status.
From S2P Require Import TaskRows CacheService Results Ingest Normalize TaskApi.

(** ** The request: [protocol/ocr_models.py] *)

Record OCRDocument := mkDocument {
  doc_type : string;
  document_url : option string;
  image_url : option string;
  doc_file : option string;
  doc_file_name : option string
}.
Record OCRRequest := mkOCRRequest {
  model : string;
  document : OCRDocument;
  language : option (list string);
  backend : string;
  effort : string;
  parse_method : string
}.

(** ** [base64.b64decode(s, validate=True)] *)

Definition PAD : Ascii.ascii := Ascii.ascii_of_nat 61.

(** The six bits of a character of the alphabet. *)
Definition sextet (c : Ascii.ascii) : option Z :=
  let n := Z.of_nat (Ascii.nat_of_ascii c) in
  if (65 <=? n) && (n <=? 90) then Some (n - 65)
  else if (97 <=? n) && (n <=? 122) then Some (n - 71)
  else if (48 <=? n) && (n <=? 57) then Some (n + 4)
  else if n =? 43 then Some 62
  else if n =? 47 then Some 63
  else None.

Definition base64_error {A} (m : string) : outcome A := Raise (ValueError m).

(** [binascii.a2b_base64] in strict mode: the position in the quad, the bits left
    over from the character before, the pads that count, and whether padding has
    started. *)
Fixpoint a2b_loop (s : string) (quad_pos leftchar pads : Z) (padding_started : bool)
  : outcome (list Byte.byte) :=
  match s with
  | EmptyString => if quad_pos =? 0 then Ok [] else base64_error "Incorrect padding"
  | String c s =>
      if Ascii.eqb c PAD then
        if (2 <=? quad_pos) && (4 <=? quad_pos + (pads + 1)) then
          match s with EmptyString => Ok [] | _ => base64_error "Excess data after padding" end
        else a2b_loop s quad_pos leftchar (if 2 <=? quad_pos then pads + 1 else pads) true
      else
        match sextet c with
        | None => base64_error "Only base64 data is allowed"
        | Some v =>
            if padding_started then base64_error "Discontinuous padding not allowed"
            else if quad_pos =? 0 then a2b_loop s 1 v 0 false
            else if quad_pos =? 1 then
              rest ← a2b_loop s 2 (Z.land v 15) 0 false ;
              Ok (byte_of_Z (Z.lor (Z.shiftl leftchar 2) (Z.shiftr v 4)) :: rest)
            else if quad_pos =? 2 then
              rest ← a2b_loop s 3 (Z.land v 3) 0 false ;
              Ok (byte_of_Z (Z.lor (Z.shiftl leftchar 4) (Z.shiftr v 2)) :: rest)
            else
              rest ← a2b_loop s 0 0 0 false ;
              Ok (byte_of_Z (Z.lor (Z.shiftl leftchar 6) v) :: rest)
        end
  end.

Definition b64decode (s : string) : outcome (list Byte.byte) :=
  if startswith s (String PAD "") then base64_error "Leading padding not allowed"
  else a2b_loop s 0 0 0 false.

Example b64decode_examples :
  map b64decode ["AAAA="; "AA="; "AB=="; "AAB="; "A==="; "AA=A"; "AA==AA=="; "AAA=="; "AAAA===="; "AA A"] =
  [Ok [Byte.x00; Byte.x00; Byte.x00]; base64_error "Incorrect padding"; Ok [Byte.x00]; Ok [Byte.x00; Byte.x00];
   base64_error "Incorrect padding"; base64_error "Discontinuous padding not allowed";
   base64_error "Excess data after padding"; base64_error "Excess data after padding";
   Ok [Byte.x00; Byte.x00; Byte.x00]; base64_error "Only base64 data is allowed"].
Proof. vm_compute. reflexivity. Qed.

(** ** The document *)

Record DocumentStream := mkStream {
  ds_status : Z;
  ds_chunks : list (list Byte.byte);
  ds_failure : option exn
}.
Class DocumentClient `{Env} := {
  http_stream : string -> M DocumentStream;
  http_stream_data url : evolves same_data (http_stream url)
}.
#[export] Hint Resolve http_stream_data : evolve.

(** [except HTTPException: raise] and [except Exception: return None, ""]. *)
Definition no_document (e : exn) : outcome (option (list Byte.byte) * string) :=
  match e with StatusCodeError _ _ => Raise e | _ => Ok (None, "") end.

Section ocr.
Context (settings : GatewaySettings).

Definition decode_inline_file (file : string) (file_name : option string)
  : outcome (option (list Byte.byte) * string) :=
  match (let encoded := strip file in
         let n := Z.of_nat (String.length encoded) in
         let padding := (- n) mod 4 in
         let estimated := (n + padding) * 3 / 4 in
         enforce_byte_limit estimated settings ;;
         data ← b64decode encoded ;
         enforce_byte_limit (Z.of_nat (length data)) settings ;;
         Ok (Some data, str_or file_name "document")) with
  | Raise e => no_document e
  | r => r
  end.

(** The loop over the chunks: the running total and what was kept. *)
Fixpoint download (total : Z) (chunks : list (list Byte.byte)) : outcome (list Byte.byte) :=
  match chunks with
  | [] => Ok []
  | chunk :: chunks =>
      let total := total + Z.of_nat (length chunk) in
      enforce_byte_limit total settings ;;
      rest ← download total chunks ;
      Ok (chunk ++ rest)
  end.

Context `{Env} `{!DocumentClient} `{!MinerUIntake}.

Definition fetch_document_url (url : string) : M (option (list Byte.byte) * string) :=
  try_
    (resp ← http_stream url ;
     (if (200 <=? ds_status resp) && (ds_status resp <? 300) then mret tt
      else raise (HTTPStatusError (ds_status resp) "status error")) ;;
     data ← lift (download 0 (ds_chunks resp)) ;
     match ds_failure resp with
     | Some e => raise e
     | None => mret (Some data, str_or (last (split_char SLASH url)) "document")
     end)
    (fun e => lift (no_document e)).

Definition extract_document (body : OCRRequest) (public_bind_exposed allow_public_http_client : bool)
  : M (option (list Byte.byte) * string) :=
  let doc := document body in
  if (doc_type doc ==? "file") && truthy (doc_file doc) then
    lift (decode_inline_file (str_or (doc_file doc) "") (doc_file_name doc))
  else if doc_type doc ∈? ["document_url"; "image_url"] then
    match (if truthy (document_url doc) then document_url doc else image_url doc) with
    | None => mret (None, "")
    | Some url =>
        (match http_client_refused public_bind_exposed allow_public_http_client "" (Some url) with
         | None => mret tt
         | Some e => raise e
         end) ;;
        fetch_document_url url
    end
  else mret (None, "").

(** ** The payload *)

Definition ocr_languages (body : OCRRequest) : list string :=
  match language body with Some ((_ :: _) as l) => l | _ => ["ch"] end.
Definition ocr_fields (body : OCRRequest) : list (string * string) :=
  [("backend", backend body); ("effort", effort body); ("parse_method", parse_method body)]
  ++ map (fun lang => ("lang_list", lang)) (ocr_languages body).

Definition build_payload (file_bytes : list Byte.byte) (file_name : string) (body : OCRRequest) : M Staged :=
  let safe_name := if contains_char DOT file_name then file_name else file_name +:+ ".pdf" in
  '(file_path, safe_name) ← internal_upload_path safe_name ;
  mret (mkStaged (<[file_path := file_bytes]> ∅) (ocr_fields body)
          [mkStagedFile "files" safe_name "application/octet-stream" file_path]).

(** ** The route *)

Inductive OcrReply :=
| OcrPages (model_ : string) (pages : list OCRPage)
| OcrError (reply : Reply).

Context `{!ObjectStore} `{!Sha256} `{!Elsewhere} `{!ResultReader}.

Definition ocr_response (body : OCRRequest) (result_bytes : list Byte.byte) : M OcrReply :=
  pages ← lift (normalize_result (Some result_bytes) None) ;
  mret (OcrPages (model body) pages).

Definition create_ocr (request : Request) (body : OCRRequest) (has_store : bool) : M OcrReply :=
  lift (check_admission settings request) ;;
  '(file_bytes, file_name) ← extract_document body (rq_public_bind_exposed request)
                               (rq_allow_public_http_client request) ;
  match file_bytes with
  | None =>
      mret (OcrError (JSONResponse 400 [("detail",
        JStr "Could not extract document. Provide document_url, image_url, or file.")]))
  | Some file_bytes =>
      match require_store has_store "Object store not configured — /v1/ocr requires durable result storage." with
      | Some reply => mret (OcrError reply)
      | None =>
          payload ← try_ (s ← build_payload file_bytes file_name body ; mret (inl s))
                         (fun e => match e with
                                   | ValueError m => mret (inr (JSONResponse 422 [("detail", JStr m)]))
                                   | e => raise e
                                   end) ;
          match payload with
          | inr reply => mret (OcrError reply)
          | inl staged =>
              result ← ingest_payload settings (opened staged) has_store "ocr" (should_skip_cache request)
                         (rq_public_bind_exposed request) (rq_allow_public_http_client request) ;
              let task_id := ir_task_id result in
              if ir_cache_hit result then
                data ← fetch_result_or_none task_id ;
                match data with
                | None => mret (OcrError (JSONResponse 404 [("detail", JStr "Cached result not found in object store")]))
                | Some data => ocr_response body data
                end
              else
                row ← poll_task_until_terminal task_id ;
                resolved ← resolve_sync_result task_id row has_store ;
                match resolved with
                | inr reply => mret (OcrError reply)
                | inl data => ocr_response body data
                end
          end
      end
  end.
End ocr.
