(* ===== verification/AdminApi.v ===== *)
(** * AdminApi: authentication, readiness and the admin routes

    [gateway/auth.py], [gateway/readiness.py], [gateway/api/admin.py] and the
    [/ready] route of [gateway/app.py].  Header values are decoded as Latin-1 by
    Starlette, so they are strings of the model. *)
From S2P Require Import Prelude Models Config World Database Logic Hoare Json Payload PyText Storage Status.
From S2P Require Import TaskRows WorkerRepository CacheService Ingest TaskApi.

(** ** Authentication *)

Definition PUBLIC_PATHS : list string := ["/health"; "/ready"; "/docs"; "/openapi.json"; "/redoc"].

Definition is_ascii (s : string) : bool :=
  forallb (fun c => (Ascii.nat_of_ascii c <? 128)%nat) (String.list_ascii_of_string s).

(** [secrets.compare_digest] on two [str]: only ASCII is accepted. *)
Definition compare_digest (a b : string) : outcome bool :=
  if is_ascii a && is_ascii b then Ok (a ==? b)
  else Raise (OtherException "TypeError: comparing strings with non-ASCII characters is not supported").

(** [any(f(x) for x in l)]: stops at the first true value. *)
Fixpoint any_o {A} (f : A -> outcome bool) (l : list A) : outcome bool :=
  match l with
  | [] => Ok false
  | x :: l => b ← f x ; if b : bool then Ok true else any_o f l
  end.

Definition unauthorized : Reply := JSONResponse 401 [("detail", JStr "Invalid or missing API key")].

(** The key a request provides: [x-api-key], else [authorization] without
    [Bearer ]. *)
Definition provided_key (x_api_key authorization : option string) : string :=
  if truthy x_api_key then str_or x_api_key ""
  else strip (removeprefix "Bearer " (default "" authorization)).

(** [ApiKeyMiddleware.dispatch]: [None] is [call_next]. *)
Definition auth_dispatch (settings : GatewaySettings) (path : string)
    (x_api_key authorization : option string) : outcome (option Reply) :=
  if negb (auth_enabled (auth settings)) then Ok None
  else if path ∈? PUBLIC_PATHS then Ok None
  else
    let provided := provided_key x_api_key authorization in
    if provided ==? "" then Ok (Some unauthorized)
    else
      valid ← any_o (compare_digest provided) (resolved_keys (auth settings)) ;
      if valid : bool then Ok None else Ok (Some unauthorized).

(** ** Readiness *)

Section readiness.
Context (select_one : M unit) (store_validate : option (M unit)).

(** [select_one] connects and runs the statement; [store_validate] is the
    store's [validate], [None] without a store. *)
Definition check_readiness : M (bool * string) :=
  db ← try_ (select_one ;; mret true) (fun _ => mret false) ;
  if negb db then mret (false, "database unavailable")
  else match store_validate with
       | None => mret (false, "object storage not configured")
       | Some validate =>
           ok ← try_ (validate ;; mret true) (fun _ => mret false) ;
           mret (if ok : bool then (true, "ok") else (false, "object storage unavailable"))
       end.

Definition ready : M Reply :=
  '(ok, detail) ← check_readiness ;
  mret (if ok : bool then JSONResponse 200 [("status", JStr "ready"); ("detail", JStr detail)]
        else JSONResponse 503 [("status", JStr "not_ready"); ("detail", JStr detail)]).
End readiness.

(** ** Admin routes *)

Definition worker_dict (w : Worker) : list (string * json) :=
  [ ("id", JStr (w_id w)); ("provider", JStr (w_provider w)); ("deployment_id", JStr (w_deployment_id w));
    ("instance_id", opt_json (w_instance_id w)); ("base_url", opt_json (w_base_url w));
    ("desired_state", JStr (w_desired_state w)); ("cloud_state", JStr (w_cloud_state w));
    ("healthy", JBool (w_healthy w)); ("draining", JBool (w_draining w));
    ("drain_target", opt_json (w_drain_target w)); ("replacement_for", opt_json (w_replacement_for w));
    ("rotation_requested", JBool (w_rotation_requested w)); ("generation", JInt (w_generation w));
    ("failure_count", JInt (w_failure_count w)); ("retry_after", opt_json (to_iso (w_retry_after w)));
    ("stalled_at", opt_json (to_iso (w_stalled_at w))); ("ready_at", opt_json (to_iso (w_ready_at w)));
    ("last_error", opt_json (w_last_error w)); ("provisioning_detail", opt_json (w_provisioning_detail w));
    ("last_active_at", opt_json (to_iso (w_last_active_at w)));
    ("terminated_at", opt_json (to_iso (w_terminated_at w)));
    ("created_at", opt_json (to_iso (Some (w_created_at w))));
    ("updated_at", opt_json (to_iso (Some (w_updated_at w)))) ].

(** The tail that the routes on one worker share. *)
Definition worker_reply (row : option Worker) : Reply :=
  match row with
  | None => JSONResponse 404 [("detail", JStr "Worker not found")]
  | Some w => JSONResponse 200 (worker_dict w)
  end.

Section admin.
Context (settings : GatewaySettings) `{Env} `{!ObjectStore}.

Definition admin_list_workers : M Reply :=
  rows ← list_workers settings ;
  mret (JSONResponse 200 [("workers", JArr (map (fun w => JObj (worker_dict w)) rows))]).

Definition admin_get_worker (worker_id : string) : M Reply :=
  row ← get_worker settings worker_id ; mret (worker_reply row).

Definition drain_worker (worker_id : string) (terminate : bool) (reason : string)
    (requester : option string) : M Reply :=
  let drain_target := if terminate then "terminated" else "stopped" in
  row ← set_drain_intent settings worker_id drain_target reason requester ;
  mret (worker_reply row).

Definition rotate_worker (worker_id reason : string) (requester : option string) : M Reply :=
  row ← set_rotation_requested settings worker_id reason requester ; mret (worker_reply row).

Definition admin_recover_worker (worker_id reason : string) (requester : option string) : M Reply :=
  row ← recover_worker settings worker_id reason requester ; mret (worker_reply row).

Definition invalidate_cache (cache_key : string) (has_store : bool) : M Reply :=
  match require_store has_store "Object store not configured" with
  | Some reply => mret reply
  | None =>
      done ← invalidate cache_key ;
      if negb done then mret (JSONResponse 404 [("detail", JStr "Cache entry not found")])
      else mret (JSONResponse 200 [("invalidated", JStr cache_key)])
  end.

Definition sweep_cache (has_store : bool) : M Reply :=
  match require_store has_store "Object store not configured" with
  | Some reply => mret reply
  | None =>
      removed ← sweep_expired ;
      mret (JSONResponse 200 [("removed", JInt removed)])
  end.
End admin.
