(* ===== verification/TaskRepository.v ===== *)
(** * TaskRepository: dispatch, status synchronisation and result persistence

    The methods of [scheduler/task_repository.py] that involve a worker: the
    claim of a queued task, its submission with reassignment, the refresh of
    dispatched tasks, and the persistence of finished ones. *)
From S2P Require Import Prelude Models Config World Database Logic Hoare Json Payload Storage Status Lifecycle TaskRows.
From S2P Require Import Upstream WorkerRepository CacheService Results.

Inductive DispatchFailureOutcome :=
| Reassigned (worker : Worker)
| Requeued
| Failed.

Section repository.
Context (settings : GatewaySettings) `{Env} `{!ObjectStore} `{!Http} `{!MinerU}.

Definition queued_clause (t : Task) : bool :=
  (t_status t ==? TASK_QUEUED) && is_none (t_upstream_task_id t) && is_none (t_upstream_base_url t).

(** One session: the oldest queued task and a worker with a free slot. *)
Definition claim_next_dispatch : M (option (Task * Worker)) :=
  open_session ;;
  candidates ← select (fun _ => queued_clause) (fun _ => by_key t_created_at) ;
  match head candidates with
  | None => mret None
  | Some candidate =>
      acquired ← acquire_dispatchable settings ∅ ;
      match acquired with
      | None => mret None
      | Some (worker, touch) =>
          now ← now_utc ;
          let claim := [T_status TASK_DISPATCHING; T_dispatch_started_at (Some now);
                        T_worker_id (Some (w_id worker))] in
          commit [touch; OnTask (Put (t_task_id candidate) claim)] ;;
          mret (Some (set_task claim candidate, worker))
      end
  end.

Definition rebuild_payload (task : Task) : M (option MultipartPayload) :=
  match t_payload_key task with
  | None => mret None
  | Some key =>
      blob ← try_ (data ← store_get key ; mret (Some data))
                  (fun e => match e with KeyError _ => mret None | e => raise e end) ;
      match blob with
      | None => mret None
      | Some blob => lift (rebuild_blob blob)
      end
  end.

Definition reassign_dispatch_worker (task_id : string) (excluded_ids : gset string)
  : M (option Worker) :=
  open_session ;;
  row ← get_row (A:=Task) task_id ;
  match row with
  | None => mret None
  | Some row =>
      if t_status row !=? TASK_DISPATCHING then mret None
      else
        acquired ← acquire_dispatchable settings excluded_ids ;
        match acquired with
        | None => commit [OnTask (Put task_id requeue_fields)] ;; mret None
        | Some (worker, touch) =>
            commit [touch; OnTask (Put task_id [T_worker_id (Some (w_id worker))])] ;;
            mret (Some worker)
        end
  end.

(** [excluded] is the set the caller holds; the new one is returned. *)
Definition reassign_after_exclusion (task : Task) (worker : Worker) (excluded : gset string)
  : M (option Worker * gset string) :=
  let excluded := {[w_id worker]} ∪ excluded in
  reassigned ← reassign_dispatch_worker (t_task_id task) excluded ;
  mret (reassigned, excluded).

Definition handle_dispatch_failure (task : Task) (worker : Worker) (exc : exn)
    (excluded : gset string) : M (DispatchFailureOutcome * gset string) :=
  if should_retry exc then
    '(reassigned, excluded) ← reassign_after_exclusion task worker excluded ;
    mret (match reassigned with None => Requeued | Some w => Reassigned w end, excluded)
  else
    mark_failed (t_task_id task) ("Content error: " +:+ exn_str exc) ;;
    mret (Failed, excluded).

(** The [while True] of [_submit_claimed_task]: every further turn has one
    more worker excluded, so the number of workers is fuel enough. *)
Fixpoint submit_loop (fuel : nat) (task : Task) (worker : Worker) (excluded : gset string) : M bool :=
  match fuel with
  | O => diverge
  | S fuel =>
      payload ← rebuild_payload task ;
      match payload with
      | None =>
          mark_failed (t_task_id task) "Payload unavailable in object storage" ;;
          mret false
      | Some payload =>
          let base_url := str_or (w_base_url worker) "" in
          if base_url ==? "" then
            '(reassigned, excluded) ← reassign_after_exclusion task worker excluded ;
            match reassigned with
            | None => mret false
            | Some worker => submit_loop fuel task worker excluded
            end
          else
            upstream ← try_ (u ← submit_payload_to_upstream base_url payload ; mret (inr u))
                            (fun exc => mret (inl exc)) ;
            match upstream with
            | inl exc =>
                '(outcome, excluded) ← handle_dispatch_failure task worker exc excluded ;
                match outcome with
                | Reassigned worker => submit_loop fuel task worker excluded
                | Requeued | Failed => mret false
                end
            | inr (upstream_task_id, upstream_status) =>
                mark_processing (t_task_id task) (w_id worker) upstream_task_id base_url
                  upstream_status ;;
                mret true
            end
      end
  end.

Definition submit_claimed_task (task : Task) (worker : Worker) : M bool :=
  fuel ← gets (fun w => S (size (workers w))) ;
  submit_loop fuel task worker ∅.

(** [for _ in range(n)] with a [break] when nothing can be claimed. *)
Fixpoint dispatch_loop (n : nat) (dispatched : Z) : M Z :=
  match n with
  | O => mret dispatched
  | S n =>
      claim ← claim_next_dispatch ;
      match claim with
      | None => mret dispatched
      | Some (task, worker) =>
          submitted ← submit_claimed_task task worker ;
          dispatch_loop n (if submitted : bool then dispatched + 1 else dispatched)
      end
  end.

Definition DISPATCH_PER_TICK : nat := 32.
Definition dispatch_queued_tasks : M Z := dispatch_loop DISPATCH_PER_TICK 0.

(** ** Status synchronisation *)

Definition report_url (upstream_base_url upstream_task_id : string) : string :=
  upstream_base_url +:+ "/tasks/" +:+ upstream_task_id.

(** The poll gate is cleared once a report has been applied. *)
Definition clear_poll_gate (task_id : string) : M unit :=
  open_session ;;
  row ← get_row (A:=Task) task_id ;
  match row with
  | None => mret tt
  | Some row =>
      if not_none (t_next_poll_at row)
      then commit [OnTask (Put task_id [T_next_poll_at None])] else mret tt
  end.

Definition refresh_task_from_upstream (task_id : string) : M (option Task) :=
  open_session ;;
  row ← get_row (A:=Task) task_id ;
  match row with
  | None => mret None
  | Some row =>
      if t_status row ∈? TASK_STATUSES_TERMINAL then mret (Some row)
      else if negb (truthy (t_upstream_task_id row)) || negb (truthy (t_upstream_base_url row))
      then mret (Some row)
      else
        payload ← worker_json_get (report_url (str_or (t_upstream_base_url row) "")
                                              (str_or (t_upstream_task_id row) "")) ;
        match payload with
        | None => defer_task_poll task_id ;; mret (Some row)
        | Some payload =>
            match report_of_json payload with
            | None => raise (OtherException "TypeError")
            | Some payload =>
                updated ← apply_upstream_payload_row task_id payload ;
                (if not_none updated then clear_poll_gate task_id else mret tt) ;;
                mret updated
            end
        end
  end.

Definition sync_clause (now : time) (t : Task) : bool :=
  (t_status t ∈? [TASK_PROCESSING; TASK_DISPATCHING])
  && not_none (t_upstream_task_id t) && not_none (t_upstream_base_url t)
  && pollable_clause now t.

Definition sync_one (task : Task) : M bool :=
  let before := t_status task in
  updated ← refresh_task_from_upstream (t_task_id task) ;
  match updated with
  | None => mret false
  | Some updated =>
      if t_status updated ==? before then mret false
      else
        (if (t_status updated ∈? TASK_STATUSES_TERMINAL) && truthy (t_worker_id updated)
         then now ← now_utc ;
              commit_fields (str_or (t_worker_id updated) "") [W_last_active_at (Some now)]
         else mret tt) ;;
        mret true
  end.

Definition sync_dispatched_task_statuses : M Z :=
  open_session ;;
  now ← now_utc ;
  rows ← select (fun _ => sync_clause now) poll_order ;
  results ← gather (take HEALTH_BATCH rows) sync_one ;
  mret (Z.of_nat (length (List.filter id results))).

(** ** Results *)

(** 1 stored, or 1 failed, or neither. *)
Definition persist_one (cache_service : bool) (task : Task) : M (Z * Z) :=
  if negb (truthy (t_upstream_task_id task)) || negb (truthy (t_upstream_base_url task))
  then mret (0, 0)
  else try_ (_ ← fetch_and_store_result (t_task_id task) (str_or (t_upstream_task_id task) "")
                   (str_or (t_upstream_base_url task) "") cache_service ;
             mret (1, 0))
            (fun _ => defer_task_poll (t_task_id task) ;; mret (0, 1)).

Definition persist_pending_results (tasks : list Task) (cache_service : bool) : M (Z * Z) :=
  match tasks with
  | [] => mret (0, 0)
  | _ =>
      results ← gather tasks (persist_one cache_service) ;
      mret (foldr Z.add 0 results.*1, foldr Z.add 0 results.*2)
  end.
End repository.

(** ** Slots *)

Section slots.
Context (settings : GatewaySettings).

(** No worker is pushed over its target; one that is over already is not
    pushed further. *)
Definition slots_ok (w w' : World) : Prop := forall id,
  compute_capacity w' id <= Z.max (target_per_worker (scaling settings)) (compute_capacity w id).

#[export] Instance slots_ok_preorder : PreOrder slots_ok.
Proof.
  split; unfold slots_ok; [intros w id; lia|].
  intros a b c Hab Hbc id. specialize (Hab id). specialize (Hbc id). lia.
Qed.

Definition occupies (id : string) (t : Task) : bool :=
  sql_eq (t_worker_id t) id && (t_status t ∈? TASK_STATUSES_COMPUTE_CAPACITY).

Lemma capacity_count w id : compute_capacity w id = Z.of_nat (count_map (occupies id) (tasks w)).
Proof. reflexivity. Qed.

Lemma slots_same w w' : tasks w' = tasks w -> slots_ok w w'.
Proof. intros E id. rewrite !capacity_count, E. lia. Qed.

(** A written row may stay on its slot, or take one that is free. *)
Lemma slots_put w w' k r r' :
  tasks w !! k = Some r -> tasks w' = <[k := r']> (tasks w) ->
  (forall id, occupies id r' = true -> occupies id r = true \/
     compute_capacity w id < target_per_worker (scaling settings)) ->
  slots_ok w w'.
Proof.
  intros Hk E Hocc id. specialize (Hocc id). rewrite !capacity_count in *. rewrite E.
  pose proof (count_map_insert (occupies id) (tasks w) k r r' Hk) as Hc.
  destruct (occupies id r'), (occupies id r); try lia; destruct (Hocc eq_refl); (done || lia).
Qed.

Lemma occupies_flushed id fs r r' : flushed fs r r' -> occupies id r' = occupies id (set_task fs r).
Proof. by intros [->|[u ->]]. Qed.
End slots.

(** ** Dispatch *)

Section dispatch.
Context (settings : GatewaySettings) `{Env} `{!ObjectStore} `{!Http} `{!MinerU}.

(** What dispatch keeps, relative to the world [w0] it started from. *)
Record dispatch_inv (w0 w : World) : Prop := {
  di_tasks : tasks_ok w;
  di_workers : fleet_kept w0 w;
  di_dom : dom (workers w) = dom (workers w0);
  di_slots : slots_ok settings w0 w;
  di_lawful : lawful w0 w
}.

#[export] Instance dispatch_inv_stable w0 : Stable (dispatch_inv w0).
Proof.
  intros w w' (E1 & E2 & E3 & E4) []. split.
  - by eapply all_rows_same.
  - by eapply fleet_kept_same.
  - by rewrite E1.
  - etrans; [done|]. by apply slots_same.
  - etrans; [done|]. by apply lawful_same.
Qed.

Lemma dispatch_inv_bump w0 w : dispatch_inv w0 w -> dispatch_inv w0 (bump w).
Proof. apply (stable_bump (dispatch_inv w0)). Qed.

Lemma dispatch_inv_tables w0 w w' : same_tables w w' -> dispatch_inv w0 w -> dispatch_inv w0 w'.
Proof.
  intros (E1 & E2 & E3) []. split; [by eapply all_rows_same|by eapply fleet_kept_same|by rewrite E1| |].
  - etrans; [done|]. by apply slots_same.
  - etrans; [done|]. by apply lawful_same.
Qed.

(** A commit of one task row. *)
Lemma dispatch_inv_put w0 w w' k fs r r' :
  dispatch_inv w0 w -> tasks w !! k = Some r -> flushed fs r r' ->
  tasks w' = <[k := r']> (tasks w) -> workers w' = workers w ->
  task_good k (set_task fs r) -> rtc life (phase_of r) (phase_of (set_task fs r)) ->
  (forall id, occupies id (set_task fs r) = true -> occupies id r = true \/
     compute_capacity w id < target_per_worker (scaling settings)) ->
  dispatch_inv w0 w'.
Proof.
  intros [HT HW HD HS HF] Hr Hf Et Ew Hg Hnt Hocc. split.
  - eapply all_rows_insert; [exact HT|exact Et|]. by eapply flushed_good; [apply _|..].
  - by eapply fleet_kept_same.
  - by rewrite Ew.
  - etrans; [exact HS|]. eapply slots_put; [done..|]. intros id.
    rewrite (occupies_flushed _ _ _ _ Hf). apply Hocc.
  - etrans; [exact HF|]. eapply lawful_put; [done..|]. by rewrite (phase_flushed _ _ _ Hf).
Qed.

(** A commit of a worker's [last_active_at]. *)
Lemma dispatch_inv_touch w0 w w' wid t :
  dispatch_inv w0 w -> row_effect (Put wid [W_last_active_at t]) (workers w) (workers w') ->
  tasks w' = tasks w -> dispatch_inv w0 w'.
Proof.
  intros [HT HW HD HS HF] (r & r' & Hr & Hf & Ew) Et. split.
  - by eapply all_rows_same.
  - eapply fleet_kept_put; [|exact Hf|exact Hr|exact Ew|exact HW].
    intros r0. exists t, (w_updated_at r0). by destruct r0.
  - rewrite Ew, dom_insert_lookup_L; [done|]. by exists r.
  - etrans; [exact HS|]. by apply slots_same.
  - etrans; [exact HF|]. by apply lawful_same.
Qed.

(** [task] is claimed by [worker]: the row a dispatch works on. *)
Definition claimed (task : Task) (worker : Worker) (w : World) : Prop :=
  w_id worker ∈ dom (workers w) /\
  exists r, tasks w !! t_task_id task = Some r /\ t_status r = TASK_DISPATCHING /\
            t_worker_id r = Some (w_id worker).

Lemma claimed_same task worker w w' : workers w' = workers w -> tasks w' = tasks w ->
  claimed task worker w -> claimed task worker w'.
Proof. unfold claimed. by intros -> ->. Qed.

Lemma occupies_row id r : occupies id r = true ->
  t_worker_id r = Some id /\ t_status r ∈ TASK_STATUSES_COMPUTE_CAPACITY.
Proof. unfold occupies, sql_eq. intros E. bool_hyps. done. Qed.

Lemma claim_next_dispatch_ok w0 w : dispatch_inv w0 w ->
  wp (claim_next_dispatch settings)
    (fun claim w' => dispatch_inv w0 w' /\
       match claim with Some (task, worker) => claimed task worker w' | None => True end)
    (fun _ => dispatch_inv w0) w.
Proof.
  intros HD. unfold claim_next_dispatch. wp_go; [|by apply dispatch_inv_bump].
  apply wp_select. intros rows Hrows _.
  apply (select_rows queued_clause rows (bump w)) in Hrows as [_ Hin]; [|apply (tasks_ok_keyed w), HD].
  destruct (head rows) as [c|] eqn:Eh; [|wp_go; split; [|done]; by repeat apply dispatch_inv_bump].
  assert (Hc : c ∈ rows) by (destruct rows; [done|injection Eh as ->; left]).
  apply Hin in Hc as [Hq Hc]. wp_go.
  assert (HD2 : dispatch_inv w0 (bump (bump w))) by (by repeat apply dispatch_inv_bump).
  apply wp_acquire; [apply HD2|intros _; wp_go; split; [|done]; by apply dispatch_inv_bump|].
  intros worker touch rw t Hacq. wp_go. destruct Hacq as [Hrow -> -> _ Hslot _ _].
  apply wp_commit.
  - intros w' (w1 & (Heff & Et1 & _) & w2 & ((r & r' & Hr & Hf & Et2) & Ew2 & _) & Ew3 & Et3 & Ec3) _.
    wp_go. cbn in Et1, Hr, Et2. rewrite Et1 in Hr. tables.
    assert (r = c) as -> by congruence.
    assert (HD1 : dispatch_inv w0 w1).
    { eapply dispatch_inv_touch; [exact HD|exact Heff|exact Et1]. }
    apply (di_tasks _ _ HD) in Hc as Hg. destruct Hg as [Hid Hwf].
    unfold queued_clause in Hq. bool_hyps. rewrite task_wf_queued in Hwf by done. bool_hyps.
    assert (HDw : dispatch_inv w0 w').
    { eapply (dispatch_inv_tables _ w2); [by split|].
      eapply dispatch_inv_put; [exact HD1|by rewrite Et1|exact Hf|exact Et2|exact Ew2|split; [done|]
          |by apply lives_claim|].
      - rewrite task_wf_dispatching by reflexivity. wf_columns.
      - intros id [Hwid _]%occupies_row. right. injection Hwid as <-.
        rewrite !capacity_count in *. by rewrite Et1. }
    split; [done|]. split.
    + rewrite Ew3, Ew2. destruct Heff as (? & ? & _ & _ & ->). cbn.
      apply elem_of_dom. rewrite lookup_insert_eq. by eexists.
    + rewrite Et3, Et2. cbn. rewrite lookup_insert_eq. eexists. split; [done|].
      by destruct Hf as [->|[u ->]].
  - intros e w' Ht _. eapply dispatch_inv_tables; [exact Ht|]. by repeat apply dispatch_inv_bump.
Qed.

Lemma rebuild_payload_data task : evolves same_data (rebuild_payload task).
Proof.
  unfold rebuild_payload. evolve; try apply store_get_data.
  intros w. split; [apply rebuild_blob_returns|cbn; reflexivity].
Qed.

Lemma dispatch_inv_data w0 w w' : same_data w w' -> dispatch_inv w0 w -> dispatch_inv w0 w'.
Proof. apply (stable (I := dispatch_inv w0)). Qed.

Lemma claimed_data task worker w w' : same_data w w' -> claimed task worker w -> claimed task worker w'.
Proof. intros (? & ? & _). by apply claimed_same. Qed.

(** The row a claim works on is well formed and still waiting for an answer. *)
Lemma claimed_row w0 task worker w : dispatch_inv w0 w -> claimed task worker w ->
  exists r, tasks w !! t_task_id task = Some r /\ t_status r = TASK_DISPATCHING /\
    t_worker_id r = Some (w_id worker) /\ t_task_id r = t_task_id task /\ task_wf r = true.
Proof.
  intros HD (_ & r & Hr & Hs & Hw). exists r. repeat (split; [done|]).
  by apply (di_tasks _ _ HD) in Hr.
Qed.

Lemma reassign_ok w0 task worker excluded w :
  dispatch_inv w0 w -> claimed task worker w ->
  wp (reassign_dispatch_worker settings (t_task_id task) excluded)
    (fun o w' => dispatch_inv w0 w' /\
       match o with Some wk => claimed task wk w' /\ w_id wk ∉ excluded | None => True end)
    (fun _ => dispatch_inv w0) w.
Proof.
  intros HD HC. destruct (claimed_row _ _ _ _ HD HC) as (r & Hr & Hs & Hw & Hid & Hwf).
  unfold reassign_dispatch_worker. wp_go; [|by apply dispatch_inv_bump]. rewrite Hr, Hs. cbn.
  apply wp_bind. apply wp_acquire; [by eapply di_workers, dispatch_inv_bump|intros _|].
  - wp_go. apply wp_commit.
    + intros w' (w1 & ((r1 & r' & Hr1 & Hf & Et) & Ew & _) & Ew2 & Et2 & Ec2) _. wp_go.
      split; [|done]. tables. assert (r1 = r) as -> by congruence.
      eapply (dispatch_inv_tables _ w1); [by split|].
      eapply dispatch_inv_put; [exact HD|exact Hr|exact Hf|exact Et|exact Ew| |by apply lives_requeue|].
      * rewrite <- Hid. apply requeue_good; [by rewrite Hid|done].
      * intros id Hocc. exfalso. apply occupies_row in Hocc as [_ Hst].
        by apply (bool_decide_eq_true_2 _) in Hst.
    + intros e w' Ht _. eapply dispatch_inv_tables; [exact Ht|]. by repeat apply dispatch_inv_bump.
  - intros wk touch rw t [Hrow -> -> _ Hslot Hex _]. wp_go. apply wp_commit.
    + intros w' (w1 & (Heff & Et1 & _) & w2 & ((r1 & r' & Hr1 & Hf & Et2) & Ew2 & _) & Ew3 & Et3 & Ec3) _.
      wp_go. cbn in Et1, Hr1, Et2. rewrite Et1 in Hr1. tables. assert (r1 = r) as -> by congruence.
      split; [|split; [split|]].
      * eapply (dispatch_inv_tables _ w2); [by split|].
        assert (HD1 : dispatch_inv w0 w1) by (eapply dispatch_inv_touch; [exact HD|done|done]).
        eapply dispatch_inv_put; [exact HD1|by rewrite Et1|exact Hf|exact Et2|exact Ew2|split; [done|]
          |by apply lives_reassign|].
        -- rewrite task_wf_dispatching in Hwf |- * by done. bool_hyps. wf_columns.
        -- intros id [Hwid _]%occupies_row. right. injection Hwid as <-.
           rewrite !capacity_count in *. by rewrite Et1.
      * rewrite Ew3, Ew2. destruct Heff as (? & ? & _ & _ & ->). cbn.
        apply elem_of_dom. rewrite lookup_insert_eq. by eexists.
      * rewrite Et3, Et2. cbn. rewrite lookup_insert_eq. eexists. split; [done|].
        by destruct Hf as [->|[u ->]].
      * exact Hex.
    + intros e w' Ht _. eapply dispatch_inv_tables; [exact Ht|]. by repeat apply dispatch_inv_bump.
Qed.

Lemma mark_failed_inv w0 task worker error w : dispatch_inv w0 w -> claimed task worker w ->
  wp (mark_failed (t_task_id task) error) (fun _ => dispatch_inv w0) (fun _ => dispatch_inv w0) w.
Proof.
  intros HD HC. destruct (claimed_row _ _ _ _ HD HC) as (r & Hr & Hs & Hw & Hid & Hwf).
  unfold mark_failed. wp_go; [|by apply dispatch_inv_bump]. rewrite Hr. wp_go. apply wp_commit.
  - intros w' (w1 & ((r1 & r' & Hr1 & Hf & Et) & Ew & _) & Ew2 & Et2 & Ec2) _. tables.
    assert (r1 = r) as -> by congruence. eapply (dispatch_inv_tables _ w1); [by split|].
    eapply dispatch_inv_put; [exact HD|exact Hr|exact Hf|exact Et|exact Ew|split; [done|]
      |apply lives_reject; [done..|]; apply (no_result r); [exact Hwf|by rewrite Hs]|].
    + rewrite task_wf_dispatching in Hwf by done. bool_hyps.
      rewrite task_wf_failed by (by left). wf_columns.
    + intros id Hocc. exfalso. apply occupies_row in Hocc as [_ Hst].
      by apply (bool_decide_eq_true_2 _) in Hst.
  - intros e w' Ht _. eapply dispatch_inv_tables; [exact Ht|]. by repeat apply dispatch_inv_bump.
Qed.

Lemma mark_processing_inv w0 task worker uid url st w : dispatch_inv w0 w -> claimed task worker w ->
  wp (mark_processing (t_task_id task) (w_id worker) uid url st)
    (fun _ => dispatch_inv w0) (fun _ => dispatch_inv w0) w.
Proof.
  intros HD HC. destruct (claimed_row _ _ _ _ HD HC) as (r & Hr & Hs & Hw & Hid & Hwf).
  pose proof (mark_processing_ok (t_task_id task) (w_id worker) uid url st w (di_tasks _ _ HD)
    ltac:(intros; congruence)) as Hok.
  assert (Hinv : wp (mark_processing (t_task_id task) (w_id worker) uid url st)
    (fun _ w' => workers w' = workers w /\ slots_ok settings w w' /\ lawful w w')
    (fun _ w' => workers w' = workers w /\ slots_ok settings w w' /\ lawful w w') w).
  { unfold mark_processing. wp_go; [|split; [done|split; [by apply slots_same|by apply lawful_same]]]. rewrite Hr.
    assert (Hput : forall fs w', workers w' = workers w -> tasks w' = tasks w ->
      t_worker_id (set_task fs r) = Some (w_id worker) ->
      rtc life (phase_of r) (phase_of (set_task fs r)) ->
      wp (commit [OnTask (Put (t_task_id task) fs)])
        (fun _ w' => workers w' = workers w /\ slots_ok settings w w' /\ lawful w w')
        (fun _ w' => workers w' = workers w /\ slots_ok settings w w' /\ lawful w w') w').
    { intros fs w' Ew Et Hwk Hlife. apply wp_commit.
      - intros w2 (w1 & ((r1 & r' & Hr1 & Hf & Et1) & Ew1 & _) & Ew2 & Et2 & _) _. tables.
        rewrite Et in Hr1, Et1. assert (r1 = r) as -> by congruence. split; [congruence|].
        split; [|eapply lawful_put; [exact Hr|by rewrite Et2|by rewrite (phase_flushed _ _ _ Hf)]].
        eapply slots_put; [exact Hr|by rewrite Et2|]. intros id Hocc. left.
        rewrite (occupies_flushed _ _ _ _ Hf) in Hocc. apply occupies_row in Hocc as [Hid' _].
        unfold occupies, sql_eq. rewrite Hw, Hs. rewrite Hwk in Hid'. injection Hid' as ->.
        by rewrite bool_decide_true.
      - intros e w2 (Ew2 & Et2 & _) _. split; [congruence|].
        split; [apply slots_same|apply lawful_same]; congruence. }
    assert (Hkey : t_result_key r = None).
    { apply (no_result r); [exact Hwf|by rewrite Hs]. }
    pose proof (normalized_running (Some st) TASK_PROCESSING ltac:(left)) as Hn.
    set (n := normalize_upstream_status _ _) in *. clearbody n.
    repeat (apply elem_of_cons in Hn as [->|Hn]; [
      wp_steps; concrete; (apply Hput; [done..|]); by apply lives_accept; try done; apply (bool_decide_eq_true _) |]);
      by apply elem_of_nil in Hn. }
  unfold wp in *. destruct (mark_processing _ _ _ _ _ w) as [[u|e|] w']; [| |done].
  all: destruct Hinv as (Ew & HS & HF), HD as [_ HW HD' HS0 HF0];
    split; [done|by eapply fleet_kept_same|by rewrite Ew|by etrans..].
Qed.

Lemma submit_loop_ok w0 task fuel : forall worker excluded w,
  dispatch_inv w0 w -> claimed task worker w -> w_id worker ∉ excluded ->
  excluded ⊆ dom (workers w0) -> (size (dom (workers w0)) < fuel + size excluded)%nat ->
  wp (submit_loop settings fuel task worker excluded)
    (fun _ => dispatch_inv w0) (fun _ => dispatch_inv w0) w.
Proof.
  induction fuel as [|fuel IH]; intros worker excluded w HD HC Hex Hsub Hfuel.
  { apply subseteq_size in Hsub. lia. }
  assert (Hagain : forall w1, dispatch_inv w0 w1 -> claimed task worker w1 ->
    wp (reassign_after_exclusion settings task worker excluded)
      (fun '(o, excluded') w' => dispatch_inv w0 w' /\
         match o with
         | Some wk => wp (submit_loop settings fuel task wk excluded')
                        (fun _ => dispatch_inv w0) (fun _ => dispatch_inv w0) w'
         | None => True
         end) (fun _ => dispatch_inv w0) w1).
  { intros w1 HD1 HC1. unfold reassign_after_exclusion. cbv zeta. apply wp_bind.
    eapply wp_mono; [by eapply reassign_ok|cbn beta|by intros].
    intros o w' [HD' Ho]. wp_go. split; [done|]. destruct o as [wk|]; [|done].
    destruct Ho as [HC' Hex']. apply IH; try done.
    - apply union_subseteq. split; [|done]. apply singleton_subseteq_l.
      rewrite <- (di_dom _ _ HD1). apply HC1.
    - rewrite size_union by set_solver. rewrite size_singleton. lia. }
  cbn [submit_loop]. apply wp_bind.
  eapply wp_evolves; [apply rebuild_payload_data| |intros e w1 E; by eapply dispatch_inv_data].
  intros payload w1 E1. apply (dispatch_inv_data w0) in E1 as HD1; [|done].
  apply (claimed_data _ _ _ _ E1) in HC as HC1.
  destruct payload as [payload|]; [|apply wp_bind; wp_inv (dispatch_inv w0); [by eapply mark_failed_inv|exact HI]].
  cbv zeta. destruct (str_or (w_base_url worker) "" ==? "") eqn:Eb.
  - apply wp_bind. eapply wp_mono; [by apply Hagain|cbn beta|by intros].
    intros [[wk|] excluded'] w2 [HD2 Hwk]; [exact Hwk|exact HD2].
  - apply wp_bind. eapply (wp_evolves same_data); [evolve| |intros e w2 E2; by eapply dispatch_inv_data].
    intros u w2 E2. apply (dispatch_inv_data w0) in E2 as HD2; [|done].
    apply (claimed_data _ _ _ _ E2) in HC1 as HC2.
    destruct u as [exc|[uid st]].
    + unfold handle_dispatch_failure. apply wp_bind. destruct (should_retry exc).
      * apply wp_bind. eapply wp_mono; [by apply Hagain|cbn beta|by intros].
        intros [[wk|] excluded'] w3 [HD3 Hwk]; wp_go; [exact Hwk|exact HD3].
      * apply wp_bind. wp_inv (dispatch_inv w0); [by eapply mark_failed_inv|exact HI].
    + apply wp_bind. wp_inv (dispatch_inv w0); [by eapply mark_processing_inv|exact HI].
Qed.

Lemma submit_claimed_task_ok w0 task worker w : dispatch_inv w0 w -> claimed task worker w ->
  wp (submit_claimed_task settings task worker)
    (fun _ => dispatch_inv w0) (fun _ => dispatch_inv w0) w.
Proof.
  intros HD HC. unfold submit_claimed_task. wp_go. apply submit_loop_ok; try done.
  - rewrite <- (di_dom _ _ HD), size_dom, size_empty. lia.
Qed.

Lemma dispatch_loop_ok w0 n : forall d w, dispatch_inv w0 w ->
  wp (dispatch_loop settings n d) (fun _ => dispatch_inv w0) (fun _ => dispatch_inv w0) w.
Proof.
  induction n as [|n IH]; intros d w HD; cbn [dispatch_loop]; [exact HD|].
  apply wp_bind. eapply wp_mono; [by apply claim_next_dispatch_ok|cbn beta|by intros].
  intros [[task worker]|] w1 [HD1 HC]; [|exact HD1].
  apply wp_bind. wp_inv (dispatch_inv w0); [by apply submit_claimed_task_ok|by apply IH].
Qed.

Lemma dispatch_inv_start w : tasks_ok w -> workers_keyed w -> dispatch_inv w w.
Proof. by split. Qed.
End dispatch.

(** ** Synchronisation and persistence *)

(** What the fast tick keeps, relative to the world it started from. *)
Record fast_inv (w0 w : World) : Prop := {
  fi_tasks : tasks_ok w;
  fi_workers : fleet_kept w0 w;
  fi_lawful : lawful w0 w
}.

#[export] Instance fast_inv_stable w0 : Stable (fast_inv w0).
Proof.
  intros w w' (E1 & E2 & _) []. split; [by eapply all_rows_same|by eapply fleet_kept_same|].
  etrans; [done|]. by apply lawful_same.
Qed.

Lemma fast_inv_bump w0 w : fast_inv w0 w -> fast_inv w0 (bump w).
Proof. apply (stable_bump (fast_inv w0)). Qed.

Lemma fast_inv_data w0 w w' : same_data w w' -> fast_inv w0 w -> fast_inv w0 w'.
Proof. apply (stable (I := fast_inv w0)). Qed.

Lemma fast_inv_same w0 w w' : tasks w' = tasks w -> workers w' = workers w ->
  fast_inv w0 w -> fast_inv w0 w'.
Proof.
  intros Et Ew []. split; [by eapply all_rows_same|by eapply fleet_kept_same|]. etrans; [done|]. by apply lawful_same.
Qed.

Lemma fast_inv_calm w0 w w' : calm w w' -> workers w' = workers w -> fast_inv w0 w -> fast_inv w0 w'.
Proof.
  intros Hc Ew []. split; [by eapply calm_tasks_ok|by eapply fleet_kept_same|].
  etrans; [done|]. by apply calm_lawful.
Qed.

Section sync.
Context (settings : GatewaySettings) `{Env} `{!ObjectStore} `{!Http} `{!MinerU}.

Abbreviation keeps_fast w0 m := (maintains (fast_inv w0) m).

Lemma defer_task_poll_frame id : evolves (same_table Worker) (defer_task_poll id).
Proof. unfold defer_task_poll. evolve. by apply evolves_commit_frame. Qed.

Lemma clear_poll_gate_calm id : evolves calm (clear_poll_gate id).
Proof. unfold clear_poll_gate. evolve. apply put_calm. by intros r. Qed.

Lemma clear_poll_gate_frame id : evolves (same_table Worker) (clear_poll_gate id).
Proof. unfold clear_poll_gate. evolve. by apply evolves_commit_frame. Qed.

Lemma calm_keeps_fast {A} (m : M A) w0 :
  evolves calm m -> evolves (same_table Worker) m -> keeps_fast w0 m.
Proof.
  intros Hc Hf w HI. unfold wp. destruct (Hc w) as [Hd Hcw], (Hf w) as [_ Hfw].
  destruct (m w) as [[a|e|] w']; cbn in *; [by eapply fast_inv_calm..|done].
Qed.

Lemma refresh_ok w0 id : keeps_fast w0 (refresh_task_from_upstream id).
Proof.
  intros w HI. unfold refresh_task_from_upstream. wp_go; [|by apply fast_inv_bump].
  destruct (tasks w !! id) as [r|] eqn:Er; [|by apply fast_inv_bump].
  destruct (t_status r ∈? TASK_STATUSES_TERMINAL) eqn:Eterm; [by apply fast_inv_bump|].
  destruct (negb (truthy (t_upstream_task_id r)) || negb (truthy (t_upstream_base_url r))) eqn:Eup;
    [by apply fast_inv_bump|].
  apply wp_bind. eapply (wp_evolves same_data); [apply worker_json_get_data| |].
  2: intros e w1 E; eapply fast_inv_data; [exact E|by apply fast_inv_bump].
  intros payload w1 E. assert (HI1 : fast_inv w0 w1) by (eapply fast_inv_data; [exact E|by apply fast_inv_bump]).
  assert (Er1 : tasks w1 !! id = Some r) by (destruct E as (_ & -> & _); exact Er).
  destruct payload as [payload|].
  2: { apply wp_bind. wp_inv (fast_inv w0); [|exact HI0].
    apply calm_keeps_fast; [apply defer_task_poll_calm|apply defer_task_poll_frame|exact HI1]. }
  destruct (report_of_json payload) as [p|]; [|exact HI1].
  bool_hyps. assert (Hnt : ~ terminal r) by (unfold terminal; done).
  assert (Hrun : t_status r ∈ [TASK_PROCESSING; TASK_STORING_RESULT]).
  { destruct (fi_tasks _ _ HI1 _ _ Er1) as [_ Hw]. apply task_wf_status in Hw as Hst.
    repeat (apply elem_of_cons in Hst as [Hst|Hst]); try (by rewrite Hst; repeat constructor).
    - exfalso. rewrite task_wf_queued in Hw by done. bool_hyps. by destruct (t_upstream_task_id r).
    - exfalso. rewrite task_wf_dispatching in Hw by done. bool_hyps. by destruct (t_upstream_task_id r).
    - destruct Hnt. unfold terminal. rewrite Hst. by apply (bool_decide_eq_true _).
    - destruct Hnt. unfold terminal. rewrite Hst. by apply (bool_decide_eq_true _).
    - destruct Hnt. unfold terminal. rewrite Hst. by apply (bool_decide_eq_true _).
    - by apply elem_of_nil in Hst. }
  assert (Hkey : t_result_key r = None).
  { apply no_result; [by destruct (fi_tasks _ _ HI1 _ _ Er1)|]. intros E'. rewrite E' in Hrun.
    by apply (bool_decide_eq_true_2 _) in Hrun. }
  apply wp_bind. pose proof (apply_upstream_payload_row_ok id p w1 (fi_tasks _ _ HI1)
    ltac:(intros; congruence)) as Hok.
  pose proof (apply_upstream_payload_row_spec id p w1 r Er1) as Hspec. unfold wp at 1 in Hok. unfold wp at 1 in Hspec. unfold wp at 1.
  destruct (apply_upstream_payload_row id p w1) as [[o|e|] w2]; [| |done].
  - destruct Hspec as (r' & -> & Et & Ew & Hlife). cbn [not_none is_none negb].
    assert (HI2 : fast_inv w0 w2).
    { split; [done|by eapply fleet_kept_same; [|apply HI1]|]. etrans; [apply HI1|].
      eapply lawful_put; [exact Er1|exact Et|]. by apply Hlife. }
    apply wp_bind. wp_inv (fast_inv w0); [|exact HI0].
    apply calm_keeps_fast; [apply clear_poll_gate_calm|apply clear_poll_gate_frame|exact HI2].
  - destruct Hspec as [Ew Et]. split; [done|by eapply fleet_kept_same; [|apply HI1]|].
    etrans; [apply HI1|]. destruct Et as [Et|(r' & Et & Hlife)]; [by apply lawful_same|].
    eapply lawful_put; [exact Er1|exact Et|]. by apply Hlife.
Qed.

Lemma fleet_fast w0 w w' : fast_inv w0 w -> fleet_ok w w' -> fast_inv w0 w'.
Proof.
  intros [] [HW HT]. split; [by eapply all_rows_same|by eapply fleet_kept_trans|]. etrans; [done|]. by apply lawful_same.
Qed.

Lemma sync_one_ok w0 task : keeps_fast w0 (sync_one task).
Proof.
  intros w HI. unfold sync_one. cbv zeta. apply wp_bind.
  wp_inv (fast_inv w0); [by apply refresh_ok|]. destruct a as [t|]; [|exact HI0].
  destruct (t_status t ==? t_status task); [exact HI0|]. apply wp_bind.
  wp_inv (fast_inv w0); [|exact HI1]. destruct (_ && _); [|exact HI0]. wp_go.
  eapply wp_mono; [apply (commit_fields_ok _ _ (bump w1)); [touch_row|split; [apply fleet_kept_start, (fi_workers _ _ HI0)|done]]| |].
  all: intros a w2 Hf; eapply fleet_fast; [by apply fast_inv_bump, HI0|exact Hf].
Qed.

Lemma sync_ok w0 : keeps_fast w0 sync_dispatched_task_statuses.
Proof.
  intros w HI. unfold sync_dispatched_task_statuses. wp_go; [|by apply fast_inv_bump].
  apply wp_select. intros rows _ _. apply wp_bind.
  wp_inv (fast_inv w0); [|exact HI0].
  apply wp_gather_inv; [apply _|intros x w' _ HI'; by apply sync_one_ok|by repeat apply fast_inv_bump].
Qed.
End sync.

Section persist.
Context (settings : GatewaySettings) `{Env} `{!ObjectStore} `{!Http} `{!MinerU}.

(** The listed tasks wait for their result, or have it. *)
Definition pending (l : list Task) (w : World) : Prop := forall x r, x ∈ l ->
  tasks w !! t_task_id x = Some r ->
  t_status r = TASK_STORING_RESULT \/
  t_status r = TASK_COMPLETED /\ t_result_key r = Some (result_key (t_task_id x) RESULT_FORMAT_ZIP).

Definition persist_inv (w0 : World) (l : list Task) (w : World) : Prop :=
  fast_inv w0 w /\ pending l w.

#[export] Instance persist_inv_stable w0 l : Stable (persist_inv w0 l).
Proof.
  intros w w' E [HI HP]. split; [by eapply fast_inv_data|].
  destruct E as (_ & Et & _). intros x r Hx. rewrite Et. by apply HP.
Qed.

Lemma persist_inv_calm w0 l w w' : calm w w' -> workers w' = workers w ->
  persist_inv w0 l w -> persist_inv w0 l w'.
Proof.
  intros Hc Ew [HI HP]. split; [by eapply fast_inv_calm|]. intros x r' Hx Hr'.
  destruct (calm_lookup _ _ _ _ Hc Hr') as (r & Hr & (_ & E1 & _ & _ & _ & _ & _ & _ & E2)).
  rewrite E1, E2. by apply HP.
Qed.

Lemma persist_inv_rows w0 l w w' : same_rows w w' -> persist_inv w0 l w -> persist_inv w0 l w'.
Proof. intros [Et Ew]. apply persist_inv_calm; [|done]. intros k. cbn. by rewrite Et. Qed.

Lemma defer_persist w0 l id : maintains (persist_inv w0 l) (defer_task_poll id).
Proof.
  intros w HI. unfold wp. destruct (defer_task_poll_calm id w) as [Hd Hcw],
    (defer_task_poll_frame id w) as [_ Hfw].
  destruct (defer_task_poll id w) as [[a|e|] w']; cbn in *; [by eapply persist_inv_calm..|done].
Qed.

Lemma persist_one_ok w0 l cs x : x ∈ l -> maintains (persist_inv w0 l) (persist_one cs x).
Proof.
  intros Hx w HI. unfold persist_one. destruct (_ || _); [exact HI|]. apply wp_try, wp_bind.
  eapply wp_mono; [apply fetch_and_store_result_wp| |].
  - intros [key body] w1 (-> & _ & Ew & r & r' & Hr & Et & Hid & Hs & Hk & _ & Hc & Hc'). wp_go.
    destruct HI as [[HT HW HS] HP]. destruct (HP x r Hx Hr) as [Hst|[Hst Hkey]].
    all: split; [split; [|by eapply fleet_kept_same|]|].
    1,4: eapply all_rows_insert; [exact HT|exact Et|]; apply HT in Hr as [? _];
      split; [congruence|]; rewrite task_wf_completed by done; by rewrite Hc, Hk.
    1,3: etrans; [exact HS|]; eapply lawful_put; [exact Hr|exact Et|].
    + by eapply lives_store.
    + destruct (HT _ _ Hr) as [_ Hw]. rewrite task_wf_completed in Hw by done. bool_hyps.
      destruct (t_completed_at r) as [t|] eqn:Ec; [|done].
      rewrite !phase_done, Hs, Hk, Hst, Hkey, Ec, (Hc' t) by
        (done || (rewrite ?Hs, ?Hst; by apply (bool_decide_eq_true _))). reflexivity.
    + intros y s Hy. rewrite Et. destruct (decide (t_task_id y = t_task_id x)) as [->|Hne].
      * rewrite lookup_insert_eq. intros [= <-]. by right.
      * rewrite lookup_insert_ne by done. by apply HP.
    + intros y s Hy. rewrite Et. destruct (decide (t_task_id y = t_task_id x)) as [->|Hne].
      * rewrite lookup_insert_eq. intros [= <-]. by right.
      * rewrite lookup_insert_ne by done. by apply HP.
  - intros e w1 Hsame. apply wp_bind. eapply persist_inv_rows in HI; [|exact Hsame].
    wp_inv (persist_inv w0 l); [by apply defer_persist|exact HI0].
Qed.

Lemma persist_pending_results_ok w0 l cs : maintains (persist_inv w0 l) (persist_pending_results l cs).
Proof.
  intros w HI. unfold persist_pending_results. destruct l as [|x l]; [exact HI|]. apply wp_bind.
  wp_inv (persist_inv w0 (x :: l)); [|exact HI0].
  apply wp_gather_inv; [apply _|intros y w' Hy HI'; by apply persist_one_ok|exact HI].
Qed.

(** The listing establishes what persistence needs. *)
Lemma list_unstored_pending w0 limit w : fast_inv w0 w ->
  wp (list_unstored_completed limit) (fun l => persist_inv w0 l) (fun _ => fast_inv w0) w.
Proof.
  intros HI. unfold list_unstored_completed. wp_go; [|by apply fast_inv_bump].
  apply wp_select. intros rows Hrows _. wp_go. split; [by repeat apply fast_inv_bump|].
  intros x r Hx. apply elem_of_take in Hx as (i & Hi & _). apply list_elem_of_lookup_2 in Hi.
  apply (select_rows _ rows (bump (bump w))) in Hrows as [_ Hin]; [|apply (tasks_ok_keyed w), HI].
  apply Hin in Hi as [Hc Hk]. tables. intros Hr. assert (r = x) as -> by congruence.
  bool_hyps. unfold unstored_clause in *. bool_hyps. by left.
Qed.
End persist.
