(* ===== verification/Lock.v ===== *)
(** * Lock: [scheduler/lock.py], who may run the scheduler

    The advisory lock lives in the process: whether its dedicated connection is
    open, and whether it believes it holds the lock.  PostgreSQL is the
    environment: a connection or a statement may fail at any time. *)
From S2P Require Import Prelude Models World Database Logic Hoare.

(** The statements on the lock's connection.  [pg_try_lock] is the result of
    [pg_try_advisory_lock]. *)
Class LockServer `{Env} := {
  pg_connect : M unit;
  pg_try_lock : M bool;
  pg_unlock : M unit;
  pg_ping : M unit;
  pg_close : M unit;
  engine_dispose : M unit;
  sleep : Z -> M unit;
  pg_data : evolves same_data pg_connect /\ evolves same_data pg_try_lock /\
            evolves same_data pg_unlock /\ evolves same_data pg_ping /\
            evolves same_data pg_close /\ evolves same_data engine_dispose /\ forall s, evolves same_data (sleep s)
}.

Section lock.
Context `{LockServer}.

Definition set_lock (l : option (bool * bool)) (w : World) : World :=
  let m := memory w in
  with_memory (mkMemory (last_scale_up m) (next_cleanup_at m) (next_cache_sweep_at m)
                 (next_rotation_check_at m) l) w.
Definition lock_conn (w : World) : bool := match lock (memory w) with Some (c, _) => c | None => false end.
Definition lock_flag (w : World) : bool := match lock (memory w) with Some (_, h) => h | None => false end.

(** [self._conn = ...] and [self._held = ...]. *)
Definition set_conn (c : bool) : M unit := modify (fun w => set_lock (Some (c, lock_flag w)) w).
Definition set_held (h : bool) : M unit := modify (fun w => set_lock (Some (lock_conn w, h)) w).

(** The property [held]. *)
Definition lock_is_held (w : World) : bool := lock_flag w && lock_conn w.

Definition lock_acquire : M bool :=
  held ← gets lock_flag ;
  if held : bool then mret true
  else
    pg_connect ;;
    set_conn true ;;
    acquired ← pg_try_lock ;
    (if acquired : bool then set_held true
     else pg_close ;; set_conn false) ;;
    mret acquired.

Definition lock_release : M unit :=
  conn ← gets lock_conn ;
  if negb conn then mret tt
  else
    held ← gets lock_flag ;
    (if held : bool then pg_unlock ;; set_held false else mret tt) ;;
    pg_close ;;
    set_conn false.

Definition lock_verify : M bool :=
  held ← gets lock_flag ;
  conn ← gets lock_conn ;
  if negb held || negb conn then mret false
  else try_ (pg_ping ;; mret true) (fun _ => set_held false ;; mret false).

(** The loop of [scheduler_lock]: it ends when the lock is acquired. *)
Fixpoint acquire_loop (fuel : nat) (retry_interval : Z) : M unit :=
  match fuel with
  | O => diverge
  | S fuel =>
      acquired ← lock_acquire ;
      if acquired : bool then mret tt
      else sleep retry_interval ;; acquire_loop fuel retry_interval
  end.

(** [scheduler_lock] around the body of the [async with]: SQLite has the lock
    without [verify]; else the lock is acquired, and released on every way out. *)
Definition scheduler_lock {A} (fuel : nat) (default_url : string) (database_url : option string)
    (retry_interval : Z) (body : M A) : M A :=
  let url := str_or database_url default_url in
  if String.prefix "sqlite" url then modify (set_lock None) ;; body
  else
    modify (set_lock (Some (false, false))) ;;
    finally_ (acquire_loop fuel retry_interval ;; body) (lock_release ;; engine_dispose).
End lock.
