(* ===== verification/Provider.v ===== *)
(** * Provider: the compute interface of [cloud/base.py]

    [ComputeProvider] is the abstract class the scheduler drives VMs through.
    Its methods are operations of the environment: they return or raise, and
    touch nothing of the gateway's own state.  The calls that change a VM are
    recorded before they are made. *)
From S2P Require Import Prelude Models CloudTypes World Database Logic Hoare.

Class ComputeProvider `{Env} := {
  cloud_discover : string -> M (list DiscoveredInstance);
  cloud_launch : string -> string -> Z -> M string;
  cloud_start : string -> M unit;
  cloud_stop : string -> M unit;
  cloud_terminate : string -> M unit;
  cloud_get_state : string -> M InstanceState;
  cloud_get_private_ip : string -> M (option string);

  cloud_discover_data d : evolves same_data (cloud_discover d);
  cloud_launch_data id d g : evolves same_data (cloud_launch id d g);
  cloud_start_data i : evolves same_data (cloud_start i);
  cloud_stop_data i : evolves same_data (cloud_stop i);
  cloud_terminate_data i : evolves same_data (cloud_terminate i);
  cloud_get_state_data i : evolves same_data (cloud_get_state i);
  cloud_get_private_ip_data i : evolves same_data (cloud_get_private_ip i)
}.
#[export] Hint Resolve cloud_discover_data cloud_launch_data cloud_start_data cloud_stop_data
  cloud_terminate_data cloud_get_state_data cloud_get_private_ip_data : evolve.

Section provider.
Context `{ComputeProvider}.

Definition record_call (c : CloudCall) : M unit := modify (fun w => with_calls (calls w ++ [c]) w).

Definition provider_launch (worker_id deployment_id : string) (generation : Z) : M string :=
  record_call (CallLaunch worker_id) ;; cloud_launch worker_id deployment_id generation.
Definition provider_start (instance_id : string) : M unit :=
  record_call (CallStart instance_id) ;; cloud_start instance_id.
Definition provider_stop (instance_id : string) : M unit :=
  record_call (CallStop instance_id) ;; cloud_stop instance_id.
Definition provider_terminate (instance_id : string) : M unit :=
  record_call (CallTerminate instance_id) ;; cloud_terminate instance_id.
End provider.

(** A call is recorded and made; the tables, the bucket and the memory stay. *)
Definition same_but_calls : relation World := fun w w' =>
  workers w' = workers w /\ tasks w' = tasks w /\ cache_entries w' = cache_entries w /\
  scaling_events w' = scaling_events w /\ objects w' = objects w /\ memory w' = memory w.

#[export] Instance same_but_calls_benign : Benign same_but_calls.
Proof.
  split; [split; unfold same_but_calls; [by intros w|intros a b c; intuition congruence]|].
  unfold same_data, same_but_calls. intuition.
Qed.

Section calls.
Context `{ComputeProvider}.

Lemma record_call_frame c : evolves same_but_calls (record_call c).
Proof. intros w. by repeat split. Qed.

Lemma provider_launch_frame id d g : evolves same_but_calls (provider_launch id d g).
Proof. unfold provider_launch. evolve; [apply record_call_frame|apply evolves_same_data, cloud_launch_data; apply _]. Qed.
Lemma provider_start_frame i : evolves same_but_calls (provider_start i).
Proof. unfold provider_start. evolve; [apply record_call_frame|apply evolves_same_data, cloud_start_data; apply _]. Qed.
Lemma provider_stop_frame i : evolves same_but_calls (provider_stop i).
Proof. unfold provider_stop. evolve; [apply record_call_frame|apply evolves_same_data, cloud_stop_data; apply _]. Qed.
Lemma provider_terminate_frame i : evolves same_but_calls (provider_terminate i).
Proof.
  unfold provider_terminate. evolve; [apply record_call_frame|apply evolves_same_data, cloud_terminate_data; apply _].
Qed.
End calls.

(** Any relation that ignores the calls. *)
Class IgnoresCalls (R : relation World) : Prop := ignores_calls : forall w w', same_but_calls w w' -> R w w'.

Section ignoring.
Context (R : relation World) `{!IgnoresCalls R} `{ComputeProvider}.

Lemma evolves_ignoring {A} (m : M A) : evolves same_but_calls m -> evolves R m.
Proof. intros Hm w. destruct (Hm w) as [Hd Hs]. split; [done|by apply ignores_calls]. Qed.

Lemma evolves_provider_launch id d g : evolves R (provider_launch id d g).
Proof. apply evolves_ignoring, provider_launch_frame. Qed.
Lemma evolves_provider_start i : evolves R (provider_start i).
Proof. apply evolves_ignoring, provider_start_frame. Qed.
Lemma evolves_provider_stop i : evolves R (provider_stop i).
Proof. apply evolves_ignoring, provider_stop_frame. Qed.
Lemma evolves_provider_terminate i : evolves R (provider_terminate i).
Proof. apply evolves_ignoring, provider_terminate_frame. Qed.
End ignoring.

Section reading.
Context (R : relation World) `{!Benign R} `{ComputeProvider}.

Lemma evolves_cloud_discover d : evolves R (cloud_discover d).
Proof. by apply evolves_same_data, cloud_discover_data. Qed.
Lemma evolves_cloud_get_state i : evolves R (cloud_get_state i).
Proof. by apply evolves_same_data, cloud_get_state_data. Qed.
Lemma evolves_cloud_get_private_ip i : evolves R (cloud_get_private_ip i).
Proof. by apply evolves_same_data, cloud_get_private_ip_data. Qed.
End reading.
#[export] Hint Resolve evolves_provider_launch evolves_provider_start evolves_provider_stop
  evolves_provider_terminate evolves_cloud_discover evolves_cloud_get_state
  evolves_cloud_get_private_ip : evolve.
