(* ===== verification/Ec2.v ===== *)
(** * Ec2: [cloud/aws/ec2.py], the compute provider

    The EC2 client of aioboto3 is third-party: its calls are operations of the
    environment, which return or raise.  [AwsEc2Provider] wraps them: states are
    normalised, [ClientError]s are classified, and power calls are made only when
    the instance is not already there.  The instance [ec2_provider] discharges
    the interface the scheduler is proved against. *)
From stdpp Require Import pretty.
From S2P Require Import Prelude Models CloudTypes Config World Database Logic Hoare Provider.

(** An entry of [Reservations[...]["Instances"]]. *)
Record Ec2Instance := mkEc2Instance {
  ei_instance_id : string;
  ei_state_name : string;
  ei_private_ip : option string;
  ei_tags : list (string * string)
}.

(** The keyword arguments of [run_instances]; counts are 1. *)
Record RunParams := mkRunParams {
  rp_launch_template_id : string;
  rp_version : option string;
  rp_client_token : string;
  rp_tags : list (string * string)
}.

(** [describe_instances] by id and paginated by filters (a page is a list of
    reservations, a reservation a list of instances), the power calls, and
    [run_instances] with the ids it launched.  A filter [tag:K] with values [vs]
    lets through the instances that have the tag [K] with one of them, and an
    instance has a tag key once (EC2 API reference). *)
Class Ec2Client `{Env} := {
  ec2_describe_instances : string -> M (list (list Ec2Instance));
  ec2_describe_pages : list (string * list string) -> M (list (list (list Ec2Instance)));
  ec2_start_instances : string -> M unit;
  ec2_stop_instances : string -> M unit;
  ec2_terminate_instances : string -> M unit;
  ec2_run_instances : RunParams -> M (list string);

  ec2_describe_data i : evolves same_data (ec2_describe_instances i);
  ec2_pages_data f : evolves same_data (ec2_describe_pages f);
  ec2_start_data i : evolves same_data (ec2_start_instances i);
  ec2_stop_data i : evolves same_data (ec2_stop_instances i);
  ec2_terminate_data i : evolves same_data (ec2_terminate_instances i);
  ec2_run_data p : evolves same_data (ec2_run_instances p);

  ec2_filters filters w pages w' page reservation i :
    ec2_describe_pages filters w = (Ok pages, w') -> page ∈ pages -> reservation ∈ page -> i ∈ reservation ->
    NoDup (ei_tags i).*1 /\
    forall k vs, ("tag:" +:+ k, vs) ∈ filters -> exists v, v ∈ vs /\ (k, v) ∈ ei_tags i
}.
#[export] Hint Resolve ec2_describe_data ec2_pages_data ec2_start_data ec2_stop_data
  ec2_terminate_data ec2_run_data : evolve.

(** ** Normalisation *)

Definition EC2_STATE_MAP : list (string * InstanceState) :=
  [ ("running", RUNNING); ("stopped", SUSPENDED); ("pending", STARTING); ("stopping", STOPPING);
    ("shutting-down", TERMINATING); ("terminated", TERMINATED) ].

(** [d.get(k, default)] on a literal dict. *)
Fixpoint dict_get {A} (k : string) (d : list (string * A)) (dflt : A) : A :=
  match d with [] => dflt | (k', v) :: d => if k ==? k' then v else dict_get k d dflt end.

Definition normalize_ec2_state (vendor_state : string) : InstanceState :=
  dict_get vendor_state EC2_STATE_MAP UNKNOWN.

Definition EC2_ERROR_CLASSIFICATION : list (string * (CloudErrorCategory * bool)) :=
  [ ("InvalidInstanceID.NotFound", (Category.NOT_FOUND, false));
    ("InvalidInstanceID.Malformed", (Category.INVALID_ID, false));
    ("InvalidInstanceID", (Category.INVALID_ID, false));
    ("UnauthorizedOperation", (Category.AUTH, false));
    ("AccessDenied", (Category.AUTH, false));
    ("RequestLimitExceeded", (Category.RETRYABLE, true));
    ("Throttling", (Category.RETRYABLE, true));
    ("ThrottlingException", (Category.RETRYABLE, true));
    ("ServiceUnavailable", (Category.RETRYABLE, true));
    ("InternalError", (Category.RETRYABLE, true));
    ("InsufficientInstanceCapacity", (Category.QUOTA, false));
    ("VcpuLimitExceeded", (Category.QUOTA, false));
    ("InstanceLimitExceeded", (Category.QUOTA, false));
    ("VolumeLimitExceeded", (Category.QUOTA, false)) ].

Definition INVALID_INSTANCE_CODES : list string :=
  ["InvalidInstanceID.NotFound"; "InvalidInstanceID.Malformed"; "InvalidInstanceID"].

Definition classify_ec2_error (code message : string) : exn :=
  let '(category, retryable) := dict_get code EC2_ERROR_CLASSIFICATION (Category.UNKNOWN, false) in
  CloudError category code message retryable.

(** [except ClientError as exc: handler(code, message)]. *)
Definition except_client_error {A} (m : M A) (handler : string -> string -> M A) : M A :=
  try_ m (fun e => match e with ClientError code message => handler code message | e => raise e end).
Definition raise_ec2_error {A} (code message : string) : M A := raise (classify_ec2_error code message).

Definition tags_from_instance (i : Ec2Instance) : gmap string string :=
  foldl (fun m kv => <[kv.1 := kv.2]> m) ∅ (ei_tags i).

(** ** The provider *)

(** What the provider is built with; its session and client are the class
    [Ec2Client].  Of these the operations read [provider_cloud] alone:
    [discover] and [launch] are given a deployment, which need not be
    [provider_deployment_id]. *)
Record AwsEc2Provider := mkAwsEc2Provider {
  provider_region : string;
  provider_endpoint_url : option string;
  provider_cloud : option CloudConfig;
  provider_deployment_id : string
}.

Section ec2.
Context (cloud : option CloudConfig) `{Ec2Client}.

Definition describe_instance (instance_id : string) : M (option Ec2Instance) :=
  reservations ← except_client_error (r ← ec2_describe_instances instance_id ; mret (Some r))
    (fun code message => if code ∈? INVALID_INSTANCE_CODES then mret None else raise_ec2_error code message) ;
  mret (match reservations with
        | Some ((i :: _) :: _) => Some i
        | _ => None
        end).

Definition ec2_get_state (instance_id : string) : M InstanceState :=
  instance ← describe_instance instance_id ;
  mret (match instance with None => TERMINATED | Some i => normalize_ec2_state (ei_state_name i) end).

Definition ec2_get_private_ip (instance_id : string) : M (option string) :=
  instance ← describe_instance instance_id ;
  mret (match instance with None => None | Some i => ei_private_ip i end).

Definition ec2_start (instance_id : string) : M unit :=
  state ← ec2_get_state instance_id ;
  if state ∈? [RUNNING; STARTING] then mret tt
  else except_client_error (ec2_start_instances instance_id)
    (fun code message => if code ==? "IncorrectInstanceState" then mret tt else raise_ec2_error code message).

Definition ec2_stop (instance_id : string) : M unit :=
  state ← ec2_get_state instance_id ;
  if state ∈? [SUSPENDED; STOPPING; TERMINATED] then mret tt
  else except_client_error (ec2_stop_instances instance_id)
    (fun code message => if code ==? "IncorrectInstanceState" then mret tt else raise_ec2_error code message).

Definition ec2_terminate (instance_id : string) : M unit :=
  state ← ec2_get_state instance_id ;
  if state ==? TERMINATED then mret tt
  else except_client_error (ec2_terminate_instances instance_id)
    (fun code message =>
       if code ∈? INVALID_INSTANCE_CODES then mret tt
       else if code ==? "IncorrectInstanceState" then mret tt
       else raise_ec2_error code message).

(** The worker id is the idempotency token; [resp["Instances"][0]]. *)
Definition ec2_launch (worker_id deployment_id : string) (generation : Z) : M string :=
  match cloud with
  | None => raise (CloudError Category.INVALID_ID "MissingCloudConfig"
                     "AwsEc2Provider requires cloud config at construction" false)
  | Some cloud =>
      let '(template_id, version, _) := launch_template cloud in
      if negb (truthy template_id) then
        raise (CloudError Category.INVALID_ID "MissingLaunchTemplate"
                 "cloud.aws.launch_template_id is required" false)
      else
        ids ← except_client_error
          (ec2_run_instances (mkRunParams (str_or template_id "") version worker_id
                                (build_worker_tags worker_id deployment_id generation)))
          raise_ec2_error ;
        match ids with
        | instance_id :: _ => mret instance_id
        | [] => raise (OtherException "IndexError: list index out of range")
        end
  end.

Definition discover_filters (deployment_id : string) : list (string * list string) :=
  [ ("tag:" +:+ TAG_MANAGED, ["true"]); ("tag:" +:+ TAG_DEPLOYMENT, [deployment_id]);
    ("tag:" +:+ TAG_ROLE, [TAG_ROLE_WORKER]) ].

Definition discovered_of (i : Ec2Instance) : DiscoveredInstance :=
  let tags := tags_from_instance i in
  mkDiscovered (ei_instance_id i) (tags !! TAG_WORKER_ID) (normalize_ec2_state (ei_state_name i)) tags.

Definition ec2_discover (deployment_id : string) : M (list DiscoveredInstance) :=
  pages ← except_client_error (ec2_describe_pages (discover_filters deployment_id)) raise_ec2_error ;
  mret (map discovered_of (concat (concat pages))).
End ec2.

(** ** The interface *)

Section implements.
Context `{Ec2Client}.

Lemma except_client_data {A} (m : M A) h :
  evolves same_data m -> (forall c s, evolves same_data (h c s)) -> evolves same_data (except_client_error m h).
Proof. intros Hm Hh. unfold except_client_error. evolve. Qed.

Lemma describe_instance_data i : evolves same_data (describe_instance i).
Proof. unfold describe_instance, except_client_error, raise_ec2_error. evolve. Qed.
End implements.
#[export] Hint Resolve describe_instance_data : evolve.

#[export] Program Instance ec2_provider (cloud : option CloudConfig) `{Ec2Client} : ComputeProvider := {|
  cloud_discover := ec2_discover;
  cloud_launch := ec2_launch cloud;
  cloud_start := ec2_start;
  cloud_stop := ec2_stop;
  cloud_terminate := ec2_terminate;
  cloud_get_state := ec2_get_state;
  cloud_get_private_ip := ec2_get_private_ip |}.
Solve Obligations with intros;
  unfold ec2_discover, ec2_launch, ec2_start, ec2_stop, ec2_terminate, ec2_get_state, ec2_get_private_ip,
    except_client_error, raise_ec2_error; evolve.
