(* ===== verification/Health.v ===== *)
(** * Health: probing a worker

    The probes of [scheduler/scheduler.py], with the Python conversions their
    error messages use: [str], [repr], [lower] and truth of a decoded JSON
    value, on strings of code points below 256. *)
From stdpp Require Import pretty.
From S2P Require Import Prelude Models World Database Logic Json Payload Upstream.

Definition QUOTE : Ascii.ascii := Ascii.ascii_of_nat 39.
Definition DQUOTE : Ascii.ascii := Ascii.ascii_of_nat 34.

(** One character of [repr(s)], with the quote [q] around the string. *)
Definition repr_char (q : Ascii.ascii) (c : Ascii.ascii) : string :=
  let n := Ascii.nat_of_ascii c in
  if Ascii.eqb c q || Ascii.eqb c BACKSLASH then chr 92 +:+ String c ""
  else if (n =? 10)%nat then chr 92 +:+ "n"
  else if (n =? 13)%nat then chr 92 +:+ "r"
  else if (n =? 9)%nat then chr 92 +:+ "t"
  else if (n <? 32)%nat || ((127 <=? n)%nat && (n <=? 160)%nat) || (n =? 173)%nat
       then chr 92 +:+ "x" +:+ hex_digit (n / 16) +:+ hex_digit (n mod 16)
  else String c "".

Fixpoint concat_map (f : Ascii.ascii -> string) (s : string) : string :=
  match s with EmptyString => "" | String c s => f c +:+ concat_map f s end.

Definition repr_str (s : string) : string :=
  let q := if contains_char QUOTE s && negb (contains_char DQUOTE s) then DQUOTE else QUOTE in
  String q (concat_map (repr_char q) s) +:+ String q "".

Fixpoint py_repr (j : json) : string :=
  match j with
  | JNull => "None"
  | JBool true => "True"
  | JBool false => "False"
  | JInt z => print_int z
  | JStr s => repr_str s
  | JArr l => "[" +:+ join ", " (map py_repr l) +:+ "]"
  | JObj l => "{" +:+ join ", " (map (fun kv => repr_str kv.1 +:+ ": " +:+ py_repr kv.2) l) +:+ "}"
  end.

Definition py_str (j : json) : string := match j with JStr s => s | j => py_repr j end.

(** [bool(j)]. *)
Definition json_truthy (j : json) : bool :=
  match j with
  | JNull | JBool false => false
  | JBool true => true
  | JInt z => negb (z =? 0)
  | JStr s => s !=? ""
  | JArr l => match l with [] => false | _ => true end
  | JObj l => match l with [] => false | _ => true end
  end.

(** The text before and after the first occurrence of [c]. *)
Fixpoint partition (c : Ascii.ascii) (s : string) : string * option string :=
  match s with
  | EmptyString => ("", None)
  | String x s =>
      if Ascii.eqb c x then ("", Some s)
      else let '(a, b) := partition c s in (String x a, b)
  end.

(** [urlsplit(u)] of an absolute URL [scheme://netloc/...]: the scheme and the
    host name, [None] when there is no network location. *)
Definition urlsplit (u : string) : string * option string :=
  match partition (Ascii.ascii_of_nat 58) u with
  | (scheme, Some rest) =>
      if startswith rest "//" then
        let netloc := (partition (Ascii.ascii_of_nat 63)
                        (partition (Ascii.ascii_of_nat 35)
                          (partition SLASH (removeprefix "//" rest)).1).1).1 in
        let hostinfo := default netloc (last (split_char (Ascii.ascii_of_nat 64) netloc)) in
        let hostname :=
          match hostinfo with
          | String c h => if Ascii.eqb c (Ascii.ascii_of_nat 91)
                          then (partition (Ascii.ascii_of_nat 93) h).1
                          else (partition (Ascii.ascii_of_nat 58) hostinfo).1
          | EmptyString => ""
          end in
        (lower scheme, if hostname ==? "" then None else Some (lower hostname))
      else (lower scheme, None)
  | (_, None) => ("", None)
  end.

Definition STATUS_PORT : string := "8001".

Definition status_url (base_url : string) : string :=
  let '(scheme, hostname) := urlsplit base_url in
  scheme +:+ "://" +:+ default "None" hostname +:+ ":" +:+ STATUS_PORT.

(** [body.get(key)]: a body that is not an object has no [get]. *)
Definition body_get (body : json) (key : string) : M (option json) :=
  match body with
  | JObj l => mret (obj_get key l)
  | _ => raise (AttributeError "get")
  end.

(** [except (httpx.HTTPError, ValueError) as exc: return False, str(exc)]. *)
Definition probe_error (e : exn) : M (bool * option string) :=
  if is_http_error e || is_value_error e then mret (false, Some (exn_str e)) else raise e.

Section probes.
Context `{Http}.

(** [f"status={body.get('status')!r}"]. *)
Definition status_repr (status : option json) : string :=
  "status=" +:+ py_repr (default JNull status).

Definition poll_provisioning_status (base_url : string) : M (bool * option string) :=
  body ← try_ (resp ← http_get (status_url base_url +:+ "/health") ;
               body ← resp_json resp ; mret (inr body))
              (fun e => r ← probe_error e ; mret (inl r)) ;
  match body with
  | inl r => mret r
  | inr body =>
      status ← body_get body "status" ;
      if lower (py_str (default (JStr "") status)) ==? "ready" then mret (true, None)
      else
        stage ← body_get body "stage" ;
        detail ← body_get body "detail" ;
        let error := match stage with
                     | Some s => if json_truthy s then "stage=" +:+ py_str s else status_repr status
                     | None => status_repr status
                     end in
        mret (false, Some (match detail with
                           | Some d => if json_truthy d then error +:+ " detail=" +:+ py_str d else error
                           | None => error
                           end))
  end.

Definition poll_health (base_url : string) : M (bool * option string) :=
  try_ (
    resp ← http_get (base_url +:+ "/health") ;
    if negb (r_status resp =? 200) then mret (false, Some ("HTTP " +:+ pretty (r_status resp)))
    else
      body ← resp_json resp ;
      status ← body_get body "status" ;
      if lower (py_str (default (JStr "") status)) ∉? ["healthy"; "ok"]
      then mret (false, Some (status_repr status))
      else mret (true, None))
  probe_error.

(** The worker, the verdict, its error, and whether it was still provisioning. *)
Definition check_worker_health (worker : Worker) : M (Worker * bool * option string * bool) :=
  let provisioning := is_none (w_ready_at worker) in
  '(ok, error) ← (if provisioning then poll_provisioning_status (str_or (w_base_url worker) "")
                  else poll_health (str_or (w_base_url worker) "")) ;
  mret (worker, ok, error, provisioning).

Lemma check_worker_health_data worker : evolves same_data (check_worker_health worker).
Proof.
  unfold check_worker_health, poll_provisioning_status, poll_health, probe_error, resp_json, body_get.
  evolve.
Qed.
End probes.
#[export] Hint Resolve check_worker_health_data : evolve.

Example status_url_example : status_url "http://10.0.0.7:8000" = "http://10.0.0.7:8001".
Proof. reflexivity. Qed.
