(* ===== verification/Startup.v ===== *)
(** * Startup: what must hold before a process serves

    [startup_guard.py], [cloud/registry.py], [cloud/aws/ssm.py],
    [mineru_compat.py], the start-up of [gateway/app.py] and of
    [scheduler/main.py].  MinerU's version constants and [is_public_bind_host],
    and the SSM client, are third-party. *)
From S2P Require Import Prelude Models CloudTypes Config World Database Logic Hoare Json Payload PyText Storage Status S3.
From S2P Require Import Provider Ec2 Health.

Class MinerURelease := {
  API_PROTOCOL_VERSION : Z;
  MINERU_VERSION : string;
  is_public_bind_host : string -> bool
}.

(** [get_parameter]: the value, botocore's [ClientError], or another error of
    botocore. *)
Inductive SsmAnswer :=
| SsmValue (value : string)
| SsmClientError (code message : string)
| SsmBotoCoreError (message : string).
Class SsmClient := { ssm_get_parameter : string -> string -> SsmAnswer }.

(** [PublicBindWithoutAuthError] and [StartupDependencyError] are
    [RuntimeError]s. *)
Definition StartupDependencyError (msg : string) : exn := RuntimeError msg.

(** ** SSM references *)

Definition SSM_PREFIX := "ssm:".

Definition is_ssm_reference (value : option string) : bool :=
  match value with Some v => startswith v SSM_PREFIX | None => false end.

Definition resolve_ssm_reference `{SsmClient} (value region : string) : outcome string :=
  let name := removeprefix SSM_PREFIX value in
  if negb (startswith name "/") then
    Raise (ValueError ("SSM reference must be an absolute parameter path: " +:+ repr_str value))
  else
    match ssm_get_parameter region name with
    | SsmClientError code message =>
        if code ∈? ["ParameterNotFound"; "ParameterVersionNotFound"] then
          Raise (CloudError Category.NOT_FOUND code
            ("SSM parameter '" +:+ name +:+ "' not found — deploy the worker stack that publishes it") false)
        else
          Raise (CloudError
            (if code ∈? ["AccessDeniedException"; "UnauthorizedOperation"] then Category.AUTH else Category.RETRYABLE)
            (if code ==? "" then "SSMError" else code)
            ("Cannot read SSM parameter '" +:+ name +:+ "': " +:+ exn_str (ClientError code message)) false)
    | SsmBotoCoreError message =>
        Raise (CloudError Category.RETRYABLE "SSMUnreachable"
                 ("Cannot reach SSM for parameter '" +:+ name +:+ "': " +:+ message) false)
    | SsmValue value =>
        let resolved := strip value in
        if resolved ==? "" then
          Raise (CloudError Category.NOT_FOUND "SSMParameterEmpty" ("SSM parameter '" +:+ name +:+ "' is empty") false)
        else Ok resolved
    end.

(** [model_copy(update=...)]. *)
Definition with_launch_template_id (id : string) (a : AwsCloudConfig) : AwsCloudConfig :=
  mkAwsCloudConfig (region a) (Some id) (launch_template_version a) (bucket a) (endpoint_url a) (ec2_endpoint_url a).

Definition resolve_cloud_config `{SsmClient} (cloud : CloudConfig) : outcome CloudConfig :=
  match launch_template_id (aws cloud) with
  | Some template_id =>
      if negb (is_ssm_reference (Some template_id)) then Ok cloud
      else
        resolved ← resolve_ssm_reference template_id (region (aws cloud)) ;
        Ok (mkCloudConfig (cloud_provider cloud) (with_launch_template_id resolved (aws cloud)))
  | None => Ok cloud
  end.

(** ** The registry *)

Definition COMPUTE_FACTORIES `{SsmClient} : list (string * (GatewaySettings -> outcome AwsEc2Provider)) :=
  [ ("aws", fun settings =>
       resolved ← resolve_cloud_config (cloud settings) ;
       Ok (mkAwsEc2Provider (region (aws (cloud settings))) (ec2_endpoint_url (aws (cloud settings)))
             (Some resolved) (deployment_id settings))) ].

Definition STORE_FACTORIES : list (string * (GatewaySettings -> S3ObjectStore.t)) :=
  [ ("aws", fun settings =>
       S3ObjectStore.mkS3ObjectStore (bucket (aws (cloud settings))) (endpoint_url (aws (cloud settings)))
         (region (aws (cloud settings)))) ].

(** [sorted] of strings, and [str] of a list of them. *)
Definition sorted_strs (l : list string) : list string := merge_sort (fun a b => String.leb a b) l.
Definition str_of_list (l : list string) : string := "[" +:+ join ", " (map repr_str l) +:+ "]".

Definition available_providers `{SsmClient} : list string := sorted_strs (map fst COMPUTE_FACTORIES).
Definition available_store_providers : list string := sorted_strs (map fst STORE_FACTORIES).

Definition get_provider `{SsmClient} (name : option string) (settings : GatewaySettings) : outcome AwsEc2Provider :=
  let resolved := str_or name (cloud_provider (cloud settings)) in
  match assoc resolved COMPUTE_FACTORIES with
  | None => Raise (ValueError ("Cloud provider '" +:+ resolved +:+ "' is not implemented. Available: "
                     +:+ str_of_list available_providers))
  | Some factory => factory settings
  end.

Definition get_store (name : option string) (settings : GatewaySettings) : outcome S3ObjectStore.t :=
  let resolved := str_or name (cloud_provider (cloud settings)) in
  match assoc resolved STORE_FACTORIES with
  | None => Raise (ValueError ("Object store for provider '" +:+ resolved +:+ "' is not implemented. Available: "
                     +:+ str_of_list available_store_providers))
  | Some factory => Ok (factory settings)
  end.

Definition init_provider `{SsmClient} (settings : GatewaySettings) : outcome (option AwsEc2Provider) :=
  if negb (cloud_workers_enabled settings) then Ok None
  else provider ← get_provider (Some (cloud_provider (cloud settings))) settings ; Ok (Some provider).

Section startup.
Context (settings : GatewaySettings) `{Env} `{!MinerURelease} `{!S3Client}.

(** [init_store]: the store, prepared. *)
Definition init_store (required : bool) : M (option S3ObjectStore.t) :=
  if negb (is_object_store_configured (cloud settings)) then
    if required
    then raise (StartupDependencyError
      ("cloud." +:+ cloud_provider (cloud settings) +:+ " bucket/container name is required"))
    else mret None
  else
    store ← lift (get_store (Some (cloud_provider (cloud settings))) settings) ;
    S3ObjectStore.prepare ;;
    mret (Some store).

(** ** The guard *)

Definition enforce_bind_guard (cli_host : option string) : outcome unit :=
  if auth_enabled (auth settings) then Ok tt
  else
    let host := str_or cli_host (Config.host settings) in
    if is_public_bind_host host then
      Raise (RuntimeError ("Refusing to bind public host '" +:+ host +:+ "' without auth enabled. "
               +:+ "Enable auth in config or bind to a loopback address."))
    else Ok tt.

(** The first two parts of the version must be 3 and 4. *)
Definition validate_mineru_compat : outcome string :=
  if API_PROTOCOL_VERSION !=? 2 then
    Raise (RuntimeError ("Expected MinerU API_PROTOCOL_VERSION == 2, got " +:+ print_int API_PROTOCOL_VERSION +:+ ". "
             +:+ "The gateway needs updating for the new protocol."))
  else
    match map py_int (take 2 (split_char DOT MINERU_VERSION)) with
    | [Some major; Some minor] =>
        if (major =? 3) && (minor =? 4) then Ok MINERU_VERSION
        else Raise (RuntimeError ("MinerU version " +:+ MINERU_VERSION
                      +:+ " is outside the supported range >=3.4.4,<3.5."))
    | _ => Raise (ValueError "int() or unpacking")
    end.

(** [_validate_worker_provider_ownership]. *)
Definition foreign_clause (r : Worker) : bool :=
  is_none (w_terminated_at r) && (w_provider r !=? cloud_provider (cloud settings)).
Definition validate_worker_provider_ownership : M unit :=
  open_session ;;
  conflicts ← select (A:=Worker) (fun _ => foreign_clause) (fun _ => unordered) ;
  match conflicts with
  | [] => mret tt
  | w :: _ =>
      let sample := join ", " (map w_id (take 5 conflicts)) in
      let suffix := if (5 <? length conflicts)%nat then "..." else "" in
      raise (StartupDependencyError
        ("DB contains workers for provider " +:+ repr_str (w_provider w) +:+ " but configured provider is "
         +:+ repr_str (cloud_provider (cloud settings)) +:+ " (conflicting workers: " +:+ sample +:+ suffix +:+ ")"))
  end.

Definition validate_startup_dependencies (store : option S3ObjectStore.t) : M unit :=
  _ ← lift validate_mineru_compat ;
  if is_blank (deployment_id settings) then raise (StartupDependencyError "deployment_id is required")
  else if negb (is_object_store_configured (cloud settings)) then
    raise (StartupDependencyError
      ("cloud." +:+ cloud_provider (cloud settings) +:+ " bucket/container name is required"))
  else if is_none store then
    raise (StartupDependencyError "Object storage is required — configure cloud bucket and ensure access")
  else if auth_enabled (auth settings) && (resolved_keys (auth settings) ==? []) then
    raise (StartupDependencyError "auth.api_key is required when auth.enabled is true")
  else if cloud_workers_enabled settings
          && ((cloud_provider (cloud settings) ==? "aws") && negb (truthy (launch_template_id (aws (cloud settings))))) then
    raise (StartupDependencyError "cloud.aws.launch_template_id is required when cloud workers are enabled")
  else validate_worker_provider_ownership.

(** ** The processes *)

(** [lifespan] up to [yield]: the store, and [public_bind_exposed]. *)
Definition lifespan : M (option S3ObjectStore.t * bool) :=
  lift (enforce_bind_guard None) ;;
  let public_bind_exposed := is_public_bind_host (Config.host settings) in
  store ← init_store true ;
  validate_startup_dependencies store ;;
  mret (store, public_bind_exposed).

(** [_run_scheduler] up to the lock: the provider the scheduler is built with. *)
Definition scheduler_startup `{!SsmClient} : M (option AwsEc2Provider) :=
  store ← init_store true ;
  if is_none store then raise (RuntimeError "Object store is required for scheduler")
  else
    validate_startup_dependencies store ;;
    provider ← lift (init_provider settings) ;
    if cloud_workers_enabled settings && is_none provider
    then raise (RuntimeError "Cloud workers enabled but compute provider failed to initialize")
    else mret provider.
End startup.
