(* ===== verification/Reconcile.v ===== *)
(** * Reconcile: the cloud side of [scheduler/scheduler.py]

    One pass compares the worker rows with the VMs the provider reports.  The
    rows of the pass are snapshots: the code updates the Python objects beside
    the database, so every method that does returns the updated snapshot, and
    the pass threads the map [worker_by_id] of them. *)
From S2P Require Import Prelude Models CloudTypes Config World Database Logic Hoare Status WorkerRepository.
From S2P Require Import Provider Lock.

Record ReconcileResult := mkReconcileResult {
  reset_cloud_retries : bool;
  failure_recorded : bool
}.

Section reconcile.
Context (settings : GatewaySettings) (has_provider : bool).
Context `{Env} `{!ComputeProvider} `{!LockServer}.

(** [_verify_lock]: the assignment to the read-only property [held] of the
    advisory lock raises. *)
Definition verify_lock : M bool :=
  lk ← gets (fun w => lock (memory w)) ;
  match lk with
  | None => mret true
  | Some _ =>
      ok ← lock_verify ;
      if ok : bool then mret true
      else raise (AttributeError "property 'held' of 'PostgresAdvisoryLock' object has no setter")
  end.

Definition terminate_unowned_vm (inst : DiscoveredInstance) (reason : string) : M unit :=
  if d_state inst ∈? [TERMINATING; TERMINATED] then mret tt
  else if negb has_provider then mret tt
  else try_ (provider_terminate (d_instance_id inst) ;;
             record_scaling_event_now "terminate" reason None "reconciliation" None)
            (fun _ => mret tt).

(** ** Discovery *)

Definition is_managed (inst : DiscoveredInstance) : bool :=
  (d_tags inst !! TAG_MANAGED ==? Some "true") && (d_tags inst !! TAG_ROLE ==? Some TAG_ROLE_WORKER).

(** [discovered_by_worker[worker_id].append(inst)]: a dict in insertion order. *)
Fixpoint dict_append {A} (k : string) (x : A) (d : list (string * list A)) : list (string * list A) :=
  match d with
  | [] => [(k, [x])]
  | (k', l) :: d => if k ==? k' then (k', l ++ [x]) :: d else (k', l) :: dict_append k x d
  end.

Definition group_by_worker (managed : list DiscoveredInstance) : list (string * list DiscoveredInstance) :=
  foldl (fun d inst => match d_worker_id inst with
                       | Some id => if id ==? "" then d else dict_append id inst d
                       | None => d
                       end) [] managed.

Definition canonical_instance (instances : list DiscoveredInstance) (worker : option Worker) : string :=
  let discovered_ids := d_instance_id <$> instances in
  let smallest := default "" (head (merge_sort String.leb discovered_ids)) in
  match worker with
  | Some w =>
      match w_instance_id w with
      | Some iid => if (iid !=? "") && (iid ∈? discovered_ids) then iid else smallest
      | None => smallest
      end
  | None => smallest
  end.

Definition resolve_duplicate_vms (worker_id : string) (instances : list DiscoveredInstance)
    (worker : option Worker) : M (DiscoveredInstance * option Worker) :=
  let canonical_id := canonical_instance instances worker in
  match List.find (fun inst => d_instance_id inst ==? canonical_id) instances with
  | None => raise (RuntimeError "coroutine raised StopIteration")
  | Some primary =>
      worker ← (match worker with
                | Some w =>
                    if w_instance_id w !=? Some canonical_id then
                      commit_fields (w_id w) [W_instance_id (Some canonical_id);
                        W_cloud_state (cloud_state_from_instance (d_state primary))] ;;
                      mret (Some (set_worker [W_instance_id (Some canonical_id)] w))
                    else mret (Some w)
                | None => mret None
                end) ;
      for_each instances (fun inst =>
        if d_instance_id inst ==? canonical_id then mret tt
        else terminate_unowned_vm inst
               ("duplicate vm for worker " +:+ worker_id +:+ " (kept " +:+ canonical_id +:+ ")")) ;;
      mret (primary, worker)
  end.

(** The managed instances, the primary instance of each worker, and the
    snapshots as the resolution left them. *)
Definition discover_and_dedupe (discovered : list DiscoveredInstance) (worker_by_id : gmap string Worker)
  : M (list DiscoveredInstance * gmap string DiscoveredInstance * gmap string Worker) :=
  let discovered_managed := List.filter is_managed discovered in
  '(primary, workers) ← fold_m (group_by_worker discovered_managed) (∅, worker_by_id)
    (fun '(primary, workers) '(worker_id, instances) =>
       match instances with
       | [inst] => mret (<[worker_id := inst]> primary, workers)
       | _ =>
           '(inst, worker) ← resolve_duplicate_vms worker_id instances (workers !! worker_id) ;
           mret (<[worker_id := inst]> primary,
                 match worker with Some w => <[worker_id := w]> workers | None => workers end)
       end) ;
  mret (discovered_managed, primary, workers).

Definition should_skip_reconcile (worker : Worker) (now : time) : bool :=
  let max_failures := max_failure_count (reconciliation settings) in
  if (max_failures <=? w_failure_count worker) && (w_desired_state worker !=? CLOUD_STATE_TERMINATED)
  then true
  else (w_failure_count worker <? max_failures)
       && match w_retry_after worker with Some t => now <? t | None => false end.

Definition terminate_orphan_vms (discovered_managed : list DiscoveredInstance) (worker_ids : gset string)
  : M unit :=
  for_each discovered_managed (fun inst =>
    match d_worker_id inst with
    | Some id =>
        if (id !=? "") && bool_decide (id ∈ worker_ids) then mret tt
        else terminate_unowned_vm inst
               (if id !=? "" then "orphan vm for unknown worker " +:+ id
                else "managed vm missing worker id tag")
    | None => terminate_unowned_vm inst "managed vm missing worker id tag"
    end).

(** ** One worker *)

Definition sync_discovered_state (worker : Worker) (discovered : DiscoveredInstance) : M Worker :=
  let cloud_state := cloud_state_from_instance (d_state discovered) in
  worker ← (if w_instance_id worker !=? Some (d_instance_id discovered) then
              commit_fields (w_id worker) [W_instance_id (Some (d_instance_id discovered))] ;;
              mret (set_worker [W_instance_id (Some (d_instance_id discovered))] worker)
            else mret worker) ;
  if (cloud_state !=? CLOUD_STATE_UNKNOWN) && (w_cloud_state worker !=? cloud_state) then
    commit_fields (w_id worker) [W_cloud_state cloud_state] ;;
    mret (set_worker [W_cloud_state cloud_state] worker)
  else mret worker.

Definition launch_missing_instance (worker : Worker) (discovered : option DiscoveredInstance)
  : M ReconcileResult :=
  (match discovered with
   | Some d =>
       commit_fields (w_id worker) [W_instance_id (Some (d_instance_id d));
         W_cloud_state (cloud_state_from_instance (d_state d))]
   | None =>
       instance_id ← provider_launch (w_id worker) (w_deployment_id worker) (w_generation worker) ;
       commit_fields (w_id worker) [W_instance_id (Some instance_id); W_cloud_state CLOUD_STATE_PENDING]
   end) ;;
  mret (mkReconcileResult true false).

Definition transition_power_state (worker : Worker) (instance_id cloud_state : string)
  : M (option ReconcileResult) :=
  if (w_desired_state worker ==? CLOUD_STATE_RUNNING) && (cloud_state ==? CLOUD_STATE_STOPPED) then
    provider_start instance_id ;;
    now ← now_utc ;
    commit_fields (w_id worker)
      [W_cloud_state CLOUD_STATE_PENDING; W_failure_count 0; W_retry_after None;
       W_start_requested_at (Some now); W_ready_at None] ;;
    mret (Some (mkReconcileResult true false))
  else if (w_desired_state worker ==? CLOUD_STATE_STOPPED) && (cloud_state ==? CLOUD_STATE_RUNNING) then
    provider_stop instance_id ;;
    commit_fields (w_id worker) [W_cloud_state CLOUD_STATE_STOPPING] ;;
    mret (Some (mkReconcileResult true false))
  else if (w_desired_state worker ==? CLOUD_STATE_TERMINATED)
          && (cloud_state !=? CLOUD_STATE_TERMINATED) then
    provider_terminate instance_id ;;
    commit_fields (w_id worker) [W_cloud_state CLOUD_STATE_TERMINATING] ;;
    mret (Some (mkReconcileResult true false))
  else mret None.

Definition worker_base_url (ip : string) : string := "http://" +:+ ip +:+ ":8000".

Definition check_running_readiness (worker : Worker) (instance_id : string) : M bool :=
  ip ← cloud_get_private_ip instance_id ;
  (if truthy ip && (w_base_url worker !=? Some (worker_base_url (str_or ip "")))
   then commit_fields (w_id worker) [W_base_url (Some (worker_base_url (str_or ip "")))]
   else mret tt) ;;
  let timeout := launch_readiness_timeout_seconds (reconciliation settings) in
  let deadline := default (w_created_at worker) (w_start_requested_at worker) in
  if is_none (w_ready_at worker) then
    now ← now_utc ;
    if (seconds timeout <? now - deadline) && negb (w_healthy worker) then
      record_failure settings (w_id worker) "launch readiness timeout" true ;;
      mret true
    else mret false
  else mret false.

(** The part of [_reconcile_one_worker] after the state of the instance is
    known; the snapshot is not used after the pass is done with it. *)
Definition align_instance (worker : Worker) (instance_id cloud_state : string) : M ReconcileResult :=
  worker ← (if cloud_state !=? w_cloud_state worker then
              commit_fields (w_id worker) [W_cloud_state cloud_state] ;;
              (if cloud_state ∈? [CLOUD_STATE_STOPPED; CLOUD_STATE_TERMINATED] then
                 now ← now_utc ;
                 commit_fields (w_id worker)
                   [W_base_url None; W_ready_at None; W_healthy false;
                    W_last_health_checked_at (Some now)]
               else mret tt) ;;
              mret (set_worker [W_cloud_state cloud_state] worker)
            else mret worker) ;
  transitioned ← transition_power_state worker instance_id cloud_state ;
  match transitioned with
  | Some result => mret result
  | None =>
      failure ← (if (w_desired_state worker ==? CLOUD_STATE_RUNNING)
                    && (cloud_state ==? CLOUD_STATE_RUNNING)
                 then check_running_readiness worker instance_id else mret false) ;
      mret (mkReconcileResult (negb failure) failure)
  end.

Definition reconcile_one_worker (worker : Worker) (discovered : option DiscoveredInstance)
  : M ReconcileResult :=
  if negb has_provider then mret (mkReconcileResult false false)
  else
    worker ← (match discovered with Some d => sync_discovered_state worker d | None => mret worker end) ;
    match w_instance_id worker with
    | None =>
        if w_desired_state worker ==? CLOUD_STATE_RUNNING
        then launch_missing_instance worker discovered
        else
          (if w_desired_state worker ==? CLOUD_STATE_TERMINATED then
             now ← now_utc ;
             commit_fields (w_id worker)
               [W_cloud_state CLOUD_STATE_TERMINATED; W_terminated_at (Some now)]
           else mret tt) ;;
          mret (mkReconcileResult true false)
    | Some instance_id =>
        state ← cloud_get_state instance_id ;
        let cloud_state := cloud_state_from_instance state in
        if (cloud_state ==? CLOUD_STATE_TERMINATED)
           && (w_desired_state worker ∈? [CLOUD_STATE_RUNNING; CLOUD_STATE_STOPPED]) then
          finalize_disappeared_instance (w_id worker) "cloud instance terminated or missing" ;;
          mret (mkReconcileResult true false)
        else align_instance worker instance_id cloud_state
    end.

(** The body of the loop, with the two [except] clauses. *)
Definition reconcile_guarded (worker : Worker) (discovered : option DiscoveredInstance) : M unit :=
  try_ (
    result ← reconcile_one_worker worker discovered ;
    if reset_cloud_retries result && negb (failure_recorded result)
    then reset_cloud_failures (w_id worker) else mret tt)
  (fun exc => record_failure settings (w_id worker) (exn_str exc)
                (match exc with CloudError _ _ _ retryable => retryable | _ => true end)).

Definition reconcile_workers : M unit :=
  locked ← (if has_provider then verify_lock else mret false) ;
  if negb locked then mret tt
  else
    now ← now_utc ;
    workers ← list_deployment_workers settings ;
    discovered ← cloud_discover (deployment_id settings) ;
    let worker_ids : gset string := list_to_set (w_id <$> workers) in
    let worker_by_id : gmap string Worker := list_to_map ((fun w => (w_id w, w)) <$> workers) in
    '(discovered_managed, discovered_primary, snapshots) ← discover_and_dedupe discovered worker_by_id ;
    for_each workers (fun worker =>
      let worker := default worker (snapshots !! w_id worker) in
      if should_skip_reconcile worker now then mret tt
      else reconcile_guarded worker (discovered_primary !! w_id worker)) ;;
    terminate_orphan_vms discovered_managed worker_ids.
End reconcile.
