(* ===== verification/Scheduler.v ===== *)
(** * Scheduler: the two ticks of [scheduler/scheduler.py]

    The fast tick recovers stale claims, synchronises tasks and results, expires
    client deadlines and dispatches; the slow tick reconciles the fleet,
    converges stalled workers, probes health, scales, drains, rotates and cleans
    up.  The scheduler's own attributes are the [memory] of the world. *)
From stdpp Require Import pretty.
From S2P Require Import Prelude Models CloudTypes Config Scaling World Database Logic Hoare Storage Status Lifecycle.
From S2P Require Import TaskRows Upstream WorkerRepository CacheService Results TaskRepository Lock Provider.
From S2P Require Import Health Reconcile.

Section scheduler.
Context (settings : GatewaySettings) (has_provider : bool).
Context `{Env} `{!ObjectStore} `{!Http} `{!MinerU} `{!ComputeProvider} `{!LockServer}.

(** ** Attributes *)

Definition set_last_scale_up (t : time) : M unit := modify (fun w =>
  let m := memory w in
  with_memory (mkMemory (Some t) (next_cleanup_at m) (next_cache_sweep_at m)
                 (next_rotation_check_at m) (lock m)) w).
Definition set_next_cleanup_at (t : time) : M unit := modify (fun w =>
  let m := memory w in
  with_memory (mkMemory (last_scale_up m) (Some t) (next_cache_sweep_at m)
                 (next_rotation_check_at m) (lock m)) w).
Definition set_next_cache_sweep_at (t : time) : M unit := modify (fun w =>
  let m := memory w in
  with_memory (mkMemory (last_scale_up m) (next_cleanup_at m) (Some t)
                 (next_rotation_check_at m) (lock m)) w).
Definition set_next_rotation_check_at (t : time) : M unit := modify (fun w =>
  let m := memory w in
  with_memory (mkMemory (last_scale_up m) (next_cleanup_at m) (next_cache_sweep_at m)
                 (Some t) (lock m)) w).

(** [self._next_x is None or now >= self._next_x]. *)
Definition due (next : option time) (now : time) : bool :=
  match next with Some t => t <=? now | None => true end.

(** ** Stalled workers *)

Definition terminate_stalled (worker : Worker) (reason : string) : M unit :=
  commit_fields (w_id worker) [W_desired_state CLOUD_STATE_TERMINATED] ;;
  record_scaling_event_now "terminate" reason (Some (w_id worker)) "reconciliation" None.

Definition converge_one (now : time) (worker : Worker) : M unit :=
  inflight ← count_inflight_tasks (w_id worker) ;
  unstored ← count_unstored_results (w_id worker) ;
  let active_work := (0 <? inflight) || (0 <? unstored) in
  if negb active_work then
    if w_desired_state worker !=? CLOUD_STATE_TERMINATED
    then terminate_stalled worker "stalled worker with no active upstream work"
    else mret tt
  else
    stalled_at ← (match w_stalled_at worker with
                  | None => commit_fields (w_id worker) [W_stalled_at (Some now)] ;; mret now
                  | Some t => mret t
                  end) ;
    if (seconds (stalled_worker_grace_seconds (reconciliation settings)) <=? now - stalled_at)
       && (w_desired_state worker !=? CLOUD_STATE_TERMINATED)
    then terminate_stalled worker "stalled worker grace period expired"
    else mret tt.

Definition converge_stalled_workers : M unit :=
  now ← now_utc ;
  workers ← find_stalled_workers settings ;
  for_each workers (converge_one now).

(** ** Health *)

Definition refresh_worker_health : M unit :=
  workers ← list_health_check_candidates settings HEALTH_BATCH ;
  match workers with
  | [] => mret tt
  | _ =>
      results ← gather workers check_worker_health ;
      _ ← apply_health_checks results ;
      mret tt
  end.

(** ** Autoscaling *)

Definition current_scaling_signal : M ScalingSignal :=
  inputs ← collect_scaling_inputs settings ;
  let cfg := scaling settings in
  mret (compute_scaling_signal inputs (target_per_worker cfg) (min_workers cfg) (max_workers cfg)).

Definition scale_up : M bool :=
  stopped ← find_stopped_worker settings ;
  match stopped with
  | Some stopped =>
      now ← now_utc ;
      commit_fields (w_id stopped)
        [W_desired_state CLOUD_STATE_RUNNING; W_failure_count 0; W_retry_after None;
         W_start_requested_at (Some now); W_ready_at None] ;;
      mret true
  | None =>
      count ← count_workers settings ;
      if count <? max_workers (scaling settings) then
        _ ← create_cloud_worker settings ; mret true
      else
        stalled ← count_stalled_workers settings ;
        emergency ← (if 0 <? stalled then
                       serviceable ← count_serviceable_workers settings ;
                       if serviceable =? 0 then
                         count ← count_workers settings ;
                         mret (count <? max_workers (scaling settings) + 1)
                       else mret false
                     else mret false) ;
        if emergency : bool then _ ← create_cloud_worker settings ; mret true
        else mret false
  end.

Definition scale_up_reason (desired provisioned : Z) : string :=
  "desired " +:+ pretty desired +:+ " > provisioned " +:+ pretty provisioned.

Definition apply_autoscaling : M unit :=
  if negb has_provider then mret tt
  else
    signal ← current_scaling_signal ;
    let provisioned := serviceable_workers signal + starting_workers signal in
    if should_scale_up signal then
      now ← now_utc ;
      let zero_recovery := (provisioned =? 0) && (0 <? desired_workers signal) in
      last ← gets (fun w => last_scale_up (memory w)) ;
      let cooling := match last with
                     | Some t => now - t <? seconds (scale_up_cooldown_seconds (scaling settings))
                     | None => false
                     end in
      if negb zero_recovery && cooling then mret tt
      else
        scaled ← scale_up ;
        if scaled : bool then
          set_last_scale_up now ;;
          record_scaling_event_now "start" (scale_up_reason (desired_workers signal) provisioned)
            None "autoscaler" None
        else mret tt
    else if should_scale_down signal then
      now ← now_utc ;
      idle ← find_idle_worker settings (now - seconds (idle_cooldown_seconds (scaling settings))) ;
      match idle with
      | Some idle =>
          commit_fields (w_id idle) [W_draining true; W_drain_target (Some CLOUD_STATE_STOPPED)] ;;
          record_scaling_event_now "stop" "serviceable exceeds desired" (Some (w_id idle)) "autoscaler" None
      | None => mret tt
      end
    else mret tt.

(** ** Drains and rotations *)

Definition advance_drain (worker : Worker) : M unit :=
  inflight ← count_inflight_tasks (w_id worker) ;
  unstored ← count_unstored_results (w_id worker) ;
  if (0 <? inflight) || (0 <? unstored) then mret tt
  else
    replaced ← has_active_replacement_for settings (w_id worker) ;
    if replaced : bool then
      ready ← get_ready_replacement_for settings (w_id worker) ;
      match ready with
      | None => mret tt
      | Some _ => commit_fields (w_id worker) [W_desired_state CLOUD_STATE_TERMINATED]
      end
    else if sql_eq (w_drain_target worker) CLOUD_STATE_TERMINATED then
      commit_fields (w_id worker) [W_desired_state CLOUD_STATE_TERMINATED]
    else
      commit_fields (w_id worker)
        [W_desired_state CLOUD_STATE_STOPPED; W_draining false; W_drain_target None].

Definition advance_drains : M unit :=
  workers ← find_draining_workers settings ;
  for_each workers advance_drain.

Definition worker_is_ready (worker : Worker) : bool :=
  (w_desired_state worker ==? CLOUD_STATE_RUNNING)
  && (w_cloud_state worker ==? CLOUD_STATE_RUNNING)
  && w_healthy worker && not_none (w_ready_at worker) && not_none (w_base_url worker).

Definition progress_rotation (now : time) (replacement : Worker) : M unit :=
  match w_replacement_for replacement with
  | None => mret tt
  | Some old_id =>
      old ← (if old_id ==? "" then mret None else get_worker settings old_id) ;
      let late := (w_desired_state replacement !=? CLOUD_STATE_TERMINATED)
        && negb (worker_is_ready replacement)
        && match w_start_requested_at replacement with
           | Some t => seconds (readiness_timeout_seconds (rotation settings)) <? now - t
           | None => false
           end in
      if late then commit_fields (w_id replacement) [W_desired_state CLOUD_STATE_TERMINATED]
      else match old with
           | Some old =>
               if worker_is_ready replacement && negb (w_draining old) && is_none (w_terminated_at old)
               then commit_fields (w_id old) [W_draining true] else mret tt
           | None => mret tt
           end
  end.

Definition progress_rotations : M unit :=
  now ← now_utc ;
  replacements ← find_replacement_workers settings ;
  for_each replacements (progress_rotation now).

Definition finalize_terminations : M unit :=
  workers ← find_workers_pending_termination_finalize settings ;
  for_each workers (fun worker => finalize_terminated_worker (w_id worker)).

Definition rotation_target : M (option Worker) :=
  target ← find_emergency_rotation_target settings ;
  match target with
  | Some t => mret (Some t)
  | None =>
      now ← now_utc ;
      find_scheduled_rotation_target settings (now - seconds (rotation_interval_seconds (rotation settings)))
  end.

Definition start_new_rotations : M unit :=
  if negb has_provider then mret tt
  else
    active ← count_active_replacements settings ;
    if 0 <? active then mret tt
    else
      count ← count_workers settings ;
      if max_workers (scaling settings) + 1 <=? count then mret tt
      else
        target ← rotation_target ;
        match target with
        | None => mret tt
        | Some target => _ ← start_rotation_replacement settings target ; mret tt
        end.

Definition advance_drains_and_rotations : M unit :=
  progress_rotations ;;
  advance_drains ;;
  finalize_terminations ;;
  now ← now_utc ;
  next ← gets (fun w => next_rotation_check_at (memory w)) ;
  if due next now then
    start_new_rotations ;;
    set_next_rotation_check_at (now + seconds (rotation_interval_seconds (rotation settings)))
  else mret tt.

(** ** Cleanup *)

(** [_delete_object_keys]: stops at the first key that could not be deleted. *)
Fixpoint delete_object_keys (keys : list (option string)) : M bool :=
  match keys with
  | [] => mret true
  | key :: keys =>
      deleted ← safe_delete key ;
      if deleted : bool then delete_object_keys keys else mret false
  end.

Definition cleanup_task (task : Task) : M unit :=
  deleted ← delete_object_keys [t_payload_key task; t_result_key task] ;
  if deleted : bool then _ ← delete_task (t_task_id task) ; mret tt else mret tt.

Definition RETENTION_BATCH : nat := 100.

Definition cleanup_expired_tasks : M unit :=
  now ← now_utc ;
  let cutoff := now - days (retention_days (retention settings)) in
  tasks ← list_retention_expired_tasks cutoff RETENTION_BATCH ;
  for_each tasks cleanup_task.

Definition cleanup_if_due : M unit :=
  now ← now_utc ;
  next ← gets (fun w => next_cleanup_at (memory w)) ;
  if negb (due next now) then mret tt
  else
    set_next_cleanup_at (now + cleanup_interval_us (retention settings)) ;;
    cleanup_expired_tasks ;;
    next_sweep ← gets (fun w => next_cache_sweep_at (memory w)) ;
    if due next_sweep now then
      set_next_cache_sweep_at (now + seconds (sweeper_interval_seconds (cache settings))) ;;
      _ ← sweep_expired ;
      mret tt
    else mret tt.

(** ** Ticks *)

Definition synchronize_tasks_and_results : M unit :=
  _ ← sync_dispatched_task_statuses ;
  tasks ← list_unstored_completed HEALTH_BATCH ;
  _ ← persist_pending_results tasks true ;
  mret tt.

Definition fast_tick : M unit :=
  locked ← verify_lock ;
  if negb locked then mret tt
  else
    _ ← recover_stale_dispatch_claims ;
    synchronize_tasks_and_results ;;
    _ ← expire_client_sla_tasks (task_sla_seconds settings) ;
    _ ← dispatch_queued_tasks settings ;
    mret tt.

Definition slow_tick : M unit :=
  locked ← verify_lock ;
  if negb locked then mret tt
  else
    reconcile_workers settings has_provider ;;
    converge_stalled_workers ;;
    refresh_worker_health ;;
    apply_autoscaling ;;
    advance_drains_and_rotations ;;
    cleanup_if_due.

Definition tick_once : M unit := slow_tick ;; fast_tick.

(** [_sleep_until_next_boundary], in microseconds of wall-clock time. *)
Definition next_boundary (interval now : Z) : Z := (now / interval + 1) * interval.
Definition sleep_until_next_boundary (interval : Z) : M unit :=
  if interval <=? 0 then mret tt
  else
    now ← now_utc ;
    sleep (Z.max 0 (next_boundary interval now - now)).

(** [_run_loop]: each tick is tried while the lock looks held, its exceptions
    logged. *)
Definition lock_looks_held : M bool := gets (fun w =>
  match lock (memory w) with Some _ => lock_is_held w | None => true end).

(** One turn of a loop: whether it goes on. *)
Definition loop_turn (tick_fn : M unit) (interval : Z) : M bool :=
  held ← lock_looks_held ;
  if negb held then mret false
  else
    try_ tick_fn (fun _ => mret tt) ;;
    sleep_until_next_boundary interval ;;
    mret true.

(** [run]: a gather of the two loops.  They alternate where they sleep, as the
    event loop decides: [schedule] says whose turn is next, and [running] which
    loops have not ended. *)
Inductive Loop := dispatch | reconcile.

#[export] Instance Loop_eq_dec : EqDecision Loop.
Proof. solve_decision. Defined.

Definition turn (l : Loop) : M bool :=
  match l with
  | dispatch => loop_turn fast_tick (dispatch_poll_interval_us (Config.scheduler settings))
  | reconcile => loop_turn slow_tick (reconcile_poll_interval_us (Config.scheduler settings))
  end.

Fixpoint run_turns (schedule running : list Loop) : M (list Loop) :=
  match schedule with
  | [] => mret running
  | l :: schedule =>
      if l ∈? running then
        continues ← turn l ;
        run_turns schedule (if continues : bool then running
                            else List.filter (fun l' => l' !=? l) running)
      else run_turns schedule running
  end.
Definition run (schedule : list Loop) : M (list Loop) := run_turns schedule [dispatch; reconcile].
End scheduler.

(** ** The fast tick *)

Section fast.
Context (settings : GatewaySettings).
Context `{Env} `{!ObjectStore} `{!Http} `{!MinerU} `{!LockServer}.

Lemma lock_verify_rows : evolves same_rows lock_verify.
Proof.
  unfold lock_verify, set_held, modify. evolve.
  - apply evolves_same_data; [apply _|]. apply pg_data.
  - intros w. by split.
Qed.

Lemma verify_lock_rows : evolves same_rows verify_lock.
Proof. unfold verify_lock. evolve. apply lock_verify_rows. Qed.

Lemma fast_inv_rows w0 w w' : same_rows w w' -> fast_inv w0 w -> fast_inv w0 w'.
Proof. intros [Et Ew]. by apply fast_inv_same. Qed.

Lemma rows_keep_fast {A} (m : M A) w0 : evolves same_rows m -> maintains (fast_inv w0) m.
Proof.
  intros Hm w HI. eapply wp_evolves; [exact Hm| |]; intros a w' Hr; by eapply fast_inv_rows.
Qed.

Lemma recover_fast w0 : maintains (fast_inv w0) recover_stale_dispatch_claims.
Proof.
  intros w HI. pose proof (recover_stale_dispatch_claims_ok w (fi_tasks _ _ HI)) as Hok.
  pose proof (recover_lawful w (fi_tasks _ _ HI)) as Hs. unfold wp in *.
  destruct (recover_stale_dispatch_claims w) as [[a|e|] w']; [| |done].
  all: destruct Hs as [Hs Ew]; split; [done|by eapply fleet_kept_same; [|apply HI]|];
    etrans; [apply HI|done].
Qed.

Lemma expire_fast w0 sla : maintains (fast_inv w0) (expire_client_sla_tasks sla).
Proof.
  intros w HI. eapply wp_mono; [by apply expire_calm, HI| |].
  all: intros a w' [Hc Ew]; by eapply fast_inv_calm.
Qed.

Lemma dispatch_fast w0 : maintains (fast_inv w0) (dispatch_queued_tasks settings).
Proof.
  intros w HI. unfold dispatch_queued_tasks.
  eapply wp_mono; [apply (dispatch_loop_ok settings w); apply dispatch_inv_start; apply HI| |].
  all: intros a w' []; split; [done|eapply fleet_kept_trans; [apply HI|done]|]; etrans; [apply HI|done].
Qed.

Lemma synchronize_fast w0 : maintains (fast_inv w0) synchronize_tasks_and_results.
Proof.
  intros w HI. unfold synchronize_tasks_and_results. apply wp_bind.
  wp_inv (fast_inv w0); [by apply sync_ok|]. apply wp_bind.
  eapply wp_mono; [apply (list_unstored_pending w0); exact HI0| |by intros].
  intros l w2 HP. apply wp_bind.
  wp_inv (persist_inv w0 l); [by apply persist_pending_results_ok|apply HI1|apply HI1].
Qed.

Lemma fast_tick_inv w0 : maintains (fast_inv w0) (fast_tick settings).
Proof.
  intros w HI. unfold fast_tick. apply wp_bind.
  wp_inv (fast_inv w0); [by apply rows_keep_fast; [apply verify_lock_rows|]|].
  destruct (negb a); [exact HI0|].
  apply wp_bind. wp_inv (fast_inv w0); [by apply recover_fast|].
  apply wp_bind. wp_inv (fast_inv w0); [by apply synchronize_fast|].
  apply wp_bind. wp_inv (fast_inv w0); [by apply expire_fast|].
  apply wp_bind. wp_inv (fast_inv w0); [by apply dispatch_fast|]. exact HI4.
Qed.
End fast.
