(* ===== verification/Fleet.v ===== *)
(** * Fleet: how many workers the slow tick can create

    Every operation of the slow tick but two leaves the set of the
    deployment's workers alone or shrinks it; the two that add one check the
    size first. *)
From S2P Require Import Prelude Models CloudTypes Config Scaling World Database Logic Hoare Storage Status.
From S2P Require Import TaskRows Upstream WorkerRepository CacheService Results TaskRepository Lock Provider.
From S2P Require Import Health Reconcile Scheduler.

Section fleet.
Context (settings : GatewaySettings).

(** The workers of the deployment that are not terminated. *)
Definition fleet_size (w : World) : Z :=
  Z.of_nat (count_map (deployment_clause settings) (workers w)).

(** A row of the deployment was one before. *)
Definition fleet_row (_ : string) (o o' : option Worker) : Prop :=
  forall r', o' = Some r' -> deployment_clause settings r' = true ->
  exists r, o = Some r /\ deployment_clause settings r = true.

#[export] Instance fleet_row_preorder k : PreOrder (fleet_row k).
Proof.
  split; unfold fleet_row; [by eauto|]. intros a b c Hab Hbc r' Hr' Hd.
  destruct (Hbc r' Hr' Hd) as (r & Hr & Hd'). by apply (Hab r).
Qed.

Definition no_new_worker : relation World := rows_evolve fleet_row.

(** The fleet stays within [max_workers + 1], or does not grow. *)
Definition fleet_bounded : relation World := fun w w' =>
  fleet_size w' <= Z.max (max_workers (scaling settings) + 1) (fleet_size w).

Lemma fleet_same w w' : workers w' = workers w -> fleet_size w' = fleet_size w.
Proof. unfold fleet_size. by intros ->. Qed.

#[export] Instance fleet_bounded_benign : Benign fleet_bounded.
Proof.
  split; [split; unfold fleet_bounded; [intros w; lia|intros a b c; lia]|].
  intros w w' (E & _). unfold fleet_bounded. rewrite (fleet_same w w' E). lia.
Qed.

Lemma no_new_size w w' : no_new_worker w w' -> fleet_size w' <= fleet_size w.
Proof.
  intros Hn. unfold fleet_size. apply inj_le, count_map_mono. intros k r' Hr' Hd.
  by apply (Hn k r').
Qed.

Lemma no_new_bounded {A} (m : M A) : evolves no_new_worker m -> evolves fleet_bounded m.
Proof.
  intros Hm w. destruct (Hm w) as [Hd Hn]. split; [done|].
  apply no_new_size in Hn. unfold fleet_bounded. lia.
Qed.

Lemma rows_bounded {A} (m : M A) : evolves same_rows m -> evolves fleet_bounded m.
Proof.
  intros Hm w. destruct (Hm w) as [Hd [_ E]]. split; [done|].
  unfold fleet_bounded. rewrite (fleet_same w _ E). lia.
Qed.

Lemma frame_bounded {A} (m : M A) : evolves (same_table Worker) m -> evolves fleet_bounded m.
Proof.
  intros Hm w. destruct (Hm w) as [Hd E]. split; [done|].
  unfold fleet_bounded. rewrite (fleet_same w _ E). lia.
Qed.

(** Assignments that bring no row into the deployment. *)
Definition no_revival (fs : list WorkerField) : Prop := forall r,
  deployment_clause settings (set_worker fs r) = true -> deployment_clause settings r = true.

Lemma no_revival_flushed fs r r' : no_revival fs -> flushed fs r r' ->
  fleet_row (w_id r) (Some r) (Some r').
Proof.
  intros Hn Hf ? [= <-] Hd. exists r. split; [done|]. apply Hn. by destruct Hf as [->|[u ->]].
Qed.

(** A commit of UPDATEs of workers, and of anything else. *)
Definition updates_only (wr : write) : Prop :=
  match wr with OnWorker (Put _ fs) => no_revival fs | OnWorker _ => False | _ => True end.

Context `{Env}.

Lemma commit_no_new ws : Forall updates_only ws -> evolves no_new_worker (commit ws).
Proof.
  intros Hws. apply (evolves_commit_all (A:=Worker) fleet_row). intros op m Hop.
  apply list_elem_of_omap in Hop as (wr & Hwr & E). rewrite Forall_forall in Hws.
  apply Hws in Hwr. destruct wr as [op'|op'|op'|e]; try discriminate E. injection E as ->.
  destruct op as [r|id fs|id]; try done. intros r r' _ Hf. by eapply no_revival_flushed.
Qed.

Lemma commit_bounded ws : Forall updates_only ws -> evolves fleet_bounded (commit ws).
Proof. intros Hws. by apply no_new_bounded, commit_no_new. Qed.

Lemma commit_fields_bounded id fs : (forall t, no_revival (fs ++ [W_updated_at t])) ->
  evolves fleet_bounded (commit_fields id fs).
Proof.
  intros Hfs. unfold commit_fields. destruct fs as [|f fs]; evolve.
  apply commit_bounded. repeat constructor. apply Hfs.
Qed.

(** ** Adding one worker *)

(** [m] adds at most one worker to the deployment. *)
Definition adds_one : relation World := fun w w' => fleet_size w' <= fleet_size w + 1.

Lemma adds_same w w' : workers w' = workers w -> adds_one w w'.
Proof. intros E. unfold adds_one. rewrite (fleet_same w w' E). lia. Qed.

Lemma commit_adds_one r ws w : Forall updates_only ws ->
  wp (commit (OnWorker (Add r) :: ws)) (fun _ => adds_one w) (fun _ => adds_one w) w.
Proof.
  intros Hws. apply wp_commit.
  - intros w' (w1 & ((Hk & c & u & Ew) & _) & He) _.
    assert (H1 : fleet_size w1 <= fleet_size w + 1).
    { unfold fleet_size. rewrite Ew, count_map_fresh by done. destruct (deployment_clause _ _); lia. }
    assert (H2 : fleet_size w' <= fleet_size w1).
    { clear Ew H1. revert w1 He. induction Hws as [|wr ws Hwr _ IH]; intros w1; cbn [effects].
      - intros (E & _). rewrite (fleet_same w1 w'); [lia|done].
      - intros (w2 & Hw & He). specialize (IH w2 He).
        assert (fleet_size w2 <= fleet_size w1); [|lia].
        destruct wr as [op|op|op|e]; cbn in Hw.
        + destruct op as [r0|id fs|id]; try done. destruct Hw as ((r0 & r' & Hr0 & Hf & Ew) & _).
          unfold fleet_size. apply inj_le, count_map_mono. intros k rk. rewrite Ew.
          destruct (decide (k = id)) as [->|Hne].
          * rewrite lookup_insert_eq. intros [= <-] Hd. rewrite Hr0.
            by apply (no_revival_flushed fs r0 r' Hwr Hf r').
          * rewrite lookup_insert_ne by done. eauto.
        + rewrite (fleet_same w1 w2); [lia|apply Hw].
        + rewrite (fleet_same w1 w2); [lia|apply Hw].
        + rewrite (fleet_same w1 w2); [lia|apply Hw]. }
    unfold adds_one. lia.
  - intros e w' (E & _) _. by apply adds_same.
Qed.

Lemma create_cloud_worker_adds w :
  wp (create_cloud_worker settings) (fun _ => adds_one w) (fun _ => adds_one w) w.
Proof.
  unfold create_cloud_worker, worker_id, short_id. wp_go; [|by apply adds_same].
  wp_inv (adds_one w); [|exact HI].
  apply (commit_adds_one _ [] (bump (bump (bump w)))). constructor.
Qed.

Lemma start_rotation_replacement_adds old w :
  wp (start_rotation_replacement settings old) (fun _ => adds_one w) (fun _ => adds_one w) w.
Proof.
  unfold start_rotation_replacement, worker_id, short_id. wp_go; [|by apply adds_same].
  wp_inv (adds_one w); [|exact HI].
  apply (commit_adds_one _ _ (bump (bump (bump w)))).
  destruct (workers w !! w_id old); repeat constructor. by intros r.
Qed.

(** A count before anything is added. *)
Lemma wp_count_where P (Q : Z -> World -> Prop) X w :
  (forall w', same_data w w' -> Q (count_rows (P w') w) w') ->
  (forall e w', same_data w w' -> X e w') -> wp (count_where P) Q X w.
Proof.
  intros HQ HX. unfold count_where, select_count. wp_go; [|by apply HX].
  apply wp_select. intros l Hl _. wp_go. rewrite Hl. by apply (HQ (bump (bump w))).
Qed.

Lemma count_workers_fleet w' w : count_rows (any (deployment_clause settings) w') w = fleet_size w.
Proof. reflexivity. Qed.

(** [count_workers() < limit], then a creation. *)
Lemma bounded_create {A} (m : M A) limit w0 w : limit <= max_workers (scaling settings) + 1 ->
  fleet_bounded w0 w -> fleet_size w < limit ->
  wp m (fun _ => adds_one w) (fun _ => adds_one w) w ->
  wp m (fun _ => fleet_bounded w0) (fun _ => fleet_bounded w0) w.
Proof.
  intros Hl HB Hs Hm. eapply wp_mono; [exact Hm| |]; intros a w'; unfold adds_one, fleet_bounded in *; lia.
Qed.
End fleet.

(** ** The slow tick *)

Section slow.
Context (settings : GatewaySettings).
Context `{Env} `{!ObjectStore} `{!Http} `{!MinerU} `{!ComputeProvider} `{!LockServer}.

Abbreviation bounded m := (evolves (fleet_bounded settings) m).

#[local] Instance fleet_ignores_calls : IgnoresCalls (fleet_bounded settings).
Proof.
  intros w w' (E & _). unfold fleet_bounded. rewrite (fleet_same settings w w' E). lia.
Qed.

(** Assignments that say nothing about the deployment, or terminate. *)
Ltac revive := intros;
  repeat match goal with |- context [if ?b then _ else _] => destruct b end; unfold no_revival, deployment_clause; intros ?; cbn;
  first [done | by rewrite ?andb_false_r].
Ltac fleet := evolve_deep;
  try solve [ apply commit_fields_bounded; revive
            | apply commit_bounded; repeat constructor; try revive
            | apply evolves_same_data; [apply _|eauto with evolve] ].

Lemma record_scaling_event_bounded a r i t q : bounded (record_scaling_event_now a r i t q).
Proof. unfold record_scaling_event_now. fleet. Qed.
Lemma record_failure_bounded id e r : bounded (record_failure settings id e r).
Proof. unfold record_failure. fleet. Qed.
Lemma reset_cloud_failures_bounded id : bounded (reset_cloud_failures id).
Proof. unfold reset_cloud_failures. fleet. Qed.
Lemma finalize_disappeared_bounded id r : bounded (finalize_disappeared_instance id r).
Proof. unfold finalize_disappeared_instance. fleet. Qed.
Lemma verify_lock_bounded : bounded verify_lock.
Proof. apply rows_bounded, verify_lock_rows. Qed.
#[local] Hint Resolve record_scaling_event_bounded record_failure_bounded reset_cloud_failures_bounded
  finalize_disappeared_bounded verify_lock_bounded : evolve.

Lemma terminate_unowned_bounded has_provider inst r : bounded (terminate_unowned_vm has_provider inst r).
Proof. unfold terminate_unowned_vm. fleet. Qed.
#[local] Hint Resolve terminate_unowned_bounded : evolve.

Lemma discover_and_dedupe_bounded has_provider d m : bounded (discover_and_dedupe has_provider d m).
Proof. unfold discover_and_dedupe, resolve_duplicate_vms. fleet. Qed.
Lemma terminate_orphan_vms_bounded has_provider d ids : bounded (terminate_orphan_vms has_provider d ids).
Proof. unfold terminate_orphan_vms. fleet. Qed.
#[local] Hint Resolve discover_and_dedupe_bounded terminate_orphan_vms_bounded : evolve.

Lemma align_instance_bounded w i c : bounded (align_instance settings w i c).
Proof. unfold align_instance, transition_power_state, check_running_readiness. fleet. Qed.
#[local] Hint Resolve align_instance_bounded : evolve.

Lemma reconcile_one_worker_bounded has_provider w d : bounded (reconcile_one_worker settings has_provider w d).
Proof. unfold reconcile_one_worker, sync_discovered_state, launch_missing_instance. fleet. Qed.
#[local] Hint Resolve reconcile_one_worker_bounded : evolve.

Lemma reconcile_workers_bounded has_provider : bounded (reconcile_workers settings has_provider).
Proof. unfold reconcile_workers, reconcile_guarded, list_deployment_workers. fleet. Qed.

Lemma converge_stalled_bounded : bounded (converge_stalled_workers settings).
Proof.
  unfold converge_stalled_workers, converge_one, terminate_stalled, find_stalled_workers. fleet.
Qed.

Lemma modify_bounded f : (forall w, workers (f w) = workers w) -> bounded (modify f).
Proof.
  intros Hf w. split; [done|]. cbn. unfold fleet_bounded. rewrite (fleet_same settings w _ (Hf w)). lia.
Qed.

Lemma apply_health_checks_bounded results : bounded (apply_health_checks results).
Proof.
  apply evolves_wp. intros w. unfold apply_health_checks.
  assert (Hb : forall w', same_data w w' -> fleet_bounded settings w w') by apply benign.
  wp_go; [|by apply Hb]. apply wp_mono with
    (Q := fun '(_, ws) w' => fleet_bounded settings w w' /\ Forall (updates_only settings) ws)
    (X := fun _ => fleet_bounded settings w).
  - apply wp_fold_m_inv with (J := fun '(_, ws) w' => fleet_bounded settings w w' /\
      Forall (updates_only settings) ws); [|split; [by apply Hb|constructor]].
    intros [n ws] [[[worker ok] error] prov] w' _ [HB HW]. wp_go.
    destruct (workers w' !! w_id worker) as [r|]; [|by split]. unfold health_fields.
    assert (Hbump : forall v, fleet_bounded settings w v -> fleet_bounded settings w (bump v)) by (intros v; exact id).
    wp_go. destruct ok; [|wp_go; split; [by apply Hbump|]; apply Forall_app; split; [done|];
      repeat constructor; revive].
    destruct (_ && _ && _); wp_go; (split; [by repeat apply Hbump|]); apply Forall_app; (split; [done|]);
      repeat constructor; revive.
  - intros [n ws] w' [HB HW]. apply wp_bind. eapply wp_evolves; [by apply commit_bounded| |].
    all: intros a w2 HB2; try wp_go; by etrans.
  - done.
Qed.
#[local] Hint Resolve apply_health_checks_bounded : evolve.

Lemma refresh_worker_health_bounded : bounded (refresh_worker_health settings).
Proof. unfold refresh_worker_health, list_health_check_candidates. fleet. Qed.

Lemma bounded_start w w0 : same_data w0 w -> fleet_bounded settings w0 w.
Proof. apply benign. Qed.

(** Every path of [_scale_up] that creates a worker has counted the fleet. *)
Lemma scale_up_bounded : bounded (scale_up settings).
Proof.
  apply evolves_wp. intros w. unfold scale_up. apply wp_bind.
  unfold find_stopped_worker. eapply (wp_evolves same_data); [apply evolves_get_one_where; apply _| |];
    [|intros e w1 E; by apply bounded_start].
  intros [stopped|] w1 E1.
  { eapply (wp_evolves (fleet_bounded settings)); [fleet| |]; intros a w2 HB; etrans; try exact HB;
      by apply bounded_start. }
  apply wp_bind. unfold count_workers, count_stalled_workers, count_serviceable_workers.
  apply wp_count_where; [|intros e w2 E2; apply bounded_start; by etrans].
  intros w2 E2. change (count_rows _ w1) with (fleet_size settings w1).
  assert (E12 : same_data w w2) by (by etrans).
  assert (Hf : forall v, same_data w v -> fleet_size settings v = fleet_size settings w)
    by (intros v (E & _); by apply fleet_same).
  rewrite (Hf w1 E1). destruct (Z.ltb_spec (fleet_size settings w) (max_workers (scaling settings))).
  { apply wp_bind. wp_inv (fleet_bounded settings w); [|exact HI].
    eapply (bounded_create settings _ (max_workers (scaling settings)));
      [lia|by apply bounded_start|rewrite Hf by done; lia|apply create_cloud_worker_adds]. }
  apply wp_bind. apply wp_count_where; [|intros e w3 E3; apply bounded_start; by etrans].
  intros w3 E3. assert (E13 : same_data w w3) by (by etrans). apply wp_bind.
  destruct (0 <? _); [|wp_go; by apply bounded_start].
  apply wp_bind. apply wp_count_where; [|intros e w4 E4; apply bounded_start; by etrans].
  intros w4 E4. assert (E14 : same_data w w4) by (by etrans).
  destruct (_ =? 0); [|wp_go; by apply bounded_start].
  apply wp_bind. apply wp_count_where; [|intros e w5 E5; apply bounded_start; by etrans].
  intros w5 E5. assert (E15 : same_data w w5) by (by etrans).
  change (count_rows _ w4) with (fleet_size settings w4). rewrite (Hf w4 E14). wp_go.
  destruct (Z.ltb_spec (fleet_size settings w) (max_workers (scaling settings) + 1));
    [|wp_go; by apply bounded_start].
  apply wp_bind. wp_inv (fleet_bounded settings w); [|exact HI].
  eapply (bounded_create settings _ (max_workers (scaling settings) + 1));
    [lia|by apply bounded_start|rewrite Hf by done; lia|apply create_cloud_worker_adds].
Qed.
#[local] Hint Resolve scale_up_bounded : evolve.

Lemma apply_autoscaling_bounded has_provider : bounded (apply_autoscaling settings has_provider).
Proof.
  unfold apply_autoscaling, current_scaling_signal, set_last_scale_up, find_idle_worker. fleet.
  all: by apply modify_bounded.
Qed.

Lemma start_new_rotations_bounded has_provider : bounded (start_new_rotations settings has_provider).
Proof.
  apply evolves_wp. intros w. unfold start_new_rotations. destruct (negb has_provider); [by apply bounded_start|].
  apply wp_bind. unfold count_active_replacements, count_workers.
  apply wp_count_where; [|intros e w2 E2; by apply bounded_start].
  intros w1 E1. destruct (0 <? _); [by apply bounded_start|].
  apply wp_bind. apply wp_count_where; [|intros e w2 E2; apply bounded_start; by etrans].
  intros w2 E2. change (count_rows _ w1) with (fleet_size settings w1).
  destruct (Z.leb_spec (max_workers (scaling settings) + 1) (fleet_size settings w1));
    [apply bounded_start; by etrans|].
  apply wp_bind. eapply (wp_evolves same_data).
  { unfold rotation_target, find_emergency_rotation_target, find_scheduled_rotation_target. evolve. }
  2: intros e w3 E3; apply bounded_start; by do 2 (etrans; [done|]).
  intros [target|] w3 E3; [|apply bounded_start; by do 2 (etrans; [done|])].
  assert (E03 : same_data w w3) by (by do 2 (etrans; [done|])).
  apply wp_bind. wp_inv (fleet_bounded settings w); [|exact HI].
  eapply (bounded_create settings _ (max_workers (scaling settings) + 1));
    [lia|by apply bounded_start| |apply start_rotation_replacement_adds].
  rewrite (fleet_same settings w1 w3); [lia|]. assert (same_data w1 w3) as (E & _) by (by etrans). done.
Qed.
#[local] Hint Resolve start_new_rotations_bounded : evolve.

Lemma advance_drains_and_rotations_bounded has_provider :
  bounded (advance_drains_and_rotations settings has_provider).
Proof.
  unfold advance_drains_and_rotations, progress_rotations, progress_rotation, advance_drains,
    advance_drain, finalize_terminations, find_replacement_workers, find_draining_workers,
    find_workers_pending_termination_finalize, has_active_replacement_for, get_ready_replacement_for,
    set_next_rotation_check_at, finalize_terminated_worker.
  fleet.
  all: try by apply modify_bounded.
  all: apply commit_bounded; apply Forall_app; split.
  all: try (apply Forall_fmap, Forall_forall; intros r _; cbn; revive).
  all: first [by apply Forall_nil | apply Forall_singleton; cbn; revive].
Qed.

Lemma cleanup_if_due_bounded : bounded (cleanup_if_due settings).
Proof.
  unfold cleanup_if_due, cleanup_expired_tasks, cleanup_task, list_retention_expired_tasks,
    delete_object_keys, delete_task, sweep_expired, sweep_one, set_next_cleanup_at, set_next_cache_sweep_at.
  fleet.
  all: try by apply modify_bounded.
  all: apply rows_bounded, evolves_db_rows, safe_delete_db.
Qed.

Lemma slow_tick_bounded has_provider : bounded (slow_tick settings has_provider).
Proof.
  unfold slow_tick. evolve.
  - apply reconcile_workers_bounded.
  - apply converge_stalled_bounded.
  - apply refresh_worker_health_bounded.
  - apply apply_autoscaling_bounded.
  - apply advance_drains_and_rotations_bounded.
  - apply cleanup_if_due_bounded.
Qed.

(** ** The admin routes' writes *)

Lemma set_drain_intent_bounded id t reason q : bounded (set_drain_intent settings id t reason q).
Proof. unfold set_drain_intent, admin_intent, scaling_event. fleet. Qed.
Lemma set_rotation_requested_bounded id reason q : bounded (set_rotation_requested settings id reason q).
Proof. unfold set_rotation_requested, admin_intent, scaling_event. fleet. Qed.
Lemma recover_worker_bounded id reason q : bounded (recover_worker settings id reason q).
Proof.
  unfold recover_worker, admin_intent, scaling_event. evolve.
  apply commit_bounded. repeat constructor. destruct (w_stalled_at _); revive.
Qed.
End slow.
