(* ===== verification/Retention.v ===== *)
(** * Retention: what the cleanup of expired tasks may delete

    A task row is deleted only when it is terminal and past the retention
    cutoff, and only after its payload and its result are gone from the
    bucket. *)
From S2P Require Import Prelude Models CloudTypes Config World Database Logic Hoare Storage Status TaskRows Lifecycle.
From S2P Require Import Upstream WorkerRepository CacheService Results TaskRepository Lock Provider Health.
From S2P Require Import Reconcile Scheduler.

(** Nothing is left under the key. *)
Definition gone (key : option string) (w : World) : Prop :=
  match key with Some k => k = "" \/ objects w !! k = None | None => True end.

Lemma gone_mono key w w' :
  (forall k, objects w !! k = None -> objects w' !! k = None) -> gone key w -> gone key w'.
Proof. destruct key; cbn; [|done]. intros HO [|]; [by left|right; auto]. Qed.

(** What deletes keep: objects do not come back, rows that stay are unchanged,
    and rows that go satisfy [ok] and have no objects. *)
Record cleaned (ok : Task -> Prop) (w w' : World) : Prop := {
  cl_objects : forall key, objects w !! key = None -> objects w' !! key = None;
  cl_kept : forall k r', tasks w' !! k = Some r' -> tasks w !! k = Some r';
  cl_gone : forall k r, tasks w !! k = Some r -> tasks w' !! k = None ->
    ok r /\ gone (t_payload_key r) w' /\ gone (t_result_key r) w'
}.

#[export] Instance cleaned_benign ok : Benign (cleaned ok).
Proof.
  split; [split|].
  - intros w. split; [done..|]. intros k r E1 E2. congruence.
  - intros a b c [O1 K1 G1] [O2 K2 G2]. split; [by auto..|]. intros k r Ha Hc.
    destruct (tasks b !! k) as [r'|] eqn:Hb.
    + assert (r' = r) as -> by (apply K1 in Hb; congruence). by apply (G2 k).
    + destruct (G1 k r Ha Hb) as (Hok & Hp & Hr). split; [done|]. eauto using gone_mono.
  - intros w w' (_ & Et & _ & _ & Eo & _). rewrite ?Et, ?Eo.
    split; rewrite ?Et, ?Eo; [done..|]. intros k r E1 E2. congruence.
Qed.

Section cleanup.
Context (settings : GatewaySettings).
Context `{Env} `{!ObjectStore}.

Lemma safe_delete_wp key w :
  wp (safe_delete key)
    (fun b w' => tasks w' = tasks w /\ (forall k, objects w !! k = None -> objects w' !! k = None) /\
                 (b = true -> gone key w'))
    (fun _ _ => False) w.
Proof.
  destruct (safe_delete_db key w) as [Hd (_ & Et & _)]. pose proof (safe_delete_spec key w) as Hs.
  unfold wp. destruct (safe_delete key w) as [[[]|e|] w']; cbn in *; try done.
  - split; [done|]. destruct key as [k|]; cbn.
    + destruct (decide (k = "")) as [->|Hne]; [rewrite bool_decide_true in Hs by done|
        rewrite bool_decide_false in Hs by done]; rewrite Hs.
      * split; [done|auto].
      * split; [|intros _; right; apply lookup_delete_eq]. intros k' Hk'.
        destruct (decide (k' = k)) as [->|]; [apply lookup_delete_eq|by rewrite lookup_delete_ne].
    + rewrite Hs. done.
  - split; [done|]. destruct Hs as [->|(k & -> & ->)]; [done|]. split; [|done].
    intros k' Hk'. destruct (decide (k' = k)) as [->|]; [apply lookup_delete_eq|by rewrite lookup_delete_ne].
Qed.

Lemma delete_object_keys_wp keys w :
  wp (delete_object_keys keys)
    (fun b w' => tasks w' = tasks w /\ (forall k, objects w !! k = None -> objects w' !! k = None) /\
                 (b = true -> Forall (fun key => gone key w') keys))
    (fun _ _ => False) w.
Proof.
  revert w; induction keys as [|key keys IH]; intros w; cbn [delete_object_keys].
  { wp_go. repeat split; [done|]. by constructor. }
  apply wp_bind. eapply wp_mono; [apply safe_delete_wp| |done].
  intros [] w1 (E1 & O1 & G1); [|wp_go; by repeat split].
  eapply wp_mono; [apply IH| |done]. intros b w2 (E2 & O2 & G2).
  split; [congruence|]. split; [by auto|]. intros Hb. constructor; [|by apply G2].
  specialize (G1 eq_refl). eauto using gone_mono.
Qed.

Lemma cleanup_task_ok (ok : Task -> Prop) w0 task w : ok task ->
  tasks w0 !! t_task_id task = Some task -> cleaned ok w0 w ->
  wp (cleanup_task task) (fun _ => cleaned ok w0) (fun _ => cleaned ok w0) w.
Proof.
  intros Hok Hrow HC. unfold cleanup_task. apply wp_bind.
  eapply wp_mono; [apply delete_object_keys_wp| |done].
  intros b w1 (E1 & O1 & G1).
  assert (Hstep : forall w2, (forall k, objects w1 !! k = None -> objects w2 !! k = None) ->
    (tasks w2 = tasks w1 \/ b = true /\ tasks w2 = delete (t_task_id task) (tasks w1)) -> cleaned ok w0 w2).
  { intros w2 O2 Et. etrans; [exact HC|]. split; [by auto| |].
    - intros k r'. destruct Et as [->|[_ ->]]; [by rewrite E1|].
      intros [_ Hk]%lookup_delete_Some. by rewrite E1 in Hk.
    - intros k r Hk Hk2. destruct Et as [Et|[Hb Et]]; rewrite Et, E1 in Hk2; [congruence|].
      apply lookup_delete_None in Hk2 as [<-|Hn]; [|congruence].
      assert (r = task) as -> by (apply (cl_kept _ _ _ HC) in Hk; congruence).
      specialize (G1 Hb). apply Forall_cons in G1 as [Gp Gr]; apply Forall_cons in Gr as [Gr _].
      split; [done|]. split; eauto using gone_mono. }
  destruct b; [|wp_go; apply Hstep; auto].
  apply wp_bind. unfold delete_task. wp_go; [|apply Hstep; auto].
  destruct (tasks w1 !! t_task_id task); [|wp_go; apply Hstep; auto].
  apply wp_bind, wp_commit.
  - intros w2 (w3 & (Hdel & _) & _ & Et & _) Eo. wp_go. apply Hstep; [by rewrite Eo|].
    right. split; [done|]. by rewrite Et, Hdel.
  - intros e w2 (_ & Et & _) Eo. apply Hstep; [by rewrite Eo|by left].
Qed.

(** Terminal, and completed before the cutoff. *)
Definition expired_before (cutoff : time) (r : Task) : Prop :=
  terminal r /\ exists t, t_completed_at r = Some t /\ t < cutoff.

Lemma cleanup_expired_tasks_ok w : tasks_ok w ->
  wp (cleanup_expired_tasks settings)
    (fun _ => cleaned (expired_before (env_clock (step w) - days (retention_days (retention settings)))) w)
    (fun _ => cleaned (expired_before (env_clock (step w) - days (retention_days (retention settings)))) w) w.
Proof.
  intros HI. unfold cleanup_expired_tasks. apply wp_bind. change (wp now_utc ?Q ?X w) with (Q (env_clock (step w)) (bump w)).
  cbv beta. set (cutoff := env_clock (step w) - _). set (ok := expired_before cutoff).
  apply wp_bind. unfold list_retention_expired_tasks. wp_go; [|by apply benign].
  apply wp_select. intros rows Hrows _. wp_go.
  apply (select_rows _ rows w (tasks_ok_keyed w HI)) in Hrows as [_ Hin].
  apply wp_for_each_inv; [|by apply benign]. intros task w' Hx HC.
  apply elem_of_take in Hx as (i & Hi & _). apply list_elem_of_lookup_2, Hin in Hi as [Hc Hr].
  apply cleanup_task_ok; [|exact Hr|exact HC]. bool_hyps.
  split; [done|]. unfold sql_lt in *. destruct (t_completed_at task) as [t|]; [|done].
  exists t. split; [done|]. by apply Z.ltb_lt.
Qed.
End cleanup.
