(* ===== verification/System.v ===== *)
(** * System: the processes together

    A gateway process and a scheduler process share the database and the bucket.
    Each step of the system is one operation of one of them: a turn of one of the
    scheduler's loops, or a request to the gateway; a request that waits for a
    result ([file_parse], [create_ocr]) is a submission and then reads, between
    which the others run.  A process may also be restarted, and time may pass. *)
From S2P Require Import Prelude Models CloudTypes Config Scaling World Database Logic Hoare Json Payload Storage.
From S2P Require Import Status Lifecycle TaskRows Upstream WorkerRepository CacheService Results TaskRepository.
From S2P Require Import Lock Provider Health S3 Startup Reconcile Scheduler Ingest TaskApi AdminApi.

(** ** The scheduler process *)

Section process.
Context (settings : GatewaySettings).
Context `{Env} `{!ObjectStore} `{!Http} `{!MinerU} `{!ComputeProvider} `{!LockServer}.
Context `{!MinerURelease} `{!S3Client} `{!SsmClient}.

(** [Scheduler.__init__] on the process's memory. *)
Definition new_scheduler : M unit :=
  modify (fun w => with_memory (mkMemory None None None None (lock (memory w))) w).

(** [_run_scheduler] of [scheduler/main.py]. *)
Definition run_scheduler (fuel : nat) (schedule : list Loop) (client_aclose shutdown_engine : M unit) : M unit :=
  provider ← scheduler_startup settings ;
  finally_
    (scheduler_lock fuel (database_url settings) (Some (database_url settings)) (seconds 5) (
       new_scheduler ;;
       _ ← run settings (not_none provider) schedule ;
       mret tt))
    (client_aclose ;; shutdown_engine).
End process.

(** ** The steps *)

Section system.
Context (settings : GatewaySettings) (has_provider : bool).
Context `{Env} `{!ObjectStore} `{!Http} `{!MinerU} `{!ComputeProvider} `{!LockServer}.
Context `{!MinerUIntake} `{!Sha256}.

(** [Intake] is the part of a document request after the document is fetched. *)
Inductive Action :=
| LoopTurn (l : Loop)
| SubmitTask (request : Request)
| Intake (payload : MultipartPayload) (source : string) (skip_cache exposed allow_http_client : bool)
| TaskStatus (task_id : string)
| TaskResult (task_id : string)
| ListWorkers
| GetWorker (worker_id : string)
| DrainWorker (worker_id : string) (terminate : bool) (reason : string) (requester : option string)
| RotateWorker (worker_id reason : string) (requester : option string)
| RecoverWorker (worker_id reason : string) (requester : option string)
| InvalidateCache (cache_key : string)
| SweepCache.

Definition run_only {A} (m : M A) : M unit := _ ← m ; mret tt.

Definition perform (a : Action) : M unit :=
  match a with
  | LoopTurn l => run_only (turn settings has_provider l)
  | SubmitTask request => run_only (submit_task settings request true)
  | Intake payload source skip exposed allow =>
      run_only (ingest_payload settings payload true source skip exposed allow)
  | TaskStatus id => run_only (get_task_status id)
  | TaskResult id => run_only (get_task_result id true)
  | ListWorkers => run_only (admin_list_workers settings)
  | GetWorker id => run_only (admin_get_worker settings id)
  | DrainWorker id terminate reason requester => run_only (drain_worker settings id terminate reason requester)
  | RotateWorker id reason requester => run_only (rotate_worker settings id reason requester)
  | RecoverWorker id reason requester => run_only (admin_recover_worker settings id reason requester)
  | InvalidateCache key => run_only (invalidate_cache key true)
  | SweepCache => run_only (sweep_cache true)
  end.

Inductive system_step : relation World :=
| step_action a o w w' : perform a w = (o, w') -> system_step w w'
| step_restart m w : system_step w (with_memory m w)
| step_wait w w' : same_data w w' -> system_step w w'.

(** The worlds the system can come to. *)
Definition reachable : relation World := rtc system_step.
End system.
