(* ===== verification/Schema.v ===== *)
(** * Schema: the database schema and how it comes about

    [db/models.py] declares the tables that the program works on, the migration
    [alembic/versions/0001_initial.py] creates them in production, and
    [db/bootstrap.py] on an empty SQLite database.  A schema is what the catalogue
    of the database holds: tables with their columns and foreign keys, and named
    indexes.  A statement fails as in SQL when a name is taken or missing, or when a
    table that another one references would go. *)
From S2P Require Import Prelude Models World Json Payload Status.

(** ** Columns *)

Inductive SqlType :=
| VarChar (n : Z) | Text | Integer | BigInteger | Boolean | DateTimeTz | JSON.
#[export] Instance SqlType_eq_dec : EqDecision SqlType.
Proof. solve_decision. Defined.

(** The value of a column that an INSERT leaves out: SQL text, or what Python
    computes. *)
Inductive Default := DText (s : string) | DInt (n : Z) | DFalse | DNow | DEmptyList.

Record Column := mkColumn {
  col_name : string;
  col_type : SqlType;
  col_nullable : bool;
  col_primary : bool;
  col_unique : bool;
  col_default : option Default
}.

Definition required_col (name : string) (t : SqlType) : Column := mkColumn name t false false false None.
Definition null_col (name : string) (t : SqlType) : Column := mkColumn name t true false false None.
Definition primary_col (name : string) (t : SqlType) : Column := mkColumn name t false true false None.
Definition unique (c : Column) : Column :=
  mkColumn (col_name c) (col_type c) (col_nullable c) (col_primary c) true (col_default c).
Definition with_default (d : Default) (c : Column) : Column :=
  mkColumn (col_name c) (col_type c) (col_nullable c) (col_primary c) (col_unique c) (Some d).

(** The column, the table it references, and the column there. *)
Record ForeignKey := mkForeignKey { fk_column : string; fk_table : string; fk_target : string }.
Record TableDef := mkTableDef { td_columns : list Column; td_foreign_keys : list ForeignKey }.
Record IndexDef := mkIndexDef { ix_table : string; ix_columns : list string }.
#[export] Instance ForeignKey_eq_dec : EqDecision ForeignKey.
Proof. solve_decision. Defined.
#[export] Instance IndexDef_eq_dec : EqDecision IndexDef.
Proof. solve_decision. Defined.

(** ** Statements *)

Record Schema := mkSchema { sch_tables : gmap string TableDef; sch_indexes : gmap string IndexDef }.
Definition empty_schema : Schema := mkSchema ∅ ∅.

Inductive ddl :=
| CreateTable (name : string) (t : TableDef)
| CreateIndex (name : string) (ix : IndexDef)
| DropTable (name : string)
| DropIndex (name : string).

Definition ddl_error {A} (msg name : string) : outcome A := Raise (DatabaseError (msg +:+ name)).

Definition has_column (t : TableDef) (name : string) : bool :=
  existsb (fun c => col_name c ==? name) (td_columns t).

(** A foreign key goes from a column of the table to a primary key. *)
Definition valid_foreign_key (tables : gmap string TableDef) (t : TableDef) (fk : ForeignKey) : bool :=
  has_column t (fk_column fk) &&
  match tables !! fk_table fk with
  | Some target => existsb (fun c => (col_name c ==? fk_target fk) && col_primary c) (td_columns target)
  | None => false
  end.

(** Another table has a foreign key to [name]. *)
Definition referenced (tables : gmap string TableDef) (name : string) : bool :=
  existsb (fun kt => (kt.1 !=? name) && existsb (fun fk => fk_table fk ==? name) (td_foreign_keys kt.2))
    (map_to_list tables).

Definition apply_ddl (d : ddl) (s : Schema) : outcome Schema :=
  match d with
  | CreateTable name t =>
      if not_none (sch_tables s !! name) then ddl_error "table exists: " name
      else
        let tables := <[name := t]> (sch_tables s) in
        if negb (forallb (valid_foreign_key tables t) (td_foreign_keys t)) then ddl_error "bad foreign key: " name
        else Ok (mkSchema tables (sch_indexes s))
  | CreateIndex name ix =>
      if not_none (sch_indexes s !! name) then ddl_error "index exists: " name
      else
        match sch_tables s !! ix_table ix with
        | None => ddl_error "no such table: " (ix_table ix)
        | Some t =>
            if forallb (has_column t) (ix_columns ix)
            then Ok (mkSchema (sch_tables s) (<[name := ix]> (sch_indexes s)))
            else ddl_error "no such column: " name
        end
  | DropTable name =>
      if is_none (sch_tables s !! name) then ddl_error "no such table: " name
      else if referenced (sch_tables s) name then ddl_error "other objects depend on it: " name
      else Ok (mkSchema (delete name (sch_tables s)) (filter (fun kx => ix_table kx.2 <> name) (sch_indexes s)))
  | DropIndex name =>
      if is_none (sch_indexes s !! name) then ddl_error "no such index: " name
      else Ok (mkSchema (sch_tables s) (delete name (sch_indexes s)))
  end.

Fixpoint run_ddl (ds : list ddl) (s : Schema) : outcome Schema :=
  match ds with
  | [] => Ok s
  | d :: ds => s ← apply_ddl d s ; run_ddl ds s
  end.

(** ** The migration *)

Definition workers_columns : list Column := [
  primary_col "id" (VarChar 128);
  required_col "provider" (VarChar 32);
  required_col "deployment_id" (VarChar 128);
  unique (null_col "instance_id" (VarChar 256));
  null_col "base_url" (VarChar 512);
  with_default (DText "0") (required_col "generation" Integer);
  with_default (DText "stopped") (required_col "desired_state" (VarChar 32));
  with_default (DText "unknown") (required_col "cloud_state" (VarChar 32));
  with_default DFalse (required_col "healthy" Boolean);
  with_default DFalse (required_col "draining" Boolean);
  null_col "drain_target" (VarChar 16);
  null_col "replacement_for" (VarChar 128);
  with_default DFalse (required_col "rotation_requested" Boolean);
  with_default (DText "0") (required_col "failure_count" Integer);
  null_col "retry_after" DateTimeTz;
  null_col "stalled_at" DateTimeTz;
  null_col "last_error" Text;
  null_col "provisioning_detail" Text;
  null_col "ready_at" DateTimeTz;
  null_col "start_requested_at" DateTimeTz;
  null_col "last_active_at" DateTimeTz;
  null_col "last_health_checked_at" DateTimeTz;
  null_col "terminated_at" DateTimeTz;
  with_default DNow (required_col "created_at" DateTimeTz);
  with_default DNow (required_col "updated_at" DateTimeTz) ].

Definition cache_entries_columns : list Column := [
  primary_col "cache_key" (VarChar 64);
  required_col "content_sha256" (VarChar 64);
  required_col "options_hash" (VarChar 64);
  required_col "backend" (VarChar 64);
  required_col "parse_method" (VarChar 16);
  required_col "effort" (VarChar 16);
  null_col "object_key" (VarChar 512);
  with_default (DText "0") (required_col "object_generation" Integer);
  null_col "result_format" (VarChar 16);
  null_col "size_bytes" BigInteger;
  with_default (DText "0") (required_col "hit_count" Integer);
  null_col "expires_at" DateTimeTz;
  with_default DNow (required_col "created_at" DateTimeTz) ].

Definition tasks_columns : list Column := [
  primary_col "task_id" (VarChar 64);
  null_col "worker_id" (VarChar 128);
  null_col "upstream_task_id" (VarChar 64);
  null_col "upstream_base_url" (VarChar 512);
  with_default (DText "hybrid-engine") (required_col "backend" (VarChar 64));
  with_default (DText "auto") (required_col "parse_method" (VarChar 16));
  required_col "file_names" JSON;
  with_default (DText "tasks") (required_col "source" (VarChar 16));
  with_default (DText "queued") (required_col "status" (VarChar 16));
  null_col "payload_key" (VarChar 512);
  null_col "result_key" (VarChar 512);
  null_col "result_format" (VarChar 16);
  null_col "cache_key" (VarChar 64);
  null_col "error" Text;
  null_col "options_blob" JSON;
  null_col "dispatch_started_at" DateTimeTz;
  null_col "next_poll_at" DateTimeTz;
  null_col "client_expired_at" DateTimeTz;
  with_default DNow (required_col "created_at" DateTimeTz);
  null_col "started_at" DateTimeTz;
  null_col "completed_at" DateTimeTz;
  with_default DNow (required_col "updated_at" DateTimeTz) ].

Definition scaling_events_columns : list Column := [
  primary_col "id" Integer;
  null_col "worker_id" (VarChar 128);
  required_col "action" (VarChar 16);
  required_col "reason" (VarChar 256);
  with_default (DText "autoscaler") (required_col "triggered_by" (VarChar 16));
  null_col "requester" (VarChar 128);
  with_default DNow (required_col "created_at" DateTimeTz) ].

Definition upgrade : list ddl :=
  [ CreateTable "workers" (mkTableDef workers_columns [mkForeignKey "replacement_for" "workers" "id"]);
    CreateIndex "ix_workers_deployment_id" (mkIndexDef "workers" ["deployment_id"]);
    CreateIndex "ix_workers_desired_state" (mkIndexDef "workers" ["desired_state"]);
    CreateTable "cache_entries" (mkTableDef cache_entries_columns []);
    CreateIndex "ix_cache_entries_content_sha256" (mkIndexDef "cache_entries" ["content_sha256"]);
    CreateIndex "ix_cache_entries_expires_at" (mkIndexDef "cache_entries" ["expires_at"]);
    CreateTable "tasks" (mkTableDef tasks_columns [mkForeignKey "worker_id" "workers" "id"]);
    CreateIndex "ix_tasks_status" (mkIndexDef "tasks" ["status"]);
    CreateIndex "ix_tasks_worker_id" (mkIndexDef "tasks" ["worker_id"]);
    CreateIndex "ix_tasks_status_created" (mkIndexDef "tasks" ["status"; "created_at"]);
    CreateTable "scaling_events" (mkTableDef scaling_events_columns [mkForeignKey "worker_id" "workers" "id"]);
    CreateIndex "ix_scaling_events_worker_id" (mkIndexDef "scaling_events" ["worker_id"]);
    CreateIndex "ix_scaling_events_created_at" (mkIndexDef "scaling_events" ["created_at"]) ].

Definition downgrade : list ddl :=
  [ DropTable "scaling_events";
    DropIndex "ix_tasks_status_created";
    DropTable "tasks";
    DropTable "cache_entries";
    DropIndex "ix_workers_desired_state";
    DropIndex "ix_workers_deployment_id";
    DropTable "workers" ].

(** ** The models *)

Definition Worker_columns : list Column := [
  primary_col "id" (VarChar 128);
  required_col "provider" (VarChar 32);
  required_col "deployment_id" (VarChar 128);
  unique (null_col "instance_id" (VarChar 256));
  null_col "base_url" (VarChar 512);
  with_default (DInt 0) (required_col "generation" Integer);
  with_default (DText "stopped") (required_col "desired_state" (VarChar 32));
  with_default (DText "unknown") (required_col "cloud_state" (VarChar 32));
  with_default DFalse (required_col "healthy" Boolean);
  with_default DFalse (required_col "draining" Boolean);
  null_col "drain_target" (VarChar 16);
  null_col "replacement_for" (VarChar 128);
  with_default DFalse (required_col "rotation_requested" Boolean);
  with_default (DInt 0) (required_col "failure_count" Integer);
  null_col "retry_after" DateTimeTz;
  null_col "stalled_at" DateTimeTz;
  null_col "last_error" Text;
  null_col "provisioning_detail" Text;
  null_col "ready_at" DateTimeTz;
  null_col "start_requested_at" DateTimeTz;
  null_col "last_active_at" DateTimeTz;
  null_col "last_health_checked_at" DateTimeTz;
  null_col "terminated_at" DateTimeTz;
  with_default DNow (required_col "created_at" DateTimeTz);
  with_default DNow (required_col "updated_at" DateTimeTz) ].

Definition Task_columns : list Column := [
  primary_col "task_id" (VarChar 64);
  null_col "worker_id" (VarChar 128);
  null_col "upstream_task_id" (VarChar 64);
  null_col "upstream_base_url" (VarChar 512);
  with_default (DText "hybrid-engine") (required_col "backend" (VarChar 64));
  with_default (DText "auto") (required_col "parse_method" (VarChar 16));
  with_default DEmptyList (required_col "file_names" JSON);
  with_default (DText "tasks") (required_col "source" (VarChar 16));
  with_default (DText TASK_QUEUED) (required_col "status" (VarChar 16));
  null_col "payload_key" (VarChar 512);
  null_col "result_key" (VarChar 512);
  null_col "result_format" (VarChar 16);
  null_col "cache_key" (VarChar 64);
  null_col "error" Text;
  null_col "options_blob" JSON;
  null_col "dispatch_started_at" DateTimeTz;
  null_col "next_poll_at" DateTimeTz;
  null_col "client_expired_at" DateTimeTz;
  with_default DNow (required_col "created_at" DateTimeTz);
  null_col "started_at" DateTimeTz;
  null_col "completed_at" DateTimeTz;
  with_default DNow (required_col "updated_at" DateTimeTz) ].

Definition CacheEntry_columns : list Column := [
  primary_col "cache_key" (VarChar 64);
  required_col "content_sha256" (VarChar 64);
  required_col "options_hash" (VarChar 64);
  required_col "backend" (VarChar 64);
  required_col "parse_method" (VarChar 16);
  required_col "effort" (VarChar 16);
  null_col "object_key" (VarChar 512);
  with_default (DInt 0) (required_col "object_generation" Integer);
  null_col "result_format" (VarChar 16);
  null_col "size_bytes" BigInteger;
  with_default (DInt 0) (required_col "hit_count" Integer);
  null_col "expires_at" DateTimeTz;
  with_default DNow (required_col "created_at" DateTimeTz) ].

Definition ScalingEvent_columns : list Column := [
  primary_col "id" Integer;
  null_col "worker_id" (VarChar 128);
  required_col "action" (VarChar 16);
  required_col "reason" (VarChar 256);
  with_default (DText "autoscaler") (required_col "triggered_by" (VarChar 16));
  null_col "requester" (VarChar 128);
  with_default DNow (required_col "created_at" DateTimeTz) ].

(** A mapped class: its table, and its indexes by name; [index=True] on a column
    [c] of the table [t] is the index [ix_t_c]. *)
Record MappedTable := mkMapped { mt_name : string; mt_table : TableDef; mt_indexes : list (string * IndexDef) }.

Definition column_index (t c : string) : string * IndexDef :=
  ("ix_" +:+ t +:+ "_" +:+ c, mkIndexDef t [c]).

Definition Worker_mapped : MappedTable :=
  mkMapped "workers" (mkTableDef Worker_columns [mkForeignKey "replacement_for" "workers" "id"])
    [column_index "workers" "deployment_id"].
Definition Task_mapped : MappedTable :=
  mkMapped "tasks" (mkTableDef Task_columns [mkForeignKey "worker_id" "workers" "id"])
    [ column_index "tasks" "worker_id"; column_index "tasks" "status";
      ("ix_tasks_status_created", mkIndexDef "tasks" ["status"; "created_at"]) ].
Definition CacheEntry_mapped : MappedTable :=
  mkMapped "cache_entries" (mkTableDef CacheEntry_columns [])
    [column_index "cache_entries" "content_sha256"; column_index "cache_entries" "expires_at"].
Definition ScalingEvent_mapped : MappedTable :=
  mkMapped "scaling_events" (mkTableDef ScalingEvent_columns [mkForeignKey "worker_id" "workers" "id"]) [].

(** [Base.metadata], referenced tables first. *)
Definition metadata : list MappedTable := [CacheEntry_mapped; Worker_mapped; ScalingEvent_mapped; Task_mapped].

(** ** SQLite *)

(** What SQLAlchemy documents of [create_all]: it issues CREATE for the tables that are not
    there, with their indexes. *)
Definition create_table_of (m : MappedTable) : list ddl :=
  CreateTable (mt_name m) (mt_table m) :: map (fun ix => CreateIndex ix.1 ix.2) (mt_indexes m).
Fixpoint create_missing (ms : list MappedTable) (s : Schema) : outcome Schema :=
  match ms with
  | [] => Ok s
  | m :: ms =>
      s ← (if not_none (sch_tables s !! mt_name m) then Ok s else run_ddl (create_table_of m) s) ;
      create_missing ms s
  end.

Class SqlalchemyMetadata := {
  create_all : list MappedTable -> Schema -> outcome Schema;
  create_all_missing ms s : create_all ms s = create_missing ms s
}.

Definition ensure_sqlite_schema `{SqlalchemyMetadata} (url : string) (s : Schema) : outcome Schema :=
  if negb (String.prefix "sqlite" url) then Ok s
  else if not_none (sch_tables s !! "workers") then Ok s
  else create_all metadata s.
