(* ===== verification/Boot.v ===== *)
(** * Boot: from the command line to a process with its settings

    [config.py] (the loading), [cli.py], [logging_config.py], [db/base.py], the
    [main] of [gateway/main.py] and of [scheduler/main.py], and
    [alembic/env.py].  The globals of these modules are a record that the
    operations thread.  pydantic's merging and its parsing of fields, the
    environment, the files, YAML and SQLAlchemy's engine are classes. *)
From S2P Require Import Prelude Models Config World Json Payload Health Startup.

(** ** What the process finds around it *)

Abbreviation dict := (gmap string json).

(** [dict(items)]: the last binding of a key wins. *)
Definition dict_of (items : list (string * json)) : dict := list_to_map (rev items).

(** [read_file] is [None] for a path that does not exist; [environ] is
    [os.environ.get], [x_argument] the [-x] options of Alembic. *)
Class Surroundings := {
  read_file : string -> option (outcome string);
  yaml_safe_load : string -> outcome json;
  environ : string -> option string;
  x_argument : string -> option string
}.

(** pydantic-settings: the fields found in the environment, one source laid over
    another, and a dictionary to a model with every field of its type, before
    the model validators. *)
Class Pydantic := {
  env_settings : dict;
  deep_update : dict -> dict -> dict;
  parse_fields : dict -> outcome GatewaySettings
}.

(** SQLAlchemy: a URL that an engine can be made for, and [str(engine.url)]. *)
Class Sqlalchemy := {
  url_error : string -> option exn;
  url_str : string -> string
}.

(** ** The globals *)

Record Engine := mkEngine {
  eng_id : nat;
  eng_url : string;
  eng_echo : bool;
  eng_check_same_thread : option bool
}.

(** [_cached_settings] and [_yaml_config_path]; [_engine] and
    [_session_factory], the engine it makes sessions on; the engines made and
    those disposed of; the levels of the root logger and of the named ones. *)
Record Globals := mkGlobals {
  cached_settings : option GatewaySettings;
  yaml_config_path : option string;
  engine : option Engine;
  session_factory : option Engine;
  engines_made : nat;
  engines_disposed : list nat;
  root_level : option Z;
  logger_levels : gmap string Z
}.

Definition fresh_globals : Globals := mkGlobals None None None None 0 [] None ∅.

Definition with_settings (s : option GatewaySettings) (g : Globals) : Globals :=
  mkGlobals s (yaml_config_path g) (engine g) (session_factory g) (engines_made g) (engines_disposed g)
    (root_level g) (logger_levels g).
Definition with_yaml_path (p : string) (g : Globals) : Globals :=
  mkGlobals (cached_settings g) (Some p) (engine g) (session_factory g) (engines_made g) (engines_disposed g)
    (root_level g) (logger_levels g).
Definition with_engine (e f : option Engine) (made : nat) (disposed : list nat) (g : Globals) : Globals :=
  mkGlobals (cached_settings g) (yaml_config_path g) e f made disposed (root_level g) (logger_levels g).
Definition with_levels (root : Z) (named : gmap string Z) (g : Globals) : Globals :=
  mkGlobals (cached_settings g) (yaml_config_path g) (engine g) (session_factory g) (engines_made g)
    (engines_disposed g) (Some root) named.

Definition G (A : Type) : Type := Globals -> outcome A * Globals.
#[export] Instance G_ret : MRet G := fun A a g => (Ok a, g).
#[export] Instance G_bind : MBind G := fun A B f m g =>
  match m g with
  | (Ok a, g') => f a g'
  | (Raise e, g') => (Raise e, g')
  | (Diverged, g') => (Diverged, g')
  end.
Definition g_get {A} (f : Globals -> A) : G A := fun g => (Ok (f g), g).
Definition g_put (f : Globals -> Globals) : G unit := fun g => (Ok tt, f g).
Definition g_lift {A} (o : outcome A) : G A := fun g => (o, g).

Lemma g_bind_unfold {A B} (m : G A) (f : A -> G B) g :
  (m ≫= f) g = match m g with
               | (Ok a, g') => f a g'
               | (Raise e, g') => (Raise e, g')
               | (Diverged, g') => (Diverged, g')
               end.
Proof. reflexivity. Qed.

(** ** Settings *)

Definition DEFAULT_CONFIG_PATH := "config.yaml".

Inductive SettingsSource :=
| InitSettings (kwargs : dict)
| EnvSettings
| YamlSettings (data : dict).

Definition json_falsy (j : json) : bool :=
  match j with
  | JNull | JBool false | JArr [] | JObj [] => true
  | JInt z => z =? 0
  | JStr s => s ==? ""
  | _ => false
  end.

Section settings.
Context `{Surroundings} `{!Pydantic}.

(** [YamlSettingsSource._load]. *)
Definition yaml_load (path : string) : outcome dict :=
  match read_file path with
  | None => Ok ∅
  | Some content =>
      text ← content ;
      data ← yaml_safe_load text ;
      match (if json_falsy data then JObj [] else data) with
      | JObj items => Ok (dict_of items)
      | _ => Raise (ValueError (path +:+ ": top-level YAML must be a mapping"))
      end
  end.

(** Highest priority first. *)
Definition settings_customise_sources (yaml_path : option string) (kwargs : dict) : outcome (list SettingsSource) :=
  match yaml_path with
  | None => Ok [InitSettings kwargs; EnvSettings]
  | Some path => data ← yaml_load path ; Ok [InitSettings kwargs; EnvSettings; YamlSettings data]
  end.

Definition source_data (s : SettingsSource) : dict :=
  match s with
  | InitSettings kwargs => kwargs
  | EnvSettings => env_settings
  | YamlSettings data => data
  end.

(** [GatewaySettings(...)]: the sources from the first to the last, each below the
    state so far; then the fields and the model validators. *)
Definition build_settings (yaml_path : option string) (kwargs : dict) : outcome GatewaySettings :=
  sources ← settings_customise_sources yaml_path kwargs ;
  s ← parse_fields (fold_left (fun state source => deep_update (source_data source) state) sources ∅) ;
  if valid_settings s then Ok s else Raise (ValueError "validation error for GatewaySettings").

Definition load_settings (config_path : option string) (cli_overrides : dict) : G GatewaySettings :=
  let path := str_or config_path DEFAULT_CONFIG_PATH in
  g_put (with_yaml_path path) ;;
  s ← g_lift (build_settings (Some path) cli_overrides) ;
  g_put (with_settings (Some s)) ;;
  mret s.

Definition get_settings : G GatewaySettings :=
  cached ← g_get cached_settings ;
  match cached with
  | None => load_settings None ∅
  | Some s => mret s
  end.

Definition reset_settings_cache : G unit := g_put (with_settings None).
End settings.

(** ** Logging *)

Definition QUIET_LOGGERS : list string := ["httpx"; "httpcore"; "botocore"; "aiobotocore"].
Definition WARNING : Z := 30.

(** [s.upper()] on ASCII letters. *)
Definition upper_char (c : Ascii.ascii) : Ascii.ascii :=
  let n := Ascii.nat_of_ascii c in
  if (97 <=? n)%nat && (n <=? 122)%nat then Ascii.ascii_of_nat (n - 32) else c.
Fixpoint upper (s : string) : string :=
  match s with EmptyString => "" | String c s => String (upper_char c) (upper s) end.

(** [logging.getLevelName] of a name: [None] is the text ["Level ..."]. *)
Definition level_of_name (name : string) : option Z :=
  list_to_map (M:=gmap string Z)
    [ ("CRITICAL", 50); ("FATAL", 50); ("ERROR", 40); ("WARN", 30); ("WARNING", WARNING);
      ("INFO", 20); ("DEBUG", 10); ("NOTSET", 0) ] !! name.

Definition resolve_log_level (level : string + Z) : outcome Z :=
  match level with
  | inr n => Ok n
  | inl name =>
      match level_of_name (upper name) with
      | Some n => Ok n
      | None => Raise (ValueError ("Invalid log level: " +:+ repr_str name))
      end
  end.

Definition apply_quiet_loggers (level : Z) (levels : gmap string Z) : gmap string Z :=
  fold_left (fun m name => <[name := Z.max level WARNING]> m) QUIET_LOGGERS levels.

Definition configure_logging (level : string + Z) : G Z :=
  numeric ← g_lift (resolve_log_level level) ;
  levels ← g_get logger_levels ;
  g_put (with_levels numeric (apply_quiet_loggers numeric levels)) ;;
  mret numeric.

(** ** The database engine *)

Definition not_initialized (what : string) : exn :=
  RuntimeError ("DB " +:+ what +:+ " not initialized. Call init_engine() first.").

Section engine.
Context `{Surroundings} `{!Pydantic} `{!Sqlalchemy}.

(** [_build_engine]. *)
Definition build_engine (id : nat) (database_url : string) (echo : bool) : outcome Engine :=
  let check_same_thread := if startswith database_url "sqlite" then Some false else None in
  match url_error database_url with
  | Some e => Raise e
  | None => Ok (mkEngine id database_url echo check_same_thread)
  end.

(** The end of [init_engine]: the previous engine is left to the garbage
    collector. *)
Definition replace_engine (url : string) (echo : bool) : G Engine :=
  made ← g_get engines_made ;
  e ← g_lift (build_engine made url echo) ;
  disposed ← g_get engines_disposed ;
  g_put (with_engine (Some e) (Some e) (S made) disposed) ;;
  mret e.

Definition init_engine (database_url : option string) (echo : bool) : G Engine :=
  url ← (if truthy database_url then mret (str_or database_url "")
         else s ← get_settings ; mret (Config.database_url s)) ;
  current ← g_get engine ;
  match current with
  | Some e => if url_str (eng_url e) ==? url then mret e else replace_engine url echo
  | None => replace_engine url echo
  end.

Definition get_engine : G Engine :=
  current ← g_get engine ;
  match current with
  | None => g_lift (Raise (not_initialized "engine"))
  | Some e => mret e
  end.

Definition get_session_factory : G Engine :=
  factory ← g_get session_factory ;
  match factory with
  | None => g_lift (Raise (not_initialized "session factory"))
  | Some f => mret f
  end.

(** [get_db_session]: the engine of the new session. *)
Definition get_db_session : G Engine :=
  factory ← g_get session_factory ;
  match factory with
  | None => g_lift (Raise (not_initialized "session factory"))
  | Some f => mret f
  end.

Definition shutdown_engine : G unit :=
  current ← g_get engine ;
  made ← g_get engines_made ;
  disposed ← g_get engines_disposed ;
  g_put (with_engine None None made
    match current with Some e => eng_id e :: disposed | None => disposed end).
End engine.

(** ** Command lines *)

(** [uvicorn.run(create_app(settings), ...)]. *)
Record Serving := mkServing {
  sv_settings : GatewaySettings;
  sv_host : string;
  sv_port : Z;
  sv_reload : bool;
  sv_log_level : string
}.

Section cli.
Context `{Surroundings} `{!Pydantic} `{!MinerURelease}.

Definition set_when (b : bool) (k : string) (v : json) (d : dict) : dict := if b then <[k := v]> d else d.

(** [dict.update]. *)
Definition dict_update (d overrides : dict) : dict := overrides ∪ d.

Definition load_settings_from_cli (config_path : string) (database_url log_level : option string)
    (overrides : dict) : G (GatewaySettings * string) :=
  reset_settings_cache ;;
  let cli_overrides :=
    dict_update
      (set_when (truthy log_level) "log_level" (JStr (str_or log_level ""))
        (set_when (truthy database_url) "database_url" (JStr (str_or database_url "")) ∅))
      overrides in
  settings ← load_settings (Some config_path) cli_overrides ;
  let resolved_level := str_or log_level (Config.log_level settings) in
  _ ← configure_logging (inl resolved_level) ;
  mret (settings, resolved_level).

(** [main] of [gateway/main.py]. *)
Definition gateway_main (host : option string) (port : option Z) (config_path : string)
    (database_url : option string) (reload : bool) (log_level : option string) : G Serving :=
  let overrides :=
    set_when (not_none port) "port" (JInt (default 0 port))
      (set_when (not_none host) "host" (JStr (default "" host)) ∅) in
  '(settings, resolved_level) ← load_settings_from_cli config_path database_url log_level overrides ;
  let bind_host := default (Config.host settings) host in
  let bind_port := default (Config.port settings) port in
  _ ← g_lift (enforce_bind_guard settings (Some bind_host)) ;
  mret (mkServing settings bind_host bind_port reload (lower resolved_level)).

(** [main] of [scheduler/main.py], up to [_run_scheduler]. *)
Definition scheduler_main (config_path : string) (database_url log_level : option string) : G GatewaySettings :=
  '(settings, _) ← load_settings_from_cli config_path database_url log_level ∅ ;
  mret settings.
End cli.

(** ** Alembic *)

Inductive MigrationRun := Offline (url : string) | Online (url : string).

Section alembic.
Context `{Surroundings} `{!Pydantic}.

(** [_resolve_database_url]. *)
Definition resolve_database_url : G string :=
  let dburl := x_argument "dburl" in
  if truthy dburl then mret (str_or dburl "")
  else
    let env_dburl := if truthy (environ "DATABASE_URL") then environ "DATABASE_URL"
                     else environ "MINERU_GATEWAY_DATABASE_URL" in
    if truthy env_dburl then mret (str_or env_dburl "")
    else s ← get_settings ; mret (Config.database_url s).

Definition run_migrations_offline : G MigrationRun := url ← resolve_database_url ; mret (Offline url).
Definition run_migrations_online : G MigrationRun := url ← resolve_database_url ; mret (Online url).
Definition run_migrations (is_offline_mode : bool) : G MigrationRun :=
  if is_offline_mode then run_migrations_offline else run_migrations_online.
End alembic.
