(* ===== verification/App.v ===== *)
(** * App: the gateway's application

    [gateway/app.py], [attribution.py], [gateway/logging_middleware.py] and the
    place of [gateway/auth.py] in the stack: the middlewares in the order they are
    added, the table of routes, and the endpoint that each route calls.  What
    FastAPI does is the class [FastApi]: how middlewares nest, the replies to
    requests without a route or with a body that does not fit, and what it makes of exceptions.
    The elapsed time in the log lines is left out. *)
From S2P Require Import Prelude Models Config World Json Payload PyText Storage Status Ingest TaskApi AdminApi.
From S2P Require Import CacheService Normalize Ocr Startup Boot.

(** ** Requests, responses and log lines *)

Record HttpRequest := mkHttpRequest {
  h_method : string;
  h_path : string;
  h_x_api_key : option string;
  h_authorization : option string;
  h_client : option string;
  h_form : list (string * FormValue) + exn;
  h_force : string;
  h_cache_control : string;
  h_content_length : option string;
  h_ocr : option OCRRequest;
  h_command : option (string * option string * bool)
}.

(** Header names in lower case. *)
Record Response := mkResponse { rs_body : OcrReply; rs_headers : gmap string string }.

Definition response_of (r : Reply) : Response := mkResponse (OcrError r) ∅.

Definition status_code (r : Response) : Z :=
  match rs_body r with
  | OcrError (JSONResponse status _) => status
  | OcrError (ZipResponse _ _) | OcrPages _ _ => 200
  end.

Inductive Level := LDebug | LInfo | LWarning | LError.
Inductive LogLine :=
| LogRequest (method path client : string)
| LogFailed (method path : string)
| LogDone (level : Level) (method path : string) (status : Z)
| LogRejected (path reason client : string).

(** An operation on the world that writes log lines. *)
Definition H (A : Type) : Type := World -> outcome A * World * list LogLine.
#[export] Instance H_ret : MRet H := fun A a w => (Ok a, w, []).
#[export] Instance H_bind : MBind H := fun A B f m w =>
  match m w with
  | (Ok a, w1, l1) => let '(r, w2, l2) := f a w1 in (r, w2, l1 ++ l2)
  | (Raise e, w1, l1) => (Raise e, w1, l1)
  | (Diverged, w1, l1) => (Diverged, w1, l1)
  end.
Definition h_run {A} (m : M A) : H A := fun w => (m w, []).
Definition h_lift {A} (o : outcome A) : H A := fun w => (o, w, []).
Definition h_log (l : LogLine) : H unit := fun w => (Ok tt, w, [l]).
Definition h_try {A} (m : H A) (h : exn -> H A) : H A := fun w =>
  match m w with
  | (Raise e, w1, l1) => let '(r, w2, l2) := h e w1 in (r, w2, l1 ++ l2)
  | r => r
  end.

Definition Handler : Type := HttpRequest -> H Response.
Definition Middleware : Type := HttpRequest -> Handler -> H Response.

Definition __version__ := "0.1.0".

(** ** Attribution *)

Definition UPSTREAM_NAME := "MinerU".
Definition UPSTREAM_HOMEPAGE := "https://github.com/opendatalab/MinerU".
Definition POWERED_BY_HEADER := "X-Powered-By".
Definition VERSION_HEADER_NAME := "MinerU-Version".

(** Header names are case-insensitive. *)
Definition set_header (k v : string) (r : Response) : Response :=
  mkResponse (rs_body r) (<[lower k := v]> (rs_headers r)).

Section attribution.
Context `{MinerURelease}.

Definition upstream_info : json :=
  JObj [("name", JStr UPSTREAM_NAME); ("version", JStr MINERU_VERSION); ("homepage", JStr UPSTREAM_HOMEPAGE)].

Definition attribution_middleware : Middleware := fun request call_next =>
  response ← call_next request ;
  mret (set_header VERSION_HEADER_NAME MINERU_VERSION (set_header POWERED_BY_HEADER UPSTREAM_NAME response)).
End attribution.

(** ** Request logging *)

Definition done_level (method : string) (status : Z) : Level :=
  if 500 <=? status then LError
  else if 400 <=? status then LWarning
  else if method ∈? ["POST"; "PUT"; "PATCH"; "DELETE"] then LInfo
  else LDebug.

(** [RequestLoggingMiddleware.dispatch]. *)
Definition request_logging : Middleware := fun request call_next =>
  let method := h_method request in
  let path := h_path request in
  h_log (LogRequest method path (default "-" (h_client request))) ;;
  response ← h_try (call_next request) (fun e => h_log (LogFailed method path) ;; h_lift (Raise e)) ;
  h_log (LogDone (done_level method (status_code response)) method path (status_code response)) ;;
  mret response.

(** ** The key check as a middleware *)

(** The log line of a rejection: whether a key was given. *)
Definition rejected_line (request : HttpRequest) : LogLine :=
  LogRejected (h_path request)
    (if provided_key (h_x_api_key request) (h_authorization request) ==? "" then "missing_key" else "invalid_key")
    (default "unknown" (h_client request)).

Definition api_key_middleware (settings : GatewaySettings) : Middleware := fun request call_next =>
  verdict ← h_lift (auth_dispatch settings (h_path request) (h_x_api_key request) (h_authorization request)) ;
  match verdict with
  | None => call_next request
  | Some reply => h_log (rejected_line request) ;; mret (response_of reply)
  end.

(** ** Routes *)

Inductive Operation :=
| OpSubmitTask | OpTaskStatus | OpTaskResult | OpFileParse
| OpCreateOcr
| OpListWorkers | OpGetWorker | OpDrainWorker | OpRotateWorker | OpRecoverWorker | OpInvalidateCache | OpSweepCache
| OpHealth | OpReady | OpRoot.

Inductive Segment := Lit (s : string) | Param.
Record Route := mkRoute { rt_method : string; rt_path : list Segment; rt_op : Operation }.

(** The routers of [api/tasks.py], [api/ocr.py] and [api/admin.py], the latter two with
    their prefixes. *)
Definition tasks_router : list Route :=
  [ mkRoute "POST" [Lit "tasks"] OpSubmitTask;
    mkRoute "GET" [Lit "tasks"; Param] OpTaskStatus;
    mkRoute "GET" [Lit "tasks"; Param; Lit "result"] OpTaskResult;
    mkRoute "POST" [Lit "file_parse"] OpFileParse ].
Definition ocr_router : list Route := [ mkRoute "POST" [Lit "v1"; Lit "ocr"] OpCreateOcr ].
Definition admin_router : list Route :=
  [ mkRoute "GET" [Lit "admin"; Lit "workers"] OpListWorkers;
    mkRoute "GET" [Lit "admin"; Lit "workers"; Param] OpGetWorker;
    mkRoute "POST" [Lit "admin"; Lit "workers"; Param; Lit "drain"] OpDrainWorker;
    mkRoute "POST" [Lit "admin"; Lit "workers"; Param; Lit "rotate"] OpRotateWorker;
    mkRoute "POST" [Lit "admin"; Lit "workers"; Param; Lit "recover"] OpRecoverWorker;
    mkRoute "DELETE" [Lit "admin"; Lit "cache"; Param] OpInvalidateCache;
    mkRoute "POST" [Lit "admin"; Lit "cache"; Lit "sweep"] OpSweepCache ].

(** [_register_routes]. *)
Definition register_routes (routes : list Route) : list Route :=
  routes ++ tasks_router ++ ocr_router ++ admin_router ++
  [ mkRoute "GET" [Lit "health"] OpHealth;
    mkRoute "GET" [Lit "ready"] OpReady;
    mkRoute "GET" [Lit ""] OpRoot ].

(** What FastAPI documents about routes: a template matches a path segment by
    segment, a parameter any segment that is not empty, and the first route that
    matches method and path is taken. *)
Fixpoint match_path (t : list Segment) (p : list string) : option (list string) :=
  match t, p with
  | [], [] => Some []
  | Lit s :: t, x :: p => if s ==? x then match_path t p else None
  | Param :: t, x :: p => if x ==? "" then None else (fun vs => x :: vs) <$> match_path t p
  | _, _ => None
  end.

Definition path_segments (path : string) : list string := split_char SLASH (removeprefix "/" path).

Definition match_route (request : HttpRequest) (r : Route) : option (Operation * list string) :=
  if h_method request ==? rt_method r
  then (fun vs => (rt_op r, vs)) <$> match_path (rt_path r) (path_segments (h_path request))
  else None.

Definition find_route (routes : list Route) (request : HttpRequest) : option (Operation * list string) :=
  head (omap (match_route request) routes).

(** ** The application *)

Inductive MiddlewareKind := AttributionHeaders | RequestLogging | ApiKey.

(** [app.state] is the settings, the store and the two flags that the lifespan
    sets; the middlewares are in the order they were added. *)
Record FastAPI := mkFastAPI {
  app_settings : GatewaySettings;
  app_middleware : list MiddlewareKind;
  app_routes : list Route
}.

Definition add_middleware (m : MiddlewareKind) (app : FastAPI) : FastAPI :=
  mkFastAPI (app_settings app) (app_middleware app ++ [m]) (app_routes app).

Definition install_attribution (app : FastAPI) : FastAPI := add_middleware AttributionHeaders app.

Definition create_app `{Surroundings} `{!Pydantic} (settings : option GatewaySettings) : G FastAPI :=
  resolved ← match settings with Some s => mret s | None => get_settings end ;
  let app := mkFastAPI resolved [] [] in
  let app := if attribution_enabled (attribution resolved) then install_attribution app else app in
  let app := add_middleware RequestLogging app in
  let app := add_middleware ApiKey app in
  mret (mkFastAPI (app_settings app) (app_middleware app) (register_routes (app_routes app))).

(** FastAPI: [asgi] puts middlewares around a handler; the route of a request, with the
    values of its parameters; the reply to a request
    without a route; the reply to a body that the endpoint does not take; the reply
    to an exception of an endpoint that has one; and the reply to any other. *)
Class FastApi := {
  asgi : list Middleware -> Handler -> Handler;
  route_for : list Route -> HttpRequest -> option (Operation * list string);
  no_route : HttpRequest -> Reply;
  unprocessable : HttpRequest -> Reply;
  http_exception : exn -> option Reply;
  internal_error : Reply
}.

(** The middleware added last sees the request first; routes are found as
    documented. *)
Class FastApiLaws `{FastApi} : Prop := {
  asgi_order ms h request w : asgi ms h request w = fold_left (fun next m => fun r => m r next) ms h request w;
  route_first routes request : route_for routes request = find_route routes request
}.

Section serve.
Context (app : FastAPI) (select_one store_validate : M unit).
Context `{Env} `{!DocumentClient} `{!MinerUIntake} `{!ObjectStore} `{!Sha256} `{!Elsewhere} `{!ResultReader}.
Context `{!MinerURelease} `{!FastApi}.

(** The request as the endpoints read it, with the flags of [app.state]. *)
Definition request_of (q : HttpRequest) : Request :=
  mkRequest (h_form q) (h_force q) (h_cache_control q) (h_content_length q)
    (is_public_bind_host (Config.host (app_settings app))) false.

Definition health : Reply :=
  JSONResponse 200 [("status", JStr "ok"); ("version", JStr __version__); ("upstream", upstream_info)].

Definition root : Reply :=
  JSONResponse 200
    [ ("service", JStr "mineru-gateway"); ("version", JStr __version__);
      ("description", JStr "A gateway built on top of MinerU."); ("upstream", upstream_info) ].

(** The endpoint of an operation on the parameters of its path. *)
Definition endpoint (op : Operation) (params : list string) (q : HttpRequest) : M OcrReply :=
  let settings := app_settings app in
  let request := request_of q in
  let reply (m : M Reply) : M OcrReply := r ← m ; mret (OcrError r) in
  let with_command (f : string -> option string -> bool -> M Reply) : M OcrReply :=
    match h_command q with
    | Some (reason, requester, terminate) => reply (f reason requester terminate)
    | None => mret (OcrError (unprocessable q))
    end in
  let id := default "" (head params) in
  match op with
  | OpSubmitTask => reply (submit_task settings request true)
  | OpTaskStatus => reply (get_task_status id)
  | OpTaskResult => reply (get_task_result id true)
  | OpFileParse => reply (file_parse settings request true)
  | OpCreateOcr =>
      match h_ocr q with
      | Some body => create_ocr settings request body true
      | None => mret (OcrError (unprocessable q))
      end
  | OpListWorkers => reply (admin_list_workers settings)
  | OpGetWorker => reply (admin_get_worker settings id)
  | OpDrainWorker => with_command (fun reason requester terminate => drain_worker settings id terminate reason requester)
  | OpRotateWorker => with_command (fun reason requester _ => rotate_worker settings id reason requester)
  | OpRecoverWorker => with_command (fun reason requester _ => admin_recover_worker settings id reason requester)
  | OpInvalidateCache => reply (invalidate_cache id true)
  | OpSweepCache => reply (sweep_cache true)
  | OpHealth => mret (OcrError health)
  | OpReady => reply (ready select_one (Some store_validate))
  | OpRoot => mret (OcrError root)
  end.

(** The router with FastAPI's handling of [HTTPException] around it. *)
Definition router : Handler := fun q =>
  match route_for (app_routes app) q with
  | None => mret (response_of (no_route q))
  | Some (op, params) =>
      h_try (body ← h_run (endpoint op params q) ; mret (mkResponse body ∅))
        (fun e => match http_exception e with
                  | Some reply => mret (response_of reply)
                  | None => h_lift (Raise e)
                  end)
  end.

Definition middleware_of (m : MiddlewareKind) : Middleware :=
  match m with
  | AttributionHeaders => attribution_middleware
  | RequestLogging => request_logging
  | ApiKey => api_key_middleware (app_settings app)
  end.

(** One request: outermost, FastAPI answers an exception that nothing handled. *)
Definition serve : Handler := fun q =>
  h_try (asgi (map middleware_of (app_middleware app)) router q) (fun _ => mret (response_of internal_error)).
End serve.
