(* ===== verification/Metrics.v ===== *)
(** * Metrics: the facade over OpenTelemetry

    [observability/metrics.py], [_setup.py] and [otel.py].  The SDK's packages,
    installed or not, are a class; an instrument of the SDK is its name, and the points
    recorded on it, in the order of the calls, are what it exports.  Durations
    are integral here. *)
From S2P Require Import Prelude World Config Json Payload.

(** Whether the imports of the metrics, and those of the traces, succeed. *)
Class OtelPackages := { metrics_packages : bool; traces_packages : bool }.

Inductive InstrumentKind := Counter | Histogram (unit : string).
Record Instrument := mkInstrument { in_name : string; in_kind : InstrumentKind }.

Record Point := mkPoint { pt_instrument : string; pt_value : Z; pt_attributes : list (string * string) }.

(** [_enabled], the instrument of each attribute ([None] before
    [_create_instruments]), and what was recorded. *)
Record Metrics := mkMetrics {
  enabled : bool;
  instruments : gmap string Instrument;
  points : list Point
}.

(** [Metrics()]. *)
Definition new_metrics : Metrics := mkMetrics false ∅ [].

Definition create_instruments : gmap string Instrument :=
  list_to_map
    [ ("tasks_ingested", mkInstrument "mineru.tasks.ingested" Counter);
      ("admission_rejected", mkInstrument "mineru.admission.rejected" Counter);
      ("tasks_dispatched", mkInstrument "mineru.tasks.dispatched" Counter);
      ("tasks_dispatch_failed", mkInstrument "mineru.tasks.dispatch.failed" Counter);
      ("tasks_sla_expired", mkInstrument "mineru.tasks.sla_expired" Counter);
      ("results_stored", mkInstrument "mineru.results.stored" Counter);
      ("results_store_failed", mkInstrument "mineru.results.store_failed" Counter);
      ("workers_health_checks", mkInstrument "mineru.workers.health_checks" Counter);
      ("tasks_poll_duration", mkInstrument "mineru.tasks.poll.duration" (Histogram "ms"));
      ("tasks_dispatch_duration", mkInstrument "mineru.tasks.dispatch.duration" (Histogram "ms"));
      ("retention_deleted", mkInstrument "mineru.retention.deleted" Counter);
      ("workers_scaled", mkInstrument "mineru.workers.scaled" Counter);
      ("workers_cloud_errors", mkInstrument "mineru.workers.cloud_errors" Counter);
      ("cache_sweep_removed", mkInstrument "mineru.cache.sweep_removed" Counter);
      ("tasks_dispatch_requeued", mkInstrument "mineru.tasks.dispatch.requeued" Counter);
      ("tasks_stale_claims_recovered", mkInstrument "mineru.tasks.stale_claims_recovered" Counter) ].

(** [self._attribute.add(value, attributes)], or [record] of a histogram. *)
Definition put (attribute : string) (value : Z) (attributes : list (string * string)) (m : Metrics) : outcome Metrics :=
  match instruments m !! attribute with
  | None => Raise (AttributeError "'NoneType' object has no attribute 'add'")
  | Some i => Ok (mkMetrics (enabled m) (instruments m) (points m ++ [mkPoint (in_name i) value attributes]))
  end.

(** ** The decorators *)

(** How a caller passes [count]. *)
Inductive CountArg := CountDefault | CountKeyword (n : Z) | CountPositional (n : Z).

(** [kwargs.get("count", 1)]. *)
Definition kwargs_count (c : CountArg) : Z :=
  match c with CountKeyword n => n | _ => 1 end.

(** The [count] that the method itself gets. *)
Definition count_value (c : CountArg) : Z :=
  match c with CountDefault => 1 | CountKeyword n | CountPositional n => n end.

Definition when_enabled (method : Metrics -> outcome Metrics) (m : Metrics) : outcome Metrics :=
  if negb (enabled m) then Ok m else method m.

Definition when_enabled_with_count (c : CountArg) (method : Z -> Metrics -> outcome Metrics) (m : Metrics)
    : outcome Metrics :=
  if negb (enabled m) || (kwargs_count c <=? 0) then Ok m else method (count_value c) m.

(** ** The record methods *)

(** [str(b).lower()]. *)
Definition bool_text (b : bool) : string := if b then "true" else "false".

Definition record_task_ingested (source : string) (cache_hit : bool) (backend : string) :=
  when_enabled (put "tasks_ingested" 1 [("source", source); ("cache_hit", bool_text cache_hit); ("backend", backend)]).
Definition record_admission_rejected (reason : string) :=
  when_enabled (put "admission_rejected" 1 [("reason", reason)]).
Definition record_task_dispatched (worker_id backend : string) :=
  when_enabled (put "tasks_dispatched" 1 [("worker_id", worker_id); ("backend", backend)]).
Definition record_dispatch_failed (error_class : string) :=
  when_enabled (put "tasks_dispatch_failed" 1 [("error_class", error_class)]).
Definition record_dispatch_duration (duration_ms : Z) (result : string) :=
  when_enabled (put "tasks_dispatch_duration" duration_ms [("outcome", result)]).
Definition record_sla_expired (c : CountArg) :=
  when_enabled_with_count c (fun count => put "tasks_sla_expired" count []).
Definition record_result_stored (c : CountArg) :=
  when_enabled_with_count c (fun count => put "results_stored" count []).
Definition record_result_store_failed (c : CountArg) :=
  when_enabled_with_count c (fun count => put "results_store_failed" count []).
Definition record_health_check (result : string) :=
  when_enabled (put "workers_health_checks" 1 [("outcome", result)]).
Definition record_poll_duration (route result : string) (duration_ms : Z) :=
  when_enabled (put "tasks_poll_duration" duration_ms [("route", route); ("outcome", result)]).
Definition record_retention_deleted (kind : string) (c : CountArg) :=
  when_enabled_with_count c (fun count => put "retention_deleted" count [("kind", kind)]).
Definition record_worker_scaled (action : string) :=
  when_enabled (put "workers_scaled" 1 [("action", action)]).
Definition record_cloud_error (category : string) (retryable : bool) :=
  when_enabled (put "workers_cloud_errors" 1 [("category", category); ("retryable", bool_text retryable)]).
Definition record_cache_sweep_removed (c : CountArg) :=
  when_enabled_with_count c (fun count => put "cache_sweep_removed" count []).
Definition record_dispatch_requeued (c : CountArg) :=
  when_enabled_with_count c (fun count => put "tasks_dispatch_requeued" count []).
Definition record_stale_claims_recovered (c : CountArg) :=
  when_enabled_with_count c (fun count => put "tasks_stale_claims_recovered" count []).

(** ** Initialisation *)

(** The process's telemetry: the metrics, the exporter of the spans (its service
    and endpoint), what was instrumented, and the warnings logged. *)
Record Telemetry := mkTelemetry {
  metrics : Metrics;
  meter : option (string * string * Z);
  tracer : option (string * string);
  app_instrumented : bool;
  httpx_instrumented : bool;
  warnings : list string
}.
Definition no_telemetry : Telemetry := mkTelemetry new_metrics None None false false [].

Definition OTEL_MISSING_WARNING :=
  "OTel enabled but opentelemetry packages not installed. Install with: uv sync --extra otel".
Definition warn (text : string) (t : Telemetry) : Telemetry :=
  mkTelemetry (metrics t) (meter t) (tracer t) (app_instrumented t) (httpx_instrumented t) (warnings t ++ [text]).
Definition log_otel_unavailable : Telemetry -> Telemetry := warn OTEL_MISSING_WARNING.

Section init.
Context `{OtelPackages}.

(** The exporter's interval is in milliseconds. *)
Definition init_metrics (service_name endpoint : string) (export_interval_seconds : Z) (t : Telemetry) : Telemetry :=
  if metrics_packages then
    mkTelemetry (mkMetrics true create_instruments (points (metrics t)))
      (Some (service_name, endpoint, export_interval_seconds * 1000))
      (tracer t) (app_instrumented t) (httpx_instrumented t) (warnings t)
  else log_otel_unavailable t.

(** The second half of [init_otel]. *)
Definition init_traces (name endpoint : string) (has_app : bool) (t : Telemetry) : Telemetry :=
  if traces_packages then
    mkTelemetry (metrics t) (meter t) (Some (name, endpoint)) (app_instrumented t || has_app) true (warnings t)
  else log_otel_unavailable t.

Definition init_otel (settings : GatewaySettings) (has_app : bool) (service : option string) (t : Telemetry) : Telemetry :=
  if negb (otel_enabled (otel settings)) then t
  else if negb (truthy (endpoint (otel settings))) then
    warn "OTel enabled but no endpoint configured — skipping instrumentation" t
  else
    let ep := str_or (endpoint (otel settings)) "" in
    let name := str_or service (service_name (otel settings)) in
    init_traces name ep has_app
      (init_metrics name ep (metrics_export_interval_seconds (otel settings)) t).
End init.

(** ** What is recorded *)

(** Every call of a record method, with its arguments. *)
Inductive MetricCall :=
| CallTaskIngested (source : string) (cache_hit : bool) (backend : string)
| CallAdmissionRejected (reason : string)
| CallTaskDispatched (worker_id backend : string)
| CallDispatchFailed (error_class : string)
| CallDispatchDuration (duration_ms : Z) (result : string)
| CallSlaExpired (c : CountArg)
| CallResultStored (c : CountArg)
| CallResultStoreFailed (c : CountArg)
| CallHealthCheck (result : string)
| CallPollDuration (route result : string) (duration_ms : Z)
| CallRetentionDeleted (kind : string) (c : CountArg)
| CallWorkerScaled (action : string)
| CallCloudError (category : string) (retryable : bool)
| CallCacheSweepRemoved (c : CountArg)
| CallDispatchRequeued (c : CountArg)
| CallStaleClaimsRecovered (c : CountArg).

Definition record (c : MetricCall) : Metrics -> outcome Metrics :=
  match c with
  | CallTaskIngested source hit backend => record_task_ingested source hit backend
  | CallAdmissionRejected reason => record_admission_rejected reason
  | CallTaskDispatched id backend => record_task_dispatched id backend
  | CallDispatchFailed cls => record_dispatch_failed cls
  | CallDispatchDuration ms result => record_dispatch_duration ms result
  | CallSlaExpired n => record_sla_expired n
  | CallResultStored n => record_result_stored n
  | CallResultStoreFailed n => record_result_store_failed n
  | CallHealthCheck result => record_health_check result
  | CallPollDuration route result ms => record_poll_duration route result ms
  | CallRetentionDeleted kind n => record_retention_deleted kind n
  | CallWorkerScaled action => record_worker_scaled action
  | CallCloudError category retryable => record_cloud_error category retryable
  | CallCacheSweepRemoved n => record_cache_sweep_removed n
  | CallDispatchRequeued n => record_dispatch_requeued n
  | CallStaleClaimsRecovered n => record_stale_claims_recovered n
  end.

Fixpoint record_all (cs : list MetricCall) (m : Metrics) : outcome Metrics :=
  match cs with
  | [] => Ok m
  | c :: cs => m ← record c m ; record_all cs m
  end.
