(* ===== verification/Demo.v ===== *)
(** * Demo: a concrete environment

    An environment in which nothing fails, an in-memory bucket, workers that
    answer and a cloud that launches: the instances at which the theorems about
    arbitrary environments are applied.  The clock advances by one second with
    every interaction. *)
From stdpp Require Import pretty.
From S2P Require Import Prelude Models CloudTypes Config World Database Logic Hoare Json Payload Storage S3.
From S2P Require Import Status TaskRows Upstream WorkerRepository Lock Provider.

(** 2027-01-15 08:00:00 UTC. *)
Definition demo_epoch : Z := 1800000000000000.

#[export] Program Instance demo_env : Env := {|
  env_clock n := demo_epoch + seconds (Z.of_nat n);
  env_uuid n := "c0ffee" +:+ pretty (Z.of_nat n) +:+ "0123456789abcdef0123456789abcdef";
  env_shuffle A n l := reverse l;
  env_db_fault n := None |}.
Next Obligation. intros. apply reverse_Permutation. Qed.

(** ** The bucket *)

Definition set_objects (f : gmap string (list Byte.byte) -> gmap string (list Byte.byte)) : M unit :=
  modify (fun w => with_objects (f (objects w)) w).
Definition no_such_key {A} : M A := raise (ClientError "NoSuchKey" "The specified key does not exist.").

#[export] Program Instance demo_s3 : S3Client := {|
  s3_head_bucket := mret tt;
  s3_put_object key body := set_objects (<[key := body]>);
  s3_get_object key := body ← gets (fun w => objects w !! key) ;
    match body with Some body => mret body | None => no_such_key end;
  s3_iter_chunks key n := mret None;
  s3_head_object key := body ← gets (fun w => objects w !! key) ;
    match body with
    | Some body => mret (mkHead (Some (Z.of_nat (length body))) None None None)
    | None => no_such_key
    end;
  s3_delete_object key := set_objects (delete key);
  s3_copy_object src dst := body ← gets (fun w => objects w !! src) ;
    match body with Some body => set_objects (<[dst := body]>) | None => no_such_key end |}.
Next Obligation. evolve. Qed.
Next Obligation. intros key body w. by repeat split. Qed.
Next Obligation. intros. unfold no_such_key. evolve. Qed.
Next Obligation. intros. evolve. Qed.
Next Obligation. intros. unfold no_such_key. evolve. Qed.
Next Obligation. intros key w. by repeat split. Qed.
Next Obligation. intros. unfold no_such_key. evolve. intros w. by repeat split. Qed.
Next Obligation. intros key body w. by left. Qed.
Next Obligation.
  intros key w body w'. unfold mbind, M_bind, gets. destruct (objects w !! key); [|done]. by intros [= <- _].
Qed.
Next Obligation. done. Qed.
Next Obligation.
  intros key w h w'. unfold mbind, M_bind, gets. by destruct (objects w !! key).
Qed.
Next Obligation. intros key w. by left. Qed.
Next Obligation.
  intros src dst w. unfold mbind, M_bind, gets. destruct (objects w !! src) as [body|] eqn:E; cbn; [left; eauto|by right].
Qed.

(** ** Workers, MinerU, the cloud and the lock *)

Definition demo_body : list Byte.byte := encode_utf8 "PK result".

#[export] Program Instance demo_http : Http := {|
  http_get url := mret (mkResponse 200 demo_body (Some (JObj [("status", JStr "completed")]))) |}.
Next Obligation. intros. evolve. Qed.

#[export] Program Instance demo_mineru : MinerU := {|
  submit_payload_to_upstream url p := mret ("upstream-1", "pending") |}.
Next Obligation. intros. evolve. Qed.

#[export] Program Instance demo_provider : ComputeProvider := {|
  cloud_discover d := mret [];
  cloud_launch id d g := mret ("i-" +:+ id);
  cloud_start i := mret tt; cloud_stop i := mret tt; cloud_terminate i := mret tt;
  cloud_get_state i := mret RUNNING;
  cloud_get_private_ip i := mret (Some "10.0.0.7") |}.
Solve Obligations with intros; evolve.

#[export] Program Instance demo_lock : LockServer := {|
  pg_connect := mret tt; pg_try_lock := mret true; pg_unlock := mret tt;
  pg_ping := mret tt; pg_close := mret tt; engine_dispose := mret tt; sleep s := mret tt |}.
Next Obligation. repeat split; intros; try discriminate; reflexivity. Qed.

(** ** A deployment *)

Definition demo_settings : GatewaySettings := {|
  deployment_id := "prod"; database_url := "postgresql+asyncpg://db/gateway"; host := "127.0.0.1";
  port := 8000; log_level := "INFO"; max_file_size_bytes := 0;
  task_sla_seconds := 3600; cloud_workers_enabled := true;
  scaling := mkScalingConfig 4 0 2 300 60;
  reconciliation := mkReconciliationConfig 1800 8 900;
  retention := mkRetentionConfig 30 (seconds 3600);
  cache := mkCacheConfig true 604800 600;
  cloud := mkCloudConfig "aws" (mkAwsCloudConfig "us-east-1" (Some "lt-1") "$Latest" "mineru-results" None None);
  rotation := mkRotationConfig 604800 1800;
  scheduler := mkSchedulerConfig 500000 (seconds 15);
  attribution := mkAttributionConfig true "MinerU" "MinerU-Version";
  auth := mkAuthConfig false None;
  otel := mkOtelConfig false None "mineru-gateway" "mineru-scheduler" 60
|}.

Definition demo_worker (id : string) : Worker :=
  set_worker [ W_instance_id (Some ("i-" +:+ id)); W_base_url (Some "http://10.0.0.7:8000");
               W_healthy true; W_ready_at (Some demo_epoch) ]
    (Worker_new id "aws" "prod" CLOUD_STATE_RUNNING CLOUD_STATE_RUNNING).

Definition demo_task (id : string) (fs : list TaskField) : Task :=
  set_task fs (Task_new id "pipeline" "auto" ["a.pdf"] TASK_QUEUED "upload").

(** The columns of a task that runs on [cloud-1]. *)
Definition running_fields (status : string) : list TaskField :=
  [ T_status status; T_worker_id (Some "cloud-1"); T_dispatch_started_at (Some 1);
    T_started_at (Some 2); T_upstream_task_id (Some "upstream-1");
    T_upstream_base_url (Some "http://10.0.0.7:8000") ].

Definition key_by {A} (key : A -> string) (l : list A) : gmap string A :=
  list_to_map ((fun r => (key r, r)) <$> l).

(** A world with these rows and objects; the lock is held. *)
Definition demo_world (ws : list Worker) (ts : list Task) (cs : list CacheEntry)
    (os : list (string * list Byte.byte)) : World :=
  mkWorld (key_by w_id ws) (key_by t_task_id ts) (key_by c_cache_key cs) [] (list_to_map os) []
    (mkMemory None None None None (Some (true, true))) 0.

(** The invariants, decided on a concrete world. *)
Lemma all_rows_decide {A F} `{Table A F} (G : string -> A -> Prop) `{!forall k r, Decision (G k r)} w :
  bool_decide (map_Forall G (table (A:=A) w)) = true -> all_rows (A:=A) G w.
Proof. intros E%bool_decide_eq_true k r Hr. by apply E. Qed.

#[export] Instance task_good_dec k r : Decision (task_good k r).
Proof. unfold task_good. apply _. Defined.

Lemma tasks_ok_decide w : bool_decide (map_Forall task_good (tasks w)) = true -> tasks_ok w.
Proof. exact (all_rows_decide (A:=Task) task_good w). Qed.
Lemma workers_keyed_decide w : bool_decide (map_Forall (fun k r => w_id r = k) (workers w)) = true -> workers_keyed w.
Proof. exact (all_rows_decide (A:=Worker) (fun k r => w_id r = k) w). Qed.

(** Discharge the hypotheses of a theorem on a concrete world. *)
Ltac on_demo :=
  first [ apply tasks_ok_decide; vm_compute; reflexivity
        | apply workers_keyed_decide; vm_compute; reflexivity
        | vm_compute; reflexivity ].
