(* ===== verification/FleetTypes.v ===== *)
(** * FleetTypes: the columns of a worker row stay in their types

    The state columns are strings in the database; their values are those of the
    enumerations of [cloud/types.py].  A drain target is only kept on a draining
    worker, and a failure count is never negative. *)
From S2P Require Import Prelude Models CloudTypes Config Scaling World Database Logic Hoare Storage Status Lifecycle.
From S2P Require Import TaskRows Upstream WorkerRepository CacheService Results TaskRepository Lock Provider.
From S2P Require Import Payload S3 Health Reconcile Scheduler Retention Demo.

Definition DESIRED_STATES : list string := [CLOUD_STATE_RUNNING; CLOUD_STATE_STOPPED; CLOUD_STATE_TERMINATED].
Definition CLOUD_STATES : list string :=
  [CLOUD_STATE_PENDING; CLOUD_STATE_RUNNING; CLOUD_STATE_STOPPING; CLOUD_STATE_TERMINATING; CLOUD_STATE_STOPPED;
   CLOUD_STATE_TERMINATED; CLOUD_STATE_UNKNOWN].

Definition worker_typed (k : string) (r : Worker) : Prop :=
  w_id r = k /\ w_desired_state r ∈ DESIRED_STATES /\ w_cloud_state r ∈ CLOUD_STATES /\
  (forall t, w_drain_target r = Some t -> t ∈ [CLOUD_STATE_STOPPED; CLOUD_STATE_TERMINATED] /\ w_draining r = true) /\
  0 <= w_failure_count r.
Definition workers_typed : World -> Prop := all_rows (A:=Worker) worker_typed.

(** No task row changes; only those of finished tasks may go. *)
Definition retained_row (_ : string) (o o' : option Task) : Prop :=
  o' = o \/ o' = None /\ forall r, o = Some r -> terminal r.
#[export] Instance retained_row_preorder k : PreOrder (retained_row k).
Proof. split; unfold retained_row; [by left|]. intros a b c [->|[-> Ha]] [->|[-> Hb]]; auto. Qed.
Definition retained : relation World := rows_evolve (A:=Task) retained_row.
#[export] Instance retained_preorder : PreOrder retained := rows_evolve_preorder retained_row.

Lemma retained_ok w w' : retained w w' -> tasks_ok w -> tasks_ok w'.
Proof.
  intros Hr HT k r E. specialize (Hr k). cbn in E, Hr. rewrite E in Hr. destruct Hr as [Er|[? _]]; [|done].
  by apply HT.
Qed.

(** The relation of a call that keeps the types and the tasks. *)
Definition keeps_types : relation World := fun w w' =>
  (workers_typed w -> workers_typed w') /\ (tasks_ok w -> retained w w').

#[export] Instance keeps_types_preorder : PreOrder keeps_types.
Proof.
  split; [by intros w; split|]. intros a b c [H1 R1] [H2 R2]. split; [auto|]. intros HT.
  etrans; [by apply R1|]. by apply R2, (retained_ok a), HT; apply R1.
Qed.

Lemma keeps_types_tables w w' : workers w' = workers w -> tasks w' = tasks w -> keeps_types w w'.
Proof.
  intros Ew Et. split; [intros HT; by eapply all_rows_same|]. intros _ k. left. cbn. by rewrite Et.
Qed.

#[export] Instance keeps_types_benign : Benign keeps_types.
Proof. split; [apply _|]. intros w w' (Ew & Et & _). by apply keeps_types_tables. Qed.
#[export] Instance keeps_types_ignores_calls : IgnoresCalls keeps_types.
Proof. intros w w' (Ew & Et & _). by apply keeps_types_tables. Qed.

Lemma cloud_state_typed st : cloud_state_from_instance st ∈ CLOUD_STATES.
Proof. destruct st; by apply (bool_decide_eq_true _). Qed.

Lemma rows_types {A} (m : M A) : evolves same_rows m -> evolves keeps_types m.
Proof.
  intros Hm w. destruct (Hm w) as [Hd [Et Ew]]. split; [done|]. by apply keeps_types_tables.
Qed.

(** Assignments that keep a row in its types. *)
Definition typed_fields (fs : list WorkerField) : Prop :=
  forall k r, worker_typed k r -> worker_typed k (set_worker fs r).
Definition typed_write (wr : write) : Prop :=
  match wr with
  | OnWorker (Put _ fs) => typed_fields fs
  | OnWorker (Add r) => forall c u, worker_typed (w_id r) (inserted c u r)
  | OnTask _ => False
  | _ => True
  end.

Lemma typed_flushed fs k r r' : typed_fields fs -> flushed fs r r' -> worker_typed k r -> worker_typed k r'.
Proof. intros Hf [->|[u ->]] Hr; apply Hf in Hr; exact Hr. Qed.

Section types.
Context (settings : GatewaySettings).
Context `{Env} `{!ObjectStore} `{!Http} `{!MinerU} `{!ComputeProvider} `{!LockServer}.

Abbreviation typed m := (evolves keeps_types m).

Lemma commit_types ws : Forall typed_write ws -> typed (commit ws).
Proof.
  intros Hws w. assert (Hp : evolves (rows_evolve (A:=Worker) (good_rows worker_typed)) (commit ws)).
  { apply (evolves_commit_all (A:=Worker) (good_rows worker_typed)). intros op m Hop.
    apply list_elem_of_omap in Hop as (wr & Hwr & E). rewrite Forall_forall in Hws.
    apply Hws in Hwr. destruct wr as [op'|op'|op'|e]; try discriminate E. injection E as ->.
    destruct op as [r|id fs|id]; cbn in Hwr |- *.
    - intros _ c u _ ? [= <-]. apply Hwr.
    - intros r r' _ Hf Hg ? [= <-]. eapply typed_flushed; [exact Hwr|exact Hf|]. by apply Hg.
    - by intros ? _ ? ? [=]. }
  assert (Ht : evolves (same_table Task) (commit ws)).
  { apply evolves_commit_frame. clear Hp. induction Hws as [|wr ws Hwr _ IH]; [done|]. by destruct wr. }
  destruct (Hp w) as [Hd He], (Ht w) as [_ Et]. split; [exact Hd|]. split; [intros HT; by eapply all_rows_evolve|].
  intros _ k. left. by rewrite Et.
Qed.

Lemma commit_fields_types id fs : (forall t, typed_fields (fs ++ [W_updated_at t])) -> typed (commit_fields id fs).
Proof.
  intros Hfs. unfold commit_fields. destruct fs as [|f fs]; evolve. apply commit_types, Forall_singleton, Hfs.
Qed.

(** A column is untouched, or gets a literal of its type. *)
Ltac typed_row :=
  intros (? & ? & ? & ? & ?); unfold worker_typed; cbn;
  split_and!;
  first [ done | apply cloud_state_typed | by apply (bool_decide_eq_true _)
        | intros ?t [=]; done
        | intros ?t [= <-]; split; [by apply (bool_decide_eq_true _)|done]
        | intros ?t ?Ht; naive_solver | lia ].
Ltac typed_value :=
  intros;
  repeat match goal with |- context [if ?b then _ else _] => destruct b end;
  unfold typed_fields; intros ?k ?r; typed_row.
Ltac typed_new :=
  intros ?c ?u; unfold worker_typed; cbn; split_and!;
  first [ done | by apply (bool_decide_eq_true _) | intros ?t [=] ].
Ltac each_write := repeat first [apply Forall_nil_2 | apply Forall_cons_2].
Ltac types := evolve_deep;
  try solve [ apply commit_fields_types; typed_value
            | apply commit_types; each_write; first [exact I | typed_new | typed_value]
            | apply evolves_same_data; [apply _|eauto with evolve] ].

Lemma record_scaling_event_types a r i t q : typed (record_scaling_event_now a r i t q).
Proof. unfold record_scaling_event_now. types. Qed.
Lemma reset_cloud_failures_types id : typed (reset_cloud_failures id).
Proof. unfold reset_cloud_failures. types. Qed.
Lemma finalize_disappeared_types id r : typed (finalize_disappeared_instance id r).
Proof. unfold finalize_disappeared_instance. types. Qed.
Lemma verify_lock_types : typed verify_lock.
Proof. apply rows_types, verify_lock_rows. Qed.

(** The count goes up from the row's own. *)
Lemma record_failure_types id e r : typed (record_failure settings id e r).
Proof.
  apply evolves_wp. intros w. unfold record_failure.
  pose proof (keeps_types_tables w) as Hs.
  wp_go; [|by apply Hs]. destruct (workers w !! id) as [row|] eqn:Er; [|by apply Hs].
  assert (Hput : forall fs v, workers v = workers w -> tasks v = tasks w ->
    (worker_typed id row -> worker_typed id (set_worker fs row)) ->
    wp (commit [OnWorker (Put id fs)]) (fun _ => keeps_types w) (fun _ => keeps_types w) v).
  { intros fs v Ev Et Hf. apply wp_commit; [|intros e' w' (E & E' & _) _; apply Hs; congruence].
    intros w' (w1 & ((r1 & r' & Hr1 & Hfl & Ew) & Et1 & _) & E2 & Et2 & _) _.
    split; [|intros _ k; left; cbn; congruence]. intros HT k x. cbn in *. rewrite E2, Ew, Ev.
    rewrite Ev, Er in Hr1. injection Hr1 as <-.
    destruct (decide (k = id)) as [->|Hne]; [|rewrite lookup_insert_ne by done; apply HT].
    rewrite lookup_insert_eq. intros [= <-]. specialize (Hf (HT _ _ Er)). by destruct Hfl as [->|[u ->]]. }
  destruct (_ <=? _).
  - destruct (w_stalled_at row); wp_go; apply Hput; try done; revert row Er Hput; intros row _ _; typed_row.
  - destruct r; [wp_go; destruct (retry_delay _); [|by apply Hs]|]; apply Hput; try done;
      revert row Er Hput; intros row _ _; typed_row.
Qed.
#[local] Hint Resolve record_scaling_event_types record_failure_types reset_cloud_failures_types
  finalize_disappeared_types verify_lock_types : evolve.

Lemma terminate_unowned_types has_provider inst r : typed (terminate_unowned_vm has_provider inst r).
Proof. unfold terminate_unowned_vm. types. Qed.
#[local] Hint Resolve terminate_unowned_types : evolve.

Lemma discover_and_dedupe_types has_provider d m : typed (discover_and_dedupe has_provider d m).
Proof. unfold discover_and_dedupe, resolve_duplicate_vms. types. Qed.
Lemma terminate_orphan_vms_types has_provider d ids : typed (terminate_orphan_vms has_provider d ids).
Proof. unfold terminate_orphan_vms. types. Qed.
#[local] Hint Resolve discover_and_dedupe_types terminate_orphan_vms_types : evolve.

Lemma align_instance_types w i c : c ∈ CLOUD_STATES -> typed (align_instance settings w i c).
Proof. intros Hc. unfold align_instance, transition_power_state, check_running_readiness. types. Qed.
#[local] Hint Resolve align_instance_types cloud_state_typed : evolve.

Lemma reconcile_one_worker_types has_provider w d : typed (reconcile_one_worker settings has_provider w d).
Proof. unfold reconcile_one_worker, sync_discovered_state, launch_missing_instance. types. Qed.
#[local] Hint Resolve reconcile_one_worker_types : evolve.

Lemma reconcile_workers_types has_provider : typed (reconcile_workers settings has_provider).
Proof. unfold reconcile_workers, reconcile_guarded, list_deployment_workers. types. Qed.

Lemma converge_stalled_types : typed (converge_stalled_workers settings).
Proof.
  unfold converge_stalled_workers, converge_one, terminate_stalled, find_stalled_workers. types.
Qed.

Lemma modify_types f : (forall w, workers (f w) = workers w /\ tasks (f w) = tasks w) -> typed (modify f).
Proof. intros Hf w. split; [done|]. by apply keeps_types_tables; apply Hf. Qed.

Lemma health_fields_typed r ok error provisioning w :
  wp (health_fields r ok error provisioning) (fun fs w' => typed_fields fs /\ same_data w w')
    (fun _ _ => False) w.
Proof.
  unfold health_fields. wp_go. destruct ok; [|wp_go; split; [typed_value|done]].
  destruct (_ && _ && _); wp_go; (split; [typed_value|done]).
Qed.

Lemma apply_health_checks_types results : typed (apply_health_checks results).
Proof.
  apply evolves_wp. intros w. unfold apply_health_checks.
  assert (Hb : forall w', same_data w w' -> keeps_types w w') by apply benign.
  wp_go; [|by apply Hb]. apply wp_mono with
    (Q := fun '(_, ws) w' => same_data w w' /\ Forall typed_write ws) (X := fun _ => same_data w).
  - apply wp_fold_m_inv with (J := fun '(_, ws) w' => same_data w w' /\ Forall typed_write ws);
      [|by repeat constructor].
    intros [n ws] [[[worker ok] error] prov] w' _ [HB HW]. wp_go.
    destruct (workers w' !! w_id worker) as [r|]; [|by split].
    apply wp_bind. eapply wp_mono; [apply health_fields_typed| |by intros].
    intros fs w1 [Hf Hd]. wp_go. split; [by etrans|]. apply Forall_app. split; [done|]. by apply Forall_singleton.
  - intros [n ws] w' [HB HW]. apply wp_bind. eapply wp_evolves; [by apply commit_types| |].
    all: intros a w2 HB2; try wp_go; etrans; [by apply Hb|done].
  - exact (fun _ => Hb).
Qed.
#[local] Hint Resolve apply_health_checks_types : evolve.

Lemma refresh_worker_health_types : typed (refresh_worker_health settings).
Proof. unfold refresh_worker_health, list_health_check_candidates. types. Qed.

Lemma create_cloud_worker_types : typed (create_cloud_worker settings).
Proof. unfold create_cloud_worker, worker_id, short_id. types. Qed.
Lemma start_rotation_replacement_types old : typed (start_rotation_replacement settings old).
Proof.
  unfold start_rotation_replacement, worker_id, short_id. types.
  all: match goal with |- context [match ?x with _ => _ end] => destruct x end; types.
Qed.
#[local] Hint Resolve create_cloud_worker_types start_rotation_replacement_types : evolve.

Lemma apply_autoscaling_types has_provider : typed (apply_autoscaling settings has_provider).
Proof.
  unfold apply_autoscaling, scale_up, current_scaling_signal, set_last_scale_up, find_idle_worker, find_stopped_worker,
    count_workers, count_stalled_workers, count_serviceable_workers. types.
  all: by apply modify_types.
Qed.

Lemma start_new_rotations_types has_provider : typed (start_new_rotations settings has_provider).
Proof.
  unfold start_new_rotations, count_active_replacements, count_workers, rotation_target,
    find_emergency_rotation_target, find_scheduled_rotation_target. types.
Qed.
#[local] Hint Resolve start_new_rotations_types : evolve.

Lemma advance_drains_and_rotations_types has_provider : typed (advance_drains_and_rotations settings has_provider).
Proof.
  unfold advance_drains_and_rotations, progress_rotations, progress_rotation, advance_drains,
    advance_drain, finalize_terminations, find_replacement_workers, find_draining_workers,
    find_workers_pending_termination_finalize, has_active_replacement_for, get_ready_replacement_for,
    set_next_rotation_check_at, finalize_terminated_worker.
  types.
  all: try by apply modify_types.
  all: apply commit_types, Forall_app; split.
  all: try (apply Forall_fmap, Forall_forall; intros r _; typed_value).
  all: each_write; typed_value.
Qed.

(** Retention goes by the completion time of finished tasks. *)
Lemma cleanup_expired_tasks_types : typed (cleanup_expired_tasks settings).
Proof.
  assert (Hf : evolves (same_table Worker) (cleanup_expired_tasks settings)).
  { unfold cleanup_expired_tasks, cleanup_task, list_retention_expired_tasks, delete_object_keys, delete_task. evolve.
    all: first [by apply evolves_commit_frame|intros w; by destruct (safe_delete_db (t_payload_key x) w) as [? (? & _)]|intros w; by destruct (safe_delete_db (t_result_key x) w) as [? (? & _)]]. }
  intros w. destruct (Hf w) as [Hd Ew]. split; [done|]. split; [intros HT; by eapply all_rows_same|].
  intros HT. pose proof (cleanup_expired_tasks_ok settings w HT) as Hc. unfold wp in Hc.
  assert (Hr : forall w', cleaned (expired_before (env_clock (step w) - days (retention_days (retention settings)))) w w' ->
    retained w w').
  { intros w' HC k. cbn. destruct (tasks w' !! k) as [r|] eqn:Er.
    - left. symmetry. by apply (cl_kept _ _ _ HC) in Er.
    - right. split; [done|]. intros r Hk. by apply (cl_gone _ _ _ HC k r). }
  destruct (cleanup_expired_tasks settings w) as [[a|e|] w']; [by apply Hr..|done].
Qed.
#[local] Hint Resolve cleanup_expired_tasks_types : evolve.

Lemma cleanup_if_due_types : typed (cleanup_if_due settings).
Proof.
  unfold cleanup_if_due, sweep_expired, sweep_one, set_next_cleanup_at, set_next_cache_sweep_at.
  types.
  all: try by apply modify_types.
  all: apply rows_types, evolves_db_rows, safe_delete_db.
Qed.

Lemma slow_tick_types has_provider : typed (slow_tick settings has_provider).
Proof.
  unfold slow_tick. evolve; [apply reconcile_workers_types|apply converge_stalled_types
    |apply refresh_worker_health_types|apply apply_autoscaling_types|apply advance_drains_and_rotations_types
    |apply cleanup_if_due_types].
Qed.

Lemma set_drain_intent_types id t reason q : t ∈ [CLOUD_STATE_STOPPED; CLOUD_STATE_TERMINATED] ->
  typed (set_drain_intent settings id t reason q).
Proof. intros Ht. unfold set_drain_intent, admin_intent, scaling_event. types. Qed.
Lemma set_rotation_requested_types id reason q : typed (set_rotation_requested settings id reason q).
Proof. unfold set_rotation_requested, admin_intent, scaling_event. types. Qed.
Lemma recover_worker_types id reason q : typed (recover_worker settings id reason q).
Proof.
  unfold recover_worker, admin_intent, scaling_event. types.
Qed.

(** C37: a slow tick, whatever fails in it, keeps every worker row under its id
    with its state columns in their enumerations, a drain target only on a
    draining worker, and a failure count that is not negative. *)
Theorem slow_tick_keeps_types has_provider w : workers_typed w ->
  wp (slow_tick settings has_provider) (fun _ => workers_typed) (fun _ => workers_typed) w.
Proof.
  intros HT. eapply wp_evolves; [apply slow_tick_types| |]; intros a w' [Hk _]; by apply Hk.
Qed.
End types.

Lemma slow_tick_keeps_types_witness :
  wp (slow_tick demo_settings true) (fun _ => workers_typed) (fun _ => workers_typed)
    (demo_world [demo_worker "cloud-1"] [] [] []).
Proof.
  apply slow_tick_keeps_types. intros k r Hr. cbn in Hr. apply lookup_insert_Some in Hr as [[<- <-]|[_ Hr]].
  - split_and!; try done; by apply (bool_decide_eq_true _).
  - by rewrite lookup_empty in Hr.
Defined.
