(* ===== verification/LivenessSpec.v ===== *)
(** * LivenessSpec: a fleet recovers from zero

    Runs in which the database does not fail: every query returns and a commit
    whose constraints hold succeeds.  In such a run a queued task always brings
    a worker: an autoscaling pass that finds no worker serviceable or starting
    starts one, whatever the cooldown says. *)
From S2P Require Import Prelude Models CloudTypes Config Scaling World Database Logic Hoare Storage Status.
From S2P Require Import TaskRows Upstream WorkerRepository CacheService Results TaskRepository Lock Provider.
From S2P Require Import Payload S3 Health Reconcile Scheduler Demo.

Definition database_up `{Env} : Prop := forall n, env_db_fault n = None.

(** No two rows share an instance. *)
Definition instances_unique (m : gmap string Worker) : Prop := forall k k' r r' i,
  m !! k = Some r -> m !! k' = Some r' -> w_instance_id r = Some i -> w_instance_id r' = Some i -> k = k'.

Section up.
Context (settings : GatewaySettings) `{Env} (Hup : database_up).

Abbreviation runs m Q w := (wp m Q (fun _ _ => False) w).

Lemma open_up (Q : unit -> World -> Prop) w : Q tt (bump w) -> runs open_session Q w.
Proof. intros HQ. unfold wp, open_session, db_fault. rewrite bind_unfold. cbn. by rewrite Hup. Qed.

Lemma count_up P (Q : Z -> World -> Prop) w :
  (forall w', same_data w w' -> Q (count_rows (P w') w) w') -> runs (count_where P) Q w.
Proof.
  intros HQ. unfold count_where, select_count. apply wp_bind, open_up, wp_bind, wp_select.
  intros l Hl _. wp_go. rewrite Hl. by apply (HQ (bump (bump w))).
Qed.

Lemma get_one_up P o (Q : option Worker -> World -> Prop) w :
  (forall w', same_data w w' -> Q None w') ->
  (forall r k w', same_data w w' -> P w' r = true -> workers w !! k = Some r -> Q (Some r) w') ->
  runs (get_one_where P o) Q w.
Proof.
  intros HN HS. unfold get_one_where, list_where. apply wp_bind, wp_bind, open_up, wp_bind.
  unfold wp. destruct (select_run P o (bump w)) as (l & E & Hin & _). rewrite E. cbn.
  destruct l as [|r l]; cbn; [by apply HN|]. assert (Hr : r ∈ r :: l) by left.
  apply Hin in Hr as [HP [k Hk]]. by eapply HS.
Qed.

(** One UPDATE of a row whose instance stays its own. *)
Lemma put_up id fs r (Q : unit -> World -> Prop) w :
  workers w !! id = Some r -> instances_unique (workers w) ->
  w_instance_id (set_worker fs r) = w_instance_id r ->
  (forall w' r', flushed fs r r' -> workers w' = <[id := r']> (workers w) -> Q tt w') ->
  runs (commit [OnWorker (Put id fs)]) Q w.
Proof.
  intros Hr Hu Hi HQ.
  assert (Hfree : forall r', w_instance_id r' = w_instance_id r -> instance_id_taken (workers w) id r' = false).
  { intros r' Hr'. unfold instance_id_taken. rewrite Hr'. destruct (w_instance_id r) as [i|] eqn:Ei; [|done].
    apply not_true_iff_false. intros ([k x] & Hin & Hx)%existsb_exists. cbn in Hx. bool_hyps.
    apply list_elem_of_In, elem_of_map_to_list in Hin.
    by assert (k = id) by (eapply Hu; eassumption). }
  unfold wp. assert (Hrun : exists w', commit [OnWorker (Put id fs)] w = (Ok tt, w') /\
    exists r', flushed fs r r' /\ workers w' = <[id := r']> (workers w)).
  { unfold commit, for_each, flush, flush_row, store_row, db_fault, guard_db, gets, modify, now_utc.
    rewrite !bind_unfold. cbn. rewrite Hup. cbn. rewrite bind_unfold, !bind_unfold. cbn. rewrite Hr. cbn.
    case_bool_decide as E; cbn.
    - eexists. split; [done|]. exists r. split; [left; exact E|]. cbn. by rewrite insert_id.
    - case_bool_decide; unfold mbind, M_bind; cbn; rewrite Hfree by done; cbn;
        (eexists; split; [done|]; eexists; split; [|done]); [right; by eexists|by left]. }
  destruct Hrun as (w' & -> & r' & Hf & Ew). by eapply HQ.
Qed.

(** One INSERT of a row without an instance under a free id. *)
Lemma add_up r (Q : unit -> World -> Prop) w :
  workers w !! w_id r = None -> w_instance_id r = None ->
  (forall c u w', workers w' = <[w_id r := inserted c u r]> (workers w) -> Q tt w') ->
  runs (commit [OnWorker (Add r)]) Q w.
Proof.
  intros Hr Hi HQ. unfold wp. assert (Hrun : exists w' c u, commit [OnWorker (Add r)] w = (Ok tt, w') /\
    workers w' = <[w_id r := inserted c u r]> (workers w)).
  { unfold commit, for_each, flush, flush_row, store_row, db_fault, guard_db, gets, modify, now_utc.
    unfold mbind, M_bind. cbn. rewrite Hup. cbn. rewrite Hr. cbn. unfold instance_id_taken. cbn. rewrite Hi. cbn.
    do 3 eexists. split; [done|]. done. }
  destruct Hrun as (w' & c & u & -> & Ew). by eapply HQ.
Qed.

Lemma event_up a r i t q (Q : unit -> World -> Prop) w :
  (forall w', workers w' = workers w -> Q tt w') -> runs (record_scaling_event_now a r i t q) Q w.
Proof.
  intros HQ. unfold record_scaling_event_now. apply wp_bind, open_up. unfold wp.
  assert (Hrun : exists w', commit [scaling_event a r i t q] (bump w) = (Ok tt, w') /\ workers w' = workers w).
  { unfold commit, for_each, scaling_event, flush, add_event, db_fault, modify, now_utc, mbind, M_bind. cbn. rewrite Hup. cbn.
    eexists. split; done. }
  destruct Hrun as (w' & -> & Ew). by apply HQ.
Qed.

Lemma uuid_up (Q : string -> World -> Prop) w : Q (env_uuid (step w)) (bump w) -> runs uuid4_hex Q w.
Proof. done. Qed.

(** Step through a run. *)
Ltac go_up := repeat
  lazymatch goal with
  | |- wp (mbind _ _) _ _ _ => apply wp_bind
  | |- wp (mret ?a) ?Q ?X ?w => change (Q a w); cbv beta
  | |- wp uuid4_hex _ _ _ => apply uuid_up
  | |- wp now_utc _ _ _ => apply wp_now_utc; intros ?t
  | |- wp open_session _ _ _ => apply open_up
  end.

(** ** Scaling up *)

(** The worker is wanted, and was not before. *)
Definition wanted (r : Worker) : Prop :=
  deployment_clause settings r = true /\ w_desired_state r = CLOUD_STATE_RUNNING /\ w_draining r = false /\
  w_failure_count r = 0 /\ not_none (w_start_requested_at r) = true.
Definition fleet_grew (w w' : World) : Prop := exists id r,
  workers w' = <[id := r]> (workers w) /\ wanted r /\
  forall r0, workers w !! id = Some r0 -> w_desired_state r0 = CLOUD_STATE_STOPPED.

(** The ids [create_cloud_worker] may draw are free. *)
Definition ids_free (w : World) : Prop := forall n,
  workers w !! ("cloud-" +:+ String.substring 0 SHORT_ID_LENGTH (env_uuid n)) = None.

Lemma create_up w w0 : workers w = workers w0 -> ids_free w0 ->
  runs (create_cloud_worker settings) (fun _ w' => fleet_grew w0 w') w.
Proof.
  intros E Hf. unfold create_cloud_worker, worker_id, short_id. go_up. apply add_up.
  - cbn. rewrite E. apply Hf.
  - done.
  - intros c u w' Ew. go_up. do 2 eexists. split; [rewrite Ew; cbn; rewrite E; reflexivity|].
    split; [|intros r0; cbn; rewrite Hf; done].
    unfold wanted, deployment_clause. cbn. by rewrite !bool_decide_true.
Qed.

Lemma restart_up r w w0 : workers w = workers w0 -> workers w0 !! w_id r = Some r -> instances_unique (workers w0) ->
  deployment_clause settings r = true -> w_desired_state r = CLOUD_STATE_STOPPED -> w_draining r = false ->
  forall t, runs (commit_fields (w_id r) [W_desired_state CLOUD_STATE_RUNNING; W_failure_count 0; W_retry_after None;
         W_start_requested_at (Some t); W_ready_at None]) (fun _ w' => fleet_grew w0 w') w.
Proof.
  intros E Hr Hu Hd Hs Hn t. unfold commit_fields. go_up. wp_go. cbn [workers bump]. tables. rewrite E, Hr.
  eapply put_up; [by cbn; rewrite E|by cbn; rewrite E|done|].
  intros w' r' Hf Ew. exists (w_id r), r'. split; [rewrite Ew; cbn; by rewrite E|].
  split; [|intros r0; rewrite Hr; by intros [= <-]].
  destruct Hf as [->|[u ->]]; unfold wanted, deployment_clause in *; cbn; rewrite Hd; by split_and!.
Qed.
Lemma scale_up_runs w w0 : workers w = workers w0 -> workers_keyed w0 -> instances_unique (workers w0) ->
  ids_free w0 -> count_rows (deployment_clause settings) w0 < max_workers (scaling settings) ->
  runs (scale_up settings) (fun b w' => b = true /\ fleet_grew w0 w') w.
Proof.
  intros E Hk Hu Hf Hm. unfold scale_up. apply wp_bind, get_one_up.
  - intros w1 (E1 & _). apply wp_bind, count_up. intros w2 (E2 & _).
    assert (Hc : count_rows (any (deployment_clause settings) w2) w1 = count_rows (deployment_clause settings) w0).
    { unfold count_rows. cbn. by rewrite E1, E. }
    rewrite Hc. destruct (Z.ltb_spec (count_rows (deployment_clause settings) w0) (max_workers (scaling settings))); [|lia].
    apply wp_bind. eapply wp_mono; [apply (create_up _ w0); [congruence|done]| |done].
    intros id w3 Hg. go_up. by split.
  - intros r k w1 (E1 & _) HP Hr. unfold any in HP. bool_hyps. go_up.
    assert (Hid : workers w0 !! w_id r = Some r).
    { rewrite E in Hr. by rewrite (Hk _ _ Hr). }
    eapply wp_mono; [apply (restart_up r _ w0); [cbn; congruence|done..]| |done].
    intros u w2 Hg. go_up. by split.
Qed.

Lemma queue_up (Q : Z -> World -> Prop) w id t : tasks w !! id = Some t -> t_status t ∈ TASK_STATUSES_AUTOSCALE_DEMAND ->
  (forall n w', 0 < n -> same_data w w' -> Q n w') -> runs count_queue_depth Q w.
Proof.
  intros Ht Hs HQ. unfold count_queue_depth, select_count. go_up. unfold wp.
  destruct (select_run (A:=Task) (fun _ t => t_status t ∈? TASK_STATUSES_AUTOSCALE_DEMAND) (fun _ => unordered) (bump w))
    as (l & El & Hin & _). rewrite El. cbn. apply HQ; [|done].
  assert (Hl : t ∈ l) by (apply Hin; split; [by apply bool_decide_eq_true|by exists id]).
  destruct l; [by apply elem_of_nil in Hl|cbn; lia].
Qed.

(** C11: when the database does not fail, an autoscaling pass ends, and when a task
    is waiting, no worker is serviceable or starting and the fleet has room, it
    makes one worker wanted: a stopped one is restarted or a new one created,
    even within the scale-up cooldown. *)
Theorem recovers_from_zero w id t :
  workers_keyed w -> instances_unique (workers w) -> ids_free w ->
  tasks w !! id = Some t -> t_status t ∈ TASK_STATUSES_AUTOSCALE_DEMAND ->
  count_rows (serviceable_clause settings) w = 0 -> count_rows (provisioning_clause settings) w = 0 ->
  count_rows (deployment_clause settings) w < max_workers (scaling settings) ->
  runs (apply_autoscaling settings true) (fun _ w' => fleet_grew w w') w.
Proof.
  intros Hk Hu Hf Ht Hq Hs Hp Hm. unfold apply_autoscaling, current_scaling_signal, collect_scaling_inputs.
  cbn [negb]. apply wp_bind, wp_bind, wp_bind. eapply queue_up; [done..|]. intros n w1 Hn (E1 & _).
  apply wp_bind, count_up. intros w2 (E2 & _). apply wp_bind, count_up. intros w3 (E3 & _).
  apply wp_bind, count_up. intros w4 (E4 & _). apply wp_bind, count_up. intros w5 (E5 & _). go_up.
  assert (Hc : forall (P : Worker -> bool) v, workers v = workers w -> count_rows P v = count_rows P w)
    by (intros P v E; unfold count_rows; cbn; by rewrite E).
  unfold any. rewrite (Hc (serviceable_clause settings) w1), (Hc (provisioning_clause settings) w2), Hs, Hp by congruence.
  set (sig := compute_scaling_signal _ _ _ _).
  assert (Hd : 0 < desired_workers sig).
  { unfold sig. cbn. destruct (Z.eqb_spec n 0); [lia|]. destruct (Z.ltb_spec 0 n); [|lia].
    unfold count_rows in Hm. lia. }
  assert (Hup' : should_scale_up sig = true) by (unfold should_scale_up; cbn in *; lia).
  rewrite Hup'. go_up. wp_go.
  assert (Hz : ((serviceable_workers sig + starting_workers sig =? 0) && (0 <? desired_workers sig)) = true)
    by (cbn in *; lia).
  rewrite Hz. cbn [negb andb]. apply wp_bind.
  eapply wp_mono; [apply (scale_up_runs _ w); cbn; [congruence|done..]| |done].
  intros b w6 [-> (i & r & Ew & Hw & Hr)]. apply wp_bind. unfold set_last_scale_up.
  change (wp (modify ?f) ?Q ?X ?v) with (Q tt (f v)). cbv beta. apply event_up.
  intros w7 E7. exists i, r. split; [by rewrite E7|done].
Qed.
End up.

(** A queued task, one worker that is draining, and a recent scale-up. *)
Definition zero_demo : World := with_memory (mkMemory (Some demo_epoch) None None None None)
  (demo_world [set_worker [W_draining true] (demo_worker "cloud-1")] [demo_task "t1" []] [] []).

Lemma zero_worker k r : workers zero_demo !! k = Some r -> k = "cloud-1" /\ w_id r = "cloud-1".
Proof.
  intros Hr. cbn in Hr. apply lookup_insert_Some in Hr as [[<- <-]|[_ Hr]]; [done|]. by rewrite lookup_empty in Hr.
Qed.

Lemma zero_ids_free : ids_free zero_demo.
Proof.
  intros n. destruct (workers zero_demo !! _) as [r|] eqn:E; [|done]. apply zero_worker in E as [E _].
  apply (string_app_inj_l "cloud-" _ "1") in E. unfold env_uuid in E. cbn [demo_env] in E.
  rewrite !string_app_cons in E. cbn [SHORT_ID_LENGTH String.substring] in E. discriminate.
Qed.

Lemma recovers_from_zero_witness :
  wp (apply_autoscaling demo_settings true) (fun _ w' => fleet_grew demo_settings zero_demo w') (fun _ _ => False)
    zero_demo.
Proof.
  apply (recovers_from_zero demo_settings ltac:(by intros n) zero_demo "t1" (demo_task "t1" []));
    [| |exact zero_ids_free|reflexivity|by apply (bool_decide_eq_true _)|vm_compute; reflexivity..].
  - intros k r [-> ->]%zero_worker. done.
  - intros k k' r r' i [-> _]%zero_worker [-> _]%zero_worker _ _. done.
Defined.
