(* ===== verification/DispatchSpec.v ===== *)
(** * DispatchSpec: what dispatch and its recovery promise

    The contracts of the fast tick's steps on the task table, stated on whole
    operations: the claim of a task, the dispatch of a batch, the recovery of
    stale claims, and the client's deadline. *)
From S2P Require Import Prelude Models Config World Database Logic Hoare Storage Status Lifecycle TaskRows Upstream.
From S2P Require Import WorkerRepository TaskRepository S3 Lock Provider Demo.

(** The row an UPDATE leaves, up to the time it stamps. *)
Definition updated (fs : list TaskField) (r r' : Task) : Prop :=
  r' = set_task (fs ++ [T_updated_at (t_updated_at r')]) r.

Lemma flushed_updated fs r r' : flushed fs r r' -> updated fs r r'.
Proof.
  unfold updated, set_task. rewrite foldl_app. cbn. change (foldl _ r fs) with (set_task fs r).
  intros [->|[u ->]]; cbn; by destruct (set_task fs r).
Qed.

Section exact.
Context `{Env}.

Lemma effects_puts (fields : Task -> list TaskField -> Prop) rows writes : forall w w',
  NoDup (t_task_id <$> rows) -> (forall r, r ∈ rows -> tasks w !! t_task_id r = Some r) ->
  Forall2 (fun r wr => exists fs, wr = OnTask (Put (t_task_id r) fs) /\ fields r fs) rows writes ->
  effects writes w w' ->
  (forall r, r ∈ rows -> exists fs r', fields r fs /\ updated fs r r' /\
     tasks w' !! t_task_id r = Some r') /\
  (forall k, k ∉ t_task_id <$> rows -> tasks w' !! k = tasks w !! k) /\ workers w' = workers w.
Proof.
  intros w w' Hnd Hin Hws. revert w w' Hnd Hin.
  induction Hws as [|x wr rows writes (fs & -> & Hfs) _ IH]; intros w w' Hnd Hin; cbn [effects].
  - intros (Ew & Et & _). rewrite Et. split; [by intros r ?%elem_of_nil|by split].
  - intros (w1 & ((r0 & r' & Hr0 & Hf & Et) & Ew & _) & He). cbn in Hnd.
    apply NoDup_cons in Hnd as [Hx Hnd]. rewrite (Hin x) in Hr0 by left. injection Hr0 as <-.
    apply IH in He as (H1 & H2 & H3); [|done|].
    + split; [|split; [|congruence]].
      * intros r [->|Hr]%elem_of_cons; [|by apply H1].
        exists fs, r'. split; [done|]. split; [by apply flushed_updated|].
        rewrite (H2 _ Hx), Et. apply lookup_insert_eq.
      * intros k Hk. cbn in Hk. apply not_elem_of_cons in Hk as [Hne Hk].
        rewrite (H2 _ Hk), Et. by rewrite lookup_insert_ne.
    + intros r Hr. rewrite Et, lookup_insert_ne; [apply Hin; by right|].
      intros E. apply Hx. rewrite E. by apply list_elem_of_fmap_2.
Qed.

(** One UPDATE for every row that satisfies [P], nothing else. *)
Lemma wp_update_rows P (fields : Task -> list TaskField -> Prop) (rows : list Task) writes w :
  tasks_ok w -> rows ≡ₚ List.filter P (map_to_list (tasks w)).*2 ->
  Forall2 (fun r wr => exists fs, wr = OnTask (Put (t_task_id r) fs) /\ fields r fs) rows writes ->
  wp (commit writes)
    (fun _ w' => workers w' = workers w /\ forall k, match tasks w !! k with
       | Some r => if P r then exists fs r', fields r fs /\ updated fs r r' /\ tasks w' !! k = Some r'
                   else tasks w' !! k = Some r
       | None => tasks w' !! k = None
       end)
    (fun _ w' => tasks w' = tasks w /\ workers w' = workers w) w.
Proof.
  intros HI Hrows Hws. pose proof Hrows as Hperm.
  apply (select_rows P rows w (tasks_ok_keyed _ HI)) in Hrows as [Hnd Hin].
  apply wp_commit; [|by intros e w' (? & ? & _) _]. intros w' He _.
  destruct (effects_puts fields rows writes w w' Hnd (fun r Hr => proj2 (Hin r Hr)) Hws He)
    as (H1 & H2 & H3). split; [done|]. intros k.
  destruct (tasks w !! k) as [r|] eqn:Ek.
  - apply HI in Ek as Hg. destruct Hg as [<- _]. destruct (P r) eqn:EP.
    + apply H1. rewrite Hperm. apply list_elem_of_In, filter_In. split; [|done].
      apply list_elem_of_In, list_elem_of_fmap. exists (t_task_id r, r). by rewrite elem_of_map_to_list.
    + rewrite H2; [done|]. intros (r1 & E & Hr1)%list_elem_of_fmap.
      destruct (Hin r1 Hr1) as [HP Hr1']. tables. rewrite <- E in Hr1'. congruence.
  - rewrite H2; [done|]. intros (r1 & E & Hr1)%list_elem_of_fmap.
    destruct (Hin r1 Hr1) as [_ Hr1']. tables. congruence.
Qed.

Lemma wp_clock (Q : Z -> World -> Prop) X w : Q (env_clock (step w)) (bump w) -> wp now_utc Q X w.
Proof. done. Qed.
End exact.

(** ** Claims *)

Section claims.
Context (settings : GatewaySettings) `{Env}.

(** The claim of one task: the oldest queued task goes to the least loaded
    worker with a free slot, and nothing else in the task table changes. *)
Definition claim_spec (w : World) (claim : option (Task * Worker)) (w' : World) : Prop :=
  match claim with
  | Some (task, worker) => exists r r' wk,
      tasks w !! t_task_id task = Some r /\ queued_clause r = true /\
      (forall k q, tasks w !! k = Some q -> queued_clause q = true -> t_created_at r <= t_created_at q) /\
      workers w !! w_id worker = Some wk /\ serviceable_clause settings wk = true /\
      compute_capacity w (w_id worker) < target_per_worker (scaling settings) /\
      (forall k v, workers w !! k = Some v -> dispatchable_clause settings w v = true ->
         compute_capacity w (w_id worker) <= compute_capacity w (w_id v)) /\
      t_payload_key task = t_payload_key r /\ w_base_url worker = w_base_url wk /\ t_next_poll_at r' = t_next_poll_at r /\
      t_status r' = TASK_DISPATCHING /\ t_worker_id r' = Some (w_id worker) /\
      not_none (t_dispatch_started_at r') = true /\ tasks w' = <[t_task_id task := r']> (tasks w)
  | None => tasks w' = tasks w /\ workers w' = workers w /\
      ((forall k q, tasks w !! k = Some q -> queued_clause q = false) \/
       (forall k v, workers w !! k = Some v -> dispatchable_clause settings w v = false))
  end.

Lemma dispatch_order_load w r r' : dispatch_order w r r' = true ->
  compute_capacity w (w_id r) <= compute_capacity w (w_id r').
Proof. unfold dispatch_order, lex, by_key. intros E. by bool_hyps. Qed.

Lemma claim_next_dispatch_exact w : tasks_ok w -> workers_keyed w ->
  wp (claim_next_dispatch settings) (claim_spec w)
    (fun _ w' => tasks w' = tasks w /\ workers w' = workers w) w.
Proof.
  intros HT HW. unfold claim_next_dispatch. wp_go; [|done].
  apply wp_select. intros rows Hrows Hmin. specialize (Hmin ltac:(apply _)).
  pose proof Hrows as Hperm.
  apply (select_rows queued_clause rows (bump w)) in Hrows as [_ Hin]; [|by apply tasks_ok_keyed].
  assert (Hall : forall k q, tasks w !! k = Some q -> queued_clause q = true -> q ∈ rows).
  { intros k q Hq HP. rewrite Hperm. apply list_elem_of_In, filter_In. split; [|done].
    apply list_elem_of_In, list_elem_of_fmap. exists (k, q). by rewrite elem_of_map_to_list. }
  destruct (head rows) as [c|] eqn:Eh; wp_go.
  2: { repeat split. left. intros k q Hq. destruct (queued_clause q) eqn:EP; [|done].
       apply (Hall k q Hq) in EP. destruct rows; [by apply elem_of_nil in EP|done]. }
  assert (Hc : c ∈ rows) by (destruct rows; [done|injection Eh as ->; left]).
  apply Hin in Hc as [Hq Hc]. tables. apply wp_acquire; [done| |].
  { intros Hnone. wp_go. repeat split. right. intros k v Hv.
    destruct (dispatchable_clause settings w v) eqn:EP; [|done]. exfalso.
    apply HW in Hv as Hid. rewrite <- Hid in Hv. apply (Hnone v Hv) in EP. by apply not_elem_of_empty in EP. }
  intros worker touch rw t [Hrow -> -> Hsv Hslot _ Hfirst]. wp_go. apply wp_commit; [|by intros e w' (? & ? & _)].
  intros w' (w1 & (_ & Et1 & _) & w2 & ((r & r' & Hr & Hf & Et2) & _ & _) & _ & Et3 & _) _. wp_go.
  tables. rewrite Et1 in Hr, Et2. assert (r = c) as -> by congruence.
  exists c, r', rw. cbn [w_id set_worker foldl setattr_worker t_task_id set_task setattr_task].
  split; [exact Hc|]. split; [exact Hq|]. split.
  { intros k q Hq' HP. apply (Hall k q Hq'), (Hmin c eq_refl) in HP. by apply Z.leb_le. }
  split; [exact Hrow|]. split; [exact Hsv|]. split; [exact Hslot|]. split.
  { intros k v Hv HP. apply HW in Hv as Hid. rewrite <- Hid in Hv.
    apply dispatch_order_load. apply (Hfirst v Hv HP), not_elem_of_empty. }
  rewrite Et3, Et2. by destruct Hf as [->|[u ->]].
Qed.

(** C19: [_claim_next_dispatch] takes the oldest queued task and the least
    loaded worker with a free slot, leaves every other task alone, returns
    nothing only when no task is queued or no worker has a slot, and changes
    nothing when it raises. *)
Theorem claim_oldest_least_loaded w : tasks_ok w -> workers_keyed w ->
  wp (claim_next_dispatch settings) (claim_spec w)
    (fun _ w' => tasks w' = tasks w /\ workers w' = workers w) w.
Proof. apply claim_next_dispatch_exact. Qed.
End claims.

(** Two queued tasks; [cloud-1] is busy. *)
Definition claim_demo : World := demo_world [demo_worker "cloud-1"; demo_worker "cloud-2"]
  [ demo_task "new" [T_created_at 20]; demo_task "old" [T_created_at 10];
    demo_task "busy" (running_fields TASK_PROCESSING) ] [] [].

Example claim_demo_run :
  match claim_next_dispatch demo_settings claim_demo with
  | (Ok (Some (t, v)), _) => t_task_id t = "old" /\ w_id v = "cloud-2"
  | _ => False
  end.
Proof. vm_compute. split; reflexivity. Qed.

Lemma claim_oldest_least_loaded_witness :
  wp (claim_next_dispatch demo_settings) (claim_spec demo_settings claim_demo)
    (fun _ w' => tasks w' = tasks claim_demo /\ workers w' = workers claim_demo) claim_demo.
Proof. apply claim_oldest_least_loaded; on_demo. Defined.

(** ** A batch *)

(** What dispatch promises of the world it leaves. *)
Record dispatched (settings : GatewaySettings) (w w' : World) : Prop := {
  dp_tasks : tasks_ok w';
  dp_slots : forall id, compute_capacity w' id
    <= Z.max (target_per_worker (scaling settings)) (compute_capacity w id);
  dp_workers : dom (workers w') = dom (workers w);
  dp_settled : settled w w'
}.

(** C6: [dispatch_queued_tasks] terminates, and whatever fails on the way no
    worker is given more tasks than [target_per_worker], every task row stays
    consistent with its status, finished tasks stay as they are and no worker
    appears or disappears. *)
Theorem dispatch_never_oversubscribes (settings : GatewaySettings) `{Env} `{!ObjectStore} `{!MinerU} w :
  tasks_ok w -> workers_keyed w ->
  wp (dispatch_queued_tasks settings) (fun _ => dispatched settings w) (fun _ => dispatched settings w) w.
Proof.
  intros HT HW. unfold dispatch_queued_tasks.
  eapply wp_mono; [by apply (dispatch_loop_ok settings w), dispatch_inv_start| |].
  all: intros a w' [Htasks _ Hdom Hslots Hlawful]; split; try done; by apply lawful_settled.
Qed.

(** Six tasks, one worker with four slots. *)
Definition batch_demo : World := demo_world [demo_worker "cloud-1"]
  ((fun n => demo_task n [T_payload_key (Some (payload_key n))]) <$> ["a"; "b"; "c"; "d"; "e"; "f"]) [] [].

Lemma dispatch_never_oversubscribes_witness :
  wp (dispatch_queued_tasks demo_settings) (fun _ => dispatched demo_settings batch_demo)
    (fun _ => dispatched demo_settings batch_demo) batch_demo.
Proof. apply dispatch_never_oversubscribes; on_demo. Defined.

(** ** Recovery and deadlines *)

Section sweeps.
Context `{Env}.


(** [expire_client_sla_tasks] stamps exactly the running tasks dispatched
    before the deadline that were not stamped yet, changes no other column of
    them (their status included) and no other row, and returns their number. *)
Theorem sla_expiry_exact sla w : tasks_ok w ->
  let late := sla_clause (env_clock (step w) - seconds sla) in
  wp (expire_client_sla_tasks sla)
    (fun n w' => n = Z.of_nat (count_map late (tasks w)) /\ workers w' = workers w /\
       forall k, match tasks w !! k with
       | Some r => if late r then exists t r', tasks w' !! k = Some r' /\
                                      updated [T_client_expired_at (Some t)] r r'
                   else tasks w' !! k = Some r
       | None => tasks w' !! k = None
       end)
    (fun _ w' => tasks w' = tasks w /\ workers w' = workers w) w.
Proof.
  intros HI. cbv zeta. set (cutoff := env_clock (step w) - _).
  unfold expire_client_sla_tasks. apply wp_bind, wp_clock. fold cutoff. wp_go; [|done].
  apply wp_select. intros rows Hrows _. apply wp_bind. change (table _) with (tasks w) in Hrows.
  eapply wp_mono; [apply (wp_map_m (fun w' => tasks w' = tasks w /\ workers w' = workers w) _
    (fun r wr => exists fs, wr = OnTask (Put (t_task_id r) fs) /\
                            exists t, fs = [T_client_expired_at (Some t)]))| |intros e w1 HX; exact HX].
  { intros r w1 _ Hw1. wp_go. split; [exact Hw1|]. eauto. }
  { done. }
  intros writes w1 [[Et Ew] Hws]. wp_go. rewrite <- Et in Hrows.
  eapply wp_mono; [apply (wp_update_rows (sla_clause cutoff)
    (fun _ fs => exists t, fs = [T_client_expired_at (Some t)]) rows writes w1);
    [by apply (all_rows_same _ w)|exact Hrows|exact Hws]| |].
  - intros u w' [Ew' Hk]. wp_go. split; [by rewrite Hrows, Et|]. split; [congruence|]. intros k.
    specialize (Hk k). rewrite Et in Hk. destruct (tasks w !! k) as [r|]; [|exact Hk].
    destruct (sla_clause cutoff r); [|exact Hk].
    destruct Hk as (fs & r' & [t ->] & Hu & Hr'). by exists t, r'.
  - intros e w' [? ?]. split; congruence.
Qed.
End sweeps.

(** A stale claim, a recent one and a late task. *)
Definition sweep_demo : World := demo_world [demo_worker "cloud-1"]
  [ demo_task "stale" [T_status TASK_DISPATCHING; T_worker_id (Some "cloud-1"); T_dispatch_started_at (Some 1)];
    demo_task "recent" [T_status TASK_DISPATCHING; T_worker_id (Some "cloud-1");
                        T_dispatch_started_at (Some demo_epoch)];
    demo_task "late" (running_fields TASK_PROCESSING) ] [] [].

Example sweep_demo_run :
  ((recover_stale_dispatch_claims sweep_demo).1, (expire_client_sla_tasks 3600 sweep_demo).1) = (Ok 1, Ok 2).
Proof. vm_compute. reflexivity. Qed.


Lemma sla_expiry_exact_witness : tasks_ok sweep_demo /\
  exists n w', expire_client_sla_tasks 3600 sweep_demo = (Ok n, w') /\ n = 2.
Proof.
  assert (HI : tasks_ok sweep_demo) by on_demo. split; [exact HI|].
  pose proof (sla_expiry_exact 3600 sweep_demo HI) as Hw. unfold wp in Hw.
  destruct (expire_client_sla_tasks 3600 sweep_demo) as [[n|e|] w'] eqn:E; [|vm_compute in E; discriminate E|destruct Hw].
  exists n, w'. split; [reflexivity|]. destruct Hw as [-> _]. vm_compute. reflexivity.
Defined.
