(* ===== verification/LifecycleSpec.v ===== *)
(** * LifecycleSpec: the life of a task, from upload to result

    What each transition writes on the row, and what the whole fast tick keeps. *)
From S2P Require Import Prelude Models Config World Database Logic Hoare Json Payload Storage Status Lifecycle TaskRows.
From S2P Require Import Upstream WorkerRepository CacheService Results TaskRepository S3 Lock Provider Health.
From S2P Require Import Reconcile Scheduler Demo.

(** ** Status reports *)

(** The status a report leaves on a row: a completed task still has to store
    its result. *)
Definition reported_status (p : upstream_payload) (status : string) : string :=
  match p_status p with
  | None => status
  | Some s => let n := normalize_upstream_status s status in
              if n ==? TASK_COMPLETED then TASK_STORING_RESULT else n
  end.

Definition running (r : Task) : Prop := t_status r = TASK_PROCESSING \/ t_status r = TASK_STORING_RESULT.

(** The columns no report may write. *)
Definition same_dispatch (r r' : Task) : Prop :=
  t_task_id r' = t_task_id r /\ t_worker_id r' = t_worker_id r /\
  t_upstream_task_id r' = t_upstream_task_id r /\ t_upstream_base_url r' = t_upstream_base_url r /\
  t_result_key r' = t_result_key r /\ t_payload_key r' = t_payload_key r /\
  t_cache_key r' = t_cache_key r /\ t_created_at r' = t_created_at r.

Section reports.
Context `{Env}.

Lemma reported_status_running p r : running r ->
  reported_status p (t_status r) ∈ [TASK_PROCESSING; TASK_STORING_RESULT; TASK_FAILED; TASK_EXPIRED].
Proof.
  intros Hr. unfold reported_status. destruct (p_status p) as [s|].
  - assert (Hn : t_status r ∈ [TASK_PROCESSING; TASK_STORING_RESULT])
      by (destruct Hr as [-> | ->]; repeat constructor).
    pose proof (normalized_running s _ Hn) as Hs. cbv zeta.
    repeat (apply elem_of_cons in Hs as [->|Hs]; [concrete; repeat constructor|]). by apply elem_of_nil in Hs.
  - destruct Hr as [-> | ->]; repeat constructor.
Qed.

(** A commit on one row, and the refresh after it. *)
Lemma wp_put_refresh id fs w r (Q : option Task -> World -> Prop) X : tasks w !! id = Some r ->
  (forall r' w', flushed fs r r' -> tasks w' = <[id := r']> (tasks w) -> Q (Some r') w') ->
  (forall e w', tasks w' = tasks w -> X e w') ->
  wp (commit [OnTask (Put id fs)]) (fun _ => wp (row ← refresh_row (A:=Task) id ; mret (Some row)) Q X) X w.
Proof.
  intros Er HQ HX. eapply wp_mono; [by apply wp_put_task| |by intros e w' (? & _); apply HX].
  intros u w' (r' & Hf & Et & _). unfold refresh_row. wp_go. rewrite Et, lookup_insert_eq. wp_go. by apply HQ.
Qed.

(** What a report makes of a row. *)
Definition reported (p : upstream_payload) (r r' : Task) : Prop :=
  t_status r' = reported_status p (t_status r) /\
  (t_status r' ∈ [TASK_FAILED; TASK_EXPIRED] -> not_none (t_completed_at r') = true) /\
  (forall t, t_completed_at r = Some t -> t_completed_at r' = Some t) /\ same_dispatch r r'.

Lemma report_assigns p r (r1 := set_task (apply_upstream_payload (t_status r) p) r) :
  same_dispatch r r1 /\ t_completed_at r1 = t_completed_at r /\
  t_status r1 = default (t_status r) (updated_status p (t_status r)).
Proof.
  unfold r1, apply_upstream_payload, updated_status, same_dispatch.
  destruct (p_status p), (p_backend p), (p_file_names p), (p_error p); by repeat split.
Qed.

Lemma reported_flushed p r r' fs extra : flushed (fs ++ extra) r r' ->
  reported p r (set_task extra (set_task fs r)) -> reported p r r'.
Proof.
  replace (set_task extra (set_task fs r)) with (set_task (fs ++ extra) r)
    by (unfold set_task; by rewrite foldl_app).
  by intros [->|[u ->]].
Qed.

End reports.

Definition report_row : Task := demo_task "t1" (running_fields TASK_PROCESSING).
Definition report_demo : World := demo_world [demo_worker "cloud-1"] [report_row] [] [].

Definition report_payload := mkPayload (Some (Some "completed")) None None None.


(** ** Results *)

Section results.
Context `{Env} `{!ObjectStore} `{!Http}.

(** When [fetch_and_store_result] returns, the bytes it returns are under
    the task's result key, the row is completed and points at them, and a read
    of the result gives these bytes back; no other task changes.  When it
    raises no row has changed: a task is never completed without its result. *)
Theorem completed_result_is_stored id uid url cs w :
  wp (fetch_and_store_result id uid url cs)
    (fun '(key, body) w' => key = result_key id RESULT_FORMAT_ZIP /\ objects w' !! key = Some body /\
       (exists r r', tasks w !! id = Some r /\ tasks w' = <[id := r']> (tasks w) /\
          t_status r' = TASK_COMPLETED /\ t_result_key r' = Some key /\ not_none (t_completed_at r') = true) /\
       wp (read_result id) (fun read _ => read = (body, Some RESULT_FORMAT_ZIP)) (fun _ _ => True) w')
    (fun _ w' => tasks w' = tasks w /\ workers w' = workers w) w.
Proof.
  eapply wp_mono; [apply fetch_and_store_result_wp| |by intros e w' []].
  intros [key body] w' (-> & Ho & _ & r & r' & Hr & Et & _ & Hs & Hk & Hf & Hc & _).
  split; [done|]. split; [done|]. split; [by exists r, r'|].
  unfold read_result. wp_go; [|done]. rewrite Et, lookup_insert_eq. cbn. rewrite Hk. apply wp_bind.
  pose proof (store_get_spec (result_key id RESULT_FORMAT_ZIP) (bump w')) as Hg. unfold wp.
  destruct (store_get _ _) as [[data|e|] w1]; [|done..]. cbn. cbn in Hg. rewrite Hf. congruence.
Qed.
End results.

(** ** The fast tick *)

(** A fast tick always ends, returning or raising; every task row stays
    consistent with its status, a finished task keeps its status, its result and
    its completion time, and every row stays under its id. *)
Theorem fast_tick_keeps_tasks (settings : GatewaySettings) `{Env} `{!ObjectStore} `{!Http} `{!MinerU}
    `{!LockServer} w : tasks_ok w -> workers_keyed w ->
  wp (fast_tick settings) (fun _ w' => tasks_ok w' /\ workers_keyed w' /\ settled w w')
    (fun _ w' => tasks_ok w' /\ workers_keyed w' /\ settled w w') w.
Proof.
  intros HT HW. eapply wp_mono; [apply (fast_tick_inv settings w); by split| |].
  all: intros a w' [HT' [HW' _] Hl]; split; [done|split; [done|by apply lawful_settled]].
Qed.

(** An accepted task keeps its worker, its upstream id and its URL to its end. *)
Definition handoffs_kept (w w' : World) : Prop := forall id r h,
  tasks w !! id = Some r -> phase_of r = Running h \/ phase_of r = Storing h ->
  exists r', tasks w' !! id = Some r' /\
    (phase_of r' = Running h \/ phase_of r' = Storing h \/ exists st k t, phase_of r' = Done st k t).

Lemma lawful_handoffs w w' : lawful w w' -> handoffs_kept w w'.
Proof.
  intros Hl id r h Hr Hp. destruct (Hl id r Hr) as (r' & Hr' & Hlife). exists r'. split; [done|].
  by eapply accepted_stays.
Qed.

(** C7: a fast tick refines the machine [life]: whatever fails on the way every
    row is still there after, and its phase was reached from the one before
    along the machine's edges alone; in particular an accepted task is never
    handed to another worker or queued again. *)
Theorem fast_tick_refines_life (settings : GatewaySettings) `{Env} `{!ObjectStore} `{!Http} `{!MinerU}
    `{!LockServer} w : tasks_ok w -> workers_keyed w ->
  wp (fast_tick settings) (fun _ w' => lawful w w' /\ handoffs_kept w w')
    (fun _ w' => lawful w w' /\ handoffs_kept w w') w.
Proof.
  intros HT HW. eapply wp_mono; [apply (fast_tick_inv settings w); by split| |].
  all: intros a w' [_ _ Hl]; split; [exact Hl|by apply lawful_handoffs].
Qed.

(** A tick of a deployment with a queued task, a finished one to fetch and one
    already stored. *)
Definition tick_demo : World := demo_world [demo_worker "cloud-1"]
  [ demo_task "t1" []; demo_task "t2" (running_fields TASK_STORING_RESULT);
    demo_task "t3" [T_status TASK_COMPLETED; T_completed_at (Some 5); T_result_key (Some "results/t3.zip")] ] [] [].

Example tick_demo_run :
  t_status <$> (tasks (fast_tick demo_settings tick_demo).2 !! "t2") = Some TASK_COMPLETED.
Proof. vm_compute. reflexivity. Qed.

Lemma fast_tick_keeps_tasks_witness :
  wp (fast_tick demo_settings)
    (fun _ w' => tasks_ok w' /\ workers_keyed w' /\ settled tick_demo w')
    (fun _ w' => tasks_ok w' /\ workers_keyed w' /\ settled tick_demo w') tick_demo.
Proof. apply fast_tick_keeps_tasks; on_demo. Defined.

Lemma fast_tick_refines_life_witness :
  wp (fast_tick demo_settings) (fun _ w' => lawful tick_demo w' /\ handoffs_kept tick_demo w')
    (fun _ w' => lawful tick_demo w' /\ handoffs_kept tick_demo w') tick_demo.
Proof. apply fast_tick_refines_life; on_demo. Defined.

(** ** Creation *)

(** The row a creation inserts. *)
Lemma create_queued_task_wp `{Env} id names backend parse_method opts payload source ck w :
  wp (create_queued_task id names backend parse_method opts payload source ck)
    (fun t w' => tasks w !! id = None /\ tasks w' = <[id := t]> (tasks w) /\ workers w' = workers w /\
       task_good id t /\ queued_clause t = true /\ t_file_names t = names /\ t_payload_key t = payload /\
       t_cache_key t = ck /\ t_options_blob t = Some (<["file_names" := OptList names]> opts) /\
       (t_backend t, t_parse_method t, t_source t) = (backend, parse_method, source) /\
       t_client_expired_at t = None /\ t_error t = None /\ objects w' = objects w)
    (fun _ w' => tasks w' = tasks w /\ workers w' = workers w /\ objects w' = objects w) w.
Proof.
  unfold create_queued_task. wp_go; [|done]. apply wp_commit; [|by intros e w' (? & ? & _) ?].
  intros w2 (w3 & ((Hn & c & s & Et3) & Ew3 & _) & Ew4 & Et4 & _) Eo. unfold refresh_row. wp_go.
  cbn in Hn, Et3, Ew3. rewrite Et4, Et3, lookup_insert_eq. wp_go. split; [done|].
  split; [congruence|]. split; [congruence|]. by repeat split.
Qed.

(** An accepted upload becomes one queued row, under its id, with its
    payload, cache key and options (the file names included) and nothing of a
    dispatch; the id was free, no other row changes, and when the call raises
    no row has been created. *)
Theorem upload_is_queued `{Env} id names backend parse_method opts payload source ck w :
  wp (create_queued_task id names backend parse_method opts payload source ck)
    (fun t w' => tasks w !! id = None /\ tasks w' = <[id := t]> (tasks w) /\ workers w' = workers w /\
       task_good id t /\ queued_clause t = true /\ t_file_names t = names /\ t_payload_key t = payload /\
       t_cache_key t = ck /\ t_options_blob t = Some (<["file_names" := OptList names]> opts) /\
       (t_backend t, t_parse_method t, t_source t) = (backend, parse_method, source) /\
       t_client_expired_at t = None /\ t_error t = None)
    (fun _ w' => tasks w' = tasks w /\ workers w' = workers w) w.
Proof.
  eapply wp_mono; [apply create_queued_task_wp| |by intros e w' (? & ? & _)].
  intros t w' (? & ? & ? & ? & ? & ? & ? & ? & ? & ? & ? & ? & _). by split_and!.
Qed.

(** ** Dispatch errors *)

(** The HTTP status an exception carries, if any. *)
Definition status_of (e : exn) : option Z :=
  match e with HTTPStatusError s _ | StatusCodeError s _ => Some s | _ => None end.

(** A dispatch error is final exactly when it carries a 4xx status other
    than 429; every other error is retried on another worker. *)
Theorem only_client_errors_are_final e :
  should_retry e = false <-> exists s, status_of e = Some s /\ 400 <= s < 500 /\ s <> 429.
Proof.
  assert (Hc : forall s, class_of_status s = CONTENT <-> 400 <= s < 500 /\ s <> 429).
  { intros s. unfold class_of_status. destruct (Z.leb_spec 400 s), (Z.ltb_spec s 500), (Z.eqb_spec s 429);
      cbn; split; try done; lia. }
  assert (Hr : should_retry e = false <-> classify_error e = CONTENT).
  { unfold should_retry. rewrite bool_decide_eq_false. by destruct (classify_error e). }
  rewrite Hr. destruct e; cbn; try (split; [done|by intros (? & ? & _)]).
  all: rewrite Hc; split; [eauto|by intros (? & [= <-] & ?)].
Qed.

Section failures.
Context (settings : GatewaySettings) `{Env}.

End failures.

Definition claim_row : Task :=
  demo_task "t1" [T_status TASK_DISPATCHING; T_worker_id (Some "cloud-1"); T_dispatch_started_at (Some 1)].
Definition failure_demo : World := demo_world [demo_worker "cloud-1"; demo_worker "cloud-2"] [claim_row] [] [].

(** The submission to [cloud-1] times out; [cloud-2] takes over. *)
Example failure_demo_run :
  match handle_dispatch_failure demo_settings claim_row (demo_worker "cloud-1") (TimeoutException "timed out") ∅
          failure_demo with
  | (Ok (Reassigned v, _), _) => w_id v = "cloud-2"
  | _ => False
  end.
Proof. vm_compute. reflexivity. Qed.

