(* ===== verification/ProgressSpec.v ===== *)
(** * ProgressSpec: work that can be done is done

    Runs in which the database does not fail, the bucket answers and the workers
    accept what they are given.  In such a run a pass of the scheduler does all
    that the slots and its batch allow. *)
From S2P Require Import Prelude Models Config World Database Logic Hoare Json Payload Storage Status Lifecycle TaskRows Upstream.
From S2P Require Import WorkerRepository CacheService Results TaskRepository S3 Lock Provider Demo LivenessSpec DispatchSpec LifecycleSpec.

(** ** Rows that move together *)

Section rows.
Context (P : Task -> Task -> Prop).

(** Every row of [w] is the row of [w0] under the same id, moved along [P]. *)
Definition follows (w0 w : World) : Prop := forall k, option_Forall2 P (tasks w0 !! k) (tasks w !! k).

Lemma follows_start `{!Reflexive P} w : follows w w.
Proof. intros k. destruct (tasks w !! k); by constructor. Qed.

Lemma follows_tasks w0 w w' : tasks w' = tasks w -> follows w0 w -> follows w0 w'.
Proof. unfold follows. by intros ->. Qed.

Lemma follows_row w0 w k r0 : follows w0 w -> tasks w0 !! k = Some r0 -> exists r, tasks w !! k = Some r /\ P r0 r.
Proof. intros HF Hk. specialize (HF k). rewrite Hk in HF. inversion HF; subst. by eexists. Qed.

Lemma follows_old w0 w k r : follows w0 w -> tasks w !! k = Some r -> exists r0, tasks w0 !! k = Some r0 /\ P r0 r.
Proof. intros HF Hk. specialize (HF k). rewrite Hk in HF. inversion HF; subst. by eexists. Qed.

Lemma follows_put w0 w w' id r0 r' : follows w0 w -> tasks w0 !! id = Some r0 ->
  tasks w' = <[id := r']> (tasks w) -> P r0 r' -> follows w0 w'.
Proof.
  intros HF Hr E HP k. rewrite E. destruct (decide (k = id)) as [->|Hne].
  - rewrite lookup_insert_eq, Hr. by constructor.
  - by rewrite lookup_insert_ne.
Qed.
End rows.

(** ** Commits that cannot fail *)

(** Two facts about the same run. *)
Lemma wp_and {A} (m : M A) Q Q' X X' w : wp m Q X w -> wp m Q' X' w ->
  wp m (fun a w' => Q a w' /\ Q' a w') (fun e w' => X e w' /\ X' e w') w.
Proof. unfold wp. destruct (m w) as [[a|e|] w']; auto. Qed.

Section up.
Context `{Env} (Hup : database_up).

Abbreviation runs m Q w := (wp m Q (fun _ _ => False) w).

Lemma task_put_flushes id fs r w : tasks w !! id = Some r ->
  exists w', flush (OnTask (Put id fs)) w = (Ok tt, w') /\ workers w' = workers w.
Proof.
  intros Hr. unfold flush, flush_row, store_row, guard_db, gets, modify, now_utc. rewrite bind_unfold. cbn. rewrite Hr. cbn.
  repeat case_bool_decide; unfold mbind, M_bind; cbn; by eexists.
Qed.

Lemma worker_put_flushes id fs r w : workers w !! id = Some r -> instances_unique (workers w) ->
  w_instance_id (set_worker fs r) = w_instance_id r ->
  exists w', flush (OnWorker (Put id fs)) w = (Ok tt, w') /\ tasks w' = tasks w.
Proof.
  intros Hr Hu Hi.
  assert (Hfree : forall r', w_instance_id r' = w_instance_id r -> instance_id_taken (workers w) id r' = false).
  { intros r' Hr'. unfold instance_id_taken. rewrite Hr'. destruct (w_instance_id r) as [i|] eqn:Ei; [|done].
    apply not_true_iff_false. intros ([k x] & Hin & Hx)%existsb_exists. cbn in Hx. bool_hyps.
    apply list_elem_of_In, elem_of_map_to_list in Hin. by assert (k = id) by (eapply Hu; eassumption). }
  unfold flush, flush_row, store_row, guard_db, gets, modify, now_utc. rewrite bind_unfold. cbn. rewrite Hr. cbn.
  repeat case_bool_decide; unfold mbind, M_bind; cbn; rewrite ?Hfree by done; by eexists.
Qed.

(** Writes that flush are committed. *)
Lemma commit_up ws w1 (Q : unit -> World -> Prop) w :
  for_each ws flush (bump w) = (Ok tt, w1) ->
  (forall w', effects ws w w' -> objects w' = objects w -> Q tt w') -> runs (commit ws) Q w.
Proof.
  intros Hf HQ. assert (E : commit ws w = (Ok tt, w1)).
  { unfold commit. rewrite bind_unfold. unfold db_fault. rewrite bind_unfold. cbn. rewrite Hup. cbn. by rewrite Hf. }
  unfold wp. rewrite E. apply commit_effects in E as [??]. by apply HQ.
Qed.

(** One UPDATE of a task that exists. *)
Lemma put_task_runs id fs r (Q : unit -> World -> Prop) w : tasks w !! id = Some r ->
  (forall r' w', flushed fs r r' -> tasks w' = <[id := r']> (tasks w) -> workers w' = workers w ->
     objects w' = objects w -> Q tt w') -> runs (commit [OnTask (Put id fs)]) Q w.
Proof.
  intros Hr HQ. destruct (task_put_flushes id fs r (bump w)) as (w1 & E1 & _); [done|].
  eapply commit_up; [cbn [for_each]; by rewrite bind_unfold, E1|].
  intros w' (w2 & ((r1 & r' & Hr1 & Hf & Et2) & Ew2 & _) & Ew3 & Et3 & _) Ho.
  assert (r1 = r) as -> by congruence. apply (HQ r'); congruence || done.
Qed.

Lemma open_runs (Q : unit -> World -> Prop) w : Q tt (bump w) -> runs open_session Q w.
Proof. intros HQ. unfold wp, open_session, db_fault. rewrite bind_unfold. cbn. by rewrite Hup. Qed.
End up.

(** ** The queue *)

Section queue.
Context (settings : GatewaySettings) `{Env} `{!ObjectStore} `{!MinerU}.
Abbreviation runs m Q w := (wp m Q (fun _ _ => False) w).

(** The bucket returns what it holds; every worker accepts every payload, with an
    id and a status that is not a failure. *)
Definition store_up : Prop := forall key data w, objects w !! key = Some data ->
  exists w', store_get key w = (Ok data, w').
Definition accepted (uid status : string) : Prop :=
  uid <> "" /\ normalize_upstream_status (Some status) TASK_PROCESSING ∈ [TASK_PROCESSING; TASK_COMPLETED].
Definition workers_accept : Prop := forall url payload w,
  exists uid status w', submit_payload_to_upstream url payload w = (Ok (uid, status), w') /\ accepted uid status.

(** The payload of a queued task is in the bucket and reads. *)
Definition payload_stored (w : World) (r : Task) : Prop := exists key blob payload,
  t_payload_key r = Some key /\ objects w !! key = Some blob /\ rebuild_blob blob = Ok (Some payload).

(** A world a dispatch can work on. *)
Record ready_to_dispatch (w : World) : Prop := {
  rd_tasks : tasks_ok w;
  rd_workers : workers_keyed w;
  rd_instances : instances_unique (workers w);
  rd_urls : forall k v, workers w !! k = Some v -> serviceable_clause settings v = true -> w_base_url v <> Some "";
  rd_payloads : forall k r, tasks w !! k = Some r -> queued_clause r = true -> payload_stored w r
}.

Definition queued_in (w : World) (k : string) (r : Task) : Prop := tasks w !! k = Some r /\ queued_clause r = true.

Context (Hup : database_up) (Hstore : store_up) (Haccept : workers_accept).

(** Touched rows have the instances and the addresses they had. *)
Lemma kept_row w0 w k v : fleet_kept w0 w -> workers w !! k = Some v ->
  exists v0, workers w0 !! k = Some v0 /\ w_instance_id v = w_instance_id v0 /\ w_base_url v = w_base_url v0 /\
    serviceable_clause settings v = serviceable_clause settings v0.
Proof.
  intros [_ HT] Hv. specialize (HT k). tables. rewrite Hv in HT. destruct (workers w0 !! k) as [v0|]; [|done].
  destruct HT as (t & u & ->). by exists v0.
Qed.

Lemma kept_instances w0 w : fleet_kept w0 w -> instances_unique (workers w0) -> instances_unique (workers w).
Proof.
  intros HF Hu k k' r r' i Hr Hr' Ei Ei'.
  destruct (kept_row _ _ _ _ HF Hr) as (v & Hv & E & _), (kept_row _ _ _ _ HF Hr') as (v' & Hv' & E' & _).
  eapply Hu; [exact Hv|exact Hv'|by rewrite <- E|by rewrite <- E'].
Qed.

Lemma claim_runs w : ready_to_dispatch w -> runs (claim_next_dispatch settings) (fun _ w' => objects w' = objects w) w.
Proof.
  intros [HT HW Hu _ _]. unfold claim_next_dispatch. apply wp_bind, open_runs; [done|]. apply wp_bind, wp_select.
  intros rows Hrows _. apply (select_rows queued_clause rows (bump w)) in Hrows as [_ Hin]; [|by apply tasks_ok_keyed].
  destruct (head rows) as [c|] eqn:Eh; [|by wp_go].
  assert (Hc : c ∈ rows) by (destruct rows; [done|injection Eh as ->; left]). apply Hin in Hc as [_ Hc]. tables.
  apply wp_bind, wp_acquire; [done|intros _; by wp_go|]. intros worker touch rw t [Hrow -> -> _ _ _ _]. wp_go.
  match goal with |- wp (commit [OnWorker (Put ?i ?f); OnTask (Put ?j ?g)]) _ _ ?v =>
    destruct (worker_put_flushes i f rw (bump v)) as (w1 & E1 & Et1); [done..|];
    destruct (task_put_flushes j g c w1) as (w2 & E2 & _); [by rewrite Et1|] end.
  eapply commit_up; [done|cbn [for_each]; rewrite bind_unfold, E1, bind_unfold, E2; done|].
  intros w' _ Ho. wp_go. exact Ho.
Qed.

Lemma rebuild_runs task key blob payload w : t_payload_key task = Some key -> objects w !! key = Some blob ->
  rebuild_blob blob = Ok (Some payload) -> runs (rebuild_payload task) (fun o w' => o = Some payload /\ same_data w w') w.
Proof.
  intros Ek Eo Er. pose proof (rebuild_payload_data task w) as [_ Hd]. revert Hd. unfold wp.
  enough (Hr : (rebuild_payload task w).1 = Ok (Some payload)).
  { destruct (rebuild_payload task w) as [o w']. cbn in *. subst o. by intros Hd. }
  unfold rebuild_payload. rewrite Ek, bind_unfold. unfold try_. rewrite bind_unfold.
  destruct (Hstore _ _ _ Eo) as [w1 ->]. cbn. unfold lift. by rewrite Er.
Qed.

(** The task runs on a worker, under an id of the worker's. *)
Definition on_worker (r : Task) : Prop := running r /\ exists base uid,
  t_upstream_base_url r = Some base /\ base <> "" /\ t_upstream_task_id r = Some uid /\ uid <> "".

Lemma on_worker_left r : on_worker r -> queued_clause r = false.
Proof. intros [[E|E] _]; unfold queued_clause; by rewrite E. Qed.

(** The accepted task has left the queue. *)
Definition handed_over (id : string) (r : Task) (w w' : World) : Prop :=
  objects w' = objects w /\ workers w' = workers w /\
  exists r', tasks w' = <[id := r']> (tasks w) /\ on_worker r' /\ t_next_poll_at r' = t_next_poll_at r.

Lemma processing_runs id wid uid url st r w : tasks w !! id = Some r -> accepted uid st -> url <> "" ->
  runs (mark_processing id wid uid url st) (fun _ => handed_over id r w) w.
Proof.
  intros Hr [Hu Hn] Hne. unfold mark_processing. set (n := normalize_upstream_status _ _) in *. clearbody n.
  apply wp_bind, open_runs; [done|]. wp_go. rewrite Hr.
  assert (Hput : forall fs v, workers v = workers w -> tasks v = tasks w -> objects v = objects w ->
    let r1 := set_task fs r in running r1 -> t_upstream_base_url r1 = Some url -> t_upstream_task_id r1 = Some uid ->
    t_next_poll_at r1 = t_next_poll_at r -> runs (commit [OnTask (Put id fs)]) (fun _ => handed_over id r w) v).
  { intros fs v Ew Et Eo r1 Hrun Eb Eu En. apply (put_task_runs Hup id fs r); [by rewrite Et|]. intros r' w' Hf Et' Ew' Eo'.
    split; [congruence|]. split; [congruence|]. exists r'. split; [by rewrite Et', Et|].
    destruct Hf as [->|[u ->]]; (split; [split; [exact Hrun|by exists url, uid]|exact En]). }
  apply elem_of_cons in Hn as [->|Hn%list_elem_of_singleton]; [|subst n].
  all: wp_steps; concrete; (apply Hput; [done..| | |done|done]); (by left) || (by right) || done.
Qed.

Lemma submit_runs task worker url key blob payload r w : t_payload_key task = Some key ->
  objects w !! key = Some blob -> rebuild_blob blob = Ok (Some payload) ->
  tasks w !! t_task_id task = Some r -> w_base_url worker = Some url -> url <> "" ->
  runs (submit_claimed_task settings task worker) (fun b w' => b = true /\ handed_over (t_task_id task) r w w') w.
Proof.
  intros Ek Eo Eb Hr Eu Hne. unfold submit_claimed_task. wp_go. cbn [submit_loop].
  apply wp_bind. eapply wp_mono; [by eapply rebuild_runs| |done]. cbn beta.
  intros o w1 [-> Hd]. cbv zeta. rewrite Eu.
  replace (str_or (Some url) "") with url by (cbn; by rewrite bool_decide_false). rewrite bool_decide_false by done.
  destruct (Haccept url payload w1) as (uid & st & w2 & E2 & Hacc).
  pose proof (submit_data url payload w1) as [_ Hd2]. rewrite E2 in Hd2. cbn in Hd2.
  apply wp_bind. unfold wp at 1. unfold try_. rewrite bind_unfold, E2. cbn [mret M_ret].
  assert (Hd3 : same_data w w2) by (by transitivity w1). destruct Hd3 as (Ew & Et & _ & _ & Eo2 & _).
  apply wp_bind. eapply wp_mono; [apply (processing_runs _ _ _ _ _ r); [by rewrite Et|done|done]| |done].
  intros _ w3 (Eo3 & Ew3 & r' & Et3 & Hq). wp_go. split; [done|]. split; [congruence|]. split; [congruence|].
  exists r'. by rewrite <- Et.
Qed.

(** ** A batch *)

(** A row waits as it did, or was handed to a worker. *)
Definition dispatched (r0 r : Task) : Prop :=
  r = r0 \/ (queued_clause r0 = true /\ on_worker r /\ t_next_poll_at r = t_next_poll_at r0).

#[local] Instance dispatched_refl : Reflexive dispatched.
Proof. by left. Qed.

(** [d] tasks, the oldest, have left the queue of [w0]; the rest is as it was. *)
Record drained (w0 : World) (d : Z) (w : World) : Prop := {
  dr_inv : dispatch_inv settings w0 w;
  dr_objects : objects w = objects w0;
  dr_queue : forall k r, queued_in w k r -> queued_in w0 k r;
  dr_fifo : forall k q k' r, queued_in w0 k q -> ~ queued_in w k q -> queued_in w k' r -> t_created_at q <= t_created_at r;
  dr_rows : follows dispatched w0 w;
  dr_count : Z.of_nat (count_map queued_clause (tasks w)) + d = Z.of_nat (count_map queued_clause (tasks w0))
}.

Lemma drained_start w : tasks_ok w -> workers_keyed w -> drained w 0 w.
Proof. intros HT HW. split; [by apply dispatch_inv_start|done|done|done|apply follows_start, _|lia]. Qed.

Lemma drained_ready w0 d w : ready_to_dispatch w0 -> drained w0 d w -> ready_to_dispatch w.
Proof.
  intros [_ _ Hu Hurl Hpay] [[HT HF _ _ _] Ho Hq _ _ _]. split.
  - exact HT.
  - apply HF.
  - by eapply kept_instances.
  - intros k v Hv Hs. destruct (kept_row _ _ _ _ HF Hv) as (v0 & Hv0 & _ & -> & Es). eapply Hurl; [exact Hv0|by rewrite <- Es].
  - intros k r Hr HP. destruct (Hq k r (conj Hr HP)) as [Hr0 _]. destruct (Hpay k r Hr0 HP) as (key & blob & p & ? & ? & ?).
    exists key, blob, p. by rewrite Ho.
Qed.

(** The row claimed and then handed over leaves the queue; no other row moves. *)
Lemma drained_step w0 d w w1 w2 id r r1 r2 : drained w0 d w -> dispatch_inv settings w0 w2 -> objects w2 = objects w ->
  tasks w !! id = Some r -> queued_clause r = true ->
  (forall k q, tasks w !! k = Some q -> queued_clause q = true -> t_created_at r <= t_created_at q) ->
  tasks w1 = <[id := r1]> (tasks w) -> tasks w2 = <[id := r2]> (tasks w1) -> on_worker r2 ->
  t_next_poll_at r2 = t_next_poll_at r -> drained w0 (d + 1) w2.
Proof.
  intros [_ Ho Hq Hfifo Hrows Hcount] HI Ho2 Hr HP Hmin E1 E2 Hon Hgate. pose proof (on_worker_left _ Hon) as HP2.
  assert (E : tasks w2 = <[id := r2]> (tasks w)) by (by rewrite E2, E1, insert_insert_eq).
  assert (Hold : forall k q, queued_in w2 k q -> k <> id /\ queued_in w k q).
  { intros k q [Hk Hq']. rewrite E in Hk. apply lookup_insert_Some in Hk as [[<- <-]|[Hne Hk]]; [congruence|by split]. }
  split; [done|congruence|intros k q [_ Hk]%Hold; by apply Hq| | |].
  - intros k q k' q' H0' Hn [Hne' [Hk' HPk']]%Hold.
    destruct (decide (k = id)) as [->|Hne]; [|eapply Hfifo; [exact H0'| |by split]].
    + destruct (decide (queued_in w id q)) as [[Hk _]|Hout]; [|by eapply Hfifo; [exact H0'|exact Hout|split]].
      rewrite Hr in Hk. injection Hk as <-. by eapply Hmin.
    + intros [Hk HPk]. apply Hn. split; [|done]. rewrite E. by rewrite lookup_insert_ne.
  - destruct (follows_old _ _ _ _ _ Hrows Hr) as (r0 & Hr0 & Hd). eapply follows_put; [exact Hrows|exact Hr0|exact E|].
    right. destruct Hd as [->|(_ & Hon0%on_worker_left & _)]; [done|congruence].
  - rewrite E. pose proof (count_map_insert queued_clause (tasks w) id r r2 Hr) as Hc. rewrite HP, HP2 in Hc. lia.
Qed.

(** Nothing is left to do: no task waits, or no worker has a free slot. *)
Definition exhausted (w : World) : Prop :=
  (forall k r, tasks w !! k = Some r -> queued_clause r = false) \/
  (forall k v, workers w !! k = Some v -> dispatchable_clause settings w v = false).

Lemma dispatch_one w0 d w : ready_to_dispatch w0 -> drained w0 d w ->
  runs (claim_next_dispatch settings)
    (fun o w1 => match o with
     | None => drained w0 d w1 /\ exhausted w1
     | Some (task, worker) => runs (submit_claimed_task settings task worker) (fun b w2 => b = true /\ drained w0 (d + 1) w2) w1
     end) w.
Proof.
  intros HR HD. pose proof (drained_ready _ _ _ HR HD) as HRw.
  pose proof (claim_next_dispatch_exact settings w (rd_tasks _ HRw) (rd_workers _ HRw)) as HW1.
  pose proof (claim_next_dispatch_ok settings w0 w (dr_inv _ _ _ HD)) as HW2.
  pose proof (wp_and _ _ _ _ _ _ (wp_and _ _ _ _ _ _ HW1 HW2) (claim_runs w HRw)) as HW3.
  eapply wp_mono; [exact HW3| |by intros e w1 [_ []]]. cbn beta.
  intros o w1 [[Hspec [HI HC]] Ho]. destruct o as [[task worker]|].
  - destruct Hspec as (r & r1 & wk & Hr & HP & Hmin & Hwk & Hsv & _ & _ & Ek & Eu & Hg1 & _ & _ & _ & E1).
    assert (Hr1 : tasks w1 !! t_task_id task = Some r1) by (rewrite E1; apply lookup_insert_eq).
    destruct (w_base_url wk) as [url|] eqn:Eurl.
    2: { unfold serviceable_clause in Hsv. rewrite Eurl in Hsv. by rewrite !andb_false_r in Hsv. }
    assert (Hne : url <> "") by (intros ->; by eapply (rd_urls _ HRw)).
    destruct (rd_payloads _ HRw _ _ Hr HP) as (key & blob & payload & Ekey & Eo & Eb).
    assert (Hrun : runs (submit_claimed_task settings task worker)
      (fun b w2 => b = true /\ handed_over (t_task_id task) r1 w1 w2) w1).
    { by eapply submit_runs; [rewrite Ek|rewrite Ho|..|exact Hr1|rewrite Eu|]. }
    eapply wp_mono; [exact (wp_and _ _ _ _ _ _ Hrun (submit_claimed_task_ok settings w0 task worker w1 HI HC))| |by intros e w2 [[] _]].
    cbn beta. intros b w2 [[-> (Ho2 & _ & r2 & E2 & Hon & Hg2)] HI2]. split; [done|].
    eapply (drained_step w0 d w w1 w2); [done|done|by rewrite Ho2|exact Hr|exact HP|exact Hmin|exact E1|exact E2|exact Hon|congruence].
  - destruct Hspec as (Et & Ew & Hex). split.
    + destruct HD as [_ Hob Hq Hf Hrows Hcount]. split; [done|congruence|..].
      * intros k r. unfold queued_in at 1. rewrite Et. apply Hq.
      * intros k q k' r. unfold queued_in at 2 3. rewrite Et. apply Hf.
      * by apply (follows_tasks _ _ w).
      * by rewrite Et.
    + unfold exhausted. rewrite Et, Ew. destruct Hex as [Hex|Hex]; [by left|right]. intros k v Hv.
      rewrite <- (Hex k v Hv). unfold dispatchable_clause. by rewrite !capacity_count, Et.
Qed.

Lemma dispatch_loop_drains w0 n : forall d w, ready_to_dispatch w0 -> drained w0 d w ->
  runs (dispatch_loop settings n d)
    (fun d' w' => drained w0 d' w' /\ d <= d' <= d + Z.of_nat n /\ (d' = d + Z.of_nat n \/ exhausted w')) w.
Proof.
  induction n as [|n IH]; intros d w HR HD; cbn [dispatch_loop].
  { wp_go. split; [done|]. split; [lia|left; lia]. }
  apply wp_bind. eapply wp_mono; [by apply dispatch_one| |done]. cbn beta.
  intros [[task worker]|] w1 Hc.
  - apply wp_bind. eapply wp_mono; [exact Hc| |done]. cbn beta. intros b w2 [-> HD2].
    eapply wp_mono; [by apply IH| |done]. cbn beta. intros d' w' (HD' & Hb & He). split; [done|]. split; [lia|].
    destruct He as [->|He]; [left; lia|by right].
  - destruct Hc as [HD1 He]. wp_go. split; [done|]. split; [lia|by right].
Qed.

(** C12: when the database and the bucket are up and the workers accept, a dispatch pass
    returns the number of tasks that it handed over; these were the oldest of the queue
    and run on a worker, every other row is as it was, and the pass ends early only when
    no task waits or no worker has a free slot. *)
Theorem dispatch_drains_the_queue w (Hready : ready_to_dispatch w) :
  wp (dispatch_queued_tasks settings)
    (fun n w' =>
       0 <= n <= 32 /\ (n = 32 \/ exhausted w') /\
       Z.of_nat (count_map queued_clause (tasks w')) = Z.of_nat (count_map queued_clause (tasks w)) - n /\
       (forall k r, queued_in w' k r -> queued_in w k r) /\
       (forall k q k' r, queued_in w k q -> ~ queued_in w' k q -> queued_in w' k' r -> t_created_at q <= t_created_at r) /\
       follows dispatched w w' /\ objects w' = objects w)
    (fun _ _ => False) w.
Proof.
  unfold dispatch_queued_tasks. eapply wp_mono; [apply (dispatch_loop_drains w); [done|apply drained_start; apply Hready]| |done].
  cbn beta. intros n w' ([_ Ho Hq Hf Hrows Hc] & Hb & He). change (Z.of_nat DISPATCH_PER_TICK) with 32 in *.
  split; [lia|]. split; [by destruct He as [->|He]; [left; lia|right]|]. split_and!; [lia|done..].
Qed.
End queue.

(** ** Witness: six tasks, one worker with four slots *)

Definition stored_blob : list Byte.byte :=
  match pack_payload demo_settings (mkMultipart [("backend", "pipeline")] []) with Ok blob => blob | _ => [] end.

Definition queue_ids : list string := ["a"; "b"; "c"; "d"; "e"; "f"].
Definition queue_demo : World := demo_world [demo_worker "cloud-1"]
  ((fun id => demo_task id [T_payload_key (Some (payload_key id))]) <$> queue_ids) []
  ((fun id => (payload_key id, stored_blob)) <$> queue_ids).

Definition payload_reads (w : World) (r : Task) : bool :=
  match t_payload_key r with
  | Some key => match objects w !! key with
                | Some blob => match rebuild_blob blob with Ok (Some _) => true | _ => false end
                | None => false
                end
  | None => false
  end.

Lemma payload_reads_stored w r : payload_reads w r = true -> payload_stored w r.
Proof.
  unfold payload_reads, payload_stored. destruct (t_payload_key r) as [key|]; [|done].
  destruct (objects w !! key) as [blob|] eqn:Eo; [|done]. destruct (rebuild_blob blob) as [[p|]|e|] eqn:Eb; try done.
  intros _. by exists key, blob, p.
Qed.

Lemma queue_demo_ready : ready_to_dispatch demo_settings queue_demo.
Proof.
  split; [on_demo|on_demo|..].
  - intros k k' r r' i Hr Hr' _ _. cbn in Hr, Hr'. apply lookup_insert_Some in Hr as [[<- _]|[_ Hr]]; [|by rewrite lookup_empty in Hr].
    apply lookup_insert_Some in Hr' as [[<- _]|[_ Hr']]; [done|by rewrite lookup_empty in Hr'].
  - intros k v Hv _. cbn in Hv. apply lookup_insert_Some in Hv as [[_ <-]|[_ Hv]]; [done|by rewrite lookup_empty in Hv].
  - intros k r Hr _. apply payload_reads_stored.
    assert (Hall : map_Forall (fun _ r => payload_reads queue_demo r = true) (tasks queue_demo)).
    { apply (bool_decide_eq_true _). vm_compute. reflexivity. }
    exact (Hall k r Hr).
Qed.

Lemma demo_store_up : store_up.
Proof.
  intros key data w Ho. unfold store_get. cbn. unfold S3ObjectStore.get, try_. cbn. unfold mbind, M_bind, gets. rewrite Ho. by eexists.
Qed.

Example queue_demo_run : (dispatch_queued_tasks demo_settings queue_demo).1 = Ok 4.
Proof. vm_compute. reflexivity. Qed.

Lemma queue_demo_count : Z.of_nat (count_map queued_clause (tasks queue_demo)) = 6.
Proof. vm_compute. reflexivity. Qed.

Lemma demo_up : database_up.
Proof. done. Qed.

Lemma demo_accepts : workers_accept.
Proof.
  intros url payload w. do 3 eexists. split; [done|]. split; [done|]. apply (bool_decide_eq_true _). vm_compute. reflexivity.
Qed.

Lemma dispatch_drains_the_queue_witness :
  wp (dispatch_queued_tasks demo_settings)
    (fun n w' => Z.of_nat (count_map queued_clause (tasks w')) = 6 - n /\ (n = 32 \/ exhausted demo_settings w'))
    (fun _ _ => False) queue_demo.
Proof.
  eapply wp_mono;
    [exact (dispatch_drains_the_queue demo_settings demo_up demo_store_up demo_accepts queue_demo queue_demo_ready)| |done].
  cbn beta. intros n w' (_ & He & Hc & _). split; [|exact He]. by rewrite Hc, queue_demo_count.
Defined.
