(* ===== verification/CompletionSpec.v ===== *)
(** * CompletionSpec: finished work becomes results

    Runs in which the database does not fail, the bucket takes what it is given,
    and the workers have finished: they report completion and serve the results.
    In such a run one synchronisation pass stores the results of a whole batch. *)
From S2P Require Import Prelude Models Config World Database Logic Hoare Json Payload Storage Status Lifecycle TaskRows Upstream.
From S2P Require Import WorkerRepository CacheService Results TaskRepository S3 Lock Provider Health Reconcile Scheduler Demo.
From S2P Require Import LivenessSpec DispatchSpec ProgressSpec LifecycleSpec.

(** ** A gather in which nothing fails *)

Section gather.
Context `{Env} {A B : Type} (J : World -> Prop) (P : A -> World -> Prop) (body : A -> M B).
Abbreviation runs m Q w := (wp m Q (fun _ _ => False) w).

(** The body keeps the invariant, does its own part and undoes no other. *)
Definition does_part (x : A) : Prop := forall w, J w ->
  runs (body x) (fun _ w' => J w' /\ P x w' /\ forall y, P y w -> P y w') w.

Lemma gather_steps (l : list (nat * A)) : (forall i x, (i, x) ∈ l -> does_part x) ->
  forall acc w, J w ->
  runs (fold_m l (acc, None) (fun '(results, exc) '(i, x) =>
     try_ (v ← body x ; mret (results ++ [(i, v)], exc))
          (fun e => mret (results, match exc with None => Some e | Some e0 => Some e0 end))))
    (fun '(_, exc) w' => exc = None /\ J w' /\ (forall i x, (i, x) ∈ l -> P x w') /\ forall y, P y w -> P y w') w.
Proof.
  induction l as [|[i x] l IH]; intros Hl acc w HJ; cbn [fold_m].
  { wp_go. split_and!; [done..| |done]. by intros i x Hx%elem_of_nil. }
  apply wp_bind, wp_try, wp_bind. eapply wp_mono; [apply (Hl i x); [left|done]| |done].
  cbn beta. intros v w1 (HJ1 & Hx & Hy). wp_go.
  eapply wp_mono; [apply IH; [|done]| |done]; [intros j y Hin; apply (Hl j); by right|].
  cbn beta. intros [results exc] w2 (-> & HJ2 & Hl2 & Hy2). split_and!; [done..| |by auto].
  intros j y [[= -> ->]|Hin]%elem_of_cons; [by auto|by apply (Hl2 j)].
Qed.

Lemma gather_runs `{!Stable J} (l : list A) w : (forall x, x ∈ l -> does_part x) -> J w ->
  runs (gather l body) (fun _ w' => J w' /\ forall x, x ∈ l -> P x w') w.
Proof.
  intros Hl HJ. unfold gather. apply wp_bind. change (wp tick ?Q ?X w) with (Q (step w) (bump w)). cbv beta.
  set (zl := env_shuffle (step w) (zip (seq 0 (length l)) l)).
  assert (Hz : zl ≡ₚ zip (seq 0 (length l)) l) by apply env_shuffle_perm.
  apply wp_bind. eapply wp_mono; [apply (gather_steps zl)| |done].
  - intros i x Hin. rewrite Hz in Hin. apply Hl. by eapply elem_of_zip_r.
  - by apply stable_bump.
  - cbn beta. intros [results exc] w' (-> & HJ' & Hdone & _). wp_go. split; [done|]. intros x Hx.
    apply list_elem_of_lookup in Hx as [i Hi]. apply (Hdone i). rewrite Hz.
    apply list_elem_of_lookup. exists i. apply lookup_zip_with_Some. exists i, x. split; [done|].
    split; [|done]. apply lookup_seq. split; [lia|]. by eapply lookup_lt_Some.
Qed.
End gather.

(** ** Counting *)

(** The rows of [l], and no others, stop counting. *)
Lemma count_map_leave {A} (P P' : A -> bool) (m m' : gmap string A) (l : list string) : NoDup l ->
  (forall k, k ∈ l -> P <$> m !! k = Some true /\ P' <$> m' !! k = Some false) ->
  (forall k, k ∉ l -> P' <$> m' !! k = P <$> m !! k) ->
  (count_map P m = count_map P' m' + length l)%nat.
Proof.
  intros Hnd Hin Hout. rewrite !count_map_size, <- !size_dom, <- (size_list_to_set (C:=gset string) l) by done.
  rewrite <- size_union.
  - f_equal. apply set_eq. intros k. rewrite elem_of_union, elem_of_list_to_set, !elem_of_dom. unfold is_Some.
    setoid_rewrite map_lookup_filter_Some. cbn. destruct (decide (k ∈ l)) as [Hk|Hk].
    + apply Hin in Hk as Hk'. destruct Hk' as [(r & Hr & HP)%fmap_Some _]. split; [by right|intros _; by exists r].
    + specialize (Hout k Hk). split.
      * intros (r & Hr & HP). left. rewrite Hr in Hout. apply fmap_Some in Hout as (r' & Hr' & E). exists r'. by rewrite <- E.
      * intros [(r' & Hr' & HP)|]; [|done]. rewrite Hr' in Hout. symmetry in Hout.
        apply fmap_Some in Hout as (r & Hr & E). exists r. by rewrite <- E.
  - intros k. rewrite elem_of_dom, elem_of_list_to_set. intros [r [Hr HP]%map_lookup_filter_Some] Hk.
    apply Hin in Hk as [_ Hk]. rewrite Hr in Hk. cbn in *. congruence.
Qed.

Lemma count_map_ext {A} (P P' : A -> bool) (m m' : gmap string A) :
  (forall k, P' <$> m' !! k = P <$> m !! k) -> count_map P m = count_map P' m'.
Proof.
  intros E. rewrite (count_map_leave P P' m m' []); [cbn; lia|constructor| |done].
  by intros k Hk%elem_of_nil.
Qed.

Lemma count_map_ge {A} (P : A -> bool) (m : gmap string A) (l : list string) : NoDup l ->
  (forall k, k ∈ l -> P <$> m !! k = Some true) -> (length l <= count_map P m)%nat.
Proof.
  intros Hnd Hin. rewrite count_map_size, <- size_dom, <- (size_list_to_set (C:=gset string) l) by done.
  apply subseteq_size. intros k. rewrite elem_of_list_to_set, elem_of_dom.
  intros (r & Hr & HP)%Hin%fmap_Some. exists r. by apply map_lookup_filter_Some.
Qed.

(** ** Reports *)

Definition running_clause (r : Task) : bool := t_status r ∈? [TASK_PROCESSING; TASK_STORING_RESULT].
Definition storing_clause (r : Task) : bool := t_status r ==? TASK_STORING_RESULT.

Lemma running_clause_true r : running_clause r = true <-> running r.
Proof. unfold running_clause, running. rewrite bool_decide_eq_true. set_solver. Qed.

Section completion.
Context `{Env} `{!ObjectStore} `{!Http} (answer : string -> string -> list Byte.byte).
Abbreviation runs m Q w := (wp m Q (fun _ _ => False) w).

Definition ok_status (r : Response) : bool := (200 <=? r_status r) && (r_status r <? 300).

(** The worker says, whenever it is asked, that the job is done, and gives the answer. *)
Definition reports_completion (base uid : string) : Prop := forall w, exists resp j p s w',
  http_get (report_url base uid) w = (Ok resp, w') /\ ok_status resp = true /\ r_json resp = Some j /\
  report_of_json j = Some p /\ p_status p = Some s /\ forall cur, normalize_upstream_status s cur = TASK_COMPLETED.
Definition serves_result (base uid : string) : Prop := forall w, exists resp w',
  http_get (base +:+ "/tasks/" +:+ uid +:+ "/result") w = (Ok resp, w') /\ ok_status resp = true /\ r_content resp = answer base uid.

(** The task's job is done. *)
Definition job_done (r : Task) : Prop := exists base uid,
  t_upstream_base_url r = Some base /\ base <> "" /\ t_upstream_task_id r = Some uid /\ uid <> "" /\
  reports_completion base uid /\ serves_result base uid.

(** No poll of the task is deferred. *)
Definition gate_open (r : Task) : Prop := forall t n, t_next_poll_at r = Some t -> t <= env_clock n.

Lemma gate_pollable r n : gate_open r -> pollable_clause (env_clock n) r = true.
Proof.
  intros Hg. unfold pollable_clause. destruct (t_next_poll_at r) as [t|] eqn:E; [|done]. cbn.
  apply Z.leb_le. by apply Hg.
Qed.

Definition bucket_accepts : Prop := forall key data w, exists n w', store_put key data w = (Ok n, w').

Context (Hup : database_up) (Hput : bucket_accepts) (Hstore : store_up).

Lemma job_done_columns r r' : t_upstream_base_url r' = t_upstream_base_url r ->
  t_upstream_task_id r' = t_upstream_task_id r -> job_done r -> job_done r'.
Proof. unfold job_done. by intros -> ->. Qed.

(** What a pass of polling makes of a row. *)
Definition polled (r0 r : Task) : Prop := r = r0 \/
  (running r0 /\ t_status r = TASK_STORING_RESULT /\ same_dispatch r0 r /\
   (t_next_poll_at r = t_next_poll_at r0 \/ t_next_poll_at r = None)).

#[local] Instance polled_refl : Reflexive polled.
Proof. by left. Qed.

Lemma same_dispatch_refl r : same_dispatch r r.
Proof. by repeat split. Qed.

Lemma same_dispatch_trans a b c : same_dispatch a b -> same_dispatch b c -> same_dispatch a c.
Proof. unfold same_dispatch. intuition congruence. Qed.

Lemma polled_running r0 r : running r0 -> polled r0 r -> running r /\ same_dispatch r0 r.
Proof. intros Hr [->|(_ & Hs & Hd & _)]; [by split; [|apply same_dispatch_refl]|by split; [right|]]. Qed.

(** Two moves of one row. *)
Lemma polled_step r0 r r' : running r0 -> polled r0 r -> t_status r' = TASK_STORING_RESULT -> same_dispatch r r' ->
  t_next_poll_at r' = t_next_poll_at r \/ t_next_poll_at r' = None -> polled r0 r'.
Proof.
  intros Hr Hp Hs Hd Hn. right. destruct (polled_running _ _ Hr Hp) as [_ Hd0]. split_and!; [done..| |].
  - by eapply same_dispatch_trans.
  - destruct Hp as [->|(_ & _ & _ & [E|E])]; [done| |right; destruct Hn; congruence].
    destruct Hn as [En|En]; [left; congruence|by right].
Qed.

Lemma completion_applies id p s r w : tasks w !! id = Some r -> running r -> p_status p = Some s ->
  (forall cur, normalize_upstream_status s cur = TASK_COMPLETED) ->
  runs (apply_upstream_payload_row id p)
    (fun o w' => exists r', o = Some r' /\ tasks w' = <[id := r']> (tasks w) /\ objects w' = objects w /\
       t_status r' = TASK_STORING_RESULT /\ same_dispatch r r' /\ t_next_poll_at r' = t_next_poll_at r) w.
Proof.
  intros Hr Hrun Ep Hs. destruct (report_assigns p r) as (Hd & _).
  assert (Hn : t_next_poll_at (set_task (apply_upstream_payload (t_status r) p) r) = t_next_poll_at r).
  { unfold apply_upstream_payload. by destruct (p_status p), (p_backend p), (p_file_names p), (p_error p). }
  unfold apply_upstream_payload_row, updated_status. apply wp_bind, open_runs; [done|]. wp_go. rewrite Hr, Ep, Hs.
  set (fs := apply_upstream_payload _ _) in *. cbv zeta. decide_literals. unfold sql_eq. decide_literals. wp_go.
  rewrite app_nil_r. apply (put_task_runs Hup id _ r); [done|]. intros r' w' Hf Et _ Eo.
  unfold refresh_row. wp_go. rewrite Et, lookup_insert_eq. wp_go. exists r'.
  do 3 (split; [done|]).
  assert (E : set_task (fs ++ [T_status TASK_STORING_RESULT]) r = set_task [T_status TASK_STORING_RESULT] (set_task fs r))
    by (unfold set_task; by rewrite foldl_app).
  destruct Hf as [->|[u ->]]; cbn [assign tasks_table stamp_row]; rewrite E.
  all: split; [done|split; [exact Hd|exact Hn]].
Qed.

Lemma clear_gate_runs id r w : tasks w !! id = Some r ->
  runs (clear_poll_gate id) (fun _ w' => exists r', tasks w' = <[id := r']> (tasks w) /\ objects w' = objects w /\
    t_status r' = t_status r /\ same_dispatch r r' /\ (t_next_poll_at r' = t_next_poll_at r \/ t_next_poll_at r' = None)) w.
Proof.
  intros Hr. unfold clear_poll_gate. apply wp_bind, open_runs; [done|]. wp_go. rewrite Hr.
  destruct (not_none _).
  - apply (put_task_runs Hup id _ r); [done|]. intros r' w' Hf Et _ Eo. exists r'.
    do 2 (split; [done|]). destruct Hf as [->|[u ->]]; (split; [done|]; split; [by repeat split|by right]).
  - wp_go. exists r. cbn. rewrite insert_id by done. split_and!; [done..|apply same_dispatch_refl|by left].
Qed.

(** The row has moved to [storing_result], or stayed there; nothing else changed. *)
Definition stored_next (id : string) (r : Task) (w w' : World) : Prop := exists r',
  tasks w' = <[id := r']> (tasks w) /\ objects w' = objects w /\ t_status r' = TASK_STORING_RESULT /\
  same_dispatch r r' /\ (t_next_poll_at r' = t_next_poll_at r \/ t_next_poll_at r' = None).

Lemma worker_says_done base uid w : reports_completion base uid ->
  runs (worker_json_get (report_url base uid)) (fun o w' => same_data w w' /\ exists j p s, o = Some j /\
    report_of_json j = Some p /\ p_status p = Some s /\ forall cur, normalize_upstream_status s cur = TASK_COMPLETED) w.
Proof.
  intros Hd. destruct (Hd w) as (resp & j & p & s & w' & E & Hok & Ej & Ep & Hs).
  pose proof (http_get_data (report_url base uid) w) as [_ Hsame]. rewrite E in Hsame.
  unfold worker_json_get. apply wp_try, wp_bind. unfold wp at 1. rewrite E. unfold raise_for_status.
  unfold ok_status in Hok. rewrite Hok. wp_go. unfold resp_json. rewrite Ej. wp_go. split; [done|]. by exists j, p, s.
Qed.

Lemma refresh_runs id r w : tasks w !! id = Some r -> running r -> job_done r ->
  runs (refresh_task_from_upstream id)
    (fun o w' => (exists u, o = Some u /\ t_status u = TASK_STORING_RESULT) /\ stored_next id r w w') w.
Proof.
  intros Hr Hrun (base & uid & Eb & Hb & Eu & Hu & Hrep & _). unfold refresh_task_from_upstream.
  apply wp_bind, open_runs; [done|]. wp_go. rewrite Hr.
  assert (Hnt : (t_status r ∈? TASK_STATUSES_TERMINAL) = false) by (destruct Hrun as [-> | ->]; vm_compute; reflexivity).
  rewrite Hnt, Eb, Eu. unfold truthy, str_or. rewrite !bool_decide_false by done. cbn [negb orb].
  apply wp_bind. eapply wp_mono; [by apply worker_says_done| |done].
  cbn beta. intros o w1 [(_ & Et & _ & _ & Eo & _) (j & p & s & -> & Ep & Es & Hs)]. rewrite Ep.
  cbn [bump tasks objects] in *. apply wp_bind. eapply wp_mono; [eapply completion_applies; [by rewrite Et|done..]| |done].
  cbn beta. intros o w2 (r2 & -> & Et2 & Eo2 & Hst & Hd & Hn). cbn [not_none is_none negb]. apply wp_bind.
  eapply wp_mono; [apply (clear_gate_runs id r2); by rewrite Et2, lookup_insert_eq| |done].
  cbn beta. intros u w3 (r3 & Et3 & Eo3 & Hst3 & Hd3 & Hn3). wp_go. split; [by eexists|].
  exists r3. rewrite Et3, Et2, insert_insert_eq, Et. split_and!; [done|congruence..| |].
  - by eapply same_dispatch_trans.
  - destruct Hn3; [left; congruence|by right].
Qed.

Lemma sync_one_runs x r w : tasks w !! t_task_id x = Some r -> running r -> job_done r ->
  runs (sync_one x) (fun _ => stored_next (t_task_id x) r w) w.
Proof.
  intros Hr Hrun Hd. unfold sync_one. cbv zeta. apply wp_bind.
  eapply wp_mono; [by eapply refresh_runs| |done]. cbn beta. intros o w1 [(u & -> & Eu) Hs].
  rewrite Eu. case_bool_decide; wp_go; [done|]. decide_literals. cbn [andb]. wp_go. exact Hs.
Qed.

(** ** A pass over a batch *)

Context (w0 : World) (Hok : tasks_ok w0).
Context (Hjobs : forall k r, tasks w0 !! k = Some r -> running r -> job_done r /\ gate_open r).

Definition polling (w : World) : Prop := follows polled w0 w /\ objects w = objects w0.

#[local] Instance polling_stable : Stable polling.
Proof. intros w w' (_ & Et & _ & _ & Eo & _) [HF Ho]. split; [by apply (follows_tasks _ _ w)|congruence]. Qed.

Definition storing_in (w : World) (k : string) : Prop :=
  exists r, tasks w !! k = Some r /\ t_status r = TASK_STORING_RESULT.

Lemma sync_part x r0 : tasks w0 !! t_task_id x = Some r0 -> running r0 ->
  does_part polling (fun y w => storing_in w (t_task_id y)) sync_one x.
Proof.
  intros Hr0 Hrun0 w [HF Ho]. destruct (follows_row _ _ _ _ _ HF Hr0) as (r & Hr & Hp).
  destruct (polled_running _ _ Hrun0 Hp) as [Hrun Hd]. destruct (Hjobs _ _ Hr0 Hrun0) as [Hj _].
  eapply wp_mono; [eapply (sync_one_runs x r); [done..|]| |done].
  - eapply job_done_columns; [| |exact Hj]; apply Hd.
  - cbn beta. intros b w' (r' & Et & Eo & Hs & Hd' & Hn). split; [split; [|congruence]|split].
    + eapply follows_put; [exact HF|exact Hr0|exact Et|]. by eapply polled_step.
    + exists r'. by rewrite Et, lookup_insert_eq.
    + intros y (ry & Hy & Hsy). destruct (decide (t_task_id y = t_task_id x)) as [->|Hne].
      * exists r'. by rewrite Et, lookup_insert_eq.
      * exists ry. by rewrite Et, lookup_insert_ne.
Qed.

Lemma storing_in_clause w k : storing_in w k <-> storing_clause <$> tasks w !! k = Some true.
Proof.
  unfold storing_in, storing_clause. rewrite fmap_Some. split; intros (r & Hr & E); exists r; (split; [done|]).
  - symmetry. by apply bool_decide_eq_true.
  - symmetry in E. by apply bool_decide_eq_true in E.
Qed.

(** The rows a synchronisation polls are those in [processing]. *)
Lemma sync_clause_processing k r n : tasks w0 !! k = Some r ->
  sync_clause (env_clock n) r = true <-> t_status r = TASK_PROCESSING.
Proof.
  intros Hr. destruct (Hok _ _ Hr) as [_ Hwf]. unfold sync_clause. split.
  - intros [[[Hs Hu]%andb_true_iff _]%andb_true_iff _]%andb_true_iff. bool_hyps.
    apply elem_of_cons in Hs as [|Hs%list_elem_of_singleton]; [done|].
    rewrite task_wf_dispatching in Hwf by done. unfold not_none in *. by destruct (t_upstream_task_id r); bool_hyps.
  - intros E. rewrite task_wf_running in Hwf by (by left). bool_hyps. rewrite E. decide_literals.
    repeat (apply andb_true_iff; split); [done..|].
    apply gate_pollable. eapply Hjobs; [exact Hr|by left].
Qed.

Lemma tasks_keyed : keyed Task w0.
Proof. by apply tasks_ok_keyed. Qed.

(** What the pass hands to the next one: a full batch of rows to store, or all that run. *)
Definition polled_batch (w : World) : Prop := polling w /\
  Nat.min HEALTH_BATCH (count_map storing_clause (tasks w)) = Nat.min HEALTH_BATCH (count_map running_clause (tasks w0)).

Lemma polled_full w (l : list string) : polling w -> NoDup l -> length l = HEALTH_BATCH ->
  (forall k, k ∈ l -> storing_in w k) -> polled_batch w.
Proof.
  intros Hp Hnd Hlen Hl. split; [done|]. rewrite !Nat.min_l; [done|..]; rewrite <- Hlen; apply count_map_ge; try done.
  - intros k Hk. destruct (Hl k Hk) as (r & Hr & Hs).
    destruct (follows_old _ _ _ _ _ (proj1 Hp) Hr) as (r0 & Hr0 & HP). rewrite Hr0. cbn. f_equal. apply running_clause_true.
    destruct HP as [->|[Hrun _]]; [by right|done].
  - intros k Hk. by apply storing_in_clause, Hl.
Qed.

Lemma polled_all w : polling w -> (forall k r, tasks w0 !! k = Some r -> t_status r = TASK_PROCESSING -> storing_in w k) ->
  polled_batch w.
Proof.
  intros Hp Hall. split; [done|]. f_equal. symmetry. apply count_map_ext. intros k.
  pose proof (proj1 Hp k) as Hk. inversion Hk as [r0 r HP E0 E|E0 E]; [|done]. cbn. f_equal.
  apply Bool.eq_iff_eq_true. rewrite running_clause_true. unfold storing_clause. rewrite bool_decide_eq_true.
  destruct HP as [->|(Hrun & Hs & _)]; [|by split]. split; [by right|]. intros [Hs|Hs]; [|done].
  destruct (Hall k r0) as (r' & Hr' & Hs'); [done..|]. congruence.
Qed.

Lemma now_runs (Q : Z -> World -> Prop) w : Q (env_clock (step w)) (bump w) -> runs now_utc Q w.
Proof. done. Qed.

(** The first rows of a query, when every row is under its id. *)
Lemma batch_rows (P : Task -> bool) (l : list Task) n w : keyed Task w ->
  l ≡ₚ List.filter P (map_to_list (tasks w)).*2 ->
  NoDup (t_task_id <$> take n l) /\ (forall x, x ∈ take n l -> P x = true /\ tasks w !! t_task_id x = Some x) /\
  (length l = count_map P (tasks w)) /\
  (length (take n l) = n \/ forall k r, tasks w !! k = Some r -> P r = true -> r ∈ take n l).
Proof.
  intros Hk Hl. pose proof (select_rows P l w Hk Hl) as [Hnd Hin]. split_and!.
  - rewrite fmap_take. by eapply sublist_NoDup, sublist_take.
  - intros x Hx. apply Hin. apply elem_of_take in Hx as (i & Hi & _). by eapply list_elem_of_lookup_2.
  - unfold count_map. by rewrite <- Hl.
  - destruct (decide (length l <= n)%nat) as [Hle|Hgt]; [right|left; rewrite length_take; lia].
    rewrite take_ge by done. intros k r Hr HP. rewrite Hl. apply list_elem_of_In, filter_In. split; [|done].
    apply list_elem_of_In, list_elem_of_fmap. exists (k, r). split; [done|]. by apply elem_of_map_to_list.
Qed.

Lemma sync_pass_runs : runs sync_dispatched_task_statuses (fun _ => polled_batch) w0.
Proof.
  unfold sync_dispatched_task_statuses. apply wp_bind, open_runs; [done|]. apply wp_bind, now_runs, wp_bind, wp_select.
  intros l Hl _. set (w1 := bump (bump (bump w0))) in *.
  destruct (batch_rows _ l HEALTH_BATCH w0 tasks_keyed Hl) as (Hnd & Hin & _ & Hfull).
  assert (Hrows : forall x, x ∈ take HEALTH_BATCH l -> tasks w0 !! t_task_id x = Some x /\ t_status x = TASK_PROCESSING).
  { intros x Hx. destruct (Hin x Hx) as [HP Hr]. split; [done|]. by apply (sync_clause_processing _ _ _ Hr) in HP. }
  apply wp_bind. eapply wp_mono; [apply (gather_runs polling (fun y w => storing_in w (t_task_id y)))| |done].
  - apply _.
  - intros x [Hr Hs]%Hrows. eapply sync_part; [exact Hr|by left].
  - apply (stable_bump polling), (stable_bump polling), (stable_bump polling). split; [apply follows_start, _|done].
  - cbn beta. intros rs w' [Hp Hdone]. wp_go. destruct Hfull as [Hlen|Hall].
    + apply (polled_full _ (t_task_id <$> take HEALTH_BATCH l)); [done|done|by rewrite length_fmap|].
      intros k (x & -> & Hx)%list_elem_of_fmap. by apply Hdone.
    + apply polled_all; [done|]. intros k r Hr Hs.
      destruct (Hok _ _ Hr) as [<- _]. apply Hdone, (Hall _ _ Hr). by apply (sync_clause_processing _ _ _ Hr).
Qed.

(** ** Results *)

(** The row is completed and points at its result. *)
Definition result_row (id : string) (r : Task) : Prop := t_status r = TASK_COMPLETED /\
  t_result_key r = Some (result_key id RESULT_FORMAT_ZIP) /\ t_result_format r = Some RESULT_FORMAT_ZIP /\
  not_none (t_completed_at r) = true.

(** The worker and the id of the job are kept. *)
Definition same_job (r r' : Task) : Prop :=
  t_upstream_base_url r' = t_upstream_base_url r /\ t_upstream_task_id r' = t_upstream_task_id r.

Lemma complete_runs id r w : tasks w !! id = Some r ->
  runs (complete_with_result id (result_key id RESULT_FORMAT_ZIP) RESULT_FORMAT_ZIP)
    (fun _ w' => objects w' = objects w /\ exists r', tasks w' = <[id := r']> (tasks w) /\ result_row id r' /\ same_job r r') w.
Proof.
  intros Hr. unfold complete_with_result. apply wp_bind, open_runs; [done|]. wp_go. rewrite Hr.
  destruct (t_completed_at r) as [t|] eqn:Ec; wp_go.
  all: apply (put_task_runs Hup id _ r); [done|]; intros r' w' Hf Et _ Eo; wp_go.
  all: split; [done|exists r'; split; [done|]]; destruct Hf as [->|[u ->]]; (split; [|by split]); split_and!; try done.
  all: cbn; by rewrite Ec.
Qed.

Lemma result_key_zip a b : result_key a RESULT_FORMAT_ZIP = result_key b RESULT_FORMAT_ZIP -> a = b.
Proof. unfold result_key. cbn. intros E%string_app_inj_l%string_app_inj_l. by apply string_app_inj_r in E. Qed.

(** The answer to the job is in the bucket, where the completed row points. *)
Definition finished_with (w : World) (k base uid : string) : Prop := exists r,
  tasks w !! k = Some r /\ result_row k r /\ t_upstream_base_url r = Some base /\ t_upstream_task_id r = Some uid /\
  objects w !! result_key k RESULT_FORMAT_ZIP = Some (answer base uid).

(** The rows and results of the other tasks are as they were. *)
Definition same_others (id : string) (w w' : World) : Prop := forall k, k <> id ->
  tasks w' !! k = tasks w !! k /\ objects w' !! result_key k RESULT_FORMAT_ZIP = objects w !! result_key k RESULT_FORMAT_ZIP.

Lemma fetch_runs id base uid r w : tasks w !! id = Some r -> serves_result base uid ->
  t_upstream_base_url r = Some base -> t_upstream_task_id r = Some uid ->
  runs (fetch_and_store_result id uid base true) (fun _ w' => finished_with w' id base uid /\ same_others id w w') w.
Proof.
  intros Hr Hs Eb Eu. destruct (Hs w) as (resp & w1 & E1 & Hok' & Ec).
  pose proof (http_get_data (base +:+ "/tasks/" +:+ uid +:+ "/result") w) as [_ Hd1]. rewrite E1 in Hd1. cbn in Hd1.
  destruct Hd1 as (_ & Et1 & _ & _ & Eo1 & _).
  unfold fetch_and_store_result. cbv zeta. apply wp_bind. unfold wp at 1. rewrite E1. unfold raise_for_status.
  unfold ok_status in Hok'. rewrite Hok', Ec. wp_go. unfold store_result. cbv zeta. set (key := result_key id RESULT_FORMAT_ZIP) in *.
  destruct (Hput key (answer base uid) w1) as (n & w2 & E2). pose proof (store_put_wp key (answer base uid) w1) as Hp.
  unfold wp in Hp. rewrite E2 in Hp. destruct Hp as [(_ & Et2 & _) Eo2].
  apply wp_bind. unfold wp at 1. rewrite E2. wp_go. apply wp_try.
  eapply wp_mono; [apply (complete_runs id r); by rewrite Et2, Et1| |done].
  cbn beta. intros ck w3 (Eo3 & r' & Et3 & Hrow & Eb' & Eu'). apply wp_bind.
  assert (Hpop : runs (if true && truthy ck
      then try_ (populate_from_task id (str_or ck "") RESULT_FORMAT_ZIP) (fun _ => mret tt) else mret tt)
    (fun _ w4 => same_rows w3 w4 /\ same_results w3 w4) w3).
  { destruct (true && truthy ck); [|by wp_go]. apply (wp_swallow (fun v v' => same_rows v v' /\ same_results v v')).
    apply evolves_and; [apply populate_from_task_rows|apply populate_from_task_results]. }
  eapply wp_mono; [exact Hpop| |done]. intros u w4 [[Et4 _] Ho4]. wp_go.
  assert (Et : tasks w4 = <[id := r']> (tasks w)) by congruence.
  assert (Ho : forall k, objects w4 !! result_key k RESULT_FORMAT_ZIP = <[key := answer base uid]> (objects w) !! result_key k RESULT_FORMAT_ZIP)
    by (intros k; rewrite Ho4; congruence).
  split.
  - exists r'. split; [by rewrite Et, lookup_insert_eq|]. split; [done|]. split; [congruence|]. split; [congruence|].
    rewrite Ho. unfold key. by rewrite lookup_insert_eq.
  - intros k Hne. rewrite Et, lookup_insert_ne by done. split; [done|].
    rewrite Ho. unfold key. rewrite lookup_insert_ne; [done|]. by intros ?%result_key_zip.
Qed.

(** ** Storing a batch *)

Section persist.
Context (w1 : World) (Hp1 : polled_batch w1).

Lemma storing_row k r : tasks w1 !! k = Some r -> t_status r = TASK_STORING_RESULT ->
  t_task_id r = k /\ job_done r /\ gate_open r /\ unstored_clause r = true.
Proof.
  intros Hr Hs. destruct (follows_old _ _ _ _ _ (proj1 (proj1 Hp1)) Hr) as (r0 & Hr0 & HP).
  assert (Hrun : running r0) by (destruct HP as [->|[? _]]; [by right|done]).
  destruct (polled_running _ _ Hrun HP) as [_ (Eid & _ & Eu & Eb & Ek & _)].
  destruct (Hok _ _ Hr0) as [Hid Hwf]. destruct (Hjobs _ _ Hr0 Hrun) as [Hj Hg]. split_and!.
  - congruence.
  - by eapply job_done_columns.
  - intros t n Ht. destruct HP as [->|(_ & _ & _ & [E|E])]; [by eapply Hg|eapply Hg; congruence|congruence].
  - rewrite task_wf_running in Hwf by done. unfold unstored_clause. rewrite Hs, Eu, Eb, Ek. decide_literals.
    by bool_hyps; repeat (apply andb_true_iff; split).
Qed.

Lemma to_store k r n : tasks w1 !! k = Some r ->
  (unstored_clause r && pollable_clause (env_clock n) r) = storing_clause r.
Proof.
  intros Hr. unfold storing_clause. apply Bool.eq_iff_eq_true. rewrite bool_decide_eq_true. split.
  - unfold unstored_clause. intros E. by bool_hyps.
  - intros Hs. destruct (storing_row _ _ Hr Hs) as (_ & _ & Hg & ->). by rewrite gate_pollable.
Qed.

Lemma storing_keyed : keyed Task w1.
Proof.
  intros k r Hr. destruct (follows_old _ _ _ _ _ (proj1 (proj1 Hp1)) Hr) as (r0 & Hr0 & HP).
  destruct (Hok _ _ Hr0) as [Hid _]. destruct HP as [->|(_ & _ & [E _] & _)]; [done|]. cbn. congruence.
Qed.

(** Only the tasks [ids] are being stored, and they keep their jobs. *)
Definition persisting (ids : list string) (w : World) : Prop :=
  (forall k, k ∉ ids -> tasks w !! k = tasks w1 !! k /\
     objects w !! result_key k RESULT_FORMAT_ZIP = objects w1 !! result_key k RESULT_FORMAT_ZIP) /\
  (forall k r1, k ∈ ids -> tasks w1 !! k = Some r1 -> exists r, tasks w !! k = Some r /\ same_job r1 r).

#[local] Instance persisting_stable ids : Stable (persisting ids).
Proof. intros w w' (_ & Et & _ & _ & Eo & _). unfold persisting. by rewrite Et, Eo. Qed.

Lemma persisting_start ids w : same_data w1 w -> persisting ids w.
Proof.
  intros (_ & Et & _ & _ & Eo & _). split; [by rewrite Et, Eo|]. intros k r1 _ Hr. rewrite Et. exists r1. by repeat split.
Qed.

(** The task's own worker has answered. *)
Definition answered (r : Task) (w : World) : Prop := exists base uid,
  t_upstream_base_url r = Some base /\ t_upstream_task_id r = Some uid /\ finished_with w (t_task_id r) base uid.

Lemma persist_part ids x : tasks w1 !! t_task_id x = Some x -> t_status x = TASK_STORING_RESULT -> t_task_id x ∈ ids ->
  forall w, persisting ids w -> runs (persist_one true x)
    (fun _ w' => persisting ids w' /\ answered x w' /\ same_others (t_task_id x) w w') w.
Proof.
  intros Hx Hs Hin w [Hout Hids]. destruct (storing_row _ _ Hx Hs) as (_ & (base & uid & Eb & Hb & Eu & Hu & _ & Hserve) & _).
  destruct (Hids _ _ Hin Hx) as (r & Hr & Eb' & Eu'). unfold persist_one. rewrite Eb, Eu. unfold truthy, str_or.
  rewrite !bool_decide_false by done. cbn [negb orb]. apply wp_try, wp_bind.
  eapply wp_mono; [eapply (fetch_runs _ base uid r); [done|done|congruence|congruence]| |done].
  cbn beta. intros v w' [Hf Hsame]. wp_go. split; [split|split; [by exists base, uid|done]].
  - intros k Hk. destruct (Hsame k) as [-> ->]; [congruence|]. by apply Hout.
  - intros k r1 Hk Hr1. destruct (decide (k = t_task_id x)) as [->|Hne].
    + destruct Hf as (r' & Hr' & _ & Eb2 & Eu2 & _). exists r'. split; [done|]. assert (r1 = x) as -> by congruence.
      unfold same_job. split; congruence.
    + destruct (Hsame k Hne) as [-> _]. by apply Hids.
Qed.

(** An answer stays when another task is answered. *)
Lemma answered_others x y w w' : tasks w1 !! t_task_id x = Some x -> tasks w1 !! t_task_id y = Some y ->
  answered x w' -> same_others (t_task_id x) w w' -> answered y w -> answered y w'.
Proof.
  intros Hx Hy Hax Ho Hay. destruct (decide (t_task_id y = t_task_id x)) as [E|Hne].
  - assert (y = x) as -> by congruence. done.
  - destruct (Ho _ Hne) as [Et Eo]. unfold answered, finished_with. by rewrite Et, Eo.
Qed.

(** A batch of the tasks that store their result is answered; nothing else changes. *)
Definition persisted_batch (w : World) : Prop := exists ids, NoDup ids /\
  length ids = Nat.min HEALTH_BATCH (count_map storing_clause (tasks w1)) /\
  (forall k, k ∈ ids -> exists r, tasks w1 !! k = Some r /\ t_task_id r = k /\ t_status r = TASK_STORING_RESULT /\ answered r w) /\
  (forall k, k ∉ ids -> tasks w !! k = tasks w1 !! k /\
     objects w !! result_key k RESULT_FORMAT_ZIP = objects w1 !! result_key k RESULT_FORMAT_ZIP).

Lemma persist_runs (rows : list Task) w : same_data w1 w ->
  (forall x, x ∈ rows -> tasks w1 !! t_task_id x = Some x /\ t_status x = TASK_STORING_RESULT) ->
  runs (persist_pending_results rows true)
    (fun _ w' => persisting (t_task_id <$> rows) w' /\ forall x, x ∈ rows -> answered x w') w.
Proof.
  intros Hd Hrows. pose proof (persisting_start (t_task_id <$> rows) w Hd) as Hp. unfold persist_pending_results.
  set (P := fun y w' => tasks w1 !! t_task_id y = Some y /\ answered y w').
  assert (Hg : runs (gather rows (persist_one true))
    (fun _ w' => persisting (t_task_id <$> rows) w' /\ forall x, x ∈ rows -> P x w') w).
  { apply (gather_runs _ P); [apply _| |done]. intros x Hx w2 Hp2. destruct (Hrows x Hx) as [Hr Hs].
    eapply wp_mono; [apply (persist_part (t_task_id <$> rows)); [done..|by apply list_elem_of_fmap_2|done]| |done].
    cbn beta. intros v w3 (Hp3 & Ha & Ho). split; [done|]. split; [by split|].
    intros y [Hy Hay]. split; [done|]. by apply (answered_others x y w2). }
  destruct rows as [|x rows]; [wp_go; split; [done|by intros x Hx%elem_of_nil]|].
  apply wp_bind. eapply wp_mono; [exact Hg| |done]. cbn beta. intros rs w' [Hp' Hdone]. wp_go.
  split; [done|]. intros y Hy. by apply Hdone.
Qed.

Lemma persist_pass_runs :
  runs (tasks ← list_unstored_completed HEALTH_BATCH ; _ ← persist_pending_results tasks true ; mret tt)
    (fun _ => persisted_batch) w1.
Proof.
  apply wp_bind. unfold list_unstored_completed. apply wp_bind, open_runs; [done|]. apply wp_bind, now_runs, wp_bind, wp_select.
  intros l Hl _. wp_go.
  assert (Hl' : l ≡ₚ List.filter storing_clause (map_to_list (tasks w1)).*2).
  { rewrite Hl. apply reflexive_eq, List.filter_ext_in. intros r ([k r'] & -> & Hkr)%list_elem_of_In%list_elem_of_fmap.
    apply elem_of_map_to_list in Hkr. by apply (to_store k). }
  destruct (batch_rows _ l HEALTH_BATCH w1 storing_keyed Hl') as (Hnd & Hin & Hlen & _).
  assert (Hrows : forall x, x ∈ take HEALTH_BATCH l -> tasks w1 !! t_task_id x = Some x /\ t_status x = TASK_STORING_RESULT)
    by (intros x [Hs%bool_decide_eq_true Hr]%Hin; by split).
  eapply wp_mono; [by apply persist_runs| |done].
  cbn beta. intros n w' [[Hout _] Hdone]. wp_go. exists (t_task_id <$> take HEALTH_BATCH l). split_and!; [done| | |done].
  - by rewrite length_fmap, length_take, Hlen.
  - intros k (x & -> & Hx)%list_elem_of_fmap. exists x. destruct (Hrows x Hx). by auto.
Qed.
End persist.

Lemma polled_count w : follows polled w0 w -> count_map running_clause (tasks w) = count_map running_clause (tasks w0).
Proof.
  intros HF. apply count_map_ext. intros k. specialize (HF k). inversion HF as [r0 r HP E0 E|E0 E]; [|done].
  cbn. f_equal. apply Bool.eq_iff_eq_true. rewrite !running_clause_true.
  destruct HP as [->|(Hr & Hs & _)]; [done|]. split; [by right|done].
Qed.

(** A completed row's result can be read. *)
Lemma finished_reads k base uid w : finished_with w k base uid ->
  runs (read_result k) (fun read _ => read = (answer base uid, Some RESULT_FORMAT_ZIP)) w.
Proof.
  intros (r & Hr & (_ & Ek & Ef & _) & _ & _ & Ho). unfold read_result. apply wp_bind, open_runs; [done|]. wp_go.
  rewrite Hr, Ek. apply wp_bind. destruct (Hstore _ _ (bump w) Ho) as [w' E]. unfold wp at 1. rewrite E. wp_go. by rewrite Ef.
Qed.

(** What a whole pass makes of a row: a running task goes on, or is answered. *)
Definition synced (k : string) (w w' : World) (r r' : Task) : Prop :=
  if running_clause r
  then (polled r r' \/ exists base uid, t_upstream_base_url r = Some base /\ t_upstream_task_id r = Some uid /\
                         result_row k r' /\ finished_with w' k base uid)
  else r' = r /\ objects w' !! result_key k RESULT_FORMAT_ZIP = objects w !! result_key k RESULT_FORMAT_ZIP.

Definition synced_rows (w w' : World) : Prop := forall k,
  match tasks w !! k, tasks w' !! k with
  | Some r, Some r' => synced k w w' r r'
  | None, None => True
  | _, _ => False
  end.

Lemma synchronize_runs :
  runs synchronize_tasks_and_results
    (fun _ w' => synced_rows w0 w' /\
       count_map running_clause (tasks w0) =
         (count_map running_clause (tasks w') + Nat.min HEALTH_BATCH (count_map running_clause (tasks w0)))%nat) w0.
Proof.
  unfold synchronize_tasks_and_results. apply wp_bind. eapply wp_mono; [by apply sync_pass_runs| |done].
  cbn beta. intros n w1 Hp1. eapply wp_mono; [by apply (persist_pass_runs w1 Hp1)| |done].
  cbn beta. intros u w' (ids & Hnd & Hlen & Hin & Hout). pose proof Hp1 as [[HF Ho] Hmin]. split.
  - intros k. pose proof (HF k) as Hk. inversion Hk as [r r1 HP E0 E|E0 E]; destruct (decide (k ∈ ids)) as [Hk'|Hk'].
    + destruct (Hin k Hk') as (r2 & Hr2 & Hid & Hs & base & uid & Eb & Eu & Hf). assert (r2 = r1) as -> by congruence.
      pose proof Hf as (r' & Hr' & Hrow & _). rewrite Hid in *. rewrite Hr'. unfold synced.
      assert (Hr : running r) by (destruct HP as [->|[? _]]; [by right|done]).
      rewrite (proj2 (running_clause_true r) Hr). right. exists base, uid.
      destruct (polled_running _ _ Hr HP) as [_ (_ & _ & Eu1 & Eb1 & _)]. split_and!; [congruence..|done|done].
    + destruct (Hout k Hk') as [-> Ek]. rewrite <- E. unfold synced. destruct (running_clause r) eqn:Er; [by left|].
      rewrite Ek, Ho. split; [|done]. destruct HP as [->|[Hr _]]; [done|]. apply running_clause_true in Hr. congruence.
    + destruct (Hin k Hk') as (r2 & Hr2 & _). congruence.
    + by destruct (Hout k Hk') as [-> _]; rewrite <- E.
  - assert (Hc : (count_map running_clause (tasks w1) = count_map running_clause (tasks w') + length ids)%nat).
    { apply count_map_leave; [done| |by intros k Hk; destruct (Hout k Hk) as [-> _]].
      intros k (r2 & -> & Hid & Hs & base & uid & _ & _ & r' & Hr' & (Hs' & _) & _)%Hin. rewrite Hid in Hr'.
      rewrite Hr'. cbn. unfold running_clause. by rewrite Hs, Hs'. }
    assert (Ec : count_map running_clause (tasks w1) = count_map running_clause (tasks w0)) by (by apply polled_count).
    lia.
Qed.
End completion.

(** C13: with the database up, a bucket that takes and returns objects and workers that
    have finished the jobs they hold, a synchronisation pass ends without an
    exception and completes 32 of the running tasks, or all of them: each completed
    task reads back the answer its own worker gave for its own job, the others keep
    running on their workers, and no other row changes. *)
Theorem finished_work_is_stored `{Env} `{!ObjectStore} `{!Http} (answer : string -> string -> list Byte.byte) w
  (Hup : database_up) (Hput : bucket_accepts) (Hstore : store_up) (Hok : tasks_ok w)
  (Hjobs : forall k r, tasks w !! k = Some r -> running r -> job_done answer r /\ gate_open r) :
  wp synchronize_tasks_and_results
    (fun _ w' =>
       Z.of_nat (count_map running_clause (tasks w')) = Z.max 0 (Z.of_nat (count_map running_clause (tasks w)) - 32) /\
       forall k, match tasks w !! k, tasks w' !! k with
         | Some r, Some r' =>
             if running_clause r
             then running r' /\ same_dispatch r r' \/
                  exists base uid, t_upstream_base_url r = Some base /\ t_upstream_task_id r = Some uid /\ result_row k r' /\
                    wp (read_result k) (fun read _ => read = (answer base uid, Some RESULT_FORMAT_ZIP)) (fun _ _ => False) w'
             else r' = r
         | None, None => True
         | _, _ => False
         end)
    (fun _ _ => False) w.
Proof.
  eapply wp_mono; [by apply (synchronize_runs answer Hup Hput w Hok Hjobs)| |done]. cbn beta. intros u w' [Hrows Hc].
  split; [unfold HEALTH_BATCH in Hc; lia|]. intros k. specialize (Hrows k).
  destruct (tasks w !! k) as [r|], (tasks w' !! k) as [r'|]; try done. unfold synced in Hrows.
  destruct (running_clause r) eqn:Er; [|apply Hrows]. apply running_clause_true in Er.
  destruct Hrows as [Hp|(base & uid & Eb & Eu & Hrow & Hf)]; [left; by apply polled_running|right].
  exists base, uid. split_and!; [done..|]. by apply finished_reads.
Qed.

(** ** Witness: a running task, one that waits for its result, one in the queue *)

Definition done_demo : World := demo_world [demo_worker "cloud-1"]
  [demo_task "a" (running_fields TASK_PROCESSING); demo_task "b" (running_fields TASK_STORING_RESULT); demo_task "c" []] [] [].

Definition demo_job : Task := demo_task "a" (running_fields TASK_PROCESSING).

Lemma demo_completed cur : normalize_upstream_status (Some "completed") cur = TASK_COMPLETED.
Proof.
  unfold normalize_upstream_status.
  replace (assoc "completed" UPSTREAM_TO_INTERNAL) with (Some TASK_COMPLETED) by (vm_compute; reflexivity).
  decide_literals. by rewrite andb_false_r.
Qed.

Definition demo_answer (base uid : string) : list Byte.byte := demo_body.

Lemma demo_job_done : job_done demo_answer demo_job.
Proof.
  exists "http://10.0.0.7:8000", "upstream-1". do 2 (split; [done|]). do 2 (split; [done|]). split.
  - intros w. do 5 eexists. split; [reflexivity|]. split; [reflexivity|]. split; [reflexivity|]. split; [reflexivity|].
    split; [reflexivity|]. exact demo_completed.
  - intros w. by do 2 eexists.
Qed.

Lemma done_demo_jobs k r : tasks done_demo !! k = Some r -> running r -> job_done demo_answer r /\ gate_open r.
Proof.
  intros Hr Hrun.
  assert (Hall : map_Forall (fun _ r => running_clause r = true -> t_next_poll_at r = None /\
    t_upstream_base_url r = t_upstream_base_url demo_job /\ t_upstream_task_id r = t_upstream_task_id demo_job) (tasks done_demo)).
  { apply (bool_decide_eq_true _). vm_compute. reflexivity. }
  destruct (Hall k r Hr) as (Hg & Eb & Eu); [by apply running_clause_true|].
  split; [by eapply job_done_columns, demo_job_done|]. intros t n. by rewrite Hg.
Qed.

Lemma demo_accepts_objects : bucket_accepts.
Proof.
  intros key data w. unfold store_put. cbn. unfold S3ObjectStore.put. cbn. by do 2 eexists.
Qed.

Example done_demo_run :
  (fun r => (t_status r, t_result_key r)) <$> tasks (synchronize_tasks_and_results done_demo).2 !! "a" =
    Some (TASK_COMPLETED, Some "results/a.zip").
Proof. vm_compute. reflexivity. Qed.

Lemma done_demo_count : Z.of_nat (count_map running_clause (tasks done_demo)) = 2.
Proof. vm_compute. reflexivity. Qed.

Lemma finished_work_is_stored_witness :
  wp synchronize_tasks_and_results (fun _ w' => Z.of_nat (count_map running_clause (tasks w')) = 0) (fun _ _ => False) done_demo.
Proof.
  eapply wp_mono;
    [exact (finished_work_is_stored demo_answer done_demo demo_up demo_accepts_objects demo_store_up
       ltac:(on_demo) done_demo_jobs)| |done].
  cbn beta. intros u w' [Hc _]. rewrite Hc, done_demo_count. reflexivity.
Defined.
