(* ===== verification/DeliverySpec.v ===== *)
(** * DeliverySpec: every task is delivered

    The dispatch loop of a scheduler whose surroundings work: the database, the
    bucket, the lock's connection, and workers that take what they are given and
    finish it.  Each turn of the loop brings the queue closer to its end, and
    after enough of them every task reads back its worker's answer. *)
From S2P Require Import Prelude Models Config World Database Logic Hoare Json Payload Storage Status Lifecycle TaskRows Upstream.
From S2P Require Import WorkerRepository CacheService Results TaskRepository S3 Lock Provider Health Reconcile Scheduler Demo.
From S2P Require Import LivenessSpec DispatchSpec LifecycleSpec ProgressSpec CompletionSpec.

(** ** What a fast tick leaves alone *)

(** [frames R m]: however [m] ends, it went along [R]. *)
Definition frames {A} (R : relation World) (m : M A) : Prop := forall w, R w (m w).2.

Section frames.
Context `{Env} (R : relation World) `{!Benign R}.

Lemma frames_evolves {A} (m : M A) : evolves R m -> frames R m.
Proof. intros Hm w. apply Hm. Qed.

Lemma frames_bind {A B} (m : M A) (f : A -> M B) : frames R m -> (forall a, frames R (f a)) -> frames R (m ≫= f).
Proof.
  intros Hm Hf w. specialize (Hm w). rewrite bind_unfold. destruct (m w) as [[a|e|] w1]; [|done..].
  etrans; [exact Hm|apply Hf].
Qed.
End frames.

(** The objects whose keys satisfy [P] are as they were. *)
Definition same_keys (P : string -> Prop) : relation World := fun w w' =>
  forall key, P key -> objects w' !! key = objects w !! key.

#[export] Instance same_keys_benign P : Benign (same_keys P).
Proof.
  split; [split; unfold same_keys; [done|intros a b c H1 H2 key HP; by rewrite H2, H1]|].
  intros w w' (_ & _ & _ & _ & E & _) key _. by rewrite E.
Qed.

Definition is_payload_key (key : string) : Prop := exists id, key = payload_key id.

Lemma result_not_payload id fmt : ~ is_payload_key (result_key id fmt).
Proof. intros [k E]. unfold result_key, payload_key in E. destruct (fmt ==? _); discriminate. Qed.

Lemma cache_not_payload k g : ~ is_payload_key (cache_object_key k g).
Proof.
  intros [id E]. unfold cache_object_key, payload_key in E. cbv zeta in E.
  destruct g as [g|]; [destruct (g ==? "")|]; discriminate.
Qed.

Section keys.
Context `{Env} `{!ObjectStore} `{!Http} (P : string -> Prop).

Lemma insert_keys key data w w' : ~ P key -> objects w' = <[key := data]> (objects w) -> same_keys P w w'.
Proof. intros HP E k Hk. rewrite E, lookup_insert_ne; [done|by intros ->]. Qed.

Lemma store_put_keys key data : ~ P key -> evolves (same_keys P) (store_put key data).
Proof.
  intros HP w. destruct (store_put_db key data w) as [Hd _]. split; [done|].
  pose proof (store_put_spec key data w) as Hs. destruct (store_put key data w) as [[n|e|] w']; cbn in *; [| |done].
  - destruct Hs as [E _]. by eapply insert_keys.
  - destruct Hs as [E|E]; [by intros k _; rewrite E|by eapply insert_keys].
Qed.

Lemma store_copy_keys src dst : ~ P dst -> evolves (same_keys P) (store_copy src dst).
Proof.
  intros HP w. destruct (store_copy_db src dst w) as [Hd _]. split; [done|].
  pose proof (store_copy_spec src dst w) as Hs. destruct (store_copy src dst w) as [[n|e|] w']; cbn in *; [| |done].
  - destruct Hs as (data & _ & E). by eapply insert_keys.
  - destruct Hs as [E|(data & _ & E)]; [by intros k _; rewrite E|by eapply insert_keys].
Qed.

Lemma safe_delete_keys key : ~ P key -> evolves (same_keys P) (safe_delete (Some key)).
Proof.
  intros HP w. destruct (safe_delete_db (Some key) w) as [Hd _]. split; [done|].
  assert (Hdel : forall v, objects v = delete key (objects w) -> same_keys P w v).
  { intros v E k Hk. rewrite E, lookup_delete_ne; [done|by intros ->]. }
  pose proof (safe_delete_spec (Some key) w) as Hs. destruct (safe_delete _ w) as [[[|]|e|] w']; cbn in *; try done.
  - destruct (key ==? ""); [by intros k _; rewrite Hs|by apply Hdel].
  - destruct Hs as [E|(k & [= <-] & E)]; [by intros k _; rewrite E|by apply Hdel].
Qed.

Lemma commit_keys ws : evolves (same_keys P) (commit ws).
Proof. intros w. destruct (evolves_commit_objects ws w) as [Hd E]. split; [done|]. intros k _. by rewrite E. Qed.
End keys.
#[export] Hint Resolve commit_keys store_put_keys store_copy_keys safe_delete_keys result_not_payload cache_not_payload : evolve.

(** A synchronisation stores results and fills the cache, and touches no payload. *)
Lemma fetch_payloads `{Env} `{!ObjectStore} `{!Http} id uid url cs :
  evolves (same_keys is_payload_key) (fetch_and_store_result id uid url cs).
Proof.
  unfold fetch_and_store_result, raise_for_status, store_result, complete_with_result, populate_from_task, populate_cas, short_id.
  evolve_deep; (apply evolves_same_data; [apply _|]; eauto with evolve).
Qed.

Lemma synchronize_payloads `{Env} `{!ObjectStore} `{!Http} :
  evolves (same_keys is_payload_key) synchronize_tasks_and_results.
Proof.
  unfold synchronize_tasks_and_results, sync_dispatched_task_statuses, sync_one, refresh_task_from_upstream,
    list_unstored_completed, persist_pending_results, persist_one.
  unfold apply_upstream_payload_row, clear_poll_gate, defer_task_poll, commit_fields, refresh_row.
  evolve; try apply fetch_payloads; (apply evolves_same_data; [apply _|]; eauto with evolve).
Qed.

(** The process's own state, and the calls made to the cloud. *)
Lemma evolves_db_process {A} (m : M A) : evolves same_db m -> evolves same_process m.
Proof. intros Hm w. destruct (Hm w) as [Hd (_ & _ & _ & _ & Ec & Em)]. split; [done|]. by split. Qed.

Section process.
Context (settings : GatewaySettings) `{Env} `{!ObjectStore} `{!Http} `{!MinerU}.

Ltac process := evolve; first
  [ apply evolves_commit_process
  | solve [apply evolves_same_data; [apply _|]; eauto with evolve]
  | apply evolves_db_process; eauto using store_put_db, store_copy_db, safe_delete_db ].

Lemma recover_process : evolves same_process recover_stale_dispatch_claims.
Proof. unfold recover_stale_dispatch_claims. process. Qed.

Lemma expire_process sla : evolves same_process (expire_client_sla_tasks sla).
Proof. unfold expire_client_sla_tasks. process. Qed.

Lemma synchronize_process : evolves same_process synchronize_tasks_and_results.
Proof.
  unfold synchronize_tasks_and_results, sync_dispatched_task_statuses, sync_one, refresh_task_from_upstream,
    list_unstored_completed, persist_pending_results, persist_one.
  unfold apply_upstream_payload_row, clear_poll_gate, defer_task_poll, commit_fields, refresh_row,
    fetch_and_store_result, raise_for_status, store_result, complete_with_result, populate_from_task, populate_cas, short_id.
  process.
Qed.

Lemma acquire_process excluded : evolves same_process (acquire_dispatchable settings excluded).
Proof. unfold acquire_dispatchable. process. Qed.

Lemma claim_process : evolves same_process (claim_next_dispatch settings).
Proof. unfold claim_next_dispatch. evolve; try apply acquire_process; process. Qed.

Lemma failure_process task worker e excluded : evolves same_process (handle_dispatch_failure settings task worker e excluded).
Proof.
  unfold handle_dispatch_failure, reassign_after_exclusion, reassign_dispatch_worker, mark_failed.
  evolve; try apply acquire_process; process.
Qed.

Lemma processing_process id wid uid url st : evolves same_process (mark_processing id wid uid url st).
Proof. unfold mark_processing. process. Qed.

Lemma submit_process fuel task : forall worker excluded, frames same_process (submit_loop settings fuel task worker excluded).
Proof.
  induction fuel as [|fuel IH]; intros worker excluded; cbn [submit_loop]; [by intros w|].
  apply frames_bind; [apply _|apply frames_evolves, evolves_same_data; [apply _|apply rebuild_payload_data]|].
  intros [payload|].
  2: { apply frames_evolves. unfold mark_failed. process. }
  case_bool_decide.
  - apply frames_bind; [apply _|apply frames_evolves; unfold reassign_after_exclusion, reassign_dispatch_worker;
      evolve; try apply acquire_process; process|].
    intros [[v|] excluded']; [apply IH|by intros w].
  - apply frames_bind; [apply _|apply frames_evolves; evolve; apply evolves_same_data; [apply _|]; eauto with evolve|].
    intros [e|[uid st]].
    + apply frames_bind; [apply _|apply frames_evolves, failure_process|].
      intros [[v| |] excluded']; [apply IH|by intros w..].
    + apply frames_bind; [apply _|apply frames_evolves, processing_process|]. by intros u w.
Qed.

Lemma dispatch_process n : forall d, frames same_process (dispatch_loop settings n d).
Proof.
  induction n as [|n IH]; intros d; cbn [dispatch_loop]; [by intros w|].
  apply frames_bind; [apply _|apply frames_evolves, claim_process|]. intros [[task worker]|]; [|by intros w].
  apply frames_bind; [apply _| |intros b; apply IH].
  unfold submit_claimed_task. apply frames_bind; [apply _|by intros w|]. intros fuel. apply submit_process.
Qed.
End process.

(** ** Counting *)

Lemma count_map_zero {A} (P : A -> bool) (m : gmap string A) :
  count_map P m = 0%nat <-> forall k r, m !! k = Some r -> P r = false.
Proof.
  rewrite count_map_size, map_size_empty_iff. split.
  - intros E k r Hk. destruct (P r) eqn:HP; [|done].
    assert (Hl : filter (fun kr : string * A => P kr.2 = true) m !! k = Some r) by (by apply map_lookup_filter_Some).
    by rewrite E, lookup_empty in Hl.
  - intros Hall. apply map_eq. intros k. rewrite lookup_empty. apply map_lookup_filter_None. right. intros r Hk. cbn.
    by rewrite (Hall k r Hk).
Qed.

Lemma count_map_or {A} (P Q : A -> bool) (m : gmap string A) : (forall r, P r = true -> Q r = false) ->
  count_map (fun r => P r || Q r) m = (count_map P m + count_map Q m)%nat.
Proof.
  intros Hdis. unfold count_map. induction (map_to_list m).*2 as [|x l IH]; [done|]. cbn. specialize (Hdis x).
  destruct (P x), (Q x); cbn; rewrite IH; lia.
Qed.

(** ** Surroundings that work *)

Section delivery.
Context (settings : GatewaySettings) (has_provider : bool).
Context `{Env} `{!ObjectStore} `{!Http} `{!MinerU} `{!ComputeProvider} `{!LockServer}.
Context (answer : string -> string -> list Byte.byte).
Abbreviation runs m Q w := (wp m Q (fun _ _ => False) w).

Record everything_up : Prop := {
  up_database : database_up;
  up_reads : store_up;
  up_writes : bucket_accepts;
  up_workers : workers_accept;
  up_jobs : forall base uid, base <> "" -> uid <> "" -> reports_completion base uid /\ serves_result answer base uid;
  up_ping : forall w, exists w', pg_ping w = (Ok tt, w');
  up_sleep : forall s w, exists w', sleep s w = (Ok tt, w')
}.

(** The payload a queued task was created with is where [payload_key] puts it. *)
Definition payload_waits (w : World) (k : string) (r : Task) : Prop :=
  t_payload_key r = Some (payload_key k) /\
  exists blob payload, objects w !! payload_key k = Some blob /\ rebuild_blob blob = Ok (Some payload).

Record row_ready (w : World) (k : string) (r : Task) : Prop := {
  rr_unclaimed : t_status r <> TASK_DISPATCHING;
  rr_queued : queued_clause r = true -> gate_open r /\ payload_waits w k r;
  rr_running : running r -> gate_open r /\ on_worker r
}.

(** A world between two ticks: no claim is open, payloads and jobs are where the rows say,
    a worker serves, and the lock is held. *)
Record steady (w : World) : Prop := {
  sd_tasks : tasks_ok w;
  sd_workers : workers_keyed w;
  sd_instances : instances_unique (workers w);
  sd_urls : forall k v, workers w !! k = Some v -> serviceable_clause settings v = true -> w_base_url v <> Some "";
  sd_serving : exists k v, workers w !! k = Some v /\ serviceable_clause settings v = true;
  sd_lock : lock (memory w) = None \/ lock (memory w) = Some (true, true);
  sd_rows : forall k r, tasks w !! k = Some r -> row_ready w k r
}.

#[local] Instance steady_stable : Stable steady.
Proof.
  intros w w' Hd [HT HW Hi Hurl Hsv Hl Hr]. pose proof Hd as (Ew & Et & _ & _ & Eo & _ & Em). split.
  - by apply (stable (I := tasks_ok) w).
  - by apply (all_rows_same _ w).
  - by rewrite Ew.
  - by rewrite Ew.
  - by rewrite Ew.
  - by rewrite Em.
  - intros k r Hk. rewrite Et in Hk. destruct (Hr k r Hk) as [Hu Hq Hrun]. split; [done| |done].
    unfold payload_waits. by rewrite Eo.
Qed.

(** ** What the operations of a tick do to the rows *)

Record kept (r r' : Task) : Prop := {
  kp_status : t_status r' = t_status r;
  kp_payload : t_payload_key r' = t_payload_key r;
  kp_job : same_job r r';
  kp_result : (t_result_key r', t_result_format r', t_completed_at r') = (t_result_key r, t_result_format r, t_completed_at r);
  kp_gate : t_next_poll_at r' = t_next_poll_at r \/ t_next_poll_at r' = None
}.

#[local] Instance kept_preorder : PreOrder kept.
Proof.
  split; [intros r; split; by repeat split || left|]. intros a b c [E1 E2 [E3 E4] E5 E6] [F1 F2 [F3 F4] F5 F6].
  split; [congruence|congruence|split; congruence|congruence|].
  destruct F6 as [F6|F6]; [rewrite F6; exact E6|by right].
Qed.

#[local] Instance kept_row_preorder (k : string) : PreOrder ((fun _ : string => option_Forall2 kept) k).
Proof. split; cbv beta; apply _. Qed.

Definition finished (w : World) (k : string) : Prop := exists base uid, finished_with answer w k base uid.

(** A row is kept, handed to a worker, polled there, or answered. *)
Definition onward (w w' : World) (k : string) (r r' : Task) : Prop :=
  (kept r r' \/
   queued_clause r = true /\ on_worker r' /\ t_next_poll_at r' = t_next_poll_at r \/
   polled r r' \/
   running r /\ finished w' k) /\
  (running_clause r = false -> objects w' !! result_key k RESULT_FORMAT_ZIP = objects w !! result_key k RESULT_FORMAT_ZIP).

Record moved (w w' : World) : Prop := {
  mv_payloads : same_keys is_payload_key w w';
  mv_rows : forall k, match tasks w !! k, tasks w' !! k with
    | Some r, Some r' => onward w w' k r r'
    | None, None => True
    | _, _ => False
    end
}.

Lemma queued_not_running r : queued_clause r = true -> running_clause r = false.
Proof.
  unfold queued_clause. intros [[E _]%andb_true_iff _]%andb_true_iff. apply bool_decide_eq_true in E.
  unfold running_clause. by rewrite E.
Qed.

Lemma gate_kept r r' : t_next_poll_at r' = t_next_poll_at r \/ t_next_poll_at r' = None -> gate_open r -> gate_open r'.
Proof. unfold gate_open. intros [-> | ->]; [done|]. by intros _ t n. Qed.

Lemma kept_queued r r' : kept r r' -> queued_clause r' = queued_clause r.
Proof. intros [E _ [Eb Eu] _ _]. unfold queued_clause. by rewrite E, Eb, Eu. Qed.

Lemma kept_running r r' : kept r r' -> running_clause r' = running_clause r.
Proof. intros [E _ _ _ _]. unfold running_clause. by rewrite E. Qed.

Lemma on_worker_job r r' : on_worker r -> running r' -> same_job r r' -> on_worker r'.
Proof.
  intros [_ (base & uid & Eb & Hb & Eu & Hu)] Hr [Eb' Eu']. split; [done|]. exists base, uid. by rewrite Eb', Eu'.
Qed.

Lemma polled_job r r' : polled r r' -> same_job r r'.
Proof. intros [->|(_ & _ & (_ & _ & Eu & Eb & _) & _)]; by split. Qed.

Lemma polled_gate r r' : polled r r' -> t_next_poll_at r' = t_next_poll_at r \/ t_next_poll_at r' = None.
Proof. intros [->|(_ & _ & _ & Hg)]; [by left|done]. Qed.

Lemma moved_old w w' k r' : moved w w' -> tasks w' !! k = Some r' -> exists r, tasks w !! k = Some r /\ onward w w' k r r'.
Proof.
  intros [_ Hm] Hk. specialize (Hm k). rewrite Hk in Hm. destruct (tasks w !! k) as [r|]; [|done]. by exists r.
Qed.

Lemma moved_new w w' k r : moved w w' -> tasks w !! k = Some r -> exists r', tasks w' !! k = Some r' /\ onward w w' k r r'.
Proof.
  intros [_ Hm] Hk. specialize (Hm k). rewrite Hk in Hm. destruct (tasks w' !! k) as [r'|]; [|done]. by exists r'.
Qed.

(** An answered row is completed. *)
Lemma finished_row w k r : finished w k -> tasks w !! k = Some r -> result_row k r.
Proof. intros (base & uid & r' & Hr' & Hrow & _) Hr. by assert (r' = r) as -> by congruence. Qed.

Lemma result_row_left k r : result_row k r -> t_status r <> TASK_DISPATCHING /\ queued_clause r = false /\ running_clause r = false.
Proof. intros [E _]. unfold queued_clause, running_clause. by rewrite E. Qed.

Lemma moved_rows w w' k r' : steady w -> moved w w' -> tasks w' !! k = Some r' -> row_ready w' k r'.
Proof.
  intros Hs Hm Hr'. destruct (moved_old _ _ _ _ Hm Hr') as (r & Hr & [Hon _]).
  destruct (sd_rows _ Hs _ _ Hr) as [Hu Hq Hrun].
  destruct Hon as [Hk|[(Eq & How & Eg)|[Hp|[_ Hf]]]].
  - split; [by rewrite (kp_status _ _ Hk)| |].
    + rewrite (kept_queued _ _ Hk). intros Eq. destruct (Hq Eq) as [Hg (Ek & blob & p & Eo & Ep)].
      split; [eapply gate_kept; [apply Hk|done]|]. split; [by rewrite (kp_payload _ _ Hk)|]. exists blob, p.
      split; [|done]. rewrite (mv_payloads _ _ Hm); [done|by exists k].
    + rewrite <- running_clause_true, (kept_running _ _ Hk), running_clause_true. intros Er. destruct (Hrun Er) as [Hg How].
      split; [eapply gate_kept; [apply Hk|done]|]. eapply on_worker_job; [exact How| |apply Hk].
      by apply running_clause_true; rewrite (kept_running _ _ Hk); apply running_clause_true.
  - split.
    + destruct How as [[E|E] _]; by rewrite E.
    + intros Eq'. by rewrite (on_worker_left _ How) in Eq'.
    + intros _. split; [|done]. eapply gate_kept; [by left|]. by apply Hq.
  - destruct Hp as [->|Hp]; [split; [done| |done]|].
    + intros Eq. destruct (Hq Eq) as [Hg (Ek & blob & p & Eo & Ep)]. split; [done|]. split; [done|]. exists blob, p.
      split; [|done]. rewrite (mv_payloads _ _ Hm); [done|by exists k].
    + pose proof Hp as (Er & Es & _). destruct (Hrun Er) as [Hg How]. split; [by rewrite Es| |].
      * unfold queued_clause. by rewrite Es.
      * intros Er'. split; [eapply gate_kept; [by apply polled_gate; right|done]|].
        eapply on_worker_job; [exact How|done|by apply polled_job; right].
  - destruct (result_row_left _ _ (finished_row _ _ _ Hf Hr')) as (H1' & H2' & H3'). split; [done|congruence|].
    intros Er. apply running_clause_true in Er. congruence.
Qed.

Lemma serving_kept w w' : fleet_kept w w' -> (exists k v, workers w !! k = Some v /\ serviceable_clause settings v = true) ->
  exists k v, workers w' !! k = Some v /\ serviceable_clause settings v = true.
Proof.
  intros [_ HT] (k & v & Hv & Hs). specialize (HT k). tables. rewrite Hv in HT. destruct (workers w' !! k) as [v'|] eqn:Ev'; [|done].
  destruct HT as (t & u & ->). by exists k; eexists.
Qed.

Lemma moved_steady w w' : steady w -> fast_inv w w' -> same_process w w' -> moved w w' -> steady w'.
Proof.
  intros Hs [HT HF _] [_ Em] Hm. split.
  - exact HT.
  - apply HF.
  - apply (kept_instances settings w); [exact HF|apply Hs].
  - intros k v Hv Hsv. destruct (kept_row settings _ _ _ _ HF Hv) as (v0 & Hv0 & _ & -> & E).
    eapply sd_urls; [exact Hs|exact Hv0|by rewrite <- E].
  - eapply serving_kept; [exact HF|apply Hs].
  - rewrite Em. apply Hs.
  - intros k r'. by apply (moved_rows w).
Qed.

(** ** What a tick is for *)

Definition open_in (w : World) (k : string) : Prop :=
  exists r, tasks w !! k = Some r /\ t_status r ∉ TASK_STATUSES_TERMINAL.

(** Open tasks stay open or are answered, and an answer stays. *)
Record advances (w w' : World) : Prop := {
  av_open : forall k, open_in w k -> open_in w' k \/ finished w' k;
  av_finished : forall k, finished w k -> finished w' k
}.

#[local] Instance advances_preorder : PreOrder advances.
Proof.
  split; [intros w; split; by auto|]. intros a b c [Ho Hf] [Ho' Hf']. split; [|by auto].
  intros k [Hk|Hk]%Ho; [by apply Ho'|right; by apply Hf'].
Qed.

Lemma open_row w k r : steady w -> tasks w !! k = Some r ->
  t_status r ∉ TASK_STATUSES_TERMINAL <-> (queued_clause r = true \/ running r).
Proof.
  intros Hs Hr. destruct (sd_tasks _ Hs _ _ Hr) as [_ Hwf]. destruct (sd_rows _ Hs _ _ Hr) as [Hu _ _]. split.
  - intros Ho. pose proof (task_wf_status _ Hwf) as Hst. unfold TASK_STATUSES, TASK_STATUSES_TERMINAL in *.
    destruct (decide (t_status r = TASK_QUEUED)) as [E|Hq]; [left|right; unfold running; set_solver].
    rewrite task_wf_queued in Hwf by done. unfold queued_clause. rewrite E. decide_literals. bool_hyps.
    by apply andb_true_iff.
  - intros Hor. assert (E : t_status r ∈ [TASK_QUEUED; TASK_PROCESSING; TASK_STORING_RESULT]).
    { destruct Hor as [Hq|[E|E]]; [|rewrite E; set_solver..]. unfold queued_clause in Hq. bool_hyps. set_solver. }
    repeat (apply elem_of_cons in E as [->|E]; [apply (bool_decide_eq_false _); vm_compute; reflexivity|]).
    by apply elem_of_nil in E.
Qed.

Lemma moved_advances w w' : steady w -> steady w' -> moved w w' -> advances w w'.
Proof.
  intros Hs Hs' Hm. split.
  - intros k (r & Hr & Ho). destruct (moved_new _ _ _ _ Hm Hr) as (r' & Hr' & [Hon _]).
    assert (Hrun : running r' -> open_in w' k).
    { intros Er. exists r'. split; [done|]. apply (open_row w' k); [done|done|by right]. }
    destruct Hon as [Hk|[(_ & How & _)|[[->|(_ & Es & _)]|[_ Hf]]]].
    + left. exists r'. split; [done|]. by rewrite (kp_status _ _ Hk).
    + left. apply Hrun, How.
    + left. by exists r.
    + left. apply Hrun. by right.
    + by right.
  - intros k (base & uid & r & Hr & Hrow & Eb & Eu & Eo). destruct (moved_new _ _ _ _ Hm Hr) as (r' & Hr' & [Hon Hob]).
    destruct (result_row_left _ _ Hrow) as (_ & Hq & Hrun).
    assert (Hkept : kept r r').
    { destruct Hon as [Hk|[(Eq & _)|[[->|(Er & _)]|[Er _]]]]; [done|congruence|reflexivity|..];
        apply running_clause_true in Er; congruence. }
    destruct Hkept as [Es _ [Eb' Eu'] E _]. injection E as E1 E2 E3.
    exists base, uid, r'. split; [done|]. split; [|split_and!; [congruence..|by rewrite Hob]].
    unfold result_row. by rewrite Es, E1, E2, E3.
Qed.

(** ** The operations of a tick *)

Lemma fast_inv_start w : steady w -> fast_inv w w.
Proof. intros Hs. split; [apply Hs|apply fleet_kept_start, Hs|reflexivity]. Qed.

Lemma wp_frames {A} (m : M A) R Q w : runs m Q w -> frames R m -> runs m (fun a w' => Q a w' /\ R w w') w.
Proof. intros Hm HR. specialize (HR w). unfold wp in *. by destruct (m w) as [[a|e|] w']. Qed.

Lemma op_step {A} (m : M A) (Q : A -> World -> Prop) w : steady w -> runs m (fun a w' => Q a w' /\ moved w w') w ->
  maintains (fast_inv w) m -> frames same_process m -> runs m (fun a w' => Q a w' /\ steady w' /\ advances w w') w.
Proof.
  intros Hs Hm HI HP. pose proof (wp_frames _ _ _ _ Hm HP) as Hm2.
  pose proof (wp_and _ _ _ _ _ _ Hm2 (HI w (fast_inv_start w Hs))) as Hm3.
  eapply wp_mono; [exact Hm3| |by intros e w' []]. cbn beta. intros a w' [[[HQ Hmv] Hp] Hf].
  assert (Hs' : steady w') by (by apply (moved_steady w)). split; [done|]. split; [done|]. by apply moved_advances.
Qed.

Lemma moved_kept w w' : objects w' = objects w -> (forall k, option_Forall2 kept (tasks w !! k) (tasks w' !! k)) -> moved w w'.
Proof.
  intros Eo HF. split; [by intros k _; rewrite Eo|]. intros k. destruct (HF k) as [r r' Hk|]; [|done].
  split; [by left|]. by rewrite Eo.
Qed.

Lemma moved_same w w' : tasks w' = tasks w -> objects w' = objects w -> moved w w'.
Proof. intros Et Eo. apply moved_kept; [done|]. intros k. rewrite Et. destruct (tasks w !! k); by constructor. Qed.

(** No claim is open, so none is stale. *)
Lemma recover_runs w (Hup : database_up) : steady w ->
  runs recover_stale_dispatch_claims (fun _ w' => tasks w' = tasks w /\ moved w w') w.
Proof.
  intros Hs. unfold recover_stale_dispatch_claims. apply wp_bind, now_runs, wp_bind, open_runs; [done|]. apply wp_bind, wp_select.
  intros rows Hrows _. set (w1 := bump (bump (bump w))) in *.
  assert (E : rows = []).
  { destruct rows as [|r rows]; [done|exfalso]. assert (Hr : r ∈ r :: rows) by left. rewrite Hrows in Hr.
    apply list_elem_of_In, filter_In in Hr as [Hr Hst]. apply list_elem_of_In, list_elem_of_fmap in Hr as ([k r'] & -> & Hk).
    apply elem_of_map_to_list in Hk. apply (rr_unclaimed _ _ _ (sd_rows _ Hs _ _ Hk)).
    unfold stale_clause in Hst. by bool_hyps. }
  subst rows. apply wp_bind. eapply commit_up; [done|reflexivity|]. intros w' (_ & Et & _) Eo. wp_go.
  split; [exact Et|]. by apply moved_same.
Qed.

Lemma jobs_ready w k r : everything_up -> steady w -> tasks w !! k = Some r -> running r -> job_done answer r /\ gate_open r.
Proof.
  intros Hu Hs Hr Hrun. destruct (rr_running _ _ _ (sd_rows _ Hs _ _ Hr) Hrun) as [Hg [_ (base & uid & Eb & Hb & Eu & Hu')]].
  split; [|done]. exists base, uid. by destruct (up_jobs Hu base uid Hb Hu').
Qed.

Lemma synced_moved w w' : synced_rows answer w w' -> same_keys is_payload_key w w' -> moved w w'.
Proof.
  intros Hrows Hp. split; [done|]. intros k. specialize (Hrows k).
  destruct (tasks w !! k) as [r|], (tasks w' !! k) as [r'|]; try done. unfold synced in Hrows.
  destruct (running_clause r) eqn:Er.
  - split; [|congruence]. apply running_clause_true in Er. destruct Hrows as [Hpl|(base & uid & _ & _ & _ & Hf)].
    + by right; right; left.
    + do 3 right. split; [done|]. by exists base, uid.
  - destruct Hrows as [-> Eo]. split; [by left|done].
Qed.

Lemma synced_queue w w' : synced_rows answer w w' -> count_map queued_clause (tasks w) = count_map queued_clause (tasks w').
Proof.
  intros Hrows. apply count_map_ext. intros k. specialize (Hrows k).
  destruct (tasks w !! k) as [r|], (tasks w' !! k) as [r'|]; try done. cbn. f_equal. unfold synced in Hrows.
  destruct (running_clause r) eqn:Er; [|by destruct Hrows as [-> _]].
  assert (Eq : queued_clause r = false).
  { destruct (queued_clause r) eqn:Eq; [|done]. by rewrite (queued_not_running _ Eq) in Er. }
  rewrite Eq. destruct Hrows as [[->|(_ & Es & _)]|(base & uid & _ & _ & Hrow & _)]; [done| |].
  - unfold queued_clause. by rewrite Es.
  - apply (result_row_left k r' Hrow).
Qed.

Lemma sync_step w : everything_up -> steady w ->
  runs synchronize_tasks_and_results
    (fun _ w' => (count_map queued_clause (tasks w) = count_map queued_clause (tasks w') /\
       count_map running_clause (tasks w) =
         (count_map running_clause (tasks w') + Nat.min HEALTH_BATCH (count_map running_clause (tasks w)))%nat) /\
       steady w' /\ advances w w') w.
Proof.
  intros Hu Hs. apply op_step; [done| |apply synchronize_fast|apply frames_evolves, synchronize_process].
  eapply wp_mono; [apply (wp_frames _ (same_keys is_payload_key))| |done].
  - apply (synchronize_runs answer); [apply Hu|apply Hu|apply Hs|]. intros k r. by apply jobs_ready.
  - apply frames_evolves, synchronize_payloads.
  - cbn beta. intros u w' [[Hrows Hc] Hp]. split; [|by apply synced_moved]. split; [by apply synced_queue|exact Hc].
Qed.

Lemma puts_flush ws : forall w, Forall (fun wr => exists id fs, wr = OnTask (Put id fs) /\ is_Some (tasks w !! id)) ws ->
  exists w', for_each ws flush w = (Ok tt, w').
Proof.
  induction ws as [|wr ws IH]; intros w Hws; cbn [for_each]; [by eexists|].
  apply Forall_cons in Hws as [(id & fs & -> & r & Hr) Hws]. destruct (task_put_flushes id fs r w Hr) as (w1 & E1 & _).
  rewrite bind_unfold, E1. apply IH. eapply Forall_impl; [exact Hws|]. cbn beta. intros wr (id' & fs' & -> & Hid').
  exists id', fs'. split; [done|]. apply flush_effect in E1 as [(r1 & r' & _ & _ & Et) _]. rewrite Et.
  destruct (decide (id' = id)) as [->|Hne]; [rewrite lookup_insert_eq; by eexists|by rewrite lookup_insert_ne].
Qed.

(** Marking the clients whose time is up moves no task. *)
Lemma expire_runs sla w (Hup : database_up) : steady w ->
  runs (expire_client_sla_tasks sla)
    (fun _ w' => (forall k, option_Forall2 kept (tasks w !! k) (tasks w' !! k)) /\ moved w w') w.
Proof.
  intros Hs. unfold expire_client_sla_tasks. apply wp_bind, now_runs, wp_bind, open_runs; [done|]. apply wp_bind, wp_select.
  intros rows Hrows _. apply (select_rows _ rows w (tasks_ok_keyed _ (sd_tasks _ Hs))) in Hrows as [Hnd Hin]. apply wp_bind.
  eapply wp_mono; [apply (wp_map_m (fun w' => tasks w' = tasks w /\ objects w' = objects w) (fun _ _ => False)
    (fun r wr => exists fs, wr = OnTask (Put (t_task_id r) fs) /\ exists t, fs = [T_client_expired_at t]))| |done].
  - intros r w1 _ Hw1. wp_go. split; [exact Hw1|]. eauto.
  - done.
  - cbn beta. intros writes w1 [[Et Eo] Hws]. apply wp_bind.
    assert (Hflush : exists w2, for_each writes flush (bump w1) = (Ok tt, w2)).
    { apply puts_flush. clear -Hws Hin Et. induction Hws as [|r wr rows writes (fs & -> & _) _ IH]; constructor.
      - exists (t_task_id r), fs. split; [done|]. cbn. rewrite Et. destruct (Hin r) as [_ Hr]; [left|]. by eexists.
      - apply IH. intros x Hx. apply Hin. by right. }
    destruct Hflush as [w2 E2].
    assert (Hobj : runs (commit writes) (fun _ w3 => objects w3 = objects w1) w1)
      by (eapply commit_up; [done|exact E2|]; intros w3 _ Ho; exact Ho).
    eapply wp_mono; [eapply wp_and, Hobj; apply (wp_task_puts (fun _ => option_Forall2 kept) (fun _ fs => exists t, fs = [T_client_expired_at t]) rows writes); [done| |exact Hws|]| |].
    + intros r Hr. rewrite Et. by apply Hin.
    + intros r fs r' _ (t' & ->) [->|[u ->]]; constructor; (split; by repeat split || left).
    + cbn beta. intros u w3 [[Hr _] Ho]. wp_go.
      assert (HF : forall k, option_Forall2 kept (tasks w !! k) (tasks w3 !! k)) by (intros k; rewrite <- Et; apply Hr).
      split; [done|]. apply moved_kept; [congruence|done].
    + by intros e w3 [_ []].
Qed.

Lemma expire_step sla w : everything_up -> steady w ->
  runs (expire_client_sla_tasks sla)
    (fun _ w' => (count_map queued_clause (tasks w) = count_map queued_clause (tasks w') /\
       count_map running_clause (tasks w) = count_map running_clause (tasks w')) /\ steady w' /\ advances w w') w.
Proof.
  intros Hu Hs. apply op_step; [done| |apply expire_fast|apply frames_evolves, expire_process].
  eapply wp_mono; [apply expire_runs; [apply Hu|done]| |done]. cbn beta. intros n w' [HF Hm]. split; [|done].
  split; apply count_map_ext; intros k; destruct (HF k) as [r r' Hk|]; try done; cbn; f_equal.
  - by apply kept_queued.
  - by apply kept_running.
Qed.

(** ** The dispatch of a tick *)

Lemma steady_ready w : steady w -> ready_to_dispatch settings w.
Proof.
  intros Hs. split; try apply Hs. intros k r Hr Hq. destruct (rr_queued _ _ _ (sd_rows _ Hs _ _ Hr) Hq) as [_ (Ek & blob & p & Eo & Ep)].
  by exists (payload_key k), blob, p.
Qed.

Lemma drained_moved w d w' : drained settings w d w' -> moved w w'.
Proof.
  intros Hd. split; [by intros k _; rewrite (dr_objects _ _ _ _ Hd)|]. intros k. destruct (dr_rows _ _ _ _ Hd k) as [r r' HP|]; [|done].
  split; [|by rewrite (dr_objects _ _ _ _ Hd)]. destruct HP as [->|HP]; [by left|by right; left].
Qed.

Lemma drained_counts w d w' : drained settings w d w' ->
  Z.of_nat (count_map queued_clause (tasks w')) + d = Z.of_nat (count_map queued_clause (tasks w)) /\
  Z.of_nat (count_map running_clause (tasks w')) = Z.of_nat (count_map running_clause (tasks w)) + d.
Proof.
  intros Hd. pose proof (dr_count _ _ _ _ Hd) as Hc. split; [done|].
  pose proof (count_map_or _ _ (tasks w) queued_not_running) as H1'. pose proof (count_map_or _ _ (tasks w') queued_not_running) as H2'.
  enough (E : count_map (fun r => queued_clause r || running_clause r) (tasks w) =
              count_map (fun r => queued_clause r || running_clause r) (tasks w')) by lia.
  apply count_map_ext. intros k. destruct (dr_rows _ _ _ _ Hd k) as [r r' HP|]; [|done]. cbn. f_equal.
  destruct HP as [->|(Eq & How & _)]; [done|]. rewrite Eq, (on_worker_left _ How). cbn. apply running_clause_true, How.
Qed.

(** A queue is never exhausted while nothing runs: the worker that serves has a free slot. *)
Lemma exhausted_empty w : steady w -> 0 < target_per_worker (scaling settings) -> exhausted settings w ->
  count_map running_clause (tasks w) = 0%nat -> count_map queued_clause (tasks w) = 0%nat.
Proof.
  intros Hs Ht [Hq|Hw] Hr; [by apply count_map_zero|exfalso].
  destruct (sd_serving _ Hs) as (k & v & Hv & Hsv). specialize (Hw k v Hv). unfold dispatchable_clause in Hw.
  rewrite Hsv, capacity_count in Hw. replace (count_map (occupies (w_id v)) (tasks w)) with 0%nat in Hw; [apply Z.ltb_ge in Hw; lia|].
  symmetry. apply count_map_zero. intros i r Hi. destruct (occupies (w_id v) r) eqn:Eo; [|done].
  apply occupies_row in Eo as [_ Est]. rewrite count_map_zero in Hr. specialize (Hr i r Hi).
  pose proof (rr_unclaimed _ _ _ (sd_rows _ Hs _ _ Hi)). unfold TASK_STATUSES_COMPUTE_CAPACITY in Est.
  unfold running_clause in Hr. apply bool_decide_eq_false in Hr. set_solver.
Qed.

Lemma drained_runs w : everything_up -> steady w ->
  runs (dispatch_queued_tasks settings)
    (fun d w' => (drained settings w d w' /\ 0 <= d <= 32 /\ (d = 32 \/ exhausted settings w')) /\ moved w w') w.
Proof.
  intros Hu Hs. unfold dispatch_queued_tasks.
  eapply wp_mono; [apply (dispatch_loop_drains settings (up_database Hu) (up_reads Hu) (up_workers Hu) w)| |done].
  - by apply steady_ready.
  - apply drained_start; apply Hs.
  - cbn beta. intros d w' (Hd & Hb & He). assert (E : Z.of_nat DISPATCH_PER_TICK = 32) by reflexivity.
    split; [|by eapply drained_moved]. split; [done|]. rewrite E in *. split; [lia|]. destruct He as [->|He]; [by left|by right].
Qed.

Lemma dispatch_pass_process : frames same_process (dispatch_queued_tasks settings).
Proof. unfold dispatch_queued_tasks. apply dispatch_process. Qed.

Lemma dispatch_step w : everything_up -> steady w -> 0 < target_per_worker (scaling settings) ->
  runs (dispatch_queued_tasks settings)
    (fun _ w' => (exists d : nat,
       (count_map queued_clause (tasks w') + d = count_map queued_clause (tasks w))%nat /\
       count_map running_clause (tasks w') = (count_map running_clause (tasks w) + d)%nat /\
       (count_map running_clause (tasks w) = 0%nat -> d = 0%nat -> count_map queued_clause (tasks w) = 0%nat)) /\
       steady w' /\ advances w w') w.
Proof.
  intros Hu Hs Ht.
  pose proof (op_step _ _ w Hs (drained_runs w Hu Hs) (dispatch_fast settings w) dispatch_pass_process) as Hd.
  eapply wp_mono; [exact Hd| |done]. clear Hd. cbn beta. intros d w' [(Hd & Hb & He) [Hs' Ha]]. split; [|done].
  destruct (drained_counts _ _ _ Hd) as [Hc1 Hc2]. exists (Z.to_nat d). split; [lia|]. split; [lia|].
  intros Hr Hd0. destruct He as [->|He]; [done|]. apply exhausted_empty in He; [lia|done|done|lia].
Qed.

(** ** Ticks and turns *)

Lemma verify_runs w : everything_up -> steady w -> runs verify_lock (fun b w' => b = true /\ same_data w w') w.
Proof.
  intros Hu Hs. unfold verify_lock. wp_go. destruct (sd_lock _ Hs) as [E|E]; rewrite E; wp_go; [by repeat split|].
  unfold lock_verify. wp_go. unfold lock_flag, lock_conn. rewrite E. cbn [negb orb]. apply wp_try, wp_bind.
  destruct (up_ping Hu w) as [w1 E1]. unfold wp at 1. rewrite E1. wp_go. split; [done|].
  destruct (pg_data) as (_ & _ & _ & Hp & _). specialize (Hp w). rewrite E1 in Hp. apply Hp.
Qed.

(** A waiting task is two steps from its end, a running one is one step away. *)
Definition work_left (w : World) : nat := 2 * count_map queued_clause (tasks w) + count_map running_clause (tasks w).

Lemma same_work w w' : tasks w' = tasks w -> work_left w' = work_left w.
Proof. unfold work_left. by intros ->. Qed.

Lemma advances_same w w' : same_data w w' -> advances w w'.
Proof.
  intros (_ & Et & _ & _ & Eo & _).
  split; unfold finished, finished_with, open_in; intros k Hk; [left; by rewrite Et|by rewrite Et, Eo].
Qed.

Lemma recover_step w : everything_up -> steady w ->
  runs recover_stale_dispatch_claims (fun _ w' => work_left w' = work_left w /\ steady w' /\ advances w w') w.
Proof.
  intros Hu Hs. apply op_step; [done| |apply recover_fast|apply frames_evolves, recover_process].
  eapply wp_mono; [by apply recover_runs; [apply Hu|]| |done]. cbn beta. intros n w' [Et Hm].
  split; [by apply same_work|done].
Qed.

(** A tick brings the work closer to its end. *)
Definition tick_done (w w' : World) : Prop :=
  steady w' /\ advances w w' /\ (work_left w' < work_left w \/ work_left w' = 0)%nat.

Lemma fast_tick_runs w : everything_up -> steady w -> 0 < target_per_worker (scaling settings) ->
  runs (fast_tick settings) (fun _ => tick_done w) w.
Proof.
  intros Hu Hs Ht. unfold fast_tick. apply wp_bind. eapply wp_mono; [by apply verify_runs| |done].
  cbn beta. intros b w1 [-> Hd1]. assert (Hs1 : steady w1) by (by apply (steady_stable w)). cbn [negb].
  apply wp_bind. eapply wp_mono; [by apply recover_step| |done]. cbn beta. intros n1 w2 (E2 & Hs2 & Ha2).
  apply wp_bind. eapply wp_mono; [by apply sync_step| |done]. cbn beta. intros n2 w3 ([Eq3 Er3] & Hs3 & Ha3).
  apply wp_bind. eapply wp_mono; [by apply expire_step| |done]. cbn beta. intros n3 w4 ([Eq4 Er4] & Hs4 & Ha4).
  apply wp_bind. eapply wp_mono; [by apply dispatch_step| |done].
  cbn beta. intros n4 w5 ((d & Eq5 & Er5 & Hd) & Hs5 & Ha5). wp_go. split; [done|]. split.
  - etrans; [by apply advances_same|]. etrans; [exact Ha2|]. etrans; [exact Ha3|]. by etrans.
  - rewrite <- (same_work w w1), <- E2 by apply Hd1. unfold work_left, HEALTH_BATCH in *. lia.
Qed.

Lemma turn_runs w : everything_up -> steady w -> 0 < target_per_worker (scaling settings) ->
  runs (turn settings has_provider dispatch) (fun b w' => b = true /\ tick_done w w') w.
Proof.
  intros Hu Hs Ht. cbn [turn]. unfold loop_turn, lock_looks_held. wp_go.
  assert (Hl : match lock (memory w) with Some _ => lock_is_held w | None => true end = true).
  { unfold lock_is_held, lock_flag, lock_conn. by destruct (sd_lock _ Hs) as [-> | ->]. }
  rewrite Hl. cbn [negb]. apply wp_bind, wp_try. eapply wp_mono; [by apply fast_tick_runs| |done].
  cbn beta. intros u w1 (Hs1 & Ha1 & Hw1).
  assert (Hend : forall w2, same_data w1 w2 -> tick_done w w2).
  { intros w2 Hd. split; [by apply (steady_stable w1)|]. split; [etrans; [exact Ha1|by apply advances_same]|].
    rewrite (same_work w1 w2); [done|apply Hd]. }
  apply wp_bind. unfold sleep_until_next_boundary. destruct (_ <=? 0).
  { wp_go. split; [done|by apply Hend]. }
  apply wp_bind, now_runs. set (s := Z.max 0 _). destruct (up_sleep Hu s (bump w1)) as [w2 E2].
  destruct (pg_data) as (_ & _ & _ & _ & _ & _ & Hsl). specialize (Hsl s (bump w1)). unfold wp. rewrite E2. wp_go. rewrite E2 in Hsl.
  split; [done|]. apply Hend. etrans; [|apply Hsl]. by repeat split.
Qed.

(** After as many turns as there is work left, no work is left. *)
Lemma turns_run n : forall w, everything_up -> steady w -> 0 < target_per_worker (scaling settings) -> (work_left w <= n)%nat ->
  runs (run_turns settings has_provider (replicate n dispatch) [dispatch; reconcile])
    (fun loops w' => loops = [dispatch; reconcile] /\ steady w' /\ advances w w' /\ work_left w' = 0%nat) w.
Proof.
  induction n as [|n IH]; intros w Hu Hs Ht Hn; cbn [replicate run_turns].
  { wp_go. split; [done|]. split; [done|]. split; [reflexivity|lia]. }
  rewrite bool_decide_true by left. apply wp_bind. eapply wp_mono; [by apply turn_runs| |done].
  cbn beta. intros b w1 [-> (Hs1 & Ha1 & Hw1)]. eapply wp_mono; [apply IH; [done..|lia]| |done].
  cbn beta. intros loops w2 (-> & Hs2 & Ha2 & Hw2). split; [done|]. split; [done|]. split; [by etrans|done].
Qed.

Lemma no_work_left w k : steady w -> work_left w = 0%nat -> ~ open_in w k.
Proof.
  intros Hs Hw (r & Hr & Ho). unfold work_left in Hw.
  assert (Hq : count_map queued_clause (tasks w) = 0%nat) by lia. assert (Hrun : count_map running_clause (tasks w) = 0%nat) by lia.
  rewrite count_map_zero in Hq, Hrun. specialize (Hq k r Hr). specialize (Hrun k r Hr).
  apply (open_row w k r Hs Hr) in Ho as [E|E%running_clause_true]; congruence.
Qed.
End delivery.

(** C5: when everything around the scheduler works, and workers finish what they take,
    the dispatch loop delivers every task: after two turns for each waiting task and one
    for each running one it has not stopped, and each task that was open is completed by
    a job of a worker and reads back the answer that this worker gave to this job. *)
Theorem everything_is_delivered (settings : GatewaySettings) (has_provider : bool) `{Env} `{!ObjectStore} `{!Http} `{!MinerU}
  `{!ComputeProvider} `{!LockServer} (answer : string -> string -> list Byte.byte) w n
  (Hup : everything_up answer) (Hs : steady settings w) (Ht : 0 < target_per_worker (scaling settings))
  (Hn : (2 * count_map queued_clause (tasks w) + count_map running_clause (tasks w) <= n)%nat) :
  wp (run settings has_provider (replicate n dispatch))
    (fun loops w' => loops = [dispatch; reconcile] /\
       forall k r, tasks w !! k = Some r -> t_status r ∉ TASK_STATUSES_TERMINAL ->
       exists r' base uid, tasks w' !! k = Some r' /\ result_row k r' /\
         t_upstream_base_url r' = Some base /\ t_upstream_task_id r' = Some uid /\
         wp (read_result k) (fun read _ => read = (answer base uid, Some RESULT_FORMAT_ZIP)) (fun _ _ => False) w')
    (fun _ _ => False) w.
Proof.
  unfold run. eapply wp_mono; [by apply (turns_run settings has_provider answer n w)| |done].
  cbn beta. intros loops w' (-> & Hs' & [Ho _] & Hw). split; [done|]. intros k r Hr Hopen.
  destruct (Ho k) as [Hk|(base & uid & Hf)]; [by exists r|by destruct (no_work_left settings answer w' k Hs' Hw)|].
  pose proof Hf as (r' & Hr' & Hrow & Eb & Eu & _). exists r', base, uid. split_and!; [done..|].
  apply (finished_reads answer); [apply Hup|apply Hup|exact Hf].
Qed.

(** ** Witness: six tasks, one worker with four slots *)

Lemma demo_everything_up : everything_up demo_answer.
Proof.
  split; [exact demo_up|exact demo_store_up|exact demo_accepts_objects|exact demo_accepts| |by eexists|by eexists].
  intros base uid _ _. split; [|intros w; by do 2 eexists].
  intros w. do 5 eexists. do 5 (split; [reflexivity|]). exact demo_completed.
Qed.

Lemma queue_demo_rows : map_Forall (fun k r => queued_clause r = true /\ t_next_poll_at r = None /\
  t_payload_key r = Some (payload_key k) /\ payload_reads queue_demo r = true) (tasks queue_demo).
Proof. apply (bool_decide_eq_true _). vm_compute. reflexivity. Qed.

Lemma queue_demo_steady : steady demo_settings queue_demo.
Proof.
  destruct queue_demo_ready as [HT HW Hi Hurl Hpay]. split; [done..| |by right|].
  - exists "cloud-1", (demo_worker "cloud-1"). split; vm_compute; reflexivity.
  - intros k r Hr. destruct (queue_demo_rows k r Hr) as (Hq & Hg & Hk & _).
    pose proof (queued_not_running r Hq) as Hnr. split.
    + intros E. unfold queued_clause in Hq. by rewrite E in Hq.
    + intros _. split; [intros t n; by rewrite Hg|]. split; [done|].
      destruct (Hpay k r Hr Hq) as (key & blob & p & Ek & Eo & Ep). exists blob, p. by replace (payload_key k) with key by congruence.
    + intros Hrun%running_clause_true. congruence.
Qed.

Lemma queue_demo_work :
  (2 * count_map queued_clause (tasks queue_demo) + count_map running_clause (tasks queue_demo) <= 12)%nat.
Proof. apply Nat.leb_le. vm_compute. reflexivity. Qed.

Lemma queue_demo_task : exists r, tasks queue_demo !! "f" = Some r /\ t_status r ∉ TASK_STATUSES_TERMINAL.
Proof. eexists. split; [vm_compute; reflexivity|]. apply (bool_decide_eq_false _). vm_compute. reflexivity. Qed.

Example queue_demo_delivered :
  (fun r => (t_status r, t_result_key r)) <$> tasks (run demo_settings true (replicate 3 dispatch) queue_demo).2 !! "f" =
    Some (TASK_COMPLETED, Some "results/f.zip").
Proof. vm_compute. reflexivity. Qed.

Lemma everything_is_delivered_witness :
  wp (run demo_settings true (replicate 12 dispatch))
    (fun _ w' => wp (read_result "f") (fun read _ => read = (demo_body, Some RESULT_FORMAT_ZIP)) (fun _ _ => False) w')
    (fun _ _ => False) queue_demo.
Proof.
  eapply wp_mono;
    [exact (everything_is_delivered demo_settings true demo_answer queue_demo 12 demo_everything_up queue_demo_steady
       ltac:(reflexivity) queue_demo_work)| |done].
  cbn beta. intros loops w' [_ Hall]. destruct queue_demo_task as (r & Hr & Ho).
  destruct (Hall "f" r Hr Ho) as (r' & base & uid & _ & _ & _ & _ & Hread). exact Hread.
Defined.
