(* ===== verification/CacheSpec.v ===== *)
(** * CacheSpec: what the dedup cache promises

    Entries are versioned: every write of an entry's object raises its
    generation, and a writer that read an older generation gives way.  The
    theorems on [populate_cas] and [invalidate_claim] start from an arbitrary
    world, so they hold whatever another process did since the generation was
    read. *)
From S2P Require Import Prelude Models Config World Database Logic Hoare Json Payload Storage Status TaskRows.
From S2P Require Import WorkerRepository CacheService S3 Upstream Lock Provider Demo.

Section entries.
Context `{Env} `{!ObjectStore}.

(** A commit of one UPDATE of an entry that is there. *)
Lemma wp_put_cache key fs r w : cache_entries w !! key = Some r ->
  wp (commit [OnCache (Put key fs)])
    (fun _ w' => cache_entries w' = <[key := set_cache fs r]> (cache_entries w) /\
                 tasks w' = tasks w /\ objects w' = objects w)
    (fun _ w' => cache_entries w' = cache_entries w /\ tasks w' = tasks w /\ objects w' = objects w) w.
Proof.
  intros Hr. apply wp_commit.
  - intros w' (w1 & ((r1 & r' & Hr1 & Hf & Ec) & _ & Et) & _ & Et2 & Ec2) Eo. tables.
    assert (r1 = r) as -> by congruence. rewrite Ec2, Ec. split; [|split; congruence].
    by destruct Hf as [->|[u ->]].
  - by intros e w' (? & ? & ?) ?.
Qed.

Lemma wp_del_cache key w :
  wp (commit [OnCache (Del key)])
    (fun _ w' => cache_entries w' = delete key (cache_entries w) /\ tasks w' = tasks w /\ objects w' = objects w)
    (fun _ w' => cache_entries w' = cache_entries w /\ tasks w' = tasks w /\ objects w' = objects w) w.
Proof.
  apply wp_commit.
  - intros w' (w1 & (Ec & _ & Et) & _ & Et2 & Ec2) Eo. tables. rewrite Ec2, Ec. split; [done|]. split; congruence.
  - by intros e w' (? & ? & ?) ?.
Qed.

(** A deletion that may fail: of this key or of nothing. *)
Definition maybe_deleted (key : string) (w w' : World) : Prop :=
  objects w' = objects w \/ objects w' = delete key (objects w).

Lemma wp_safe_delete key w :
  wp (safe_delete (Some key))
    (fun b w' => cache_entries w' = cache_entries w /\ tasks w' = tasks w /\ maybe_deleted key w w' /\
       (b = true -> key = "" \/ objects w' !! key = None))
    (fun _ _ => False) w.
Proof.
  destruct (safe_delete_db (Some key) w) as [Hd (_ & Et & Ec & _)].
  pose proof (safe_delete_spec (Some key) w) as Hs. unfold wp, maybe_deleted.
  destruct (safe_delete (Some key) w) as [[[]|e|] w']; cbn in *; try done.
  - destruct (decide (key = "")) as [->|Hne]; [rewrite bool_decide_true in Hs by done|
      rewrite bool_decide_false in Hs by done]; rewrite Hs; split_and!; auto.
    intros _. right. apply lookup_delete_eq.
  - split_and!; [done..| |done]. destruct Hs as [->|(k & [= <-] & ->)]; auto.
Qed.

End entries.

(** ** Lookup *)

Section lookup.
Context (settings : GatewaySettings) `{Env} `{!ObjectStore}.

Definition expired_at (now : time) (r : CacheEntry) : bool :=
  match c_expires_at r with Some t => t <? now | None => false end.

Lemma wp_row_is_expired r (Q : bool -> World -> Prop) X w :
  (forall w', same_data w w' -> (step w <= step w')%nat -> Q (expired_at (env_clock (step w)) r) w') ->
  wp (row_is_expired r) Q X w.
Proof.
  intros HQ. unfold row_is_expired, expired_at in *. destruct (c_expires_at r) as [t|].
  - apply wp_bind. change (Q (t <? env_clock (step w)) (bump w)). apply HQ; [by repeat split|cbn; lia].
  - apply HQ; [done|lia].
Qed.

(** What an expired entry becomes: empty, in the next generation. *)
Definition emptied (r : CacheEntry) : CacheEntry :=
  set_cache [C_object_key (Some ""); C_object_generation (c_object_generation r + 1); C_hit_count 0] r.

(** C36: [lookup] returns an entry exactly when the row exists, has not expired
    and has an object, and then counts one hit; an expired row is emptied and
    moved to the next generation, its object deleted or left behind; nothing
    else in the table changes, and nothing at all when it raises. *)
Theorem lookup_serves_live_entries key w :
  let expired := expired_at (env_clock (S (step w))) in
  (forall r, cache_entries w !! key = Some r -> c_cache_key r = key) ->
  wp (CacheService.lookup settings key)
    (fun o w' => tasks w' = tasks w /\
       match cache_entries w !! key with
       | None => o = None /\ cache_entries w' = cache_entries w
       | Some r =>
           if expired r then o = None /\ cache_entries w' = <[key := emptied r]> (cache_entries w)
           else if truthy (c_object_key r)
           then exists e, o = Some e /\ cache_entries w' = <[key := e]> (cache_entries w) /\
                          e = set_cache [C_hit_count (c_hit_count r + 1)] r /\ objects w' = objects w
           else o = None /\ cache_entries w' = cache_entries w
       end)
    (fun _ w' => tasks w' = tasks w /\ cache_entries w' = cache_entries w) w.
Proof.
  intros expired Hkey. unfold CacheService.lookup. wp_go; [|done].
  destruct (cache_entries w !! key) as [r|] eqn:Er; [|done]. specialize (Hkey r eq_refl).
  apply wp_bind, wp_row_is_expired. intros w1 (_ & Et1 & Ec1 & _ & Eo1 & _) _. cbn in Et1, Ec1, Eo1.
  unfold expired. change (step (bump w)) with (S (step w)).
  destruct (expired_at _ r).
  - apply wp_bind. unfold reset_expired_row. wp_go.
    eapply wp_mono; [apply (wp_put_cache _ _ r); by rewrite Hkey, Ec1| |].
    + intros u w2 (Ec2 & Et2 & _). rewrite Hkey, app_nil_r in Ec2. unfold refresh_row. wp_go.
      rewrite Hkey, Ec2, lookup_insert_eq. wp_go. unfold delete_stale_object.
      destruct (or_none (c_object_key r)) as [k|]; wp_go.
      * eapply wp_mono; [apply wp_safe_delete| |done]. intros b w3 (Ec3 & Et3 & _). wp_go.
        split; [congruence|]. split; [done|]. by rewrite Ec3, Ec2, Ec1.
      * split; [congruence|]. split; [done|]. by rewrite Ec2, Ec1.
    + intros e w2 (Ec2 & Et2 & _). split; congruence.
  - destruct (truthy (c_object_key r)); cbn [negb]; [|wp_go; split; [congruence|by split]].
    apply wp_bind. eapply wp_mono; [apply (wp_put_cache _ _ r); by rewrite Ec1| |].
    + intros u w2 (Ec2 & Et2 & Eo2). wp_go. split; [congruence|]. eexists. split; [done|].
      split; [by rewrite Ec2, Ec1|]. split; [done|congruence].
    + intros e w2 (Ec2 & Et2 & _). split; congruence.
Qed.
End lookup.

Definition demo_entry (key : string) (fs : list CacheField) : CacheEntry :=
  set_cache fs (mkCacheEntry key "sha" "opts" "pipeline" "auto" "" (Some "cache/k/g1") 1 (Some "zip") None 0
    (Some (demo_epoch + days 7)) 0).

(** An entry that is live and one that expired. *)
Definition cache_demo : World := demo_world [] []
  [demo_entry "live" []; demo_entry "old" [C_expires_at (Some 1)]] [("cache/k/g1", demo_body)].

Example cache_demo_run :
  (c_hit_count <$> (match (CacheService.lookup demo_settings "live" cache_demo).1 with Ok o => o | _ => None end),
   c_object_generation <$> (cache_entries (CacheService.lookup demo_settings "old" cache_demo).2 !! "old"))
  = (Some 1, Some 2).
Proof. vm_compute. reflexivity. Qed.

Lemma lookup_serves_live_entries_witness :
  wp (CacheService.lookup demo_settings "live")
    (fun o w' => tasks w' = tasks cache_demo /\
       match cache_entries cache_demo !! "live" with
       | None => o = None /\ cache_entries w' = cache_entries cache_demo
       | Some r =>
           if expired_at (env_clock (S (step cache_demo))) r
           then o = None /\ cache_entries w' = <["live" := emptied r]> (cache_entries cache_demo)
           else if truthy (c_object_key r)
           then exists e, o = Some e /\ cache_entries w' = <["live" := e]> (cache_entries cache_demo) /\
                          e = set_cache [C_hit_count (c_hit_count r + 1)] r /\ objects w' = objects cache_demo
           else o = None /\ cache_entries w' = cache_entries cache_demo
       end)
    (fun _ w' => tasks w' = tasks cache_demo /\ cache_entries w' = cache_entries cache_demo) cache_demo.
Proof.
  apply lookup_serves_live_entries. intros r Hr.
  assert (Hv : c_cache_key <$> (cache_entries cache_demo !! "live") = Some "live") by (vm_compute; reflexivity).
  rewrite Hr in Hv. cbn in Hv. congruence.
Defined.

(** ** Invalidation and hits *)

Section owners.
Context (settings : GatewaySettings) `{Env} `{!ObjectStore}.

(** When [invalidate] reports success the entry is gone and so is its
    object; when it reports failure on an entry that was there, the entry no
    longer serves anything and is in the next generation; no other entry
    changes. *)
Theorem invalidate_removes key w :
  wp (invalidate key)
    (fun b w' => tasks w' = tasks w /\
       match cache_entries w !! key with
       | None => b = false /\ cache_entries w' = cache_entries w
       | Some r =>
           if b : bool then cache_entries w' = delete key (cache_entries w) /\
                            (forall k, c_object_key r = Some k -> k = "" \/ objects w' !! k = None)
           else exists r', cache_entries w' = <[key := r']> (cache_entries w) /\
                           c_object_key r' = Some "" /\
                           c_object_generation r' = c_object_generation r + 1
       end)
    (fun _ w' => tasks w' = tasks w /\ forall k, k <> key -> cache_entries w' !! k = cache_entries w !! k) w.
Proof.
  unfold invalidate, invalidate_claim. wp_go; [|done].
  destruct (cache_entries w !! key) as [r|] eqn:Er; [|done]. wp_go. rewrite Er, Z.eqb_refl. wp_go.
  set (claimed := set_cache [C_object_key (Some ""); C_object_generation (c_object_generation r + 1)] r).
  eapply wp_mono; [by apply (wp_put_cache _ _ r)| |by intros e w' (-> & -> & _)].
  intros u w1 (Ec1 & Et1 & Eo1). cbn in Ec1, Et1, Eo1. fold claimed in Ec1. wp_go.
  assert (Hfail : forall w', cache_entries w' = cache_entries w1 -> exists r',
    cache_entries w' = <[key := r']> (cache_entries w) /\ c_object_key r' = Some "" /\
    c_object_generation r' = c_object_generation r + 1).
  { intros w' E. exists claimed. by rewrite E, Ec1. }
  assert (Hremove : forall w2, cache_entries w2 = cache_entries w1 -> tasks w2 = tasks w1 ->
    (forall k, c_object_key r = Some k -> k = "" \/ objects w2 !! k = None) ->
    wp (invalidate_remove key (c_object_generation r + 1))
      (fun b w' => tasks w' = tasks w /\
         if b : bool then cache_entries w' = delete key (cache_entries w) /\
                          (forall k, c_object_key r = Some k -> k = "" \/ objects w' !! k = None)
         else exists r', cache_entries w' = <[key := r']> (cache_entries w) /\
                         c_object_key r' = Some "" /\
                         c_object_generation r' = c_object_generation r + 1)
      (fun _ w' => tasks w' = tasks w /\ forall k, k <> key -> cache_entries w' !! k = cache_entries w !! k) w2).
  { intros w2 Ec2 Et2 Ho. assert (Hraise : forall w', cache_entries w' = cache_entries w2 ->
      forall k, k <> key -> cache_entries w' !! k = cache_entries w !! k).
    { intros w' E k Hk. by rewrite E, Ec2, Ec1, lookup_insert_ne. }
    unfold invalidate_remove. wp_go; [|split; [cbn; congruence|by apply Hraise]].
    rewrite Ec2, Ec1, lookup_insert_eq. unfold populate_matches, no_object. cbn. rewrite Z.eqb_refl.
    cbn. wp_go. apply wp_bind; eapply wp_mono; [apply wp_del_cache| |].
    - intros u2 w3 (Ec3 & Et3 & Eo3). wp_go. split; [cbn in Et3; congruence|]. split.
      + cbn in Ec3. by rewrite Ec3, Ec2, Ec1, delete_insert_eq.
      + intros k Hk. rewrite Eo3. by apply Ho.
    - intros e w3 (Ec3 & Et3 & _). split; [cbn in Et3; congruence|]. by apply Hraise. }
  unfold or_none. destruct (truthy (c_object_key r)) eqn:Et.
  - destruct (c_object_key r) as [k|] eqn:Ek; [|done]. wp_go.
    eapply wp_mono; [apply wp_safe_delete| |done]. intros [] w2 (Ec2 & Et2 & _ & Ho).
    + apply Hremove; [done..|]. intros k0 [= <-]. by apply Ho.
    + wp_go. split; [congruence|]. by apply Hfail.
  - wp_go. apply Hremove; [done..|]. intros k Hk. rewrite Hk in Et. cbn in Et. bool_hyps. by left.
Qed.

Lemma wp_store_copy src dst w :
  wp (store_copy src dst)
    (fun _ w' => same_db w w' /\ exists data, objects w !! src = Some data /\
                                              objects w' = <[dst := data]> (objects w))
    (fun _ w' => same_db w w') w.
Proof.
  destruct (store_copy_db src dst w) as [Hd Hdb]. pose proof (store_copy_spec src dst w) as Hs.
  unfold wp. by destruct (store_copy src dst w) as [[[]|e|] w'].
Qed.

(** What a hit writes. *)
Lemma create_hit_task_wp id entry names w : truthy (c_object_key entry) = true ->
  wp (create_hit_task id entry names)
    (fun t w' => t_task_id t = id /\ task_wf t = true /\ t_status t = TASK_COMPLETED /\
       tasks w !! id = None /\ tasks w' = <[id := t]> (tasks w) /\
       cache_entries w' = cache_entries w /\
       exists key data, c_object_key entry = Some key /\ objects w !! key = Some data /\
         t_result_key t = Some (result_key id RESULT_FORMAT_ZIP) /\
         objects w' !! result_key id RESULT_FORMAT_ZIP = Some data)
    (fun _ w' => tasks w' = tasks w /\ cache_entries w' = cache_entries w) w.
Proof.
  intros Hkey. unfold create_hit_task. rewrite Hkey. apply wp_bind, wp_bind.
  destruct (c_object_key entry) as [key|] eqn:Ek; [|done].
  replace (str_or (Some key) "") with key by (cbn in *; bool_hyps; by rewrite bool_decide_false).
  eapply wp_mono; [apply wp_store_copy| |by intros e w' (_ & ? & ? & _)].
  intros u w1 [(_ & Et1 & Ec1 & _) (data & Hd & Eo1)]. wp_go. apply wp_try.
  assert (Hundo : forall e w2, tasks w2 = tasks w1 -> cache_entries w2 = cache_entries w1 ->
    wp ((_ ← safe_delete (Some (result_key id RESULT_FORMAT_ZIP)) ; mret tt) ;; @raise Task e)
      (fun t w' => t_task_id t = id /\ task_wf t = true /\ t_status t = TASK_COMPLETED /\
       tasks w !! id = None /\ tasks w' = <[id := t]> (tasks w) /\
       cache_entries w' = cache_entries w /\
       exists key0 data0, Some key = Some key0 /\ objects w !! key0 = Some data0 /\
         t_result_key t = Some (result_key id RESULT_FORMAT_ZIP) /\
         objects w' !! result_key id RESULT_FORMAT_ZIP = Some data0)
      (fun _ w' => tasks w' = tasks w /\ cache_entries w' = cache_entries w) w2).
  { intros e w2 Et2 Ec2. wp_go. eapply wp_mono; [apply wp_safe_delete| |done].
    intros b w3 (Ec3 & Et3 & _). wp_go. split; congruence. }
  apply wp_bind, wp_open_session; [|intros e; by apply Hundo]. wp_go. apply wp_commit.
  - intros w2 (w3 & ((Hn & c & s & Et3) & _ & Ec3) & _ & Et4 & Ec4) Eo2. unfold refresh_row. wp_go.
    cbn in Hn, Et3. rewrite Et4, Et3, lookup_insert_eq. wp_go.
    split; [done|]. split; [done|]. split; [done|]. split; [congruence|].
    split; [rewrite Et4, Et3; by rewrite Et1|]. split; [rewrite Ec4, Ec3; exact Ec1|].
    exists key, data. split; [done|]. split; [done|]. split; [done|].
    rewrite Eo2. cbn. by rewrite Eo1, lookup_insert_eq.
  - intros e w2 (_ & Et2 & Ec2) _. by apply (Hundo e).
Qed.

(** A cache hit creates a completed task whose result is a copy of the
    cached object, so the task outlives the entry; when it raises no task has
    been created. *)
Theorem hit_task_owns_its_result id entry names w : truthy (c_object_key entry) = true ->
  wp (create_hit_task id entry names)
    (fun t w' => t_task_id t = id /\ task_wf t = true /\ t_status t = TASK_COMPLETED /\
       tasks w !! id = None /\ tasks w' = <[id := t]> (tasks w) /\
       cache_entries w' = cache_entries w /\
       exists key data, c_object_key entry = Some key /\ objects w !! key = Some data /\
         t_result_key t = Some (result_key id RESULT_FORMAT_ZIP) /\
         objects w' !! result_key id RESULT_FORMAT_ZIP = Some data)
    (fun _ w' => tasks w' = tasks w /\ cache_entries w' = cache_entries w) w.
Proof. apply create_hit_task_wp. Qed.
End owners.

Lemma hit_task_owns_its_result_witness :
  wp (create_hit_task "t9" (demo_entry "live" []) ["a.pdf"])
    (fun t w' => t_task_id t = "t9" /\ task_wf t = true /\ t_status t = TASK_COMPLETED /\
       tasks cache_demo !! "t9" = None /\ tasks w' = <["t9" := t]> (tasks cache_demo) /\
       cache_entries w' = cache_entries cache_demo /\
       exists key data, c_object_key (demo_entry "live" []) = Some key /\ objects cache_demo !! key = Some data /\
         t_result_key t = Some (result_key "t9" RESULT_FORMAT_ZIP) /\
         objects w' !! result_key "t9" RESULT_FORMAT_ZIP = Some data)
    (fun _ w' => tasks w' = tasks cache_demo /\ cache_entries w' = cache_entries cache_demo) cache_demo.
Proof. apply hit_task_owns_its_result. vm_compute. reflexivity. Defined.

(** ** Keys *)

(** A text without line breaks is read off up to the first one. *)
Lemma split_at_newline a a' b b' : all_chars printable a = true -> all_chars printable a' = true ->
  a +:+ NEWLINE +:+ b = a' +:+ NEWLINE +:+ b' -> a = a' /\ b = b'.
Proof.
  revert a'; induction a as [|c a IH]; intros [|c' a'] Ha Ha' E.
  - split; [done|]. by injection E.
  - rewrite string_app_cons in E. injection E as <- _. cbn in Ha'. done.
  - rewrite string_app_cons in E. injection E as -> _. cbn in Ha. done.
  - rewrite !string_app_cons in E. injection E as -> E. cbn in Ha, Ha'. bool_hyps.
    apply IH in E as [-> ->]; by auto.
Qed.

Lemma json_of_option_inj v v' : json_of_option v = json_of_option v' -> v = v'.
Proof.
  destruct v, v'; cbn; try done; intros [= E]; [by subst|]. f_equal.
  revert l0 E. induction l as [|x l IH]; intros [|y l'] [=]; [done|]. subst. f_equal. by apply IH.
Qed.

(** Two uploads have the same cache-key material only if they have the same
    files (names and digests, in order) and the same options: distinct requests
    share a cached result only if SHA-256 collides. *)
Theorem key_material_injective records records' opts opts' :
  key_material records opts = key_material records' opts' -> records = records' /\ opts = opts'.
Proof.
  unfold key_material. intros E. apply split_at_newline in E as [Er Eo]; try by apply dumps_printable.
  unfold records_blob in Er. apply dumps_compact_inj in Er. injection Er as Er.
  unfold canonical_options in Eo. apply dumps_default_inj in Eo. injection Eo as Eo. split.
  - revert records' Er. induction records as [|[n d] l IH]; intros [|[n' d'] l'] E; try done.
    injection E as -> -> E. f_equal. by apply IH.
  - apply map_to_list_inj.
    rewrite <- (merge_sort_Permutation (fun a b : string * opt_value => String.leb a.1 b.1) (map_to_list opts)),
      <- (merge_sort_Permutation (fun a b : string * opt_value => String.leb a.1 b.1) (map_to_list opts')).
    match type of Eo with map ?f ?l = map ?f ?l' => assert (l = l') as Hl; [|by rewrite Hl] end.
    revert Eo. generalize (merge_sort (fun a b : string * opt_value => String.leb a.1 b.1) (map_to_list opts')).
    generalize (merge_sort (fun a b : string * opt_value => String.leb a.1 b.1) (map_to_list opts)).
    intros l. induction l as [|[k v] l IH]; intros [|[k' v'] l'] E; try done.
    injection E as -> Ev E. apply json_of_option_inj in Ev as ->. f_equal. by apply IH.
Qed.

Definition demo_options : options := <["backend" := OptStr "pipeline"]> (<["lang_list" := OptList ["ch"; "en"]]> ∅).

Lemma key_material_injective_witness :
  [("a.pdf", "d1")] = [("a.pdf", "d1")] /\
  build_cache_options_from_payload [("lang_list", "en"); ("backend", "pipeline"); ("lang_list", "ch")] = demo_options.
Proof. apply key_material_injective. vm_compute. reflexivity. Defined.

(** ** The S3 store under the cache *)

(** With the S3 store, a result that is missing makes [populate_from_task]
    raise the client error: [S3ObjectStore.copy] does not translate it to the
    [KeyError] the cache handles, although [get] does.  No entry changes. *)
Theorem s3_missing_source_escapes `{Env} `{!S3Client} id key fmt w message wcopy
    (generation := String.substring 0 SHORT_ID_LENGTH (env_uuid (step w))) :
  s3_copy_object (result_key id RESULT_FORMAT_ZIP) (cache_object_key key (Some generation)) (bump w)
    = (Raise (ClientError "NoSuchKey" message), wcopy) ->
  populate_from_task id key fmt w = (Raise (ClientError "NoSuchKey" message), wcopy) /\
  S3ObjectStore.missing_key (A:=unit) key (ClientError "NoSuchKey" message) w = (Raise (KeyError key), w) /\
  cache_entries wcopy = cache_entries w.
Proof.
  intros E. split; [|split; [reflexivity|]].
  - unfold populate_from_task. rewrite bind_unfold.
    change (short_id w) with (@Ok string generation, bump w). cbn iota beta.
    rewrite bind_unfold. unfold try_. rewrite bind_unfold.
    change (store_copy ?a ?b) with (s3_copy_object a b). by rewrite E.
  - pose proof (s3_copy_db (result_key id RESULT_FORMAT_ZIP) (cache_object_key key (Some generation)) (bump w)) as Hd.
    rewrite E in Hd. by destruct Hd as [_ (_ & _ & ? & _)].
Qed.

Definition empty_demo : World := demo_world [] [] [] [].

Lemma s3_missing_source_escapes_witness :
  exists message w', populate_from_task "t1" "k" "zip" empty_demo = (Raise (ClientError "NoSuchKey" message), w').
Proof.
  eexists. eexists. refine (proj1 (s3_missing_source_escapes "t1" "k" "zip" empty_demo _ _ _)).
  vm_compute. reflexivity.
Defined.
