(* ===== verification/FleetSpec.v ===== *)
(** * FleetSpec: what the slow tick promises about the workers

    How many workers there may be, when one may be drained, stopped or
    terminated, and which calls to the cloud reconciliation may make. *)
From S2P Require Import Prelude Models CloudTypes Config Scaling World Database Logic Hoare Storage Status.
From S2P Require Import TaskRows Upstream WorkerRepository CacheService Results TaskRepository Payload S3.
From S2P Require Import Lock Provider Health Reconcile Scheduler Fleet Demo.

(** C10: a slow tick always ends, returning or raising, and whatever fails on the
    way it does not bring the deployment above [max_workers + 1] workers (the
    one extra is the replacement of a rotation or of a stalled fleet); a fleet
    that is above already does not grow. *)
Theorem slow_tick_bounds_fleet (settings : GatewaySettings) (has_provider : bool) `{Env} `{!ObjectStore}
    `{!Http} `{!MinerU} `{!ComputeProvider} `{!LockServer} w :
  let '(o, w') := slow_tick settings has_provider w in
  o <> Diverged /\
  fleet_size settings w' <= Z.max (max_workers (scaling settings) + 1) (fleet_size settings w).
Proof.
  pose proof (slow_tick_bounded settings has_provider w) as Hb.
  by destruct (slow_tick settings has_provider w) as [o w'].
Qed.

(** ** Power calls *)

Section calls.
Context (settings : GatewaySettings) `{Env} `{!ComputeProvider}.

(** The instance reconciliation works on: the discovered one, else the row's. *)
Definition known_instance (worker : Worker) (discovered : option DiscoveredInstance) : option string :=
  match discovered with Some d => Some (d_instance_id d) | None => w_instance_id worker end.

(** A power call moves the VM to where the worker's row wants it. *)
Definition call_wanted (worker : Worker) (discovered : option DiscoveredInstance) (c : CloudCall) : Prop :=
  match c with
  | CallLaunch id => id = w_id worker /\ known_instance worker discovered = None /\
                     w_desired_state worker = CLOUD_STATE_RUNNING
  | CallStart i => known_instance worker discovered = Some i /\ w_desired_state worker = CLOUD_STATE_RUNNING
  | CallStop i => known_instance worker discovered = Some i /\ w_desired_state worker = CLOUD_STATE_STOPPED
  | CallTerminate i =>
      known_instance worker discovered = Some i /\ w_desired_state worker = CLOUD_STATE_TERMINATED
  end.

Definition at_most_one_call (worker : Worker) (discovered : option DiscoveredInstance) (w w' : World) : Prop :=
  calls w' = calls w \/ exists c, calls w' = calls w ++ [c] /\ call_wanted worker discovered c.

(** No power call is made. *)
Definition same_calls : relation World := fun w w' => calls w' = calls w.
#[export] Instance same_calls_benign : Benign same_calls.
Proof.
  split; [split; unfold same_calls; [done|intros a b c; congruence]|].
  by intros w w' (_ & _ & _ & _ & _ & E & _).
Qed.

Lemma commit_calls ws : evolves same_calls (commit ws).
Proof. apply evolves_commit_any; [apply _|..]; done || (unfold same_calls; by intros). Qed.

Lemma commit_fields_calls id fs : evolves same_calls (commit_fields id fs).
Proof. unfold commit_fields. destruct fs; evolve. apply commit_calls. Qed.

Lemma record_failure_calls id e r : evolves same_calls (record_failure settings id e r).
Proof. unfold record_failure. evolve; apply commit_calls. Qed.

Lemma finalize_disappeared_calls id r : evolves same_calls (finalize_disappeared_instance id r).
Proof. unfold finalize_disappeared_instance. evolve. apply commit_fields_calls. Qed.
#[local] Hint Resolve commit_fields_calls record_failure_calls finalize_disappeared_calls : evolve.

Lemma check_running_readiness_calls worker i :
  evolves same_calls (check_running_readiness settings worker i).
Proof. unfold check_running_readiness. evolve. Qed.
#[local] Hint Resolve check_running_readiness_calls : evolve.

(** Operations without a call, before and after the one that makes it. *)
Lemma wp_no_call {A} (m : M A) (Q : A -> World -> Prop) X w : evolves same_calls m ->
  (forall a w', calls w' = calls w -> Q a w') -> (forall e w', calls w' = calls w -> X e w') -> wp m Q X w.
Proof. apply (wp_evolves same_calls). Qed.

(** A power call and what follows it. *)
Lemma wp_power_call {A B} (m : M B) (f : B -> M A) c w0 w (Q : A -> World -> Prop) X : calls w = calls w0 ->
  evolves same_data m -> (forall b, evolves same_calls (f b)) ->
  (forall a w', calls w' = calls w0 ++ [c] -> Q a w') -> (forall e w', calls w' = calls w0 ++ [c] -> X e w') ->
  wp ((record_call c ;; m) ≫= f) Q X w.
Proof.
  intros E Hm Hf HQ HX. apply wp_bind, wp_bind. set (w1 := with_calls (calls w ++ [c]) w).
  change (wp m (fun a => wp (f a) Q X) X w1). assert (E1 : calls w1 = calls w0 ++ [c]) by (cbn; by rewrite E).
  apply (wp_evolves same_data); [exact Hm| |].
  - intros b w2 (_ & _ & _ & _ & _ & E2 & _). apply wp_no_call; [done|..]; intros a w3 E3;
      [apply HQ|apply HX]; congruence.
  - intros e w2 (_ & _ & _ & _ & _ & E2 & _). apply HX. congruence.
Qed.

Lemma sync_discovered_wp worker d w :
  wp (sync_discovered_state worker d)
    (fun v w' => calls w' = calls w /\ w_id v = w_id worker /\ w_desired_state v = w_desired_state worker /\
                 w_instance_id v = Some (d_instance_id d))
    (fun _ w' => calls w' = calls w) w.
Proof.
  unfold sync_discovered_state. apply wp_bind.
  destruct (w_instance_id worker !=? Some (d_instance_id d)) eqn:E; bool_hyps; wp_go.
  - apply wp_no_call; [apply commit_fields_calls| |done]. intros u w1 E1. wp_go.
    destruct (_ && _); wp_go; [|done].
    apply wp_no_call; [apply commit_fields_calls| |congruence]. intros u2 w2 E2. wp_go. split; [congruence|done].
  - destruct (_ && _); wp_go; [|done].
    apply wp_no_call; [apply commit_fields_calls| |done]. by intros u2 w2 E2.
Qed.

(** The transition of a worker whose instance is [i]. *)
Lemma transition_wp worker discovered v i cloud_state w0 w :
  calls w = calls w0 -> w_desired_state v = w_desired_state worker -> known_instance worker discovered = Some i ->
  wp (transition_power_state v i cloud_state)
    (fun _ => at_most_one_call worker discovered w0) (fun _ => at_most_one_call worker discovered w0) w.
Proof.
  intros E Ed Ei. unfold transition_power_state, provider_start, provider_stop, provider_terminate.
  assert (Hone : forall c w', call_wanted worker discovered c -> calls w' = calls w0 ++ [c] ->
    at_most_one_call worker discovered w0 w') by (intros c w' Hc Ec; right; by exists c).
  destruct ((w_desired_state v ==? CLOUD_STATE_RUNNING) && _) eqn:E1.
  { bool_hyps. apply (wp_power_call _ _ (CallStart i) w0); [done|apply cloud_start_data; apply _|evolve| |].
    all: intros a w' Ec; apply (Hone (CallStart i)); [split; [done|congruence]|done]. }
  destruct ((w_desired_state v ==? CLOUD_STATE_STOPPED) && _) eqn:E2.
  { bool_hyps. apply (wp_power_call _ _ (CallStop i) w0); [done|apply cloud_stop_data; apply _|evolve| |].
    all: intros a w' Ec; apply (Hone (CallStop i)); [split; [done|congruence]|done]. }
  destruct ((w_desired_state v ==? CLOUD_STATE_TERMINATED) && _) eqn:E3.
  { bool_hyps. apply (wp_power_call _ _ (CallTerminate i) w0); [done|apply cloud_terminate_data; apply _|evolve| |].
    all: intros a w' Ec; apply (Hone (CallTerminate i)); [split; [done|congruence]|done]. }
  by left.
Qed.

Lemma align_wp worker discovered v i cloud_state w0 w :
  calls w = calls w0 -> w_desired_state v = w_desired_state worker -> known_instance worker discovered = Some i ->
  wp (align_instance settings v i cloud_state)
    (fun _ => at_most_one_call worker discovered w0) (fun _ => at_most_one_call worker discovered w0) w.
Proof.
  intros E Ed Ei. unfold align_instance. apply wp_bind.
  apply wp_mono with (Q := fun v' w' => calls w' = calls w0 /\ w_desired_state v' = w_desired_state worker)
    (X := fun _ w' => calls w' = calls w0); [|clear E Ed|by left].
  { destruct (cloud_state !=? w_cloud_state v); [|by split]. apply wp_bind.
    apply wp_no_call; [apply commit_fields_calls| |congruence]. intros u w1 E1. apply wp_bind.
    apply wp_no_call; [evolve| |congruence]. intros u2 w2 E2. wp_go. split; [congruence|done]. }
  intros v' w1 [E1 Ed1]. apply wp_bind.
  eapply wp_mono; [by apply (transition_wp worker discovered v' i cloud_state w0 w1)| |done].
  intros [result|] w2 H2; [exact H2|]. apply wp_bind.
  apply wp_no_call; [evolve|intros a w3 E3; wp_go|intros e w3 E3]; unfold at_most_one_call in *; by rewrite E3.
Qed.

(** C17: reconciling one worker makes at most one power call, and the one its
    row wants: a VM is launched only for a running worker without any VM,
    started or stopped only toward the desired state, and terminated only
    when the worker is to be terminated; so also when it raises. *)
Theorem reconcile_calls_wanted has_provider worker discovered w :
  wp (reconcile_one_worker settings has_provider worker discovered)
    (fun _ => at_most_one_call worker discovered w) (fun _ => at_most_one_call worker discovered w) w.
Proof.
  assert (Hnone : forall w', calls w' = calls w -> at_most_one_call worker discovered w w') by (by left).
  unfold reconcile_one_worker. destruct (negb has_provider); [by apply Hnone|].
  apply wp_bind. apply wp_mono with
    (Q := fun v w' => calls w' = calls w /\ w_id v = w_id worker /\ w_desired_state v = w_desired_state worker /\
                      w_instance_id v = known_instance worker discovered)
    (X := fun _ w' => calls w' = calls w); [|clear Hnone|by intros e w' E; apply Hnone].
  { destruct discovered; [apply sync_discovered_wp|by repeat split]. }
  intros v w1 (E1 & Eid & Ed & Ei). destruct (w_instance_id v) as [i|].
  - apply wp_bind. apply (wp_evolves same_data); [apply cloud_get_state_data; apply _| |].
    2: intros e w2 (_ & _ & _ & _ & _ & E2 & _); left; congruence.
    intros state w2 (_ & _ & _ & _ & _ & E2 & _). cbv zeta. destruct (_ && _).
    + apply wp_bind. apply wp_no_call; [apply finalize_disappeared_calls|intros a w3 E3; wp_go|intros e w3 E3];
        left; congruence.
    + apply align_wp; [congruence|done..].
  - destruct (w_desired_state v ==? CLOUD_STATE_RUNNING) eqn:Er.
    + bool_hyps. destruct discovered as [d|]; [done|]. unfold launch_missing_instance, provider_launch.
      apply wp_bind. apply (wp_power_call _ _ (CallLaunch (w_id v)) w); [done|apply cloud_launch_data; apply _|evolve| |].
      all: intros a w' Ec; try wp_go; right; eexists; (split; [exact Ec|]); split_and!; congruence.
    + apply wp_bind. apply wp_no_call; [evolve|intros a w3 E3; wp_go|intros e w3 E3]; left; congruence.
Qed.
End calls.

(** ** Drains *)

(** A worker's desired state changes only if it has no task on its way: none
    being dispatched, processed or waiting for its result. *)
Definition drain_safe : relation World := fun w w' =>
  tasks w' = tasks w /\
  forall k v, workers w !! k = Some v -> exists v', workers w' !! k = Some v' /\
    (w_desired_state v' = w_desired_state v \/ drain_blockers w k = 0).

#[export] Instance drain_safe_benign : Benign drain_safe.
Proof.
  split; [split|].
  - intros w. split; [done|]. eauto.
  - intros a b c [Et1 H1] [Et2 H2]. split; [congruence|]. intros k v Hv.
    destruct (H1 k v Hv) as (v1 & Hv1 & D1), (H2 k v1 Hv1) as (v2 & Hv2 & D2). exists v2. split; [done|].
    unfold drain_blockers, task_count in *. rewrite Et1 in D2. destruct D1, D2; auto. left. congruence.
  - intros w w' (Ew & Et & _). split; [done|]. rewrite Ew. eauto.
Qed.

Section drains.
Context (settings : GatewaySettings) `{Env}.

Lemma wp_count_inflight id (Q : Z -> World -> Prop) X w :
  (forall w', same_data w w' -> Q (drain_blockers w id) w') -> (forall e w', same_data w w' -> X e w') ->
  wp (count_inflight_tasks id) Q X w.
Proof.
  intros HQ HX. unfold count_inflight_tasks, select_count. wp_go; [|by apply HX].
  apply wp_select. intros l Hl _. wp_go. rewrite Hl. by apply (HQ (bump (bump w))).
Qed.

Lemma drain_safe_data w w' w'' : same_data w w' -> drain_safe w' w'' -> drain_safe w w''.
Proof. intros E Hs. etrans; [by apply benign|exact Hs]. Qed.

Lemma commit_fields_drained id fs w : drain_blockers w id = 0 ->
  wp (commit_fields id fs) (fun _ => drain_safe w) (fun _ => drain_safe w) w.
Proof.
  intros Hz. assert (Hsame : forall w', tasks w' = tasks w -> workers w' = workers w -> drain_safe w w').
  { intros w' Et Ew. split; [done|]. rewrite Ew. eauto. }
  unfold commit_fields. destruct fs as [|f fs]; [by apply Hsame|]. wp_go; [|by apply Hsame].
  destruct (workers w !! id) as [r|] eqn:Er; [|by apply Hsame].
  eapply wp_mono; [by apply (wp_put_worker id _ r)| |by intros e w' (? & ? & _); apply Hsame].
  intros u w' (r' & _ & Ew & Et & _). split; [exact Et|]. intros k v Hv. rewrite Ew. cbn.
  destruct (decide (k = id)) as [->|Hne].
  - rewrite lookup_insert_eq. eauto.
  - rewrite lookup_insert_ne by done. eauto.
Qed.

Lemma advance_drain_safe worker : evolves drain_safe (advance_drain settings worker).
Proof.
  apply evolves_wp. intros w. unfold advance_drain. apply wp_bind.
  apply wp_count_inflight; [|by intros; apply benign]. intros w1 E1. apply wp_bind.
  apply (wp_evolves same_data); [apply evolves_count_unstored_results; apply _| |].
  2: intros e w2 E2; apply benign; by etrans.
  intros unstored w2 E2. assert (E02 : same_data w w2) by (by etrans).
  destruct ((0 <? drain_blockers w (w_id worker)) || _) eqn:Eb; [wp_go; by apply benign|].
  assert (Hz : forall w', same_data w w' -> drain_blockers w' (w_id worker) = 0).
  { intros w' (_ & Et & _). apply orb_false_iff in Eb as [Eb _]. bool_hyps.
    unfold drain_blockers, task_count in *. rewrite Et. lia. }
  assert (Hput : forall fs w', same_data w w' ->
    wp (commit_fields (w_id worker) fs) (fun _ => drain_safe w) (fun _ => drain_safe w) w').
  { intros fs w' E. eapply wp_mono; [by apply commit_fields_drained, Hz| |];
      intros a w3 Hs; by eapply drain_safe_data. }
  apply wp_bind. unfold has_active_replacement_for, get_ready_replacement_for.
  apply (wp_evolves same_data); [evolve| |]; [|intros e w3 E3; apply benign; by etrans].
  intros [] w3 E3; assert (E03 : same_data w w3) by (by etrans).
  - apply wp_bind. apply (wp_evolves same_data); [evolve| |]; [|intros e w4 E4; apply benign; by etrans].
    intros [ready|] w4 E4; [apply Hput; by etrans|wp_go; apply benign; by etrans].
  - destruct (sql_eq _ _); by apply Hput.
Qed.

(** C16: [advance_drains] stops or terminates only workers without a task on
    its way, whatever fails during the pass, and never touches a task. *)
Theorem drains_wait_for_tasks w :
  let '(o, w') := advance_drains settings w in o <> Diverged /\ drain_safe w w'.
Proof.
  assert (Hd : evolves drain_safe (advance_drains settings)).
  { unfold advance_drains, find_draining_workers. evolve. apply advance_drain_safe. }
  specialize (Hd w). by destruct (advance_drains settings w).
Qed.
End drains.

(** ** Failures *)

Section failures.
Context (settings : GatewaySettings) `{Env}.

(** What a counted failure leaves on the row, up to the stamp. *)
Definition failed_once (error : string) (retryable : bool) (r r' : Worker) : Prop :=
  w_failure_count r' = w_failure_count r + 1 /\ w_last_error r' = Some error /\
  w_desired_state r' = w_desired_state r /\ w_cloud_state r' = w_cloud_state r /\
  w_instance_id r' = w_instance_id r /\
  if max_failures settings <=? w_failure_count r + 1 then
    w_draining r' = true /\ w_drain_target r' = Some CLOUD_STATE_TERMINATED /\ w_healthy r' = false /\
    w_retry_after r' = None /\ not_none (w_stalled_at r') = true /\
    (forall t, w_stalled_at r = Some t -> w_stalled_at r' = Some t)
  else w_draining r' = w_draining r /\ w_stalled_at r' = w_stalled_at r /\
    if retryable then exists now d, retry_delay (w_failure_count r + 1) = Some d /\
                                    w_retry_after r' = Some (now + seconds d)
    else w_retry_after r' = w_retry_after r.

(** [record_failure] counts the failure on its worker's row alone; below
    the maximum a retryable one sets the backoff of [retry_delay], at the
    maximum the worker is stalled and drained toward termination, the time it
    stalled is kept.  On a non-negative count it raises only if the database
    does, and then no row has changed. *)
Theorem failure_backs_off_or_drains id error retryable w r :
  workers w !! id = Some r -> 0 <= w_failure_count r ->
  wp (record_failure settings id error retryable)
    (fun _ w' => exists r', workers w' = <[id := r']> (workers w) /\ failed_once error retryable r r' /\
                            tasks w' = tasks w)
    (fun _ w' => workers w' = workers w /\ tasks w' = tasks w) w.
Proof.
  intros Er Hn. unfold record_failure. wp_go; [|done]. rewrite Er. wp_go.
  assert (Hput : forall fs w1, workers w1 = workers w -> tasks w1 = tasks w ->
    failed_once error retryable r (set_worker fs r) ->
    wp (commit [OnWorker (Put id fs)])
      (fun _ w' => exists r', workers w' = <[id := r']> (workers w) /\ failed_once error retryable r r' /\
                              tasks w' = tasks w)
      (fun _ w' => workers w' = workers w /\ tasks w' = tasks w) w1).
  { intros fs w1 Ew Et Hf. eapply wp_mono; [apply (wp_put_worker id fs r); by rewrite Ew| |].
    - intros u w' (r' & Hr' & Ew' & Et' & _). exists r'. rewrite Ew', Ew, Et', Et. split; [done|].
      split; [|done]. by destruct Hr' as [->|[v ->]].
    - intros e w' (Ew' & Et' & _). split; congruence. }
  destruct (max_failures settings <=? w_failure_count r + 1) eqn:Em.
  - destruct (w_stalled_at r) as [t|] eqn:Es; apply wp_bind; wp_go; (apply Hput; [done..|]);
      unfold failed_once; cbn; rewrite Em; split_and!; try done; rewrite Es; done.
  - destruct retryable; [wp_go; destruct (retry_delay (w_failure_count r + 1)) as [d|] eqn:Ed|].
    + apply Hput; [done..|]. unfold failed_once; cbn. rewrite Em. split_and!; eauto.
    + exfalso. revert Ed. unfold retry_delay.
      destruct (w_failure_count r + 1 <=? Z.of_nat (length RETRY_SECONDS)) eqn:El; [|done].
      unfold py_index. apply Z.leb_le in El. cbn [length RETRY_SECONDS] in El.
      rewrite (proj2 (Z.leb_le _ _)) by lia.
      assert (Hk : exists k, Z.to_nat (w_failure_count r + 1 - 1) = k /\ (k < 5)%nat) by (eexists; split; [done|lia]).
      destruct Hk as (k & -> & Hk). do 5 (destruct k as [|k]; [done|]). lia.
    + apply Hput; [done..|]. unfold failed_once; cbn. rewrite Em. split_and!; done.
Qed.
End failures.

Definition failing_worker : Worker := set_worker [W_failure_count 7] (demo_worker "cloud-1").
Definition failing_demo : World := demo_world [failing_worker] [] [] [].

Example failing_demo_run :
  w_drain_target <$> (workers (record_failure demo_settings "cloud-1" "boom" true failing_demo).2 !! "cloud-1")
  = Some (Some CLOUD_STATE_TERMINATED).
Proof. vm_compute. reflexivity. Qed.

Lemma failure_backs_off_or_drains_witness :
  wp (record_failure demo_settings "cloud-1" "boom" true)
    (fun _ w' => exists r', workers w' = <["cloud-1" := r']> (workers failing_demo) /\
       failed_once demo_settings "boom" true failing_worker r' /\ tasks w' = tasks failing_demo)
    (fun _ w' => workers w' = workers failing_demo /\ tasks w' = tasks failing_demo) failing_demo.
Proof. apply failure_backs_off_or_drains; [vm_compute; reflexivity|cbn; lia]. Defined.

(** ** Autoscaling *)

Section autoscaling.
Context (settings : GatewaySettings).

(** Rows stay, and are drained exactly if they were. *)
Definition draining_row (_ : string) (o o' : option Worker) : Prop :=
  forall v, o = Some v -> exists v', o' = Some v' /\
    w_draining v' = w_draining v /\ w_drain_target v' = w_drain_target v.

#[export] Instance draining_row_preorder k : PreOrder (draining_row k).
Proof.
  split; unfold draining_row; [by eauto|]. intros a b c Hab Hbc v Hv.
  destruct (Hab v Hv) as (v1 & Hv1 & E1 & E2), (Hbc v1 Hv1) as (v2 & Hv2 & E3 & E4).
  exists v2. split; [done|]. split; congruence.
Qed.

Definition same_draining : relation World := rows_evolve (A:=Worker) draining_row.
#[export] Instance same_draining_benign : Benign same_draining := rows_evolve_benign draining_row.

Definition keeps_draining (wr : write) : Prop :=
  match wr with
  | OnWorker (Put _ fs) => forall v, w_draining (set_worker fs v) = w_draining v /\
                                     w_drain_target (set_worker fs v) = w_drain_target v
  | OnWorker (Add _) => True
  | OnWorker (Del _) => False
  | _ => True
  end.

(** What autoscaling may do to the rows: drain one worker that is idle. *)
Definition drains_idle_only (w w' : World) : Prop :=
  forall k v, workers w !! k = Some v -> exists v', workers w' !! k = Some v' /\
    (w_draining v' = w_draining v /\ w_drain_target v' = w_drain_target v \/
     w_draining v' = true /\ w_drain_target v' = Some CLOUD_STATE_STOPPED /\
     exists now, idle_clause settings (now - seconds (idle_cooldown_seconds (scaling settings))) w v = true).

Lemma same_draining_idle w w' : same_draining w w' -> drains_idle_only w w'.
Proof. intros Hs k v Hv. destruct (Hs k v Hv) as (v' & Hv' & E1 & E2). exists v'. auto. Qed.

Context `{Env}.

Lemma commit_draining ws : Forall keeps_draining ws -> evolves same_draining (commit ws).
Proof.
  intros Hws. apply (evolves_commit_all (A:=Worker) draining_row). intros op m Hop.
  apply list_elem_of_omap in Hop as (wr & Hwr & E). rewrite Forall_forall in Hws.
  apply Hws in Hwr. destruct wr as [op'|op'|op'|e]; try discriminate E. injection E as ->.
  destruct op as [r|id fs|id]; try done. intros r r' _ Hf v [= <-]. exists r'. split; [done|].
  destruct (Hwr r). by destruct Hf as [->|[u ->]].
Qed.

Lemma commit_fields_draining id fs :
  (forall t v, w_draining (set_worker (fs ++ [W_updated_at t]) v) = w_draining v /\
               w_drain_target (set_worker (fs ++ [W_updated_at t]) v) = w_drain_target v) ->
  evolves same_draining (commit_fields id fs).
Proof.
  intros Hfs. unfold commit_fields. destruct fs as [|f fs]; evolve.
  apply commit_draining. repeat constructor; apply Hfs.
Qed.

Lemma scale_up_draining : evolves same_draining (scale_up settings).
Proof.
  unfold scale_up, find_stopped_worker, count_workers, count_stalled_workers, count_serviceable_workers,
    create_cloud_worker, worker_id, short_id. evolve.
  all: first [by apply commit_fields_draining | apply commit_draining; by repeat constructor].
Qed.

Lemma scaling_event_draining a r i t q : evolves same_draining (record_scaling_event_now a r i t q).
Proof. unfold record_scaling_event_now. evolve. apply commit_draining. by repeat constructor. Qed.

(** The worker [find_idle_worker] returns is a row of the table and idle. *)
Lemma wp_find_idle before w (Q : option Worker -> World -> Prop) X : workers_keyed w ->
  (forall o w', same_data w w' -> (forall v, o = Some v -> workers w !! w_id v = Some v /\
     idle_clause settings before w v = true) -> Q o w') ->
  (forall e w', same_data w w' -> X e w') -> wp (find_idle_worker settings before) Q X w.
Proof.
  intros HK HQ HX. unfold find_idle_worker, get_one_where, list_where. wp_go; [|by apply HX].
  apply wp_select. intros rows Hrows _. wp_go. apply HQ; [by repeat split|]. intros v Hv.
  apply (select_rows _ rows (bump w)) in Hrows as [_ Hin]; [|exact HK].
  destruct (Hin v) as [HP Hr].
  { destruct rows; [done|]. injection Hv as ->. left. }
  split; [exact Hr|exact HP].
Qed.

End autoscaling.

(** Two idle workers and an empty queue. *)
Definition idle_demo : World :=
  demo_world (set_worker [W_ready_at (Some 1)] <$> [demo_worker "cloud-1"; demo_worker "cloud-2"]) [] [] [].

Example idle_demo_run :
  length (List.filter (fun kv => w_draining kv.2)
    (map_to_list (workers (apply_autoscaling demo_settings true idle_demo).2))) = 1%nat.
Proof. vm_compute. reflexivity. Qed.


(** ** Counts *)

(** A serviceable worker and one that starts. *)
Definition fleet_demo : World := demo_world
  [demo_worker "cloud-1"; set_worker [W_cloud_state CLOUD_STATE_PENDING; W_healthy false] (demo_worker "cloud-2")] [] [] [].

Lemma recoverable_within_fleet_witness : 0 <= 2 <= 2.
Proof.
  apply (recoverable_within_fleet demo_settings fleet_demo 2 (count_recoverable_workers demo_settings fleet_demo).2
    2 (count_workers demo_settings (count_recoverable_workers demo_settings fleet_demo).2).2); vm_compute; reflexivity.
Defined.
