(* ===== verification/LockSpec.v ===== *)
(** * LockSpec: what the scheduler's lock promises

    The loops of the scheduler run only while the lock looks held; these are
    the facts about the lock that make this enough. *)
From S2P Require Import Prelude Models Config World Database Logic Hoare Storage Status TaskRows Upstream.
From S2P Require Import WorkerRepository CacheService Results TaskRepository Payload S3 Lock Provider Health.
From S2P Require Import Reconcile Scheduler Demo.

Section lock.
Context `{LockServer}.

Abbreviation lock_state w := (lock (memory w)).

(** A statement on the connection changes neither the data nor the lock. *)
Lemma wp_pg {A} (m : M A) (Q : A -> World -> Prop) X w : evolves same_data m ->
  (forall a w', same_data w w' -> Q a w') -> (forall e w', same_data w w' -> X e w') -> wp m Q X w.
Proof. apply (wp_evolves same_data). Qed.

(** Everything but the lock and the interaction counter. *)
Definition data_of (w : World) := (workers w, tasks w, cache_entries w, objects w, calls w).
Lemma data_same w w' : same_data w w' -> data_of w' = data_of w /\ lock_state w' = lock_state w.
Proof. unfold data_of. intros (-> & -> & -> & _ & -> & -> & ->). done. Qed.

(** A lock that is held has its connection. *)
Definition lock_wf (w : World) : Prop := lock_flag w = true -> lock_conn w = true.

(** [acquire] returns exactly whether the lock is held after, a lock that
    is held keeps its connection whatever the database does, and a raise never
    leaves a lock held that was not. *)
Lemma lock_acquire_wp w : lock_wf w ->
  wp lock_acquire
    (fun b w' => b = lock_is_held w' /\ lock_wf w' /\ data_of w' = data_of w)
    (fun _ w' => lock_is_held w' = false /\ lock_wf w' /\ data_of w' = data_of w) w.
Proof.
  intros Hwf. destruct pg_data as (Dc & Dt & _ & _ & Dclose & _). unfold lock_acquire. wp_go.
  destruct (lock_flag w) eqn:Ef.
  { wp_go. unfold lock_is_held. rewrite Ef, (Hwf Ef). done. }
  apply wp_bind. apply wp_pg; [done| |].
  2: { intros e w1 [Ed El]%data_same. unfold lock_is_held, lock_wf, lock_flag in *. rewrite El, Ef. done. }
  intros [] w1 [Ed1 El1]%data_same. apply wp_bind. unfold set_conn.
  change (wp (modify ?f) ?Q ?X w1) with (Q tt (f w1)). cbv beta.
  assert (Ef1 : lock_flag w1 = false) by (unfold lock_flag in *; by rewrite El1).
  rewrite Ef1. set (w2 := set_lock (Some (true, false)) w1). apply wp_bind.
  assert (El2 : lock_state w2 = Some (true, false)) by done.
  assert (Ed2 : data_of w2 = data_of w) by (rewrite <- Ed1; done). clearbody w2.
  apply wp_pg; [done| |].
  2: { intros e w3 [Ed3 El3]%data_same. unfold lock_is_held, lock_wf, lock_flag. rewrite El3, El2. by rewrite Ed3. }
  intros [] w3 [Ed3 El3]%data_same; rewrite El2 in El3; apply wp_bind.
  - unfold set_held. change (wp (modify ?f) ?Q ?X w3) with (Q tt (f w3)). cbv beta. wp_go.
    unfold lock_is_held, lock_wf, lock_flag, lock_conn. rewrite El3. cbn.
    split; [done|]. split; [done|]. rewrite <- Ed2, <- Ed3. done.
  - apply wp_bind. apply wp_pg; [done| |].
    2: { intros e w4 [Ed4 El4]%data_same. unfold lock_is_held, lock_wf, lock_flag. rewrite El4, El3.
         split; [done|]. split; [done|]. congruence. }
    intros u w4 [Ed4 El4]%data_same. unfold set_conn. change (wp (modify ?f) ?Q ?X w4) with (Q tt (f w4)).
    cbv beta. wp_go. unfold lock_is_held, lock_wf, lock_flag, lock_conn. rewrite El4, El3. cbn.
    split; [done|]. split; [done|]. rewrite <- Ed2, <- Ed3, <- Ed4. done.
Qed.

(** The wait for the lock: the lock is held, or it has not ended or failed. *)
Lemma acquire_loop_spec fuel retry_interval w : lock_wf w -> lock_is_held w = false ->
  let '(o, w') := acquire_loop fuel retry_interval w in
  data_of w' = data_of w /\ lock_wf w' /\ lock_is_held w' = is_ok o.
Proof.
  revert w; induction fuel as [|fuel IH]; intros w Hwf Hn; cbn [acquire_loop]; [done|].
  pose proof (lock_acquire_wp w Hwf) as Ha. unfold wp in Ha. rewrite bind_unfold.
  destruct (lock_acquire w) as [[[]|e|] w1]; [by destruct Ha as (E & ? & ?); cbn in E |- *; rewrite <- E| |by destruct Ha as (? & ? & ?)|done].
  destruct Ha as (Hh & Hwf1 & Ed). destruct pg_data as (_ & _ & _ & _ & _ & _ & Ds).
  destruct (Ds retry_interval w1) as [Hd Hs]. rewrite bind_unfold.
  destruct (sleep retry_interval w1) as [[[]|e|] w2]; cbn in Hs; [..|done]; apply data_same in Hs as [Ed2 El2].
  all: assert (Hwf2 : lock_wf w2) by (unfold lock_wf, lock_flag, lock_conn in *; by rewrite El2).
  all: assert (Hn2 : lock_is_held w2 = false) by (unfold lock_is_held, lock_flag, lock_conn in *; by rewrite El2).
  - specialize (IH w2 Hwf2 Hn2). destruct (acquire_loop fuel retry_interval w2) as [o w3].
    by rewrite <- Ed, <- Ed2.
  - by rewrite Ed2.
Qed.

(** [release] closes the connection, or raises; the data stay. *)
Lemma lock_release_wp w :
  wp lock_release (fun _ w' => data_of w' = data_of w /\ lock_is_held w' = false)
    (fun _ w' => data_of w' = data_of w /\ (lock_is_held w = false -> lock_is_held w' = false)) w.
Proof.
  destruct pg_data as (_ & _ & Du & _ & Dclose & _). unfold lock_release. wp_go.
  destruct (lock_conn w) eqn:Ec; cbn [negb]; [|wp_go; unfold lock_is_held; by rewrite Ec, andb_false_r].
  assert (Hclose : forall w1, data_of w1 = data_of w -> (lock_is_held w = false -> lock_is_held w1 = false) ->
    wp (pg_close ;; set_conn false) (fun _ w' => data_of w' = data_of w /\ lock_is_held w' = false)
      (fun _ w' => data_of w' = data_of w /\ (lock_is_held w = false -> lock_is_held w' = false)) w1).
  { intros w1 Ed1 Hh1. apply wp_bind, wp_pg; [done| |].
    - intros u w2 [Ed2 El2]%data_same. unfold set_conn. change (wp (modify ?f) ?Q ?X w2) with (Q tt (f w2)).
      split; [by rewrite <- Ed1, <- Ed2|]. unfold lock_is_held. by rewrite andb_false_r.
    - intros e w2 [Ed2 El2]%data_same. split; [congruence|].
      unfold lock_is_held, lock_flag, lock_conn in *. by rewrite El2. }
  wp_go. destruct (lock_flag w) eqn:Ef; [wp_go|exact (Hclose w eq_refl (fun Hh => Hh))].
  apply wp_pg; [done| |].
  - intros u w1 [Ed1 El1]%data_same. unfold set_held. change (wp (modify ?f) ?Q ?X w1) with (Q tt (f w1)). cbv beta.
    apply Hclose; [by rewrite <- Ed1|]. by intros _.
  - intros e w1 [Ed1 El1]%data_same. split; [done|]. unfold lock_is_held, lock_flag, lock_conn in *. by rewrite El1.
Qed.

(** What [__aexit__] runs. *)
Lemma lock_exit_wp w :
  wp (lock_release ;; engine_dispose) (fun _ w' => data_of w' = data_of w /\ lock_is_held w' = false)
    (fun _ w' => data_of w' = data_of w /\ (lock_is_held w = false -> lock_is_held w' = false)) w.
Proof.
  destruct pg_data as (_ & _ & _ & _ & _ & De & _). apply wp_bind.
  eapply wp_mono; [apply lock_release_wp| |done]. intros u w1 [Ed1 Hh1].
  apply wp_pg; [done|..]; intros a w2 [Ed2 El2]%data_same; unfold lock_is_held, lock_flag, lock_conn in *;
    rewrite El2, Ed2; auto.
Qed.

(** How a run of the scheduler under its lock may end, from [w] to [w']: the body
    did not start; or it ran from a world with the lock held, and has not ended,
    or left on the way out a lock that is held only if the release raised. *)
Definition ran_locked {A} (body : M A) (w : World) (o : outcome A) (w' : World) : Prop :=
  (is_ok o = false /\ data_of w' = data_of w /\ lock_is_held w' = false) \/
  exists w1 ob w2, data_of w1 = data_of w /\ lock_is_held w1 = true /\ body w1 = (ob, w2) /\
    ((ob = Diverged /\ o = Diverged /\ w' = w2) \/
     (ob <> Diverged /\ data_of w' = data_of w2 /\
      match o with
      | Ok _ => ob = o /\ lock_is_held w' = false
      | Raise e =>
          (ob = o /\ lock_is_held w' = false) \/
          ((lock_release ;; engine_dispose) w2 = (Raise e, w') /\ (lock_is_held w2 = false -> lock_is_held w' = false))
      | Diverged => False
      end)).

Lemma scheduler_lock_spec {A} fuel default_url url retry_interval (body : M A) w :
  String.prefix "sqlite" (str_or url default_url) = false ->
  let '(o, w') := scheduler_lock fuel default_url url retry_interval body w in ran_locked body w o w'.
Proof.
  intros Hurl. unfold scheduler_lock. cbv zeta. rewrite Hurl. unfold modify at 1. rewrite bind_unfold.
  set (w0 := set_lock (Some (false, false)) w). assert (Ed0 : data_of w0 = data_of w) by done.
  pose proof (acquire_loop_spec fuel retry_interval w0 ltac:(done) ltac:(done)) as Ha. clearbody w0.
  unfold finally_. rewrite bind_unfold. unfold try_. rewrite bind_unfold.
  destruct (acquire_loop fuel retry_interval w0) as [[[]|e|] w1]; destruct Ha as (Ed1 & _ & Hh1); rewrite Ed0 in Ed1.
  - destruct (body w1) as [ob w2] eqn:Eb. pose proof (lock_exit_wp w2) as Hx. unfold wp in Hx.
    destruct ob as [a|e|]; [| |right; exists w1, Diverged, w2; split_and!; try done; by left].
    + rewrite bind_unfold. destruct ((lock_release ;; engine_dispose) w2) as [[[]|e|] w3] eqn:Er; [| |done].
      all: right; exists w1, (Ok a), w2; destruct Hx as [Ed3 Hh3]; split_and!; try done; right; split_and!; auto.
    + rewrite bind_unfold. destruct ((lock_release ;; engine_dispose) w2) as [[[]|e'|] w3] eqn:Er; [| |done].
      all: right; exists w1, (Raise e), w2; destruct Hx as [Ed3 Hh3]; split_and!; try done; right; split_and!; auto.
  - pose proof (lock_exit_wp w1) as Hx. unfold wp in Hx. rewrite bind_unfold.
    destruct ((lock_release ;; engine_dispose) w1) as [[[]|e'|] w3]; [..|done]; left; destruct Hx as [Ed3 Hh3];
      split_and!; (done || congruence || auto).
  - left. by rewrite Ed1.
Qed.

End lock.

Definition lock_demo : World := demo_world [] [] [] [].

Section loops.
Context (settings : GatewaySettings) (has_provider : bool).
Context `{Env} `{!ObjectStore} `{!Http} `{!MinerU} `{!ComputeProvider} `{!LockServer}.

(** Without the lock a loop ends at its turn. *)
Lemma turn_stops l w c : lock (memory w) = Some (c, false) -> turn settings has_provider l w = (Ok false, w).
Proof.
  intros El. assert (Hs : forall tick_fn interval, loop_turn tick_fn interval w = (Ok false, w)).
  { intros tick_fn interval. unfold loop_turn, lock_looks_held. rewrite bind_unfold. unfold gets.
    rewrite El. unfold lock_is_held, lock_flag. by rewrite El. }
  by destruct l; apply Hs.
Qed.

Lemma run_turns_stop schedule running w c : lock (memory w) = Some (c, false) ->
  run_turns settings has_provider schedule running w = (Ok (List.filter (fun l => l ∉? schedule) running), w).
Proof.
  intros El. revert running; induction schedule as [|l schedule IH]; intros running; cbn [run_turns].
  - enough (List.filter (fun l => l ∉? []) running = running) as -> by done.
    induction running as [|l running IH]; [done|]. cbn. by rewrite IH.
  - assert (Hf : forall ls, List.filter (fun l0 => l0 ∉? l :: schedule) ls =
      List.filter (fun l0 => l0 ∉? schedule) (List.filter (fun l' => l' !=? l) ls)).
    { intros ls. induction ls as [|x ls IHl]; [done|]. cbn [List.filter]. rewrite IHl.
      destruct (decide (x = l)) as [->|Hne].
      - rewrite (bool_decide_true (l = l)), bool_decide_true by (done || by left). done.
      - rewrite (bool_decide_false (x = l)) by done. cbn [negb List.filter].
        by rewrite (bool_decide_ext (x ∈ l :: schedule) (x ∈ schedule)) by set_solver. }
    destruct (decide (l ∈ running)) as [Hin|Hni].
    + rewrite bool_decide_true by done. rewrite bind_unfold, (turn_stops l w c El), IH, <- Hf. done.
    + rewrite bool_decide_false by done. rewrite IH, Hf.
      enough (List.filter (fun l' => l' !=? l) running = running) as -> by done.
      clear -Hni. induction running as [|x ls IHl]; [done|]. apply not_elem_of_cons in Hni as [Hne Hni]. cbn.
      rewrite bool_decide_false by done. cbn. by rewrite IHl.
Qed.

(** When the connection of the held lock is dead, the check of a tick
    clears the flag and raises [AttributeError] instead of returning [False];
    the tick does nothing else, and then neither loop starts a further tick:
    [run] returns as soon as each loop has had its turn, in whatever order. *)
Theorem lost_lock_stops_the_loop e w wping schedule :
  lock (memory w) = Some (true, true) -> pg_ping w = (Raise e, wping) ->
  exists w', (exists msg, verify_lock w = (Raise (AttributeError msg), w')) /\
    lock_is_held w' = false /\ data_of w' = data_of w /\
    (dispatch ∈ schedule -> reconcile ∈ schedule -> run settings has_provider schedule w' = (Ok [], w')).
Proof.
  intros El Ep. destruct pg_data as (_ & _ & _ & Dp & _). specialize (Dp w). rewrite Ep in Dp.
  destruct Dp as [_ [Ed El']%data_same]. cbn [snd] in *.
  exists (set_lock (Some (lock_conn wping, false)) wping).
  assert (Ev : verify_lock w = (Raise (AttributeError
    "property 'held' of 'PostgresAdvisoryLock' object has no setter"), set_lock (Some (lock_conn wping, false)) wping)).
  { unfold verify_lock. rewrite bind_unfold. unfold gets at 1. rewrite El. rewrite bind_unfold.
    assert (Elv : lock_verify w = (Ok false, set_lock (Some (lock_conn wping, false)) wping)).
    { unfold lock_verify. rewrite bind_unfold. unfold gets at 1, lock_flag. rewrite El. rewrite bind_unfold.
      unfold gets at 1, lock_conn at 1. rewrite El. cbn [negb orb]. unfold try_. rewrite bind_unfold, Ep.
      reflexivity. }
    by rewrite Elv. }
  split; [by eexists|]. split; [done|]. split; [rewrite <- Ed; reflexivity|].
  intros Hd Hr. unfold run. rewrite (run_turns_stop _ _ _ (lock_conn wping)) by done. cbn [List.filter].
  by rewrite !bool_decide_true.
Qed.

(** A loop sleeps to the next multiple of its interval, which is ahead of
    the clock and at most one interval away. *)
Theorem next_boundary_ahead interval now : 0 < interval ->
  let b := next_boundary interval now in
  now < b <= now + interval /\ b mod interval = 0.
Proof.
  intros Hi. cbv zeta. unfold next_boundary. pose proof (Z.div_mod now interval ltac:(lia)).
  pose proof (Z.mod_pos_bound now interval Hi). split; [nia|]. apply Z_mod_mult.
Qed.
End loops.

(** A server whose connection died. *)
#[local] Program Instance dead_lock : LockServer := {|
  pg_connect := mret tt; pg_try_lock := mret true; pg_unlock := mret tt;
  pg_ping := raise (DatabaseError "connection is closed"); pg_close := mret tt; engine_dispose := mret tt; sleep s := mret tt |}.
Next Obligation. repeat split; intros; try discriminate; reflexivity. Qed.

Lemma lost_lock_stops_the_loop_witness :
  exists w', (exists msg, verify_lock lock_demo = (Raise (AttributeError msg), w')) /\
    lock_is_held w' = false /\ data_of w' = data_of lock_demo /\
    (dispatch ∈ [reconcile; reconcile; dispatch] -> reconcile ∈ [reconcile; reconcile; dispatch] ->
     run demo_settings true [reconcile; reconcile; dispatch] w' = (Ok [], w')).
Proof.
  apply (lost_lock_stops_the_loop demo_settings true (DatabaseError "connection is closed") lock_demo lock_demo);
    reflexivity.
Defined.


Lemma next_boundary_ahead_witness : 0 < 10 /\ 23 < next_boundary 10 23 <= 23 + 10 /\ next_boundary 10 23 mod 10 = 0.
Proof. split; [lia|]. apply next_boundary_ahead. lia. Defined.
