(* ===== verification/PayloadSpec.v ===== *)
(** * PayloadSpec: what an upload keeps on its way to a worker

    Names, sizes, the blob of a payload and the keys of the bucket. *)
From S2P Require Import Prelude Models Config World Database Logic Hoare Json Payload Storage S3 Status.
From S2P Require Import TaskRows Upstream WorkerRepository Lock Provider Demo.

(** ** Names *)

(** An upload name is accepted exactly when it is not blank, has no NUL and
    no path separator and is neither [.] nor [..]; an accepted name is not
    rewritten, and a rejected one raises [ValueError]. *)
Theorem upload_names_accepted name :
  let ok := negb (is_blank name) && negb (contains_char NUL name) && negb (contains_char SLASH name)
            && negb (contains_char BACKSLASH name) && (name ∉? [""; "."; ".."]) in
  match sanitize_client_filename name with
  | Ok safe => ok = true /\ safe = name
  | Raise e => ok = false /\ exists msg, e = ValueError msg
  | Diverged => False
  end.
Proof.
  cbv zeta. destruct (decide (name = "")) as [->|Hne]; [split; [reflexivity|by eexists]|].
  unfold sanitize_client_filename. rewrite (bool_decide_false (name = "")) by done. cbn [orb].
  destruct (is_blank name); [split; [done|by eexists]|].
  destruct (contains_char NUL name); [split; [done|by eexists]|].
  destruct (startswith name "/") eqn:Es.
  { split; [|by eexists]. destruct name as [|c name]; [done|].
    by destruct c as [[] [] [] [] [] [] [] []]. }
  destruct (contains_char SLASH name || contains_char BACKSLASH name) eqn:E.
  { split; [|by eexists]. apply orb_true_iff in E as [-> | ->]; by rewrite ?andb_false_r. }
  apply orb_false_iff in E as [E1 E2]. rewrite E1, E2, replace_char_none, split_char_none by done.
  assert (Hin : (name ∉? [""; "."; ".."]) = (name ∉? [""; "."]) && (name !=? "..")).
  { repeat case_bool_decide; rewrite !elem_of_cons, elem_of_nil in *; cbn; tauto || (exfalso; tauto). }
  cbn [negb andb]. rewrite Hin. cbn [List.filter]. destruct (name ∉? [""; "."]) eqn:En; cbn.
  - destruct (name ==? "..") eqn:Ed; cbn; [split; [done|by eexists]|].
    rewrite bool_decide_false by done. done.
  - split; [done|by eexists].
Qed.

(** ** Sizes *)

(** A bounded read returns the file unchanged exactly when it is within the
    effective limit, and raises the 413 otherwise; it always ends. *)
Theorem bounded_read_exact settings data :
  let limit := effective_file_size_limit settings in
  match read_bounded_file settings data with
  | Ok d => d = data /\ Z.of_nat (length data) <= limit
  | Raise e => limit < Z.of_nat (length data) /\ exists size, e = file_too_large size limit
  | Diverged => False
  end.
Proof.
  cbv zeta. unfold read_bounded_file, iter_bounded_file.
  pose proof (bounded_chunks_spec settings (length data) 0 data ltac:(lia) ltac:(lia)) as Hs. cbv zeta in Hs.
  destruct (bounded_chunks _ _ _ _) as [chunks|e|]; cbn; [|done..]. destruct Hs as [-> Hs]. split; [done|].
  destruct Hs as [->|]; [|lia]. pose proof (limit_pos settings). cbn. lia.
Qed.

(** ** The blob *)

Lemma pack_uploads_result settings l : forall offset,
  match pack_uploads settings offset l with
  | Ok _ => Forall (fun u => Z.of_nat (length (u_data u)) <= effective_file_size_limit settings) l
  | Raise e => exists u size, u ∈ l /\ effective_file_size_limit settings < Z.of_nat (length (u_data u)) /\
                              e = file_too_large size (effective_file_size_limit settings)
  | Diverged => False
  end.
Proof.
  induction l as [|u l IH]; intros offset; cbn [pack_uploads]; [constructor|].
  destruct (read_bounded_file settings (u_data u)) as [data|e|] eqn:Er; cbn.
  - apply read_bounded_ok in Er as [-> Hlen]. specialize (IH (offset + Z.of_nat (length (u_data u)))).
    destruct (pack_uploads settings _ l) as [[entries chunks]|e|]; cbn; [by constructor| |done].
    destruct IH as (v & size & Hv & ? & ?). exists v, size. split; [by right|done].
  - unfold read_bounded_file, iter_bounded_file in Er.
    pose proof (bounded_chunks_spec settings (length (u_data u)) 0 (u_data u) ltac:(lia) ltac:(lia)) as Hs.
    cbv zeta in Hs. destruct (bounded_chunks _ _ _ _) as [c|e'|]; cbn in Er; [done| |done].
    injection Er as ->. destruct Hs as [Hlen [size He]]. exists u, size. split; [left|]. split; [lia|done].
  - unfold read_bounded_file, iter_bounded_file in Er.
    pose proof (bounded_chunks_spec settings (length (u_data u)) 0 (u_data u) ltac:(lia) ltac:(lia)) as Hs.
    cbv zeta in Hs. by destruct (bounded_chunks _ _ _ _).
Qed.

Lemma payload_packs settings p : pack_payload settings p <> Diverged.
Proof.
  unfold pack_payload. pose proof (pack_uploads_result settings (mp_uploads p) 0) as Hu. apply bind_returns.
  - intros E. by rewrite E in Hu.
  - intros [entries chunks]. cbv zeta. apply bind_returns; [|by intros hl].
    unfold pack_u32. by destruct (_ && _).
Qed.

(** C18: what the gateway packs the scheduler rebuilds: for a form whose names
    were accepted, [_pack_payload] yields a blob from which [_rebuild_payload]
    gives back the same fields, names, types and bytes; it fails only on a file
    above the limit, with the 413, or on a header of 4 GiB. *)
Theorem payload_roundtrip settings p : names_safe p ->
  match pack_payload settings p with
  | Ok blob => rebuild_blob blob = Ok (Some p)
  | Raise e => (exists u size, u ∈ mp_uploads p /\
                  effective_file_size_limit settings < Z.of_nat (length (u_data u)) /\
                  e = file_too_large size (effective_file_size_limit settings)) \/
               e = OtherException "struct.error: 'I' format requires 0 <= number <= 4294967295"
  | Diverged => False
  end.
Proof.
  intros Hn. destruct (pack_payload settings p) as [blob|e|] eqn:E; [by apply (rebuild_pack settings)|..].
  all: unfold pack_payload in E; pose proof (pack_uploads_result settings (mp_uploads p) 0) as Hu.
  all: destruct (pack_uploads settings 0 (mp_uploads p)) as [[entries chunks]|e'|]; cbn [mbind outcome_bind] in E;
    [|try (injection E as ->; by left); done|done].
  all: cbv zeta in E; unfold pack_u32 in E; destruct (_ && _); cbn [mbind outcome_bind] in E; [discriminate E|].
  - injection E as <-. by right.
  - discriminate E.
Qed.

Definition demo_payload : MultipartPayload :=
  mkMultipart [("backend", "pipeline"); ("lang_list", "en")]
    [mkUpload "files" "a.pdf" "application/pdf" demo_body; mkUpload "files" "b b.pdf" "" []].

Example payload_roundtrip_run :
  match pack_payload demo_settings demo_payload with
  | Ok blob => rebuild_blob blob = Ok (Some demo_payload) | _ => False end.
Proof. vm_compute. reflexivity. Qed.

Lemma payload_roundtrip_witness :
  match pack_payload demo_settings demo_payload with
  | Ok blob => rebuild_blob blob = Ok (Some demo_payload)
  | Raise e => (exists u size, u ∈ mp_uploads demo_payload /\
                  effective_file_size_limit demo_settings < Z.of_nat (length (u_data u)) /\
                  e = file_too_large size (effective_file_size_limit demo_settings)) \/
               e = OtherException "struct.error: 'I' format requires 0 <= number <= 4294967295"
  | Diverged => False
  end.
Proof. apply payload_roundtrip. repeat constructor. Defined.

(** ** Keys of the bucket *)

(** Payloads, results and cached objects never share a key; within a kind
    the key determines the task (and the format's extension), and for cache
    keys of equal length, as digests are, the entry and the generation. *)
Theorem bucket_keys_distinct a b f g k k' x y :
  payload_key a <> result_key b f /\ payload_key a <> cache_object_key k x /\
  result_key b f <> cache_object_key k x /\
  (payload_key a = payload_key b -> a = b) /\
  (result_key a f = result_key b g ->
     a = b /\ (f ==? RESULT_FORMAT_MISTRAL_JSON) = (g ==? RESULT_FORMAT_MISTRAL_JSON)) /\
  (String.length k = String.length k' -> truthy x = true -> truthy y = true ->
     cache_object_key k x = cache_object_key k' y -> k = k' /\ x = y).
Proof.
  split. { unfold payload_key, result_key. destruct (f ==? _); discriminate. }
  split. { unfold payload_key, cache_object_key. cbv zeta.
           destruct x as [s|]; [destruct (s ==? "")|]; discriminate. }
  split. { intros E. symmetry in E. by apply cache_not_result in E. }
  split; [apply payload_key_inj|]. split.
  - unfold result_key. destruct (f ==? _), (g ==? _); intros E%string_app_inj_l%string_app_inj_l.
    + by apply string_app_inj_r in E.
    + by apply eq_sym, suffix_zip_json in E.
    + by apply suffix_zip_json in E.
    + by apply string_app_inj_r in E.
  - intros Hlen. unfold cache_object_key. cbv zeta. destruct x as [x|], y as [y|]; try done. cbn.
    destruct (x ==? ""), (y ==? ""); try done. intros _ _.
    rewrite <- !string_app_assoc. intros E%string_app_inj_l%string_app_inj_l.
    revert k' Hlen E. induction k as [|c k IH]; intros [|c' k'] Hlen E; try done.
    + split; [done|]. f_equal. by injection E.
    + rewrite !string_app_cons in E. injection E as -> E. injection Hlen as Hlen.
      destruct (IH k' Hlen E) as [-> ->]. done.
Qed.

Lemma bucket_keys_distinct_witness : "k1" = "k1" /\ Some "g" = Some "g".
Proof.
  apply (proj2 (proj2 (proj2 (proj2 (proj2
    (bucket_keys_distinct "a" "b" "zip" "zip" "k1" "k1" (Some "g") (Some "g"))))))); reflexivity.
Defined.

(** ** Streams *)

(** The chunks [S3ObjectStore.stream] yields make up the object, with or
    without a chunked read of the body. *)
Theorem stream_is_the_object `{S3Client} key chunk_size w chunks w' : 0 < chunk_size ->
  S3ObjectStore.stream key chunk_size w = (Ok chunks, w') -> objects w !! key = Some (concat chunks).
Proof.
  intros Hn. unfold S3ObjectStore.stream, try_. rewrite bind_unfold.
  pose proof (s3_iter_chunks_data key chunk_size w) as Hd.
  destruct (s3_iter_chunks key chunk_size w) as [[[l|]|e|] w1] eqn:Ei.
  - intros [= <- _]. by eapply s3_iter_chunks_effect.
  - rewrite bind_unfold. destruct (s3_get_object key w1) as [[data|e|] w2] eqn:Eg; [| |done].
    + intros [= <- _]. rewrite S3ObjectStore.slices_concat by done. apply s3_get_effect in Eg.
      destruct Hd as [_ (_ & _ & _ & _ & Eo & _)]. cbn in Eo. by rewrite <- Eo.
    + unfold S3ObjectStore.missing_key. destruct e; try done. destruct (_ ∈? _); done.
  - unfold S3ObjectStore.missing_key. destruct e; try done. destruct (_ ∈? _); done.
  - done.
Qed.

Definition stream_demo : World := demo_world [] [] [] [("k", demo_body)].

Lemma stream_is_the_object_witness : objects stream_demo !! "k" = Some (concat (S3ObjectStore.slices 3 demo_body)).
Proof. apply (stream_is_the_object "k" 3 _ _ stream_demo); [lia|vm_compute; reflexivity]. Defined.
