(* ===== verification/RetentionSpec.v ===== *)
(** * RetentionSpec: what the cleanup promises *)
From S2P Require Import Prelude Models Config World Database Logic Hoare Storage Status TaskRows Upstream.
From S2P Require Import WorkerRepository CacheService Results TaskRepository Payload S3 Lock Provider Health.
From S2P Require Import Reconcile Scheduler Retention Demo.

(** C15: the cleanup deletes only tasks that are finished and older than the
    retention period, and a deleted task leaves neither its payload nor its
    result in the bucket; every row that stays is unchanged and no object comes
    back, whatever fails on the way. *)
Theorem cleanup_deletes_expired_only (settings : GatewaySettings) `{Env} `{!ObjectStore} w : tasks_ok w ->
  let expired := expired_before (env_clock (step w) - days (retention_days (retention settings))) in
  wp (cleanup_expired_tasks settings) (fun _ => cleaned expired w) (fun _ => cleaned expired w) w.
Proof. intros HI. by apply cleanup_expired_tasks_ok. Qed.

(** An old finished task, a recent one and an old one that still runs. *)
Definition retention_demo : World := demo_world [demo_worker "cloud-1"]
  [ demo_task "old" [T_status TASK_COMPLETED; T_completed_at (Some 5); T_result_key (Some "results/old.zip");
                     T_payload_key (Some "payloads/old.bin")];
    demo_task "recent" [T_status TASK_COMPLETED; T_completed_at (Some demo_epoch);
                        T_result_key (Some "results/recent.zip")];
    demo_task "busy" (running_fields TASK_PROCESSING) ] []
  [("results/old.zip", demo_body); ("results/recent.zip", demo_body); ("payloads/old.bin", [])].

Example retention_demo_run :
  let w' := (cleanup_expired_tasks demo_settings retention_demo).2 in
  (size (tasks w'), size (objects w')) = (2%nat, 1%nat).
Proof. vm_compute. reflexivity. Qed.

Lemma cleanup_deletes_expired_only_witness :
  wp (cleanup_expired_tasks demo_settings)
    (fun _ => cleaned (expired_before (env_clock (step retention_demo)
                         - days (retention_days (retention demo_settings)))) retention_demo)
    (fun _ => cleaned (expired_before (env_clock (step retention_demo)
                         - days (retention_days (retention demo_settings)))) retention_demo) retention_demo.
Proof. apply cleanup_deletes_expired_only. on_demo. Defined.
