(* ===== verification/NormalizeSpec.v ===== *)
(** * NormalizeSpec: the pages of a MinerU document

    A typed reference of the conversion: what a page, a block and an image are,
    which values stand for them, and how they are rendered.  On every value that
    stands for a document the dynamically typed code raises nothing and computes
    the rendering. *)
From S2P Require Import Prelude Models World Json Payload PyText Normalize.

(** ** Documents *)

(** A block: its type, the contents of the spans of its lines, the texts under
    [text] and [content], its box and whether it has image data. *)
Record MBlock := mkBlock {
  mb_type : string;
  mb_lines : list (list string);
  mb_text : string;
  mb_content : string;
  mb_bbox : list Z;
  mb_has_image : bool
}.
Record MPage := mkMPage {
  mp_index : option Z;
  mp_size : option (Z * Z);
  mp_blocks : list MBlock
}.

(** A number is an integer, or a float that is truncated to it. *)
Definition number (v : value) (z : Z) : Prop :=
  match v with
  | VInt n => z = n
  | VFloat (Finite m e) => z = if 0 <=? e then m * 2 ^ e else Z.quot m (2 ^ (- e))
  | _ => False
  end.

(** The list under the key, none when it is absent. *)
Definition list_at (l : list (string * value)) (k : string) (vs : list value) : Prop :=
  assoc k l = Some (VList vs) \/ (assoc k l = None /\ vs = []).
(** The string under the key, empty when it is absent or null. *)
Definition text_at (l : list (string * value)) (k : string) (s : string) : Prop :=
  assoc k l = Some (VStr s) \/ ((assoc k l = None \/ assoc k l = Some VNone) /\ s = "").

Definition is_span (v : value) (s : string) : Prop :=
  exists l, v = VDict l /\ assoc "text" l = None /\ text_at l "content" s.
Definition is_line (v : value) (spans : list string) : Prop :=
  exists l vs, v = VDict l /\ list_at l "spans" vs /\ Forall2 is_span vs spans.
Definition is_block (v : value) (b : MBlock) : Prop :=
  exists l lines box nested, v = VDict l /\
    assoc "type" l = Some (VStr (mb_type b)) /\
    list_at l "lines" lines /\ Forall2 is_line lines (mb_lines b) /\
    text_at l "text" (mb_text b) /\ text_at l "content" (mb_content b) /\
    list_at l "bbox" box /\ Forall2 number box (mb_bbox b) /\
    list_at l "blocks" nested /\ assoc "img_caption" l = None /\ assoc "image_body" l = None /\
    mb_has_image b = negb (bool_decide (nested = [])).
Definition is_page (v : value) (p : MPage) : Prop :=
  exists l blocks, v = VDict l /\
    match mp_index p with
    | Some i => exists n, assoc "page_idx" l = Some n /\ number n i
    | None => assoc "page_idx" l = None
    end /\
    match mp_size p with
    | Some (w, h) => exists vw vh, assoc "page_size" l = Some (VList [vw; vh]) /\ number vw w /\ number vh h
    | None => assoc "page_size" l = None /\ assoc "size" l = None
    end /\
    (list_at l "blocks" blocks /\ assoc "para_blocks" l = None \/
     assoc "blocks" l = None /\ list_at l "para_blocks" blocks) /\
    Forall2 is_block blocks (mp_blocks p).
Definition is_document (v : value) (pages : list MPage) : Prop :=
  exists l vs, v = VDict l /\ list_at l "pdf_info" vs /\ assoc "_pdf_info" l = None /\ Forall2 is_page vs pages.

(** ** The rendering *)

Definition nonempty (s : string) : bool := s !=? "".

Definition block_text (b : MBlock) : string :=
  let lines := strip (join " " (List.filter nonempty (concat (mb_lines b)))) in
  if nonempty lines then lines
  else strip (if nonempty (mb_text b) then mb_text b else mb_content b).

Definition is_picture (b : MBlock) : bool := mb_type b ∈? ["image"; "figure"].

(** Tables and pictures are paragraphs of their own. *)
Definition rendered_block (b : MBlock) : list string :=
  let text := block_text b in
  if nonempty text then
    if (mb_type b ==? "table") || is_picture b
    then [chr 10 +:+ chr 10 +:+ text +:+ chr 10 +:+ chr 10] else [text]
  else [].

(** The box, of which a missing or empty one is the zero box. *)
Definition rendered_image (idx : nat) (b : MBlock) : OCRPageImage :=
  let box := match mb_bbox b with [] => [0; 0; 0; 0] | box => box end in
  mkImage ("img-" +:+ print_int (Z.of_nat idx)) None (box !! 0%nat) (box !! 1%nat) (box !! 2%nat) (box !! 3%nat) None.

Definition rendered_page (position : nat) (p : MPage) : OCRPage :=
  mkPage (default (Z.of_nat position) (mp_index p))
    (strip (join " " (concat (map rendered_block (mp_blocks p)))))
    (imap rendered_image (List.filter (fun b => is_picture b && mb_has_image b) (mp_blocks p)))
    (Some (72, default 0 (fst <$> mp_size p), default 0 (snd <$> mp_size p))).

(** ** Fallible loops *)

Lemma fold_outcome_app {A B} (f : list B -> A -> outcome (list B)) g l acc :
  (forall acc x, x ∈ l -> f acc x = Ok (acc ++ g x)) -> fold_outcome f acc l = Ok (acc ++ concat (map g l)).
Proof.
  revert acc; induction l as [|x l IH]; intros acc Hf; cbn; [by rewrite app_nil_r|].
  rewrite Hf by left. cbn [mbind outcome_bind]. rewrite IH by (intros; apply Hf; by right). by rewrite app_assoc.
Qed.

(** A loop over values that stand for things, each with its contribution. *)
Lemma fold_outcome_rel {A B C} (R : A -> C -> Prop) (f : list B -> A -> outcome (list B)) g l cs acc :
  (forall acc x c, R x c -> f acc x = Ok (acc ++ g c)) -> Forall2 R l cs ->
  fold_outcome f acc l = Ok (acc ++ concat (map g cs)).
Proof.
  intros Hf HR; revert acc; induction HR as [|x c l cs Hx _ IH]; intros acc; cbn; [by rewrite app_nil_r|].
  rewrite (Hf _ _ _ Hx). cbn [mbind outcome_bind]. by rewrite IH, app_assoc.
Qed.

Lemma map_outcome_rel {A B C} (R : A -> C -> Prop) (f : nat -> A -> outcome B) g l cs i :
  (forall i x c, R x c -> f i x = Ok (g i c)) -> Forall2 R l cs ->
  map_outcome f i l = Ok (imap (fun j c => g (i + j)%nat c) cs).
Proof.
  intros Hf HR; revert i; induction HR as [|x c l cs Hx _ IH]; intros i; cbn; [done|].
  rewrite (Hf _ _ _ Hx). cbn [mbind outcome_bind]. rewrite IH. cbn [mbind outcome_bind].
  rewrite Nat.add_0_r. do 2 f_equal. apply imap_ext. intros j c' _. cbn. f_equal. lia.
Qed.

(** No conversion diverges. *)
Lemma fold_returns {A B} (f : B -> A -> outcome B) acc l :
  (forall acc x, f acc x <> Diverged) -> fold_outcome f acc l <> Diverged.
Proof. intros Hf; revert acc; induction l as [|x l IH]; intros acc; cbn; [done|]. by apply bind_returns. Qed.

Lemma map_returns {A B} (f : nat -> A -> outcome B) i l :
  (forall i x, f i x <> Diverged) -> map_outcome f i l <> Diverged.
Proof.
  intros Hf; revert i; induction l as [|x l IH]; intros i; cbn; [done|].
  apply bind_returns; [done|]. intros y. by apply bind_returns.
Qed.

Ltac returns :=
  repeat first
    [ done
    | apply bind_returns; [|intro]
    | apply fold_returns; intros
    | apply map_returns; intros
    | case_match ].

Lemma normalize_page_returns i v : normalize_page i v <> Diverged.
Proof.
  assert (Hget : forall d k v, get_default d k v <> Diverged) by (by intros []).
  assert (Hint : forall v, to_int v <> Diverged).
  { intros [| | |[]| | |]; cbn; try done. by destruct (py_int s). }
  assert (Hitem : forall v i, item v i <> Diverged).
  { intros [] j; cbn; try done; by case_match. }
  assert (Hiter : forall v, iter v <> Diverged) by (by intros []).
  assert (Hlen : forall v, len v <> Diverged) by (by intros []).
  unfold normalize_page, get, page_dimensions, add_block, extract_image, include_images, extract_block_text,
    coordinate, add_line, add_span, join_parts, strip_value, get, type_error.
  returns.
Qed.

Lemma normalize_result_returns `{!ResultReader} data fallback : normalize_result data fallback <> Diverged.
Proof.
  assert (Hsum : forall A (x : A + exn), of_sum x <> Diverged) by (by intros A []).
  assert (Hiter : forall v, iter v <> Diverged) by (by intros []).
  assert (Hget : forall d k v, get_default d k v <> Diverged) by (by intros []).
  pose proof normalize_page_returns as Hpage. unfold normalize_result. destruct data as [[|b data]|]; [done| |done].
  match goal with |- context [match ?m with Ok _ => _ | _ => _ end] => assert (Hm : m <> Diverged) end.
  { unfold extract_from_zip, extract_entry, normalize_middle_json, get.
    returns. }
  repeat case_match; done.
Qed.

(** ** Values that stand for things *)

Lemma number_to_int v z : number v z -> to_int v = Ok z.
Proof. destruct v as [| | |[m e| |]| | |]; cbn; try done; by intros ->. Qed.

Lemma list_at_iter l k vs v : list_at l k vs -> get (VDict l) k = Ok v ->
  or_else v (VList []) = VList vs.
Proof.
  unfold get, get_default. intros [Hk|[Hk ->]] [= <-]; rewrite Hk; cbn; [|done].
  unfold or_else. by destruct vs.
Qed.

Lemma text_at_truth l k s v : text_at l k s -> get (VDict l) k = Ok v ->
  truth v = nonempty s /\ (nonempty s = true -> v = VStr s).
Proof.
  unfold get, get_default. intros [Hk|[[Hk|Hk] ->]] [= <-]; by rewrite Hk.
Qed.

Lemma strip_either v1 v2 s1 s2 :
  truth v1 = nonempty s1 -> (nonempty s1 = true -> v1 = VStr s1) ->
  truth v2 = nonempty s2 -> (nonempty s2 = true -> v2 = VStr s2) ->
  strip_value (or_else (or_else v1 v2) (VStr "")) = Ok (strip (if nonempty s1 then s1 else s2)).
Proof.
  intros H1 H1' H2 H2'. unfold or_else. rewrite H1. destruct (nonempty s1) eqn:E1.
  - rewrite H1, H1' by done. done.
  - rewrite H2. destruct (nonempty s2) eqn:E2; [by rewrite H2'|]. unfold nonempty in E2. bool_hyps. by rewrite E2.
Qed.

Lemma join_parts_strs l : join_parts (map VStr l) = Ok (join " " l).
Proof.
  unfold join_parts. assert (Hm : mapM (fun p => match p with VStr s => Some s | _ => None end) (map VStr l) = Some l).
  { induction l as [|s l IH]; [done|]. cbn in *. by rewrite IH. }
  by rewrite Hm.
Qed.

Lemma add_span_ok parts v s : is_span v s ->
  add_span parts v = Ok (parts ++ map VStr (List.filter nonempty [s])).
Proof.
  intros (l & -> & Ht & Hs). unfold add_span.
  destruct (text_at_truth l "content" s _ Hs eq_refl) as [Htr Hv]. cbn [get get_default mbind outcome_bind] in *.
  cbn [List.filter]. rewrite Htr. destruct (nonempty s) eqn:E.
  - rewrite Hv by done. cbn. unfold nonempty in E. by rewrite E.
  - rewrite Ht. cbn. by rewrite app_nil_r.
Qed.

Lemma concat_map_strs (l : list string) :
  concat (map (fun s => map VStr (List.filter nonempty [s])) l) = map VStr (List.filter nonempty l).
Proof. induction l as [|s l IH]; cbn in *; [done|]. rewrite IH. by destruct (nonempty s). Qed.

Lemma add_line_ok parts v spans : is_line v spans ->
  add_line parts v = Ok (parts ++ map VStr (List.filter nonempty spans)).
Proof.
  intros (l & vs & -> & Hl & HF). unfold add_line. cbn [get get_default mbind outcome_bind].
  rewrite (list_at_iter l "spans" vs _ Hl eq_refl). cbn [iter mbind outcome_bind].
  rewrite (fold_outcome_rel is_span add_span (fun s => map VStr (List.filter nonempty [s])) vs spans).
  - by rewrite concat_map_strs.
  - apply add_span_ok.
  - done.
Qed.

Lemma extract_block_text_ok v b : is_block v b -> extract_block_text v = Ok (block_text b).
Proof.
  intros (l & lines & box & nested & -> & _ & Hl & HL & Ht & Hc & _). unfold extract_block_text.
  cbn [get get_default mbind outcome_bind].
  rewrite (list_at_iter l "lines" lines _ Hl eq_refl). cbn [iter mbind outcome_bind].
  rewrite (fold_outcome_rel is_line add_line (fun spans => map VStr (List.filter nonempty spans)) lines (mb_lines b))
    by (apply add_line_ok || done).
  cbn [mbind outcome_bind app].
  assert (Hcm : concat (map (fun spans => map VStr (List.filter nonempty spans)) (mb_lines b))
                = map VStr (List.filter nonempty (concat (mb_lines b)))).
  { clear. induction (mb_lines b) as [|s ls IH]; cbn; [done|].
    rewrite IH, List.filter_app, map_app. done. }
  rewrite Hcm, join_parts_strs. cbn [mbind outcome_bind]. unfold block_text.
  set (ls := strip _). change (ls !=? "") with (nonempty ls). cbv zeta. destruct (nonempty ls); [done|].
  destruct (text_at_truth l "text" _ _ Ht eq_refl) as [H1 H1']. destruct (text_at_truth l "content" _ _ Hc eq_refl) as [H2 H2'].
  by apply strip_either.
Qed.

(** ** Blocks and pages *)

Lemma coordinate_ok box zs i : Forall2 number box zs -> coordinate (VList box) i = Ok (zs !! i).
Proof.
  intros HF. unfold coordinate. cbn [len mbind outcome_bind item].
  destruct (zs !! i) as [z|] eqn:Ez.
  - destruct (Forall2_lookup_r _ _ _ _ _ HF Ez) as (v & Hv & Hn). apply lookup_lt_Some in Hv as Hlt.
    assert ((Z.of_nat (length box) >? Z.of_nat i) = true) as -> by lia. rewrite Hv. cbn [mbind outcome_bind].
    by rewrite (number_to_int _ _ Hn).
  - apply lookup_ge_None in Ez. apply Forall2_length in HF.
    by assert ((Z.of_nat (length box) >? Z.of_nat i) = false) as -> by lia.
Qed.

Lemma extract_image_ok v b i : is_block v b -> extract_image v i = Ok (rendered_image i b).
Proof.
  intros (l & lines & box & nested & -> & _ & _ & _ & _ & _ & Hb & HB & _). unfold extract_image.
  assert (Hbox : exists vs, or_else (default VNone (assoc "bbox" l)) (VList [VInt 0; VInt 0; VInt 0; VInt 0]) = VList vs /\
            Forall2 number vs (match mb_bbox b with [] => [0; 0; 0; 0] | box => box end)).
  { destruct Hb as [Hk|[Hk ->]]; rewrite Hk; inversion HB; subst; cbn;
      (eexists; split; [reflexivity|]); by repeat apply Forall2_cons_2. }
  destruct Hbox as (vs & Hvs & HF). cbn [get get_default mbind outcome_bind]. cbv zeta. rewrite Hvs.
  by rewrite !(coordinate_ok _ _ _ HF).
Qed.

Lemma include_images_ok v b : is_block v b -> include_images v = Ok (mb_has_image b).
Proof.
  intros (l & lines & box & nested & -> & _ & _ & _ & _ & _ & _ & _ & Hn & H1 & H2 & ->).
  unfold include_images. cbn [get get_default mbind outcome_bind]. rewrite H1, H2.
  destruct Hn as [Hk|[Hk ->]]; rewrite Hk; [|done]. by destruct nested.
Qed.

Lemma picture_type b : existsb (is_str (VStr (mb_type b))) ["image"; "figure"] = is_picture b.
Proof.
  unfold is_picture. cbn. apply eq_bool_prop_intro. rewrite orb_false_r, orb_True, !bool_decide_spec. set_solver.
Qed.

Lemma add_block_ok v b md imgs : is_block v b ->
  add_block (md, imgs) v =
  Ok (md ++ rendered_block b,
      imgs ++ (if is_picture b && mb_has_image b then [rendered_image (length imgs) b] else [])).
Proof.
  intros Hb. unfold add_block.
  assert (Ht : get_default v "type" (VStr "") = Ok (VStr (mb_type b))).
  { destruct Hb as (l & ? & ? & ? & -> & Ht & _). cbn. by rewrite Ht. }
  rewrite Ht. cbn [mbind outcome_bind]. rewrite (extract_block_text_ok _ _ Hb). cbn [mbind outcome_bind].
  rewrite picture_type, (include_images_ok _ _ Hb), (extract_image_ok _ _ _ Hb).
  change (existsb (is_str (VStr (mb_type b))) ["table"; "image"; "figure"])
    with ((mb_type b ==? "table") || existsb (is_str (VStr (mb_type b))) ["image"; "figure"]).
  rewrite picture_type. unfold rendered_block. cbv zeta. change (block_text b !=? "") with (nonempty (block_text b)).
  destruct (is_picture b), (mb_has_image b); cbn [mbind outcome_bind andb];
    rewrite ?app_nil_r; do 2 f_equal; destruct (nonempty _); rewrite ?app_nil_r; try done;
    rewrite ?orb_true_r; try done; by destruct (_ ==? _).
Qed.

Lemma add_blocks_ok vs bs : Forall2 is_block vs bs -> forall md imgs,
  fold_outcome add_block (md, imgs) vs =
  Ok (md ++ concat (map rendered_block bs),
      imgs ++ imap (fun i b => rendered_image (length imgs + i) b)
                (List.filter (fun b => is_picture b && mb_has_image b) bs)).
Proof.
  induction 1 as [|v b vs bs Hb _ IH]; intros md imgs; cbn [fold_outcome List.filter]; [by rewrite !app_nil_r|].
  rewrite (add_block_ok _ _ _ _ Hb). cbn [mbind outcome_bind]. rewrite IH. cbn [map concat].
  rewrite <- !app_assoc. do 3 f_equal. destruct (_ && _); cbn; [|by rewrite app_nil_r].
  rewrite Nat.add_0_r, length_app. cbn. f_equal. apply imap_ext. intros i b' _. cbn. f_equal. lia.
Qed.

Lemma normalize_page_ok i v p : is_page v p -> normalize_page i v = Ok (rendered_page i p).
Proof.
  intros (l & blocks & -> & Hi & Hs & Hb & HF). unfold normalize_page.
  cbn [is_dict get get_default mbind outcome_bind].
  assert (Hsize : page_dimensions (or_else (or_else (default VNone (assoc "page_size" l)) (default VNone (assoc "size" l)))
            (VList [VInt 0; VInt 0])) = Ok (Some (72, default 0 (fst <$> mp_size p), default 0 (snd <$> mp_size p)))).
  { destruct (mp_size p) as [[w h]|].
    - destruct Hs as (vw & vh & -> & Hw & Hh). cbn -[to_int].
      rewrite (number_to_int _ _ Hw). cbn -[to_int]. by rewrite (number_to_int _ _ Hh).
    - destruct Hs as [-> ->]. done. }
  rewrite Hsize. cbn [mbind outcome_bind].
  assert (Hblocks : or_else (or_else (default VNone (assoc "blocks" l)) (default VNone (assoc "para_blocks" l))) (VList [])
            = VList blocks).
  { destruct Hb as [[[->|[-> ->]] ->]|[-> [->|[-> ->]]]]; cbn; unfold or_else; try done; by destruct blocks. }
  rewrite Hblocks. cbn [iter mbind outcome_bind]. rewrite (add_blocks_ok _ _ HF). cbn [mbind outcome_bind app].
  assert (Hidx : to_int (default (VInt (Z.of_nat i)) (assoc "page_idx" l)) = Ok (default (Z.of_nat i) (mp_index p))).
  { destruct (mp_index p) as [z|]; [destruct Hi as (n & -> & Hn); by apply number_to_int|by rewrite Hi]. }
  rewrite Hidx. cbn [mbind outcome_bind]. unfold rendered_page. do 2 f_equal.
  by destruct (concat _).
Qed.

(** C24: on every value that stands for a MinerU document the conversion raises
    nothing and gives, page by page and in order, the rendering of the typed
    document: the number of the page or its position, the non-empty texts of its
    blocks, its images numbered from 0 with truncated boxes, and its size. *)
Theorem document_renders v pages :
  is_document v pages -> normalize_middle_json v = Ok (imap rendered_page pages).
Proof.
  intros (l & vs & -> & Hl & Hk & HF). unfold normalize_middle_json. cbn [get get_default mbind outcome_bind].
  rewrite Hk. assert (Hv : or_else (or_else (default VNone (assoc "pdf_info" l)) (default VNone None)) (VList []) = VList vs).
  { destruct Hl as [->|[-> ->]]; cbn; [|done]. unfold or_else. by destruct vs. }
  rewrite Hv. cbn [iter mbind outcome_bind].
  rewrite (map_outcome_rel is_page normalize_page rendered_page vs pages 0); [done| |done].
  intros i x c. apply normalize_page_ok.
Qed.

(** A page with a text, a table and a figure with a box of floats, and a page
    without anything. *)
Definition span_value (s : string) : value := VDict [("type", VStr "text"); ("content", VStr s)].
Definition line_value (spans : list string) : value := VDict [("spans", VList (map span_value spans))].
Definition demo_middle : value :=
  VDict [("pdf_info", VList
    [ VDict [("page_idx", VInt 7); ("page_size", VList [VFloat (Finite 1225 (-1)); VInt 792]);
             ("para_blocks", VList
               [ VDict [("type", VStr "text"); ("lines", VList [line_value [" Hello"; ""; "world "]; line_value ["again"]])];
                 VDict [("type", VStr "table"); ("content", VStr "<table>")];
                 VDict [("type", VStr "figure"); ("bbox", VList [VInt 1; VFloat (Finite 5 (-1)); VInt 30]);
                        ("blocks", VList [VDict []])] ])];
      VDict [] ]); ("_version_name", VStr "2")].
Definition demo_pages : list MPage :=
  [ mkMPage (Some 7) (Some (612, 792))
      [ mkBlock "text" [[" Hello"; ""; "world "]; ["again"]] "" "" [] false;
        mkBlock "table" [] "" "<table>" [] false;
        mkBlock "figure" [] "" "" [1; 2; 30] true ];
    mkMPage None None [] ].

Example demo_rendering : normalize_middle_json demo_middle =
  Ok [ mkPage 7 ("Hello world  again " +:+ chr 10 +:+ chr 10 +:+ "<table>")
         [mkImage "img-0" None (Some 1) (Some 2) (Some 30) None None] (Some (72, 612, 792));
       mkPage 1 "" [] (Some (72, 0, 0)) ].
Proof. vm_compute. reflexivity. Qed.

Ltac stands_for :=
  repeat first
    [ done | reflexivity
    | match goal with
      | |- Forall2 _ _ [] => apply Forall2_nil_2
      | |- Forall2 _ _ (_ :: _) => apply Forall2_cons_2
      | |- is_span _ _ => eexists; split_and!
      | |- is_line _ _ => do 2 eexists; split_and!
      | |- is_block _ _ => do 4 eexists; split_and!
      | |- is_page _ _ => do 2 eexists; split_and!
      | |- is_document _ _ => do 2 eexists; split_and!
      | |- text_at _ _ _ => first [left; reflexivity | right; split; [left; reflexivity|reflexivity]]
      | |- list_at _ _ _ => first [left; reflexivity | right; split; reflexivity]
      | |- _ \/ _ => right; split; [reflexivity|first [left; reflexivity | right; split; reflexivity]]
      | |- ex _ => eexists
      | |- _ /\ _ => split
      end
    | progress cbn [mp_index mp_size mp_blocks mb_lines mb_bbox line_value map] ].

Lemma demo_is_document : is_document demo_middle demo_pages.
Proof.
  unfold demo_middle, demo_pages. stands_for.
Qed.

Lemma document_renders_witness : normalize_middle_json demo_middle = Ok (imap rendered_page demo_pages).
Proof. apply document_renders. exact demo_is_document. Defined.
