(* ===== verification/IngestSpec.v ===== *)
(** * IngestSpec: what the intake promises

    The bytes a client sends are the bytes the scheduler will rebuild: staging
    keeps every part of the form apart and within the limit, moving keeps the
    contents, and the queued row points at a payload that rebuilds to them. *)
From stdpp Require Import pretty.
From S2P Require Import Prelude Models Config World Database Logic Hoare Json Payload PyText Storage Status.
From S2P Require Import TaskRows TaskRepository WorkerRepository CacheService Results Ingest S3 Upstream Lock Provider Demo.
From S2P Require Import LifecycleSpec CacheSpec PayloadSpec.

Lemma wp_lifted {A} (o : outcome A) (Q : A -> World -> Prop) X w :
  match o with Ok a => Q a w | Raise e => X e w | Diverged => False end -> wp (lift o) Q X w.
Proof. by destruct o. Qed.

(** ** Destinations *)

Lemma print_int_inj a b : print_int a = print_int b -> a = b.
Proof.
  intros E. pose proof (parse_int_print a "" eq_refl) as Ha. pose proof (parse_int_print b "" eq_refl) as Hb.
  rewrite E in Ha. congruence.
Qed.

#[export] Instance upload_candidate_inj name : Inj (=) (=) (upload_candidate name).
Proof.
  intros a b. unfold upload_candidate. intros E%string_app_inj_l%string_app_inj_l.
  by apply string_app_inj_r, print_int_inj in E.
Qed.

(** Without a free candidate there would be more files than there are. *)
Lemma next_destination_spec fuel files name index :
  match next_destination fuel files name index with
  | Ok d => files !! d = None
  | Raise _ => False
  | Diverged => Forall (fun i => is_Some (files !! upload_candidate name i)) (seqZ index (Z.of_nat fuel))
  end.
Proof.
  revert index; induction fuel as [|fuel IH]; intros index; cbn [next_destination]; [constructor|].
  cbv zeta. destruct (files !! upload_candidate name index) eqn:E; cbn [is_none]; [|done].
  specialize (IH (index + 1)). destruct (next_destination _ _ _ _); [done..|].
  rewrite seqZ_cons by lia. constructor; [by eexists|].
  replace (Z.pred (Z.of_nat (S fuel))) with (Z.of_nat fuel) by lia. exact IH.
Qed.

Lemma build_upload_destination_spec files name :
  match build_upload_destination files name with Ok d => files !! d = None | _ => False end.
Proof.
  unfold build_upload_destination. destruct (files !! name) eqn:E; cbn [is_none]; [|done].
  pose proof (next_destination_spec (S (size files)) files name 2) as Hs.
  destruct (next_destination _ _ _ _); [done..|]. exfalso.
  set (cs := upload_candidate name <$> seqZ 2 (Z.of_nat (S (size files)))).
  assert (Hnd : NoDup cs) by (apply NoDup_fmap_2; [apply _|apply NoDup_seqZ]).
  assert (Hsub : list_to_set (C:=gset string) cs ⊆ dom files).
  { intros k [i [-> Hi]]%elem_of_list_to_set%list_elem_of_fmap. apply elem_of_dom.
    by apply (proj1 (Forall_forall _ _) Hs). }
  apply subseteq_size in Hsub. rewrite size_list_to_set, size_dom in Hsub by done.
  unfold cs in Hsub. rewrite length_fmap, length_seqZ in Hsub. lia.
Qed.

(** ** Staging *)

Definition form_texts (items : list (string * FormValue)) : list (string * string) :=
  omap (fun it => match it.2 with FormText v => Some (it.1, v) | FormFile _ _ _ => None end) items.

(** The file parts: field, given name, content type, bytes. *)
Definition form_part : Type := string * option string * option string * list Byte.byte.
Definition form_files (items : list (string * FormValue)) : list form_part :=
  omap (fun it => match it.2 with FormFile n c d => Some (it.1, n, c, d) | FormText _ => None end) items.

Definition carries (part : form_part) (u : StagedUpload) : Prop :=
  let '(field, name, content_type, data) := part in
  u_field_name u = field /\ u_content_type u = str_or content_type "application/octet-stream" /\
  u_data u = data /\ (truthy name = true -> name = Some (u_upload_name u)).

Definition form_bytes (items : list (string * FormValue)) : Z :=
  foldr (fun part n => Z.of_nat (length part.2) + n) 0 (form_files items).

(** The payload carries the form, each upload in a file of its own. *)
Definition staged_ok (items : list (string * FormValue)) (s : Staged) : Prop :=
  st_fields s = form_texts items /\ Forall2 carries (form_files items) (mp_uploads (opened s)) /\
  NoDup (f_path <$> st_uploads s) /\ Forall (fun u => is_Some (st_files s !! f_path u)) (st_uploads s).

Lemma form_bytes_app a b : form_bytes (a ++ b) = form_bytes a + form_bytes b.
Proof.
  unfold form_bytes, form_files. rewrite omap_app, foldr_app.
  induction (omap _ a) as [|x l IH]; cbn; [lia|]. rewrite IH. lia.
Qed.

Lemma form_bytes_nonneg items : 0 <= form_bytes items.
Proof. unfold form_bytes. induction (form_files items) as [|x l IH]; cbn; lia. Qed.

(** A file written beside those of the uploads. *)
Lemma open_uploads_insert files d content us :
  files !! d = None -> Forall (fun u => is_Some (files !! f_path u)) us ->
  map (open_upload (<[d := content]> files)) us = map (open_upload files) us.
Proof.
  intros Hd Hus. apply map_ext_Forall. eapply Forall_impl; [exact Hus|]. intros u [x Hx].
  unfold open_upload. rewrite lookup_insert_ne; [done|]. intros ->. congruence.
Qed.

Lemma staged_snoc items s field filename ctype data name d :
  staged_ok items s -> st_files s !! d = None -> (truthy filename = true -> filename = Some name) ->
  staged_ok (items ++ [(field, FormFile filename ctype data)])
    (mkStaged (<[d := data]> (st_files s)) (st_fields s)
       (st_uploads s ++ [mkStagedFile field name (str_or ctype "application/octet-stream") d])).
Proof.
  intros (Ef & Hc & Hnd & Hin) Hd Hname. unfold staged_ok, opened, form_texts, form_files in *. cbn in *.
  rewrite !omap_app, map_app, fmap_app. cbn. rewrite app_nil_r, open_uploads_insert by done.
  split_and!; [done| | |].
  - apply Forall2_app; [done|]. constructor; [|constructor]. cbn. by rewrite lookup_insert_eq.
  - apply NoDup_app. split; [done|]. split; [|apply NoDup_singleton].
    intros p Hp ->%list_elem_of_singleton. cbn in Hp. apply list_elem_of_fmap in Hp as (u & -> & Hu).
    rewrite Forall_forall in Hin. destruct (Hin u Hu) as [x Hx]. congruence.
  - apply Forall_app. split.
    + eapply Forall_impl; [exact Hin|]. intros u Hu. cbn. rewrite lookup_insert_is_Some'. by right.
    + repeat constructor. cbn. rewrite lookup_insert_eq. by eexists.
Qed.

Section staging.
Context (settings : GatewaySettings) `{Env} `{!MinerUIntake}.

Definition over_limit (items : list (string * FormValue)) (e : exn) : Prop :=
  effective_file_size_limit settings < form_bytes items /\
  exists size, e = file_too_large size (effective_file_size_limit settings).

Lemma stage_items_wp done items s w :
  staged_ok done s -> form_bytes done <= effective_file_size_limit settings ->
  wp (fold_m items (s, form_bytes done) (stage_item settings))
    (fun '(s', total) w' => same_data w w' /\ staged_ok (done ++ items) s' /\ total = form_bytes (done ++ items) /\
       total <= effective_file_size_limit settings)
    (fun e w' => same_data w w' /\ over_limit (done ++ items) e) w.
Proof.
  revert done s w; induction items as [|[field v] items IH]; intros dn s w Hs Hl; cbn [fold_m].
  { wp_go. by rewrite app_nil_r. }
  rewrite (cons_middle (field, v) dn items), (app_assoc dn). unfold stage_item at 1. cbn [fst snd].
  destruct v as [filename ctype data|text].
  - apply wp_bind, wp_bind.
    apply (wp_mono _ (fun name w1 => same_data w w1 /\ (truthy filename = true -> filename = Some name)) _
      (fun _ _ => False)); [| |by intros].
    { destruct (truthy filename) eqn:Et.
      - wp_go. split; [done|]. intros _. destruct filename as [n|]; [|done]. cbn in *. bool_hyps. by rewrite bool_decide_false.
      - wp_go. split; [by repeat split|done]. }
    intros name w1 [Hd Hname]. apply wp_bind, wp_lifted.
    pose proof (build_upload_destination_spec (st_files s) (normalize_upload_filename name)) as Hb.
    destruct (build_upload_destination _ _) as [d|e|]; [|done..].
    apply wp_bind, wp_lifted. pose proof (form_bytes_nonneg dn) as Hn.
    pose proof (bounded_chunks_spec settings (length data) (form_bytes dn) data ltac:(lia) Hn) as Hc.
    cbv zeta in Hc.
    assert (Eb : form_bytes (dn ++ [(field, FormFile filename ctype data)])
                 = form_bytes dn + Z.of_nat (length data)).
    { rewrite form_bytes_app. unfold form_bytes at 2. cbn. lia. }
    destruct (bounded_chunks _ _ _ _) as [chunks|e|]; [|split; [done|]|done].
    + destruct Hc as [Ec Hc]. wp_go. rewrite Ec, <- Eb.
      eapply wp_mono; [apply IH| |].
      * by apply staged_snoc.
      * rewrite Eb. destruct Hc as [->|]; cbn; lia.
      * intros [s' total] w2 (Hd2 & H2). split; [by transitivity w1|exact H2].
      * intros e w2 (Hd2 & H2). split; [by transitivity w1|exact H2].
    + destruct Hc as [Hlt Hsz]. split; [|exact Hsz]. rewrite form_bytes_app, Eb.
      pose proof (form_bytes_nonneg items). lia.
  - wp_go. assert (Eb : form_bytes (dn ++ [(field, FormText text)]) = form_bytes dn).
    { rewrite form_bytes_app. unfold form_bytes at 2. cbn. lia. }
    rewrite <- Eb. apply IH; [|by rewrite Eb].
    destruct Hs as (Ef & Hc & Hnd & Hin). unfold staged_ok, opened, form_texts, form_files in *. cbn in *.
    rewrite !omap_app. cbn. rewrite app_nil_r, Ef. done.
Qed.

Lemma stage_request_wp request items w : rq_form request = inl items ->
  wp (stage_bounded_multipart_request settings request)
    (fun s w' => same_data w w' /\ staged_ok items s /\ form_bytes items <= effective_file_size_limit settings)
    (fun e w' => same_data w w' /\ over_limit items e) w.
Proof.
  intros Hf. unfold stage_bounded_multipart_request. rewrite Hf. wp_go.
  eapply wp_mono; [apply (stage_items_wp [] items (mkStaged ∅ [] []))| |].
  - repeat split; constructor.
  - cbn. pose proof (limit_pos settings). lia.
  - intros [s total] w' (Hd & Hs & -> & Ht). by wp_go.
  - done.
Qed.

(** C33: staging fails exactly when the file parts of the form together are above
    the limit, and then with the 413; otherwise every part is in a file of its
    own with its bytes, name and type, the texts are kept in order, and the call
    always ends. *)
Theorem staging_keeps_parts request items w : rq_form request = inl items ->
  wp (stage_bounded_multipart_request settings request)
    (fun s w' => same_data w w' /\ staged_ok items s /\ form_bytes items <= effective_file_size_limit settings)
    (fun e w' => same_data w w' /\ over_limit items e) w.
Proof. apply stage_request_wp. Qed.
End staging.

(** ** Moving *)

Section moving.
Context `{Env} `{!MinerUIntake}.

(** Identifiers drawn at different times differ. *)
Definition uuids_distinct : Prop := forall n m, env_uuid n = env_uuid m -> n = m.

Lemma open_uploads_move files src dst us data :
  files !! src = Some data -> src ∉ f_path <$> us -> dst ∉ f_path <$> us ->
  map (open_upload (move_file src dst files)) us = map (open_upload files) us.
Proof.
  intros Hsrc Hs Hd. unfold move_file. rewrite Hsrc. apply map_ext_Forall, Forall_forall. intros u Hu.
  unfold open_upload. rewrite lookup_insert_ne, lookup_delete_ne; [done|..]; intros ->;
    [apply Hs|apply Hd]; by apply list_elem_of_fmap_2.
Qed.

Definition name_accepted (u : StagedFile) : Prop :=
  sanitize_client_filename (f_upload_name u) = Ok (f_upload_name u).

Lemma rewrite_upload_wp files done u w :
  wp (rewrite_upload (files, done) u)
    (fun acc w' => same_data w w' /\ step w' = S (step w) /\ name_accepted u /\
       acc = (move_file (f_path u) (env_uuid (step w)) files,
              done ++ [mkStagedFile (f_field_name u) (f_upload_name u) (f_content_type u) (env_uuid (step w))]))
    (fun e w' => same_data w w' /\ exists m, e = ValueError m) w.
Proof.
  unfold rewrite_upload, internal_upload_path. apply wp_bind, wp_bind, wp_lifted. unfold name_accepted.
  destruct (sanitize_client_filename (f_upload_name u)) as [safe|e|] eqn:Es.
  - pose proof (sanitize_id _ _ Es) as ->. repeat split.
  - split; [done|]. revert Es. unfold sanitize_client_filename. repeat case_match; intros [= <-]; eauto.
  - by apply sanitize_returns in Es.
Qed.

Lemma rewrite_uploads_wp us files done w :
  uuids_distinct -> NoDup (f_path <$> us) ->
  Forall (fun u => is_Some (files !! f_path u)) us -> (forall n, env_uuid n ∉ f_path <$> us) ->
  Forall (fun u => exists n, (n < step w)%nat /\ f_path u = env_uuid n) done ->
  wp (fold_m us (files, done) rewrite_upload)
    (fun '(files', out) w' => same_data w w' /\ exists new, out = done ++ new /\
       map (open_upload files') done = map (open_upload files) done /\
       map (open_upload files') new = map (open_upload files) us /\ Forall name_accepted new)
    (fun e w' => same_data w w' /\ exists m, e = ValueError m) w.
Proof.
  intros Hdis. revert files done w; induction us as [|u us IH]; intros files dn w Hnd Hin Hfresh Hdone; cbn [fold_m].
  { wp_go. split; [done|]. exists []. by rewrite app_nil_r. }
  cbn in Hnd, Hfresh. apply NoDup_cons in Hnd as [Hu Hnd]. apply Forall_cons in Hin as [[data Hdata] Hin].
  assert (Hnew : forall n, env_uuid n ∉ f_path <$> us) by (intros n Hn; apply (Hfresh n); by right).
  apply wp_bind. eapply wp_mono; [apply rewrite_upload_wp| |done].
  intros acc w1 (Hd1 & Es1 & Hok & ->). set (new := mkStagedFile _ _ _ _). set (files1 := move_file _ _ _).
  assert (Edn : map (open_upload files1) dn = map (open_upload files) dn).
  { apply (open_uploads_move _ _ _ _ data); [done|..]; intros (v & Ev & Hv)%list_elem_of_fmap;
      rewrite Forall_forall in Hdone; destruct (Hdone v Hv) as (k & Hk & Ek).
    - apply (Hfresh k). rewrite <- Ek, <- Ev. by left.
    - rewrite Ek in Ev. apply Hdis in Ev. lia. }
  assert (Eus : map (open_upload files1) us = map (open_upload files) us).
  { by apply (open_uploads_move _ _ _ _ data). }
  eapply wp_mono; [apply IH| |].
  - done.
  - rewrite Forall_forall in Hin |- *. intros v Hv. destruct (Hin v Hv) as [x Hx]. exists x.
    unfold files1, move_file. rewrite Hdata.
    assert (f_path u <> f_path v) by (intros E; apply Hu; rewrite E; by apply list_elem_of_fmap_2).
    assert (env_uuid (step w) <> f_path v).
    { intros E. apply (Hnew (step w)). rewrite E. by apply list_elem_of_fmap_2. }
    by rewrite lookup_insert_ne, lookup_delete_ne.
  - done.
  - apply Forall_app. split; [|repeat constructor; exists (step w); split; [lia|done]].
    eapply Forall_impl; [exact Hdone|]. intros v (n & Hn & E). exists n. split; [lia|done].
  - intros [files' out] w2 (Hd2 & more & -> & E1 & E2 & Hok2). split; [by transitivity w1|].
    rewrite !map_app in E1. apply app_inj_1 in E1 as [E1 E1']; [|by rewrite !length_map].
    exists (new :: more). split; [by rewrite <- app_assoc|]. split; [congruence|]. split; [|by constructor].
    cbn [map]. apply (f_equal head) in E1'. cbn [map head] in E1'.
    assert (open_upload files' new = open_upload files1 new) as -> by congruence. rewrite E2, <- Eus. f_equal.
    unfold open_upload, new, files1, move_file. cbn. by rewrite Hdata, lookup_insert_eq.
  - intros e w2 (Hd2 & He). split; [by transitivity w1|done].
Qed.
End moving.

(** ** Submission *)

Section submission.
Context (settings : GatewaySettings) `{Env} `{!MinerUIntake} `{!ObjectStore} `{!Sha256}.

Lemma hash_returns payload : hash_staged_payload settings payload <> Diverged.
Proof.
  unfold hash_staged_payload, compute_file_records_from_paths. apply bind_returns; [|done].
  apply bind_returns.
  - generalize (map u_upload_name (mp_uploads payload)) (map u_data (mp_uploads payload)).
    intros a; induction a as [|x a IH]; intros [|y b]; cbn; try done. by apply bind_returns.
  - intros l. apply map_o_returns. intros nf. apply bind_returns; [|done]. unfold hash_file_at_path.
    apply bind_returns; [|done]. unfold iter_bounded_file. intros E.
    pose proof (bounded_chunks_spec settings (length nf.2) 0 nf.2 ltac:(lia) ltac:(lia)) as Hs.
    cbv zeta in Hs. by rewrite E in Hs.
Qed.

Lemma lookup_rows key : evolves same_rows (CacheService.lookup settings key).
Proof.
  unfold CacheService.lookup, row_is_expired, reset_expired_row, refresh_row, delete_stale_object. evolve.
  all: try (by apply evolves_commit_same_rows). all: apply evolves_db_rows, safe_delete_db.
Qed.

Lemma create_placeholder_rows key k : evolves same_rows (create_placeholder settings key k).
Proof.
  unfold create_placeholder, refresh_if_expired, build_placeholder_row, row_is_expired, reset_expired_row,
    refresh_fields, refresh_row, delete_stale_object. evolve.
  all: try (by apply evolves_commit_same_rows). all: apply evolves_db_rows, safe_delete_db.
Qed.

(** The row an accepted request leaves: completed with a result of its own, or
    queued with a payload that rebuilds to what was sent. *)
Definition accepted (payload : MultipartPayload) (w : World) (r : IngestResult) (w' : World) : Prop :=
  let id := ir_task_id r in
  exists t, tasks w !! id = None /\ tasks w' = <[id := t]> (tasks w) /\ task_good id t /\
    t_status t = ir_status r /\
    if ir_cache_hit r
    then t_status t = TASK_COMPLETED /\ t_result_key t = Some (result_key id RESULT_FORMAT_ZIP) /\
         is_Some (objects w' !! result_key id RESULT_FORMAT_ZIP)
    else queued_clause t = true /\ t_payload_key t = Some (payload_key id) /\
         exists blob, objects w' !! payload_key id = Some blob /\ rebuild_blob blob = Ok (Some payload).

Lemma resolve_cache_wp payload has_cache recs names opts backend pm skip w :
  wp (resolve_cache settings has_cache recs names opts backend pm skip true)
    (fun '(_, hit) w' => match hit with None => same_rows w w' | Some r => accepted payload w r w' end)
    (fun _ w' => tasks w' = tasks w) w.
Proof.
  unfold resolve_cache. destruct (_ || _); [by wp_go|]. destruct (compute_cache_key recs opts) as [key hash].
  cbv zeta. apply wp_bind.
  eapply (wp_evolves same_rows); [apply lookup_rows| |by intros e w1 [? _]]. intros o w1 Hw1.
  match goal with |- context [try_ ?m ?h] => assert (Hp : wp (try_ m h)
    (fun '(_, hit) w' => match hit with None => same_rows w w' | Some r => accepted payload w r w' end)
    (fun _ w' => tasks w' = tasks w) w1) end.
  { apply wp_try, wp_bind.
    eapply (wp_evolves same_rows); [apply create_placeholder_rows|..]; intros x w2 Hw2; wp_go; cbn; by transitivity w1. }
  destruct o as [entry|]; [|exact Hp]. destruct (truthy (c_object_key entry)) eqn:Ek; [|exact Hp]. clear Hp.
  unfold build_cache_hit_result. cbn [negb]. wp_go. destruct Hw1 as [Et1 _].
  eapply wp_mono; [by apply create_hit_task_wp| |by intros e w2 [? _]; cbn in *; congruence].
  intros row w2 (Eid & Hwf & Hs & Hn & Et2 & _ & key0 & data & _ & _ & Hk & Hd). wp_go. cbn in Hn, Et2.
  exists row. cbn. rewrite Hd. split_and!; try done; congruence.
Qed.

Lemma ingest_payload_wp payload source skip pub allow w : names_safe payload ->
  wp (ingest_payload settings payload true source skip pub allow)
    (fun r w' => accepted payload w r w') (fun _ w' => tasks w' = tasks w) w.
Proof.
  intros Hsafe. unfold ingest_payload, validate_http_client_policy. apply wp_bind.
  destruct (http_client_refused _ _ _ _); [done|]. wp_go. apply wp_lifted.
  pose proof (hash_returns payload) as Hh. destruct (hash_staged_payload settings payload) as [[recs opts]|e|]; [|done..].
  cbv zeta. apply wp_bind. eapply wp_mono; [apply (resolve_cache_wp payload)| |done].
  intros [ck [r|]] w1 Hc; [by wp_go|]. destruct Hc as [Et1 Ew1]. wp_go.
  unfold create_task_with_payload, store_payload. cbn [negb]. wp_go. apply wp_lifted.
  pose proof (payload_packs settings payload) as Hp.
  destruct (pack_payload settings payload) as [blob|e|] eqn:Eb; [|cbn; congruence|done].
  wp_go. eapply wp_mono; [apply store_put_wp| |by intros e w2 (_ & ? & _); cbn in *; congruence].
  intros n w2 [(_ & Et2 & _) Eo2]. wp_go. apply wp_try, wp_bind.
  eapply wp_mono; [apply create_queued_task_wp| |].
  - intros row w3 (Hn & Et3 & _ & Hg & Hq & _ & Hk & _ & _ & _ & _ & _ & Eo3). wp_go.
    exists row. cbn in *. assert (Hs : t_status row = TASK_QUEUED) by (unfold queued_clause in Hq; by bool_hyps).
    split_and!; try done; try congruence. exists blob. split; [by rewrite Eo3, Eo2, lookup_insert_eq|].
    by eapply rebuild_pack.
  - intros e w3 (Et3 & _). cbn. wp_go.
    eapply wp_mono; [apply wp_safe_delete| |done]. intros b w4 (_ & Et4 & _). wp_go. cbn in *. congruence.
Qed.

(** No staged file is named by an identifier that is drawn. *)
Definition paths_unguessed (request : Request) (w : World) : Prop :=
  forall s w', stage_bounded_multipart_request settings request w = (Ok s, w') ->
  forall n, st_files s !! env_uuid n = None.

(** Up to the payload nothing is written: what holds of [ingest_payload] on a form's
    payload holds of [ingest_task] on the form. *)
Lemma ingest_task_intro {items} request source (Q : IngestResult -> World -> Prop) X w :
  rq_form request = inl items -> uuids_distinct -> paths_unguessed request w ->
  (forall e w', same_data w w' -> X e w') ->
  (forall p w', same_data w w' -> mp_fields p = form_texts items -> Forall2 carries (form_files items) (mp_uploads p) ->
     names_safe p -> form_bytes items <= effective_file_size_limit settings ->
     wp (ingest_payload settings p true source (should_skip_cache request)
           (rq_public_bind_exposed request) (rq_allow_public_http_client request)) Q X w') ->
  wp (ingest_task settings request true source) Q X w.
Proof.
  intros Hf Hdis Hun HX Hp. unfold ingest_task. apply wp_bind.
  pose proof (stage_request_wp settings request items w Hf) as Hst. unfold paths_unguessed in Hun. unfold wp at 1 in Hst.
  unfold wp at 1. destruct (stage_bounded_multipart_request settings request w) as [[s|e|] w1]; [|apply HX, Hst|done].
  destruct Hst as (Hd1 & (Efs & Hc & Hnd & Hin) & Hl). specialize (Hun s w1 eq_refl).
  apply wp_bind, wp_try. unfold rewrite_staged_uploads. apply wp_bind.
  eapply wp_mono; [apply rewrite_uploads_wp| |].
  - done.
  - done.
  - done.
  - intros n (u & E & Hu)%list_elem_of_fmap. rewrite Forall_forall in Hin. destruct (Hin u Hu) as [x Hx].
    rewrite <- E, Hun in Hx. done.
  - constructor.
  - intros [files out] w2 (Hd2 & new & -> & _ & Eopen & Hok). wp_go.
    assert (Ep : opened (mkStaged files (st_fields s) ([] ++ new)) = mkMultipart (st_fields s) (mp_uploads (opened s))).
    { unfold opened. cbn. by rewrite Eopen. }
    apply Hp; [by transitivity w1|by rewrite Ep|by rewrite Ep| |done].
    unfold names_safe, opened. cbn. apply Forall_map. exact Hok.
  - intros e w2 (Hd2 & m & ->). cbn. apply HX. by transitivity w1.
Qed.

Lemma ingest_task_wp request source items w :
  rq_form request = inl items -> uuids_distinct -> paths_unguessed request w ->
  wp (ingest_task settings request true source)
    (fun r w' => exists p, mp_fields p = form_texts items /\ Forall2 carries (form_files items) (mp_uploads p) /\
       names_safe p /\ form_bytes items <= effective_file_size_limit settings /\ accepted p w r w')
    (fun _ w' => tasks w' = tasks w) w.
Proof.
  intros Hf Hdis Hun. eapply ingest_task_intro; [done..|intros e w' Hd; apply Hd|].
  intros p w1 (_ & Et1 & _) Hfields Hc Hsafe Hl.
  eapply wp_mono; [by apply ingest_payload_wp| |intros e w2 Et2; congruence].
  intros r w2 Ha. exists p. split_and!; [done..|]. unfold accepted in *. by rewrite <- Et1.
Qed.

(** C8: [ingest_task] always ends.  When it returns, the row it names is new and
    the only one that changed, and either completed with a result of its own, or
    queued with a payload in the bucket from which the scheduler rebuilds exactly
    the form that was sent, every file with its own bytes, name and type; when it
    raises no task has been created. *)
Theorem submission_reaches_the_queue request source items w :
  rq_form request = inl items -> uuids_distinct -> paths_unguessed request w ->
  wp (ingest_task settings request true source)
    (fun r w' => exists p, mp_fields p = form_texts items /\ Forall2 carries (form_files items) (mp_uploads p) /\
       names_safe p /\ form_bytes items <= effective_file_size_limit settings /\ accepted p w r w')
    (fun _ w' => tasks w' = tasks w) w.
Proof. apply ingest_task_wp. Qed.
End submission.

(** ** A request *)

(** A toy digest of 64 decimal digits. *)
Fixpoint digits (n : nat) (z : Z) : string :=
  match n with
  | O => ""
  | S n => String (Ascii.ascii_of_nat (48 + Z.to_nat (z mod 10))) (digits n (z / 10))
  end.

Lemma digits_length n z : String.length (digits n z) = n.
Proof. revert z; induction n as [|n IH]; intros z; cbn; [done|]. by rewrite IH. Qed.

#[export] Instance demo_sha : Sha256 := {|
  sha256_hex b := digits 64 (foldl (fun h x => 257 * h + Z_of_byte x) 1 b);
  sha256_length b := digits_length 64 _ |}.

#[export] Instance demo_intake : MinerUIntake := {|
  normalize_upload_filename name := name;
  get_field_value fields key := snd <$> List.find (fun f => f.1 ==? key) fields;
  http_client_refused exposed allowed backend url :=
    if exposed && negb allowed && not_none url then Some (StatusCodeError 403 "refused") else None |}.

(** Two parts with the same name, and a text field. *)
Definition demo_items : list (string * FormValue) :=
  [("files", FormFile (Some "a.pdf") (Some "application/pdf") demo_body); ("backend", FormText "pipeline");
   ("files", FormFile (Some "a.pdf") None [])].
Definition demo_request : Request := mkRequest (inl demo_items) "" "" None false false.

Lemma demo_uuids_distinct : uuids_distinct.
Proof.
  intros n m E. cbn in E. apply string_app_inj_l, string_app_inj_r in E.
  apply (inj pretty) in E. lia.
Qed.

Lemma demo_paths_unguessed : paths_unguessed demo_settings demo_request cache_demo.
Proof.
  intros s w' E n.
  assert (Hs : match stage_bounded_multipart_request demo_settings demo_request cache_demo with
               | (Ok s, _) => st_files s = <["a__upload_2.pdf" := []]> (<["a.pdf" := demo_body]> ∅)
               | _ => False end) by (vm_compute; reflexivity).
  rewrite E in Hs. rewrite Hs, !lookup_insert_ne by done. apply lookup_empty.
Qed.

(** The request is queued, and its payload is the form. *)
Example submission_run :
  match ingest_task demo_settings demo_request true "tasks" cache_demo with
  | (Ok r, w') => match objects w' !! payload_key (ir_task_id r) with
                  | Some blob => rebuild_blob blob = Ok (Some (mkMultipart [("backend", "pipeline")]
                      [mkUpload "files" "a.pdf" "application/pdf" demo_body;
                       mkUpload "files" "a.pdf" "application/octet-stream" []]))
                  | None => False end
  | _ => False end.
Proof. vm_compute. reflexivity. Qed.

Lemma staging_keeps_parts_witness :
  wp (stage_bounded_multipart_request demo_settings demo_request)
    (fun s w' => same_data cache_demo w' /\ staged_ok demo_items s /\
       form_bytes demo_items <= effective_file_size_limit demo_settings)
    (fun e w' => same_data cache_demo w' /\ over_limit demo_settings demo_items e) cache_demo.
Proof. apply staging_keeps_parts. reflexivity. Defined.

Lemma submission_reaches_the_queue_witness :
  wp (ingest_task demo_settings demo_request true "tasks")
    (fun r w' => exists p, mp_fields p = form_texts demo_items /\
       Forall2 carries (form_files demo_items) (mp_uploads p) /\ names_safe p /\
       form_bytes demo_items <= effective_file_size_limit demo_settings /\ accepted p cache_demo r w')
    (fun _ w' => tasks w' = tasks cache_demo) cache_demo.
Proof.
  apply submission_reaches_the_queue; [reflexivity|exact demo_uuids_distinct|exact demo_paths_unguessed].
Defined.
