(* ===== verification/GatewaySpec.v ===== *)
(** * GatewaySpec: what the gateway answers

    Which requests pass the key check, what the result route answers for every
    row, and what a synchronous parse returns whatever the scheduler does while
    it polls. *)
From S2P Require Import Prelude Models Config World Database Logic Hoare Json Payload PyText Storage Status.
From S2P Require Import TaskRows CacheService Results Ingest TaskApi AdminApi S3 Upstream Lock Provider Scheduler Demo.
From S2P Require Import LifecycleSpec CacheSpec PayloadSpec IngestSpec.

(** ** Authentication *)

(** With authentication enabled a request to a path that is not public
    passes only with the configured key, as [x-api-key] or as the bearer of
    [authorization]; any other key gets the 401, except that a key or a
    configured key outside ASCII makes the comparison raise [TypeError]. *)
Theorem auth_gate settings path x_api_key authorization :
  auth_enabled (auth settings) = true -> path ∉ PUBLIC_PATHS ->
  let provided := provided_key x_api_key authorization in
  match auth_dispatch settings path x_api_key authorization with
  | Ok None => provided <> "" /\ api_key (auth settings) = Some provided
  | Ok (Some reply) => reply = unauthorized /\ (provided = "" \/ api_key (auth settings) <> Some provided)
  | Raise _ => exists key, api_key (auth settings) = Some key /\ is_ascii provided && is_ascii key = false
  | Diverged => False
  end.
Proof.
  intros He Hp. unfold auth_dispatch, resolved_keys. rewrite He. cbn [negb].
  rewrite bool_decide_false by done. cbv zeta. set (p := provided_key _ _).
  destruct (decide (p = "")) as [->|Hne]; [rewrite bool_decide_true by done; auto|].
  rewrite bool_decide_false by done. destruct (api_key (auth settings)) as [key|] eqn:Ek; [|cbn; split; auto].
  destruct (decide (key = "")) as [->|Hk]; [rewrite bool_decide_true by done; cbn; split; [done|right; congruence]|].
  rewrite bool_decide_false by done. cbn. unfold compare_digest.
  destruct (is_ascii p && is_ascii key) eqn:Ea; cbn; [|by exists key].
  case_bool_decide; cbn; [by subst|]. split; [done|right; congruence].
Qed.

Definition guarded_settings : GatewaySettings := {|
  deployment_id := "prod"; database_url := ""; host := "0.0.0.0"; port := 8000; log_level := "INFO";
  max_file_size_bytes := 0; task_sla_seconds := 3600; cloud_workers_enabled := false;
  scaling := scaling demo_settings; reconciliation := reconciliation demo_settings;
  retention := retention demo_settings; cache := cache demo_settings; cloud := cloud demo_settings;
  rotation := rotation demo_settings; scheduler := scheduler demo_settings;
  attribution := attribution demo_settings; auth := mkAuthConfig true (Some "s3cret"); otel := otel demo_settings |}.

Example auth_gate_run :
  (auth_dispatch guarded_settings "/tasks" None (Some "Bearer s3cret"),
   auth_dispatch guarded_settings "/tasks" (Some "s3cre") None,
   auth_dispatch guarded_settings "/health" None None,
   is_ok (auth_dispatch guarded_settings "/tasks" (Some (chr 233)) None))
  = (Ok None, Ok (Some unauthorized), Ok None, false).
Proof. vm_compute. reflexivity. Qed.

Lemma auth_gate_witness :
  match auth_dispatch guarded_settings "/tasks" None (Some "Bearer s3cret") with
  | Ok None => provided_key None (Some "Bearer s3cret") <> "" /\
               api_key (auth guarded_settings) = Some (provided_key None (Some "Bearer s3cret"))
  | Ok (Some reply) => reply = unauthorized /\
      (provided_key None (Some "Bearer s3cret") = "" \/
       api_key (auth guarded_settings) <> Some (provided_key None (Some "Bearer s3cret")))
  | Raise _ => exists key, api_key (auth guarded_settings) = Some key /\
                 is_ascii (provided_key None (Some "Bearer s3cret")) && is_ascii key = false
  | Diverged => False
  end.
Proof. apply auth_gate; [reflexivity|]. apply (bool_decide_unpack _). vm_compute. exact I. Defined.

(** ** The result of a task *)

Section replies.
Context (settings : GatewaySettings) `{Env} `{!ObjectStore}.

(** The stored bytes of the row's result. *)
Definition stored_result (w : World) (id : string) (data : list Byte.byte) : Prop :=
  exists t key, tasks w !! id = Some t /\ t_result_key t = Some key /\ objects w !! key = Some data.

Lemma fetch_result_wp id w :
  wp (fetch_result_or_none id)
    (fun o w' => same_data w w' /\ match o with Some data => stored_result w id data | None => True end)
    (fun _ w' => same_data w w') w.
Proof.
  unfold fetch_result_or_none, read_result. apply wp_try.
  assert (Hx : forall e w', same_data w w' ->
    wp (match e with KeyError _ => mret None | e => raise e end)
      (fun o w' => same_data w w' /\ match o with Some data => stored_result w id data | None => True end)
      (fun _ w' => same_data w w') w') by (intros [] w' Hd; first [exact Hd|by split]).
  wp_go; [|by apply Hx; repeat split]. destruct (tasks w !! id) as [t|] eqn:Et; [|by apply Hx; repeat split].
  destruct (t_result_key t) as [key|] eqn:Ek; [|by apply Hx; repeat split]. wp_go.
  destruct (store_get_data key (bump w)) as [_ Hd]. pose proof (store_get_spec key (bump w)) as Hs. unfold wp at 1.
  destruct (store_get key (bump w)) as [[data|e|] w1]; [|by apply Hx|done].
  wp_go. split; [done|]. by exists t, key.
Qed.


(** ** Synchronous parsing *)

Context `{!Elsewhere} `{!MinerUIntake} `{!Sha256}.

(** A row that was returned is complete and current, unless the polls ran out;
    no row means that it is gone. *)
Definition polled (id : string) (o : option Task) (w : World) : Prop :=
  match o with
  | None => tasks w !! id = None
  | Some r => if is_poll_complete r then tasks w !! id = Some r else True
  end.

Lemma poll_loop_wp n id last w :
  match last with None => n <> 0%nat | Some r => is_poll_complete r = false end ->
  wp (poll_loop n id last) (polled id) (fun _ _ => True) w.
Proof.
  revert last w; induction n as [|n IH]; intros last w Hl; cbn [poll_loop].
  - wp_go. destruct last as [r|]; [|done]. unfold polled. by rewrite Hl.
  - unfold load_task. wp_go; [|done]. destruct (tasks w !! id) as [r|] eqn:Er; [|by wp_go].
    destruct (is_poll_complete r) eqn:Ec; [wp_go; unfold polled; by rewrite Ec|].
    apply wp_bind. unfold wp at 1. destruct (elsewhere_returns (bump w)) as [w1 ->]. by apply IH.
Qed.

(** What a synchronous reply says about the task. *)
Definition reply_fits (id : string) (w : World) (reply : Reply) : Prop :=
  match reply with
  | ZipResponse data _ => stored_result w id data
  | JSONResponse status c =>
      (status = 409 /\ forall t, tasks w !! id = Some t -> t_status t ∈ FAILURE_STATUSES) \/
      (status = 404 /\ exists t, tasks w !! id = Some t /\ t_status t = TASK_COMPLETED) \/
      (status = 202 /\ ("task_id", JStr id) ∈ c)
  end.

Lemma reply_fits_stable id reply w w' : same_data w w' -> reply_fits id w reply -> reply_fits id w' reply.
Proof.
  intros (_ & Et & _ & _ & Eo & _). unfold reply_fits, stored_result. by rewrite Et, Eo.
Qed.

Lemma resolve_wp id o w : polled id o w ->
  wp (resolve_sync_result id o true)
    (fun r w' => same_data w w' /\ reply_fits id w match r with inl data => ZipResponse data None | inr reply => reply end)
    (fun _ w' => same_data w w') w.
Proof.
  unfold polled, resolve_sync_result, FAILURE_STATUSES. intros Hp. destruct o as [r|].
  2: { wp_go. split; [done|]. left. split; [done|]. intros t Ht. congruence. }
  destruct (t_status r ∈? _) eqn:Ef.
  { unfold is_poll_complete, FAILURE_STATUSES in Hp. rewrite Ef in Hp. wp_go. split; [done|]. left. split; [done|].
    bool_hyps. intros t Ht. destruct (_ && _) in Hp; rewrite Hp in Ht; by injection Ht as <-. }
  unfold try_fetch_result_bytes. cbn [negb orb].
  assert (Hrest : forall w1, same_data w w1 ->
    wp (if not_none (t_client_expired_at r) then mret (inr (client_sla_expired_response id (t_status r)))
        else if negb (is_poll_complete r) then
          mret (inr (JSONResponse 202 [("task_id", JStr id); ("status", JStr (t_status r));
                                       ("message", JStr "Result is not ready yet")]))
        else mret (inr (JSONResponse 404 [("detail", JStr "Result not yet stored")])))
      (fun r w' => same_data w w' /\ reply_fits id w match r with inl data => ZipResponse data None | inr reply => reply end)
      (fun _ w' => same_data w w') w1).
  { intros w1 Hd. destruct (not_none _) eqn:Ex; [wp_go; split; [done|]; right; right; split; [done|left]|].
    destruct (is_poll_complete r) eqn:Ec; cbn [negb]; wp_go; (split; [done|]); right.
    - left. split; [done|]. exists r. split; [done|]. unfold is_poll_complete, FAILURE_STATUSES in Ec.
      rewrite Ef, Ex in Ec. destruct (_ && _) eqn:E in Ec; [|done]. by bool_hyps.
    - right. split; [done|left]. }
  destruct (_ || _) eqn:E; [by wp_go; apply Hrest|]. apply wp_bind.
  eapply wp_mono; [apply fetch_result_wp| |done]. intros [data|] w1 [Hd Ho]; [by wp_go|by apply Hrest].
Qed.

(** C9: [file_parse] always ends, after at most 300 polls.  Whatever other
    processes do meanwhile, its reply is about the task it created: the stored
    bytes of that task's result, 409 only when the task failed, expired or is
    gone, 404 only when it is completed, and otherwise a 202 that names it. *)
Theorem file_parse_answers request source_items w :
  rq_form request = inl source_items -> uuids_distinct -> paths_unguessed settings request w ->
  wp (file_parse settings request true)
    (fun reply w' => exists id, tasks w !! id = None /\ reply_fits id w' reply)
    (fun _ _ => True) w.
Proof.
  intros Hf Hdis Hun. unfold file_parse. apply wp_bind, wp_lifted.
  destruct (check_admission settings request) as [[]|e|] eqn:Ea; [|done|].
  2: { unfold check_admission, check_file_size in Ea. repeat case_match; discriminate. }
  cbn [require_store]. apply wp_bind.
  eapply wp_mono; [by apply ingest_task_wp| |done]. intros r w1 (p & _ & _ & _ & _ & Ha).
  unfold accepted in Ha. cbv zeta in Ha |- *. set (id := ir_task_id r) in *. destruct Ha as (t & Hnew & _).
  assert (Hpoll : forall w2, wp (row ← poll_task_until_terminal id ;
      resolved ← resolve_sync_result id row true ;
      match resolved with inl data => mret (ZipResponse data None) | inr reply => mret reply end)
    (fun reply w' => exists id, tasks w !! id = None /\ reply_fits id w' reply) (fun _ _ => True) w2).
  { intros w2. apply wp_bind. eapply wp_mono; [by apply poll_loop_wp| |done]. intros o w3 Ho. apply wp_bind.
    eapply wp_mono; [by apply resolve_wp| |done]. intros x w4 [Hd Hfit]. apply (reply_fits_stable _ _ _ w4) in Hfit; [|done].
    destruct x; wp_go; by exists id. }
  apply wp_bind. destruct (ir_cache_hit r && true); [|by wp_go].
  eapply wp_mono; [apply fetch_result_wp| |done]. intros [data|] w2 [Hd Ho]; [|apply Hpoll].
  wp_go. exists id. split; [done|]. by apply (reply_fits_stable _ (ZipResponse data None) w1).
Qed.
End replies.

(** ** The whole way *)

(** While the gateway sleeps the scheduler makes a fast tick. *)
#[export] Program Instance demo_elsewhere : Elsewhere := {|
  elsewhere w := (Ok tt, (fast_tick demo_settings w).2) |}.
Next Obligation. eauto. Qed.

Definition gateway_demo : World := demo_world [demo_worker "cloud-1"] [] [] [].

Lemma gateway_paths_unguessed : paths_unguessed demo_settings demo_request gateway_demo.
Proof.
  intros s w' E n.
  assert (Hs : match stage_bounded_multipart_request demo_settings demo_request gateway_demo with
               | (Ok s, _) => st_files s = <["a__upload_2.pdf" := []]> (<["a.pdf" := demo_body]> ∅)
               | _ => False end) by (vm_compute; reflexivity).
  rewrite E in Hs. rewrite Hs, !lookup_insert_ne by done. apply lookup_empty.
Qed.

(** A parse that waits for the scheduler gets the worker's bytes; a second one
    is served from the cache. *)
Example file_parse_run :
  let '(first, w1) := file_parse demo_settings demo_request true gateway_demo in
  let '(second, w2) := file_parse demo_settings demo_request true w1 in
  (first, second, size (tasks w2), size (cache_entries w2)) =
  (Ok (ZipResponse demo_body None), Ok (ZipResponse demo_body None), 2%nat, 1%nat).
Proof. vm_compute. reflexivity. Qed.

Example result_route_run :
  let w := demo_world [] [demo_task "done" [T_status TASK_COMPLETED; T_completed_at (Some 5);
             T_result_key (Some "results/done.zip")]] [] [("results/done.zip", demo_body)] in
  match get_task_result "done" true w with
  | (Ok (ZipResponse data (Some "done.zip")), _) => data = demo_body
  | _ => False
  end.
Proof. vm_compute. reflexivity. Qed.

Lemma file_parse_answers_witness :
  wp (file_parse demo_settings demo_request true)
    (fun reply w' => exists id, tasks gateway_demo !! id = None /\ reply_fits id w' reply)
    (fun _ _ => True) gateway_demo.
Proof.
  apply (file_parse_answers demo_settings demo_request demo_items);
    [reflexivity|exact demo_uuids_distinct|exact gateway_paths_unguessed].
Defined.
