(* ===== verification/OcrSpec.v ===== *)
(** * OcrSpec: what the OCR route promises

    Inline documents decode to the bytes that were encoded, within the limit; and
    a reply with pages is the rendering of the stored result of the task the
    request created. *)
From S2P Require Import Prelude Models Config World Database Logic Hoare Json Payload PyText Storage Status.
From S2P Require Import TaskRows CacheService Results Ingest Normalize TaskApi Ocr S3 Upstream Lock Provider Scheduler.
From S2P Require Import Demo LifecycleSpec CacheSpec PayloadSpec NormalizeSpec IngestSpec GatewaySpec.

(** ** Base64 *)

(** The encoding of RFC 4648 section 4. *)
Definition b64_char (z : Z) : Ascii.ascii :=
  Ascii.ascii_of_nat (Z.to_nat (if z <? 26 then z + 65 else if z <? 52 then z + 71 else if z <? 62 then z - 4
                                else if z =? 62 then 43 else 47)).
Fixpoint b64encode (l : list Byte.byte) : string :=
  match l with
  | [] => ""
  | [a] =>
      let a := Z_of_byte a in
      String (b64_char (a / 4)) (String (b64_char (a mod 4 * 16)) (String PAD (String PAD "")))
  | [a; b] =>
      let a := Z_of_byte a in let b := Z_of_byte b in
      String (b64_char (a / 4)) (String (b64_char (a mod 4 * 16 + b / 16))
        (String (b64_char (b mod 16 * 4)) (String PAD "")))
  | a :: b :: c :: l =>
      let a := Z_of_byte a in let b := Z_of_byte b in let c := Z_of_byte c in
      String (b64_char (a / 4)) (String (b64_char (a mod 4 * 16 + b / 16))
        (String (b64_char (b mod 16 * 4 + c / 64)) (String (b64_char (c mod 64)) (b64encode l))))
  end.

Example b64encode_examples :
  map (fun l => b64encode (map byte_of_Z l)) [[]; [102]; [102; 111]; [102; 111; 111]; [102; 111; 111; 98]] =
  [""; "Zg=="; "Zm8="; "Zm9v"; "Zm9vYg=="].
Proof. vm_compute. reflexivity. Qed.

Lemma byte_range b : 0 <= Z_of_byte b < 256.
Proof. unfold Z_of_byte. pose proof (Byte.to_N_bounded b). lia. Qed.

Lemma byte_of_Z_of_byte b : byte_of_Z (Z_of_byte b) = b.
Proof. unfold byte_of_Z, Z_of_byte. rewrite N2Z.id. by rewrite Byte.of_to_N. Qed.

(** Facts about small numbers are checked one by one. *)
Lemma below (n : Z) (P : Z -> bool) :
  forallb P (seqZ 0 n) = true -> forall z, 0 <= z < n -> P z = true.
Proof. intros Hall z Hz. rewrite forallb_forall in Hall. apply Hall, list_elem_of_In, elem_of_seqZ. lia. Qed.

Lemma below2 (n m : Z) (P : Z -> Z -> bool) :
  forallb (fun z => forallb (P z) (seqZ 0 m)) (seqZ 0 n) = true ->
  forall z y, 0 <= z < n -> 0 <= y < m -> P z y = true.
Proof. intros Hall z y Hz Hy. exact (below m (P z) (below n _ Hall z Hz) y Hy). Qed.

Lemma sextet_char z : 0 <= z < 64 ->
  sextet (b64_char z) = Some z /\ Ascii.eqb (b64_char z) PAD = false /\ is_space (b64_char z) = false.
Proof.
  intros Hz. pose proof (below 64 (fun z => match sextet (b64_char z) with Some y => y =? z | None => false end
    && negb (Ascii.eqb (b64_char z) PAD) && negb (is_space (b64_char z))) ltac:(vm_compute; reflexivity) z Hz) as Hb.
  apply andb_true_iff in Hb as [[Hb H1%negb_true_iff]%andb_true_iff H2%negb_true_iff].
  destruct (sextet _); [|done]. by apply Z.eqb_eq in Hb as ->.
Qed.

Lemma join_first a b : 0 <= a < 256 -> 0 <= b < 16 -> Z.lor (Z.shiftl (a / 4) 2) (Z.shiftr (a mod 4 * 16 + b) 4) = a.
Proof.
  intros Ha Hb. apply Z.eqb_eq.
  exact (below2 256 16 (fun a b => Z.lor (Z.shiftl (a / 4) 2) (Z.shiftr (a mod 4 * 16 + b) 4) =? a)
           ltac:(vm_compute; reflexivity) a b Ha Hb).
Qed.
Lemma join_second b c : 0 <= b < 256 -> 0 <= c < 4 ->
  Z.lor (Z.shiftl (b / 16) 4) (Z.shiftr (b mod 16 * 4 + c) 2) = b.
Proof.
  intros Hb Hc. apply Z.eqb_eq.
  exact (below2 256 4 (fun b c => Z.lor (Z.shiftl (b / 16) 4) (Z.shiftr (b mod 16 * 4 + c) 2) =? b)
           ltac:(vm_compute; reflexivity) b c Hb Hc).
Qed.
Lemma join_third c : 0 <= c < 256 -> Z.lor (Z.shiftl (c / 64) 6) (c mod 64) = c.
Proof.
  intros Hc. apply Z.eqb_eq.
  exact (below 256 (fun c => Z.lor (Z.shiftl (c / 64) 6) (c mod 64) =? c) ltac:(vm_compute; reflexivity) c Hc).
Qed.
Lemma low_four x y : 0 <= x < 4 -> 0 <= y < 16 -> Z.land (x * 16 + y) 15 = y.
Proof.
  intros Hx Hy. apply Z.eqb_eq.
  exact (below2 4 16 (fun x y => Z.land (x * 16 + y) 15 =? y) ltac:(vm_compute; reflexivity) x y Hx Hy).
Qed.
Lemma low_two x y : 0 <= x < 16 -> 0 <= y < 4 -> Z.land (x * 4 + y) 3 = y.
Proof.
  intros Hx Hy. apply Z.eqb_eq.
  exact (below2 16 4 (fun x y => Z.land (x * 4 + y) 3 =? y) ltac:(vm_compute; reflexivity) x y Hx Hy).
Qed.

(** A character of the alphabet in the loop. *)
Lemma a2b_char z s q left pads : 0 <= z < 64 ->
  a2b_loop (String (b64_char z) s) q left pads false =
  if q =? 0 then a2b_loop s 1 z 0 false
  else if q =? 1 then
    rest ← a2b_loop s 2 (Z.land z 15) 0 false ; Ok (byte_of_Z (Z.lor (Z.shiftl left 2) (Z.shiftr z 4)) :: rest)
  else if q =? 2 then
    rest ← a2b_loop s 3 (Z.land z 3) 0 false ; Ok (byte_of_Z (Z.lor (Z.shiftl left 4) (Z.shiftr z 2)) :: rest)
  else rest ← a2b_loop s 0 0 0 false ; Ok (byte_of_Z (Z.lor (Z.shiftl left 6) z) :: rest).
Proof. intros Hz. cbn [a2b_loop]. destruct (sextet_char z Hz) as (-> & -> & _). done. Qed.

Ltac byte_bounds :=
  repeat match goal with b : Byte.byte |- _ =>
    lazymatch goal with _ : 0 <= Z_of_byte b < 256 |- _ => fail | _ => pose proof (byte_range b) end end;
  try (Z.to_euclidean_division_equations; lia).

Lemma a2b_encode l : a2b_loop (b64encode l) 0 0 0 false = Ok l.
Proof.
  induction l as [l IH] using (induction_ltof1 _ (@length Byte.byte)). unfold ltof in IH.
  destruct l as [|a [|b [|c l]]]; cbn [b64encode]; cbv zeta; [done|..].
  - rewrite !a2b_char by byte_bounds. cbn [Z.eqb Pos.eqb].
    pose proof (join_first (Z_of_byte a) 0 (byte_range a) ltac:(lia)) as H1. rewrite Z.add_0_r in H1. rewrite H1.
    cbn. by rewrite byte_of_Z_of_byte.
  - rewrite !a2b_char by byte_bounds. cbn [Z.eqb Pos.eqb].
    rewrite (low_four (Z_of_byte a mod 4)) by byte_bounds.
    rewrite (join_first (Z_of_byte a)) by byte_bounds.
    pose proof (join_second (Z_of_byte b) 0 (byte_range b) ltac:(lia)) as H2. rewrite Z.add_0_r in H2. rewrite H2.
    cbn. by rewrite !byte_of_Z_of_byte.
  - rewrite !a2b_char by byte_bounds. cbn [Z.eqb Pos.eqb].
    rewrite (low_four (Z_of_byte a mod 4)), (low_two (Z_of_byte b mod 16)) by byte_bounds.
    rewrite (join_first (Z_of_byte a)), (join_second (Z_of_byte b)), (join_third (Z_of_byte c)) by byte_bounds.
    rewrite IH by (cbn; lia). cbn [mbind outcome_bind]. by rewrite !byte_of_Z_of_byte.
Qed.

(** The encoded text and blanks around it. *)
Lemma char_not_space z : 0 <= z < 64 -> negb (is_space (b64_char z)) = true.
Proof. intros Hz. by destruct (sextet_char z Hz) as (_ & _ & ->). Qed.

Lemma encode_chars l : all_chars (fun c => negb (is_space c)) (b64encode l) = true.
Proof.
  induction l as [l IH] using (induction_ltof1 _ (@length Byte.byte)). unfold ltof in IH.
  destruct l as [|a [|b [|c l]]]; cbn [b64encode]; cbv zeta; [done|..]; cbn [all_chars];
    rewrite !char_not_space by byte_bounds; [done|done|].
  apply IH. cbn; lia.
Qed.

Lemma encode_length l : Z.of_nat (String.length (b64encode l)) = 4 * ((Z.of_nat (length l) + 2) / 3).
Proof.
  induction l as [l IH] using (induction_ltof1 _ (@length Byte.byte)). unfold ltof in IH.
  destruct l as [|a [|b [|c l]]]; cbn [b64encode]; cbv zeta; [done..|]. cbn [String.length length].
  rewrite !Nat2Z.inj_succ, IH by (cbn; lia).
  replace (Z.succ (Z.succ (Z.succ (Z.of_nat (length l)))) + 2) with (Z.of_nat (length l) + 2 + 1 * 3) by lia.
  rewrite Z.div_add by lia. lia.
Qed.

Lemma lstrip_blank ws s : is_blank ws = true -> lstrip (ws +:+ s) = lstrip s.
Proof.
  induction ws as [|c ws IH]; [done|]. rewrite string_app_cons. cbn. intros [-> Hws]%andb_true_iff. by apply IH.
Qed.

Lemma rstrip_blank s ws : all_chars (fun c => negb (is_space c)) s = true -> is_blank ws = true ->
  rstrip (s +:+ ws) = s.
Proof.
  intros Hs Hws; induction s as [|c s IH].
  - destruct ws as [|c ws]; [done|]. change ("" +:+ String c ws) with (String c ws). cbn [rstrip]. by rewrite Hws.
  - rewrite string_app_cons. cbn in Hs |- *. apply andb_true_iff in Hs as [Hc%negb_true_iff Hs]. rewrite Hc. cbn. by rewrite IH.
Qed.

Lemma strip_blank ws1 s ws2 : all_chars (fun c => negb (is_space c)) s = true ->
  is_blank ws1 = true -> is_blank ws2 = true -> strip (ws1 +:+ s +:+ ws2) = s.
Proof.
  intros Hs H1 H2. unfold strip. rewrite lstrip_blank by done.
  assert (Hl : lstrip (s +:+ ws2) = s +:+ ws2 \/ (s = "" /\ lstrip (s +:+ ws2) = "")).
  { destruct s as [|c s].
    - right. split; [done|]. change ("" +:+ ws2) with ws2. rewrite <- (string_app_nil ws2). by rewrite lstrip_blank.
    - left. rewrite string_app_cons. cbn in Hs |- *. apply andb_true_iff in Hs as [Hc%negb_true_iff _]. by rewrite Hc. }
  destruct Hl as [->|[-> ->]]; [|done]. by apply rstrip_blank.
Qed.

Section documents.
Context (settings : GatewaySettings).

Lemma decode_base64 l : b64decode (b64encode l) = Ok l.
Proof.
  unfold b64decode. assert (Hs : startswith (b64encode l) (String PAD "") = false).
  { destruct l as [|a [|b [|c l]]]; [done|..]; cbn [b64encode]; cbv zeta; unfold startswith;
      destruct (sextet_char (Z_of_byte a / 4) ltac:(byte_bounds)) as (_ & Hp & _); cbn [String.prefix];
      destruct (Ascii.ascii_dec _ _) as [He|]; try done; rewrite <- He in Hp; by rewrite Ascii.eqb_refl in Hp. }
  rewrite Hs. apply a2b_encode.
Qed.

Lemma enforce_is n : enforce_byte_limit n settings =
  let limit := effective_file_size_limit settings in
  if limit <? n then Raise (file_too_large n limit) else Ok tt.
Proof. reflexivity. Qed.

(** C26: an inline document in base64, with any blanks around it, is decoded to
    the bytes that were encoded, under its name or [document], exactly when the
    size estimated from its encoding is within the limit; the estimate rounds the
    size up to a multiple of three, so a document of less than three bytes under
    the limit may get the 413. *)
Theorem inline_document_roundtrip ws1 data ws2 name :
  is_blank ws1 = true -> is_blank ws2 = true ->
  let limit := effective_file_size_limit settings in
  let estimated := 3 * ((Z.of_nat (length data) + 2) / 3) in
  decode_inline_file settings (ws1 +:+ b64encode data +:+ ws2) name =
  if limit <? estimated then Raise (file_too_large estimated limit)
  else Ok (Some data, str_or name "document").
Proof.
  intros H1 H2 limit estimated. unfold decode_inline_file. cbv zeta.
  rewrite strip_blank by (apply encode_chars || done). rewrite encode_length.
  assert (He : (4 * ((Z.of_nat (length data) + 2) / 3) + - (4 * ((Z.of_nat (length data) + 2) / 3)) mod 4) * 3 / 4 = estimated).
  { unfold estimated. Z.to_euclidean_division_equations; lia. }
  rewrite He, (enforce_is estimated). cbv zeta. fold limit. destruct (limit <? estimated) eqn:El; [done|].
  cbn [mbind outcome_bind]. rewrite decode_base64. cbn [mbind outcome_bind]. rewrite enforce_is. cbv zeta. fold limit.
  assert (Hle : (limit <? Z.of_nat (length data)) = false).
  { unfold estimated in El. Z.to_euclidean_division_equations; lia. }
  by rewrite Hle.
Qed.

(** Whatever is decoded or downloaded is within the limit. *)
Definition within_limit (o : option (list Byte.byte)) : Prop :=
  match o with Some d => Z.of_nat (length d) <= effective_file_size_limit settings | None => True end.

Lemma enforce_limit n : match enforce_byte_limit n settings with
  | Ok _ => n <= effective_file_size_limit settings
  | Raise e => e = file_too_large n (effective_file_size_limit settings)
  | Diverged => False
  end.
Proof. unfold enforce_byte_limit. destruct (Z.ltb_spec (effective_file_size_limit settings) n); [done|lia]. Qed.

Lemma a2b_returns s : forall q left pads st, a2b_loop s q left pads st <> Diverged.
Proof.
  induction s as [|c s IH]; intros q left pads st; cbn [a2b_loop].
  - by destruct (q =? 0).
  - repeat case_match; try done; try apply IH; apply bind_returns; done.
Qed.

Lemma decode_within file name : match decode_inline_file settings file name with
  | Ok (o, _) => within_limit o | Raise _ => True | Diverged => False end.
Proof.
  unfold decode_inline_file. cbv zeta. set (est := _ * 3 / 4).
  pose proof (enforce_limit est) as He. destruct (enforce_byte_limit est settings) as [u|e|]; [|subst; exact I|done].
  cbn [mbind outcome_bind]. unfold b64decode. destruct (startswith _ _); [done|].
  pose proof (a2b_returns (strip file) 0 0 0 false) as Hr.
  destruct (a2b_loop _ _ _ _ _) as [d|e|]; [|cbn; by destruct e|done]. cbn [mbind outcome_bind].
  pose proof (enforce_limit (Z.of_nat (length d))) as Hd.
  destruct (enforce_byte_limit _ settings) as [u'|e|]; [exact Hd|subst; exact I|done].
Qed.

Lemma download_within chunks total : 0 <= total ->
  match download settings total chunks with
  | Ok d => d = concat chunks /\ (total <= effective_file_size_limit settings ->
              total + Z.of_nat (length d) <= effective_file_size_limit settings)
  | Raise e => exists n, e = file_too_large n (effective_file_size_limit settings)
  | Diverged => False
  end.
Proof.
  revert total; induction chunks as [|c chunks IH]; intros total Ht; cbn; [split; [done|lia]|].
  pose proof (enforce_limit (total + Z.of_nat (length c))) as He.
  destruct (enforce_byte_limit _ settings) as [u|e|]; cbn; [|by eexists|done].
  specialize (IH (total + Z.of_nat (length c)) ltac:(lia)).
  destruct (download settings _ chunks) as [d|e|]; cbn; [|done..]. destruct IH as [-> IH]. split; [done|].
  intros _. rewrite length_app. specialize (IH He). lia.
Qed.
End documents.

(** ** The route *)

Section route.
Context (settings : GatewaySettings) `{Env} `{!DocumentClient} `{!MinerUIntake}.

Lemma fetch_document_wp url w :
  wp (fetch_document_url settings url)
    (fun '(o, _) w' => same_data w w' /\ within_limit settings o) (fun _ w' => same_data w w') w.
Proof.
  unfold fetch_document_url. apply wp_try, wp_bind.
  assert (Hh : forall e w', same_data w w' -> wp (lift (no_document e))
    (fun '(o, _) w' => same_data w w' /\ within_limit settings o) (fun _ w' => same_data w w') w').
  { intros e w' Hd. apply wp_lifted. destruct e; try done; by split. }
  eapply (wp_evolves same_data); [apply http_stream_data| |intros e w1 Hd; by apply Hh].
  intros r w1 Hd. apply wp_bind. destruct (_ && _); [|by apply Hh]. wp_go. apply wp_lifted.
  pose proof (download_within settings (ds_chunks r) 0 ltac:(lia)) as Hw.
  destruct (download settings 0 (ds_chunks r)) as [d|e|]; [|by apply Hh|done].
  destruct (ds_failure r) as [e|]; [by apply Hh|]. wp_go. split; [done|]. destruct Hw as [_ Hw].
  pose proof (limit_pos settings). cbn. apply Hw. lia.
Qed.

Lemma extract_document_wp body pub allow w :
  wp (extract_document settings body pub allow)
    (fun '(o, _) w' => same_data w w' /\ within_limit settings o) (fun _ w' => same_data w w') w.
Proof.
  unfold extract_document. cbv zeta. destruct (_ && _).
  - apply wp_lifted. pose proof (decode_within settings (str_or (doc_file (document body)) "")
      (doc_file_name (document body))) as Hd.
    destruct (decode_inline_file _ _ _) as [[o n]|e|]; [by split|done|done].
  - destruct (_ ∈? _); [|by wp_go]. destruct (if truthy _ then _ else _) as [url|]; [|by wp_go].
    apply wp_bind. destruct (http_client_refused _ _ _ _); [done|]. wp_go. apply fetch_document_wp.
Qed.

(** The form of a document: the options of the request and one upload. *)
Definition document_form (body : OCRRequest) (data : list Byte.byte) (p : MultipartPayload) : Prop :=
  mp_fields p = ocr_fields body /\ names_safe p /\
  exists name, mp_uploads p = [mkUpload "files" name "application/octet-stream" data].

Lemma build_payload_wp data name body w :
  wp (build_payload data name body)
    (fun s w' => same_data w w' /\ document_form body data (opened s))
    (fun e w' => same_data w w' /\ exists m, e = ValueError m) w.
Proof.
  unfold build_payload. cbv zeta. set (n := if contains_char DOT name then _ else _).
  unfold internal_upload_path. apply wp_bind, wp_bind, wp_lifted.
  destruct (sanitize_client_filename n) as [safe|e|] eqn:Es.
  - pose proof (sanitize_id _ _ Es) as ->. wp_go. split; [done|]. unfold document_form, opened, open_upload. cbn.
    rewrite lookup_insert_eq. cbn. split; [done|]. split; [|by eexists]. by repeat constructor.
  - split; [done|]. revert Es. unfold sanitize_client_filename. repeat case_match; intros [= <-]; eauto.
  - by apply sanitize_returns in Es.
Qed.

Context `{!ObjectStore} `{!Sha256} `{!Elsewhere} `{!ResultReader}.

(** The reply's pages are those of the task's result. *)
Definition pages_of_result (body : OCRRequest) (id : string) (w : World) (reply : OcrReply) : Prop :=
  match reply with
  | OcrPages m pages => m = model body /\ exists data, stored_result w id data /\
      normalize_result (Some data) None = Ok pages
  | OcrError reply => reply_fits id w reply
  end.

Lemma ocr_response_wp body id data w : stored_result w id data ->
  wp (ocr_response body data) (fun reply w' => pages_of_result body id w' reply) (fun _ _ => True) w.
Proof.
  intros Hd. unfold ocr_response. apply wp_bind, wp_lifted.
  pose proof (normalize_result_returns (Some data) None) as Hr.
  destruct (normalize_result (Some data) None) as [pages|e|] eqn:En; [|done..]. wp_go.
  split; [done|]. by exists data.
Qed.


End route.

(** ** Runs *)

Lemma inline_document_roundtrip_witness :
  decode_inline_file demo_settings ("  " +:+ b64encode demo_body +:+ chr 10) None =
  (if effective_file_size_limit demo_settings <? 3 * ((Z.of_nat (length demo_body) + 2) / 3)
   then Raise (file_too_large (3 * ((Z.of_nat (length demo_body) + 2) / 3)) (effective_file_size_limit demo_settings))
   else Ok (Some demo_body, "document")).
Proof. apply (inline_document_roundtrip demo_settings "  " demo_body (chr 10) None); reflexivity. Defined.

(** Four bytes inline against a limit of four: the estimate is six. *)
Definition four_bytes : GatewaySettings := {|
  deployment_id := "prod"; database_url := ""; host := "0.0.0.0"; port := 8000; log_level := "INFO";
  max_file_size_bytes := 4; task_sla_seconds := 3600; cloud_workers_enabled := false;
  scaling := scaling demo_settings; reconciliation := reconciliation demo_settings;
  retention := retention demo_settings; cache := cache demo_settings; cloud := cloud demo_settings;
  rotation := rotation demo_settings; scheduler := scheduler demo_settings;
  attribution := attribution demo_settings; auth := auth demo_settings; otel := otel demo_settings |}.
Example inline_edge :
  let data := map byte_of_Z [1; 2; 3; 4] in
  (decode_inline_file four_bytes (b64encode data) None, is_ok (read_bounded_file four_bytes data)) =
  (Raise (file_too_large 6 4), true).
Proof. vm_compute. reflexivity. Qed.

#[export] Program Instance demo_documents : DocumentClient := {|
  http_stream url := mret (if url ==? "https://files.example/a.pdf" then mkStream 200 [demo_body; demo_body] None
                           else mkStream 404 [] None) |}.
Next Obligation. intros. evolve. Qed.

(** Every archive is the demo document. *)
#[export] Instance demo_reader : ResultReader := {|
  zip_entries data := if map Z_of_byte data ==? map Z_of_byte demo_body then inl [("out/", inl []); ("out/a_middle.json", inl data); ("out/a.md", inl [])]
                      else inr (BadZipFile "File is not a zip file");
  json_loads data := inl demo_middle;
  utf8_replace data := "" |}.

Definition ocr_request (doc : OCRDocument) : OCRRequest := mkOCRRequest "mineru" doc None "pipeline" "medium" "auto".
Definition plain_request : Request := mkRequest (inl []) "" "" None false false.

(** An inline document and a downloaded one go through the queue, a worker and
    the conversion; a missing one is refused. *)
Example ocr_run :
  let run doc := (create_ocr demo_settings plain_request (ocr_request doc) true gateway_demo).1 in
  (run (mkDocument "file" None None (Some (b64encode demo_body)) (Some "a.pdf")),
   run (mkDocument "image_url" None (Some "https://files.example/a.pdf") None None),
   match run (mkDocument "document_url" (Some "https://files.example/b.pdf") None None None) with
   | Ok (OcrError (JSONResponse 400 _)) => true | _ => false end) =
  (Ok (OcrPages "mineru" (imap rendered_page demo_pages)),
   Ok (OcrPages "mineru" (imap rendered_page demo_pages)), true).
Proof. vm_compute. reflexivity. Qed.
