(* ===== verification/StartupSpec.v ===== *)
(** * StartupSpec: what start-up and the EC2 provider promise

    A process serves only a configuration that is safe and a database that is
    its own; the EC2 provider reports only VMs of the deployment, and its errors
    are those the scheduler handles. *)
From S2P Require Import Prelude Models CloudTypes Config World Database Logic Hoare Json Payload PyText Storage S3.
From S2P Require Import Status TaskRows Upstream WorkerRepository Lock Provider Ec2 Health Reconcile Startup Demo IngestSpec.

(** ** Start-up *)

Section startup.
Context (settings : GatewaySettings) `{Env} `{!MinerURelease} `{!S3Client} `{!SsmClient}.

(** The store and the provider that the configuration names. *)
Definition configured_store : S3ObjectStore.t :=
  S3ObjectStore.mkS3ObjectStore (bucket (aws (cloud settings))) (endpoint_url (aws (cloud settings)))
    (region (aws (cloud settings))).
Definition configured_provider (c : CloudConfig) : AwsEc2Provider :=
  mkAwsEc2Provider (region (aws (cloud settings))) (ec2_endpoint_url (aws (cloud settings))) (Some c)
    (deployment_id settings).

(** What every started process relies on. *)
Record startup_ok (w : World) : Prop := {
  so_deployment : is_blank (deployment_id settings) = false;
  so_bucket : is_object_store_configured (cloud settings) = true;
  so_provider : cloud_provider (cloud settings) = "aws";
  so_key : auth_enabled (auth settings) = true -> truthy (api_key (auth settings)) = true;
  so_template : cloud_workers_enabled settings = true ->
                truthy (launch_template_id (aws (cloud settings))) = true;
  so_owner : forall id r, workers w !! id = Some r -> w_terminated_at r = None ->
             w_provider r = cloud_provider (cloud settings)
}.

Lemma resolve_ssm_spec value region :
  match resolve_ssm_reference value region with Ok v => v <> "" | Raise _ => True | Diverged => False end.
Proof. unfold resolve_ssm_reference. repeat case_match; bool_hyps; simplify_eq; done. Qed.

(** Both registries know one name. *)
Lemma assoc_aws {A} (x : A) k : assoc k [("aws", x)] = if k ==? "aws" then Some x else None.
Proof. reflexivity. Qed.

Lemma get_provider_aws : cloud_provider (cloud settings) = "aws" ->
  get_provider (Some (cloud_provider (cloud settings))) settings =
  (c ← resolve_cloud_config (cloud settings) ; Ok (configured_provider c)).
Proof. intros Hp. unfold get_provider. by rewrite str_or_self, Hp. Qed.

Lemma init_store_wp w :
  wp (init_store settings true)
    (fun o w' => same_data w w' /\ o = Some configured_store /\ cloud_provider (cloud settings) = "aws" /\
       S3ObjectStore.store_bucket configured_store <> "")
    (fun _ w' => same_data w w') w.
Proof.
  unfold init_store. destruct (is_object_store_configured _) eqn:Eo; cbn [negb]; [|done].
  apply wp_bind, wp_lifted. unfold get_store, STORE_FACTORIES. rewrite str_or_self, assoc_aws.
  destruct (_ ==? "aws") eqn:Ep; [|done]. bool_hyps. wp_go.
  eapply (wp_evolves same_data); [|intros u w1 Hd|done].
  - unfold S3ObjectStore.prepare. evolve. apply s3_head_bucket_data.
  - wp_go. split_and!; try done. intros E. unfold is_object_store_configured, object_store_bucket in Eo.
    cbn in E. by rewrite E in Eo.
Qed.

Lemma ownership_wp w :
  wp (validate_worker_provider_ownership settings)
    (fun _ w' => same_data w w' /\ forall id r, workers w !! id = Some r -> w_terminated_at r = None ->
       w_provider r = cloud_provider (cloud settings))
    (fun _ w' => same_data w w') w.
Proof.
  unfold validate_worker_provider_ownership. wp_go; [|by repeat split]. apply wp_select. intros l Hl _.
  destruct l as [|r l]; [|wp_go; by repeat split]. wp_go. split; [by repeat split|].
  intros id r Hr Ht. destruct (decide (w_provider r = cloud_provider (cloud settings))) as [|Hne]; [done|].
  exfalso.
  assert (Hin : r ∈ List.filter (foreign_clause settings) (map_to_list (workers w)).*2).
  { apply list_elem_of_In, filter_In. split.
    - apply list_elem_of_In, list_elem_of_fmap. exists (id, r). split; [done|]. by apply elem_of_map_to_list.
    - unfold foreign_clause. rewrite Ht. cbn. by rewrite bool_decide_false. }
  cbn in Hl. rewrite <- Hl in Hin. by apply not_elem_of_nil in Hin.
Qed.

Lemma dependencies_wp w :
  cloud_provider (cloud settings) = "aws" ->
  wp (validate_startup_dependencies settings (Some configured_store))
    (fun _ w' => same_data w w' /\ startup_ok w) (fun _ w' => same_data w w') w.
Proof.
  intros Hp. unfold validate_startup_dependencies. apply wp_bind, wp_lifted.
  destruct validate_mineru_compat eqn:Ev; [|done|].
  2: { unfold validate_mineru_compat in Ev. repeat case_match; discriminate. }
  destruct (is_blank _) eqn:Eb; [done|]. destruct (is_object_store_configured _) eqn:Eo; [|done]. cbn [negb].
  destruct (_ && (_ ==? [])) eqn:Ek; [done|]. destruct (_ && (_ && _)) eqn:Et; [done|].
  eapply wp_mono; [apply ownership_wp| |done]. intros u w1 [Hd Hown]. split; [done|]. split; try done.
  - intros Ha. rewrite Ha in Ek. unfold resolved_keys in Ek. destruct (api_key (auth settings)) as [k|]; [|done].
    cbn. by destruct (k ==? "").
  - intros Hc. rewrite Hc, Hp in Et. by apply negb_false_iff.
Qed.


(** A scheduler that starts with cloud workers enabled has a provider with a
    launch template, resolved through SSM if it was a reference, and one that
    starts without has none; its database is its own. *)
Lemma scheduler_startup_wp w :
  wp (scheduler_startup settings)
    (fun o w' => same_data w w' /\ startup_ok w /\
       match o with
       | Some p => cloud_workers_enabled settings = true /\
           exists c, p = configured_provider c /\ cloud_provider c = "aws" /\
             truthy (launch_template_id (aws c)) = true /\
             (is_ssm_reference (launch_template_id (aws (cloud settings))) = false -> c = cloud settings)
       | None => cloud_workers_enabled settings = false
       end)
    (fun _ w' => same_data w w') w.
Proof.
  unfold scheduler_startup. apply wp_bind. eapply wp_mono; [apply init_store_wp| |done].
  intros b w1 (Hd & -> & Hp & _). cbn [negb]. apply wp_bind.
  eapply wp_mono; [by apply dependencies_wp| |intros e w2 Hd2; by transitivity w1].
  intros u w2 [Hd2 Hok]. assert (Hok0 : startup_ok w).
  { destruct Hok; split; try done. destruct Hd as (Ew & _). by rewrite <- Ew. }
  assert (Hd3 : same_data w w2) by (by transitivity w1). clear Hd Hd2 Hok.
  apply wp_bind, wp_lifted. unfold init_provider.
  destruct (cloud_workers_enabled settings) eqn:Ec; cbn [negb]; [|by wp_go].
  pose proof (so_template _ Hok0 Ec) as Ht.
  rewrite get_provider_aws by done.
  unfold resolve_cloud_config. destruct (launch_template_id (aws (cloud settings))) as [t|] eqn:El; [|done].
  destruct (is_ssm_reference (Some t)) eqn:Er; cbn [negb mbind outcome_bind].
  2: { wp_go. split_and!; try done. exists (cloud settings). split_and!; [done..|by rewrite El|done]. }
  pose proof (resolve_ssm_spec t (region (aws (cloud settings)))) as Hr.
  destruct (resolve_ssm_reference _ _) as [v|e|]; cbn; [|done..]. wp_go. split_and!; try done.
  eexists. split_and!; try done. cbn. by rewrite bool_decide_false.
Qed.
End startup.

(** ** The EC2 provider *)

Create HintDb ec2.

Section classified.

(** No [ClientError] gets out of the call. *)
Definition classified {A} (m : M A) : Prop :=
  forall w e w', m w = (Raise e, w') -> forall code message, e <> ClientError code message.

Lemma classified_bind {A B} (m : M A) (f : A -> M B) :
  classified m -> (forall a, classified (f a)) -> classified (m ≫= f).
Proof.
  intros Hm Hf w e w'. rewrite bind_unfold. destruct (m w) as [[a|e1|] w1] eqn:E; [apply Hf| |done].
  intros [= <- <-]. by eapply Hm.
Qed.

Lemma classified_ret {A} (a : A) : classified (mret a).
Proof. by intros w e w'. Qed.

Lemma classified_raise {A} e : (forall code message, e <> ClientError code message) -> classified (@raise A e).
Proof. intros He w e' w' [= <- <-]. exact He. Qed.

Lemma classified_ec2_error {A} code message : classified (@raise_ec2_error A code message).
Proof. apply classified_raise. unfold classify_ec2_error. by destruct (dict_get _ _ _). Qed.

Lemma classified_except {A} (m : M A) h :
  (forall code message, classified (h code message)) -> classified (except_client_error m h).
Proof.
  intros Hh w e w'. unfold except_client_error, try_. destruct (m w) as [[a|e1|] w1]; [done| |done].
  destruct e1; try (intros [= <- <-]; done). apply Hh.
Qed.

Lemma classified_if {A} (b : bool) (m1 m2 : M A) :
  classified m1 -> classified m2 -> classified (if b then m1 else m2).
Proof. by destruct b. Qed.
End classified.
#[export] Hint Resolve classified_bind classified_ret classified_ec2_error classified_except classified_if : ec2.

Section provider.
Context (cloud : option CloudConfig) `{Ec2Client}.

Lemma classified_describe i : classified (describe_instance i).
Proof. unfold describe_instance. auto with ec2. Qed.
Hint Resolve classified_describe : ec2.

Lemma classified_get_state i : classified (ec2_get_state i).
Proof. unfold ec2_get_state. auto with ec2. Qed.
Hint Resolve classified_get_state : ec2.

Lemma classified_launch id d g : classified (ec2_launch cloud id d g).
Proof.
  unfold ec2_launch. destruct cloud as [c|]; [|by apply classified_raise].
  destruct (launch_template c) as [[t v] r]. apply classified_if; [by apply classified_raise|].
  apply classified_bind; [auto with ec2|]. intros [|i ids]; [by apply classified_raise|auto with ec2].
Qed.

(** Every operation of the EC2 provider raises a classified [CloudError] where
    the client raises a [ClientError], so the scheduler's handlers see it; the
    client's other exceptions pass. *)
Theorem ec2_errors_are_classified i worker_id d g :
  classified (cloud_start i) /\ classified (cloud_stop i) /\ classified (cloud_terminate i) /\
  classified (cloud_get_state i) /\ classified (cloud_get_private_ip i) /\
  classified (cloud_discover d) /\ classified (cloud_launch (ComputeProvider := ec2_provider cloud) worker_id d g).
Proof.
  cbn. unfold ec2_start, ec2_stop, ec2_terminate, ec2_get_private_ip, ec2_discover.
  split_and!; auto 8 using classified_launch with ec2.
Qed.

(** A tag that was read off an instance with distinct keys. *)
Lemma tags_lookup i k v :
  NoDup (ei_tags i).*1 -> (k, v) ∈ ei_tags i -> tags_from_instance i !! k = Some v.
Proof.
  unfold tags_from_instance. generalize (ei_tags i). intros l.
  assert (Hfold : forall l (m : gmap string string), NoDup l.*1 ->
    foldl (fun m kv => <[kv.1 := kv.2]> m) m l !! k =
    match list_find (fun kv => kv.1 = k) l with Some (_, kv) => Some kv.2 | None => m !! k end).
  { clear. induction l as [|[k' v'] l IH]; intros m Hnd; cbn; [done|]. apply NoDup_cons in Hnd as [Hk Hnd].
    rewrite IH by done. cbn. destruct (decide (k' = k)) as [->|Hne].
    - destruct (list_find _ l) as [[j kv]|] eqn:E; cbn; [|by rewrite lookup_insert_eq].
      apply list_find_Some in E as (Hj & <- & _). contradict Hk. apply list_elem_of_fmap. exists kv. split; [done|].
      by eapply list_elem_of_lookup_2.
    - destruct (list_find _ l) as [[j kv]|] eqn:E; cbn; [done|]. by rewrite lookup_insert_ne. }
  intros Hnd Hin. rewrite Hfold by done. destruct (list_find _ l) as [[j kv]|] eqn:E.
  - apply list_find_Some in E as (Hj & <- & _). destruct kv as [k1 v1]. cbn in *. f_equal.
    apply list_elem_of_lookup_1 in Hin as [j' Hj'].
    assert (j = j') as <-; [|congruence].
    eapply (NoDup_lookup l.*1); [done|..]; rewrite list_lookup_fmap; [by rewrite Hj|by rewrite Hj'].
  - apply list_find_None in E. rewrite Forall_forall in E. by specialize (E _ Hin).
Qed.

End provider.

(** Two VMs, one of them of another deployment. *)
Definition demo_vm (id deployment : string) : Ec2Instance :=
  mkEc2Instance id "running" (Some "10.0.0.7") (build_worker_tags ("cloud-" +:+ id) deployment 1).
Definition demo_vms : list Ec2Instance := [demo_vm "i-1" "prod"; demo_vm "i-2" "staging"].

Definition passes_filters (filters : list (string * list string)) (i : Ec2Instance) : bool :=
  forallb (fun f => existsb (fun kv => ("tag:" +:+ kv.1 ==? f.1) && (kv.2 ∈? f.2)) (ei_tags i)) filters.

#[export] Program Instance demo_ec2 : Ec2Client := {|
  ec2_describe_instances id := mret [List.filter (fun i => ei_instance_id i ==? id) demo_vms];
  ec2_describe_pages filters := mret [[List.filter (passes_filters filters) demo_vms]];
  ec2_start_instances id := raise (ClientError "IncorrectInstanceState" "starting");
  ec2_stop_instances id := raise (ClientError "UnauthorizedOperation" "no");
  ec2_terminate_instances id := mret tt;
  ec2_run_instances p := mret ["i-" +:+ rp_client_token p] |}.
Solve Obligations with intros; evolve.
Next Obligation.
  intros filters w pages w' page res i E Hp Hr Hi.
  assert (pages = [[List.filter (passes_filters filters) demo_vms]]) as -> by (by injection E).
  apply list_elem_of_singleton in Hp as ->. apply list_elem_of_singleton in Hr as ->.
  apply list_elem_of_In, filter_In in Hi as [Hi Hf]. split.
  - destruct Hi as [<-|[<-|[]]]; apply (bool_decide_unpack _); vm_compute; exact I.
  - intros k vs Hkv. unfold passes_filters in Hf. rewrite forallb_forall in Hf.
    apply list_elem_of_In, Hf, existsb_exists in Hkv as ([k' v'] & Hin & E'). cbn in E'. bool_hyps.
    match goal with E : "tag:" +:+ _ = _ |- _ => apply string_app_inj_l in E as -> end.
    exists v'. split; [done|]. by apply list_elem_of_In.
Qed.


(** A start-up on the demo configuration. *)
#[export] Instance demo_release : MinerURelease := {|
  API_PROTOCOL_VERSION := 2; MINERU_VERSION := "3.4.4"; is_public_bind_host host := host !=? "127.0.0.1" |}.
#[export] Instance demo_ssm : SsmClient := {| ssm_get_parameter region name := SsmValue " lt-42 " |}.

Example startup_run :
  ((lifespan demo_settings (demo_world [demo_worker "cloud-1"] [] [] [])).1,
   (scheduler_startup demo_settings (demo_world [] [] [] [])).1,
   resolve_ssm_reference "ssm:/mineru/lt" "us-east-1") =
  (Ok (Some (configured_store demo_settings), false), Ok (Some (configured_provider demo_settings (cloud demo_settings))),
   Ok "lt-42").
Proof. vm_compute. reflexivity. Qed.
