(* ===== verification/SystemSpec.v ===== *)
(** * SystemSpec: what holds whatever the processes do

    The promises of the single operations, put together over every interleaving
    of them: the steps of [System] keep the tables consistent, the fleet within
    its bound and every task on the machine [life]. *)
From S2P Require Import Prelude Models CloudTypes Config Scaling World Database Logic Hoare Json Payload PyText.
From S2P Require Import Storage Status Lifecycle TaskRows Upstream WorkerRepository CacheService Results.
From S2P Require Import TaskRepository Lock Provider Health Reconcile Scheduler Fleet Retention Ingest TaskApi AdminApi.
From S2P Require Import S3 Startup System Demo FleetTypes CacheSpec PayloadSpec IngestSpec GatewaySpec LockSpec StartupSpec.

(** ** The intake only adds rows *)

Definition grown_row (k : string) (o o' : option Task) : Prop :=
  o' = o \/ o = None /\ forall r', o' = Some r' -> task_good k r'.
#[export] Instance grown_row_preorder k : PreOrder (grown_row k).
Proof. split; unfold grown_row; [by left|]. intros a b c [->|[-> Ha]] [->|[-> Hb]]; auto. Qed.

Definition grows : relation World := fun w w' =>
  workers w' = workers w /\ rows_evolve (A:=Task) grown_row w w'.

#[export] Instance grows_benign : Benign grows.
Proof.
  split; [split|].
  - by intros w.
  - intros a b c [E1 G1] [E2 G2]. split; [congruence|by etrans].
  - intros w w' (Ew & Et & _). split; [done|]. intros k. cbn. by rewrite Et.
Qed.

Lemma same_rows_grows {A} (m : M A) : evolves same_rows m -> evolves grows m.
Proof.
  intros Hm w. destruct (Hm w) as [Hd [Et Ew]]. split; [done|]. split; [done|]. intros k. cbn. by rewrite Et.
Qed.

Section intake.
Context (settings : GatewaySettings) `{Env} `{!ObjectStore} `{!MinerUIntake} `{!Sha256}.

Lemma lift_grows {A} (o : outcome A) : o <> Diverged -> evolves grows (lift o).
Proof. destruct o; [intros _; evolve..|done]. Qed.

Lemma add_task_grows r : (forall c u, task_good (t_task_id r) (inserted c u r)) ->
  evolves grows (commit [OnTask (Add r)]).
Proof.
  intros Hg. apply evolves_wp. intros w. apply wp_commit.
  - intros w' (w1 & ((Hn & c & u & Et) & Ew & _) & Ew2 & Et2 & _) _. split; [cbn in *; congruence|].
    intros k. cbn in *. rewrite Et2, Et. destruct (decide (k = t_task_id r)) as [->|Hne].
    + rewrite lookup_insert_eq, Hn. right. split; [done|]. by intros ? [= <-].
    + rewrite lookup_insert_ne by done. by left.
  - intros e w' (Ew & Et & _) _. split; [done|]. intros k. left. cbn. by rewrite Et.
Qed.

Lemma create_queued_task_grows id names backend pm opts pk source ck :
  evolves grows (create_queued_task id names backend pm opts pk source ck).
Proof. unfold create_queued_task, refresh_row. evolve. by apply add_task_grows. Qed.

Lemma store_grows {A} (m : M A) : evolves same_db m -> evolves grows m.
Proof. intros Hm. by apply same_rows_grows, evolves_db_rows. Qed.
#[local] Hint Resolve create_queued_task_grows : evolve.

Lemma create_hit_task_grows id entry names : evolves grows (create_hit_task id entry names).
Proof.
  unfold create_hit_task, refresh_row. evolve.
  - apply store_grows, store_copy_db.
  - by apply add_task_grows.
  - apply store_grows, safe_delete_db.
Qed.

Lemma stage_grows request : evolves grows (stage_bounded_multipart_request settings request).
Proof.
  apply evolves_same_data; [apply _|]. destruct (rq_form request) as [items|e] eqn:Ef.
  - apply evolves_wp. intros w. eapply wp_mono; [by apply (stage_request_wp settings request items)|..];
      intros a w' Hd; apply Hd.
  - unfold stage_bounded_multipart_request. rewrite Ef. evolve.
Qed.

Lemma resolve_cache_grows has_cache recs names opts backend pm skip :
  evolves grows (resolve_cache settings has_cache recs names opts backend pm skip true).
Proof.
  unfold resolve_cache. destruct (compute_cache_key recs opts). cbv zeta. unfold build_cache_hit_result. evolve.
  all: first [apply create_hit_task_grows|apply same_rows_grows, lookup_rows
             |apply same_rows_grows, create_placeholder_rows].
Qed.

Lemma ingest_payload_grows payload source skip pub allow :
  evolves grows (ingest_payload settings payload true source skip pub allow).
Proof.
  unfold ingest_payload, validate_http_client_policy, create_task_with_payload, store_payload. evolve.
  - apply lift_grows, hash_returns.
  - apply resolve_cache_grows.
  - apply lift_grows. pose proof (payload_packs settings payload) as Hp. by destruct (pack_payload settings payload).
  - apply store_grows, store_put_db.
  - apply store_grows, safe_delete_db.
Qed.

Lemma submit_task_grows request : evolves grows (submit_task settings request true).
Proof.
  unfold submit_task, ingest_task, rewrite_staged_uploads, rewrite_upload, internal_upload_path. cbn [require_store]. evolve.
  - apply lift_grows. unfold check_admission, check_file_size. by repeat case_match.
  - apply stage_grows.
  - apply lift_grows. intros E. by apply sanitize_returns in E.
  - apply ingest_payload_grows.
Qed.
End intake.

(** ** Every operation keeps the system sound *)

(** A row goes along the machine, or is the row of a finished task and goes. *)
Definition advances_row (_ : string) (o o' : option Task) : Prop := forall r, o = Some r ->
  (exists r', o' = Some r' /\ rtc life (phase_of r) (phase_of r')) \/ o' = None /\ terminal r.
Definition advances : relation World := rows_evolve (A:=Task) advances_row.

Lemma lawful_advances w w' : lawful w w' -> advances w w'.
Proof. intros Hl k r Hr. left. by apply (Hl k). Qed.

Lemma retained_advances w w' : retained w w' -> advances w w'.
Proof.
  intros Hr k r E. destruct (Hr k) as [E'|[E' Ht]]; [left; exists r; by rewrite E'|right; by auto].
Qed.

Lemma grows_advances w w' : grows w w' -> advances w w'.
Proof. intros [_ Hg] k r E. left. exists r. destruct (Hg k) as [->|[E' _]]; [done|congruence]. Qed.

Lemma grows_ok w w' : grows w w' -> tasks_ok w -> tasks_ok w'.
Proof.
  intros [_ Hg] HT k r E. destruct (Hg k) as [E'|[_ Hr]]; [apply HT; by rewrite <- E'|by apply Hr].
Qed.

Lemma typed_keyed w : workers_typed w -> workers_keyed w.
Proof. intros HW k r E. by apply HW in E as [? _]. Qed.

Lemma touched_typed w w' : touched w w' -> workers_typed w -> workers_typed w'.
Proof.
  intros Ht HW k r' E. specialize (Ht k). rewrite E in Ht. unfold workers_typed, all_rows in HW.
  destruct (table w !! k) as [r|] eqn:Er; [|done]. destruct Ht as (t & u & ->). exact (HW k r Er).
Qed.

Section soundness.
Context (settings : GatewaySettings) (has_provider : bool).
Context `{Env} `{!ObjectStore} `{!Http} `{!MinerU} `{!ComputeProvider} `{!LockServer}.
Context `{!MinerUIntake} `{!Sha256}.

Lemma touched_bounded w w' : touched w w' -> fleet_bounded settings w w'.
Proof.
  intros Ht. assert (Hn : no_new_worker settings w w'); [|apply no_new_size in Hn; unfold fleet_bounded; lia].
  intros k r' E Hd. specialize (Ht k). rewrite E in Ht.
  destruct (table w !! k) as [r|]; [|done]. destruct Ht as (t & u & ->). by exists r.
Qed.

(** The invariant, and what one operation does to the tasks. *)
Definition sound (w : World) : Prop := tasks_ok w /\ workers_typed w.
Record kept (w w' : World) : Prop := {
  kept_sound : sound w';
  kept_fleet : fleet_bounded settings w w';
  kept_tasks : advances w w'
}.

#[export] Instance kept_stable w : Stable (kept w).
Proof.
  intros w1 w2 Hd [[HT HW] HF HA]. pose proof Hd as (Ew & Et & _).
  split; [split; by eapply all_rows_same|unfold fleet_bounded; by rewrite (fleet_same settings w1)|].
  intros k. specialize (HA k). cbn in *. by rewrite Et.
Qed.

Lemma kept_start w : sound w -> kept w w.
Proof.
  intros HS. split; [done|unfold fleet_bounded; lia|]. by apply lawful_advances.
Qed.

Lemma fast_tick_kept w : sound w -> wp (fast_tick settings) (fun _ => kept w) (fun _ => kept w) w.
Proof.
  intros [HT HW]. eapply wp_mono;
    [apply (fast_tick_inv settings w); split; [done|by apply fleet_kept_start, typed_keyed|done]| |].
  all: intros a w' [HT' [_ Htouch] Hl]; split; [split; [done|by eapply touched_typed]|by apply touched_bounded|
    by apply lawful_advances].
Qed.

(** An operation that keeps the types and the bound of the fleet. *)
Lemma typed_kept {A} (m : M A) w : sound w -> evolves keeps_types m -> evolves (fleet_bounded settings) m ->
  wp m (fun _ => kept w) (fun _ => kept w) w.
Proof.
  intros [HT HW] Ht Hb. eapply wp_evolves; [by apply (evolves_and _ _ m Ht Hb)|..].
  all: intros a w' [[Hk Hr] HB]; specialize (Hr HT); split;
    [split; [by eapply retained_ok|by apply Hk]|done|by apply retained_advances].
Qed.

Lemma grows_kept {A} (m : M A) w : sound w -> evolves grows m -> wp m (fun _ => kept w) (fun _ => kept w) w.
Proof.
  intros [HT HW] Hg. eapply wp_evolves; [exact Hg|..].
  all: intros a w' Hw; pose proof Hw as [Ew _]; split;
    [split; [by eapply grows_ok|by eapply all_rows_same]|
     unfold fleet_bounded; rewrite (fleet_same settings w w' Ew); lia|by apply grows_advances].
Qed.

Lemma rows_kept {A} (m : M A) w : sound w -> evolves same_rows m -> wp m (fun _ => kept w) (fun _ => kept w) w.
Proof. intros HS Hm. by apply grows_kept, same_rows_grows. Qed.

Lemma loop_turn_kept tick_fn interval w : sound w -> wp tick_fn (fun _ => kept w) (fun _ => kept w) w ->
  wp (loop_turn tick_fn interval) (fun _ => kept w) (fun _ => kept w) w.
Proof.
  intros HS Hm. unfold loop_turn, lock_looks_held. wp_go. destruct (negb _); [wp_go; by apply kept_start|].
  assert (Hs : forall w1, kept w w1 -> wp (sleep_until_next_boundary interval ;; mret true)
    (fun _ => kept w) (fun _ => kept w) w1).
  { intros w1 HK. apply (wp_evolves same_data);
      [unfold sleep_until_next_boundary; evolve; apply pg_data|..]; intros b w2 Hd; by eapply (stable (I := kept w)). }
  apply wp_bind, wp_try. wp_inv (kept w); [exact Hm|by apply Hs|]. by apply Hs.
Qed.

(** The routes that read. *)
Lemma result_route_data id : evolves same_data (get_task_result id true).
Proof.
  unfold get_task_result, load_task. evolve.
  apply evolves_wp. intros w. eapply wp_mono; [apply fetch_result_wp|by intros o w' [? _]|done].
Qed.

Lemma invalidate_rows key : evolves same_rows (invalidate_cache key true).
Proof.
  unfold invalidate_cache, invalidate, invalidate_claim, invalidate_remove. cbn [require_store]. evolve.
  all: first [by apply evolves_commit_same_rows|apply evolves_db_rows, safe_delete_db].
Qed.

Lemma sweep_rows : evolves same_rows (sweep_cache true).
Proof.
  unfold sweep_cache, sweep_expired, sweep_one. cbn [require_store]. evolve.
  all: first [by apply evolves_commit_same_rows|apply evolves_db_rows, safe_delete_db].
Qed.

(** Admin routes reply with the row the intent returns. *)
Lemma reply_evolves R `{!Benign R} (m : M (option Worker)) :
  evolves R m -> evolves R (row ← m ; mret (worker_reply row)).
Proof. intros Hm. by apply evolves_bind; [apply _| |intros; evolve]. Qed.

Lemma admin_kept (m : M (option Worker)) w : sound w -> evolves keeps_types m ->
  evolves (fleet_bounded settings) m ->
  wp (row ← m ; mret (worker_reply row)) (fun _ => kept w) (fun _ => kept w) w.
Proof. intros HS Ht Hb. apply typed_kept; [done|..]; by apply reply_evolves; [apply _|]. Qed.

Lemma turn_kept l w : sound w -> wp (turn settings has_provider l) (fun _ => kept w) (fun _ => kept w) w.
Proof.
  intros HS. destruct l; apply loop_turn_kept; [done|by apply fast_tick_kept|done|].
  apply typed_kept; [done|apply slow_tick_types|apply slow_tick_bounded].
Qed.

Lemma perform_kept a w : sound w -> wp (perform settings has_provider a) (fun _ => kept w) (fun _ => kept w) w.
Proof.
  intros HS. assert (Hrun : forall A (m : M A), wp m (fun _ => kept w) (fun _ => kept w) w ->
    wp (run_only m) (fun _ => kept w) (fun _ => kept w) w).
  { intros A m Hm. apply wp_bind. eapply wp_mono; [exact Hm|by intros|by intros]. }
  destruct a as [l| | |id|id| |id|id terminate reason q|id reason q|id reason q|key|]; apply Hrun.
  - by apply turn_kept.
  - by apply grows_kept, submit_task_grows.
  - by apply grows_kept, ingest_payload_grows.
  - apply rows_kept; [done|]. unfold get_task_status, load_task. evolve.
  - apply rows_kept; [done|]. apply evolves_same_data; [apply _|apply result_route_data].
  - apply rows_kept; [done|]. unfold admin_list_workers, list_workers. evolve.
  - apply rows_kept; [done|]. unfold admin_get_worker. evolve.
  - apply admin_kept; [done| |apply set_drain_intent_bounded]. apply set_drain_intent_types.
    destruct terminate; by apply (bool_decide_eq_true _).
  - apply admin_kept; [done|apply set_rotation_requested_types|apply set_rotation_requested_bounded].
  - apply admin_kept; [done|apply recover_worker_types|apply recover_worker_bounded].
  - apply rows_kept; [done|apply invalidate_rows].
  - apply rows_kept; [done|apply sweep_rows].
Qed.

Lemma step_kept w w' : sound w -> system_step settings has_provider w w' -> kept w w'.
Proof.
  intros HS Hstep. destruct Hstep as [a o w w' E|m w|w w' Hd].
  - pose proof (perform_kept a w HS) as Hk. unfold wp in Hk. rewrite E in Hk. by destruct o.
  - destruct (kept_start w HS) as [HK1 HK2 HK3]. by split.
  - by eapply (stable (I := kept w)); [|apply kept_start].
Qed.

Lemma reachable_kept w0 w : reachable settings has_provider w0 w -> sound w0 ->
  sound w /\ fleet_bounded settings w0 w.
Proof.
  induction 1 as [w|w0 w1 w Hstep _ IH]; intros HS; [split; [done|unfold fleet_bounded; lia]|].
  destruct (step_kept _ _ HS Hstep) as [HS1 HF1 _]. destruct (IH HS1) as [HS' HF]. split; [done|by etrans].
Qed.

(** C1: whatever the scheduler's loops, the gateway's requests and the operators
    do, in whatever order and whatever fails: every task row stays consistent
    with its status and every worker row in its types, the deployment never has
    more than [max_workers + 1] workers (or than it had), and from there each
    operation ends, and moves every task along its life, or deletes the row of a
    finished task. *)
Theorem reachable_worlds_are_sound w0 w : sound w0 -> reachable settings has_provider w0 w ->
  tasks_ok w /\ workers_typed w /\
  fleet_size settings w <= Z.max (max_workers (scaling settings) + 1) (fleet_size settings w0) /\
  forall a, wp (perform settings has_provider a) (fun _ => advances w) (fun _ => advances w) w.
Proof.
  intros HS Hr. destruct (reachable_kept _ _ Hr HS) as [[HT HW] HF]. split; [done|]. split; [done|]. split; [done|].
  intros a. eapply wp_mono; [by apply perform_kept|..]; by intros ?? [].
Qed.
End soundness.

(** ** The scheduler process *)

Section process.
Context (settings : GatewaySettings).
Context `{Env} `{!ObjectStore} `{!Http} `{!MinerU} `{!ComputeProvider} `{!LockServer}.
Context `{!MinerURelease} `{!S3Client} `{!SsmClient}.

(** Sound, and the fleet within its bound. *)
Definition well_run (w0 w : World) : Prop := sound w /\ fleet_bounded settings w0 w.

Lemma run_turns_well schedule has_provider w0 running w : well_run w0 w ->
  wp (run_turns settings has_provider schedule running) (fun _ => well_run w0) (fun _ => well_run w0) w.
Proof.
  revert running w; induction schedule as [|l schedule IH]; intros running w HW; cbn [run_turns]; [exact HW|].
  destruct (l ∈? running); [|by apply IH]. destruct HW as [HS HF].
  assert (Hk : forall w', kept settings w w' -> well_run w0 w').
  { intros w' [HS' HF' _]. split; [done|]. by etrans. }
  apply wp_bind. eapply wp_mono; [by apply turn_kept| |by eauto]. eauto.
Qed.

Lemma sound_data w w' : data_of w' = data_of w -> sound w -> sound w'.
Proof. intros [= Ew Et _ _ _] [HT HW]. split; by eapply all_rows_same. Qed.

(** Closing down leaves the data. *)
Lemma finally_data {A} (m : M A) c w : evolves same_data c ->
  data_of (finally_ m c w).2 = data_of (m w).2.
Proof.
  intros Hc. unfold finally_. rewrite bind_unfold. unfold try_.
  assert (Hd : forall w1, data_of (c w1).2 = data_of w1).
  { intros w1. destruct (Hc w1) as [_ Hs]. by apply data_same in Hs as [? _]. }
  destruct (m w) as [[a|e|] w1]; [| |done]; rewrite ?bind_unfold; specialize (Hd w1);
    destruct (c w1) as [[u|e'|] w2]; exact Hd.
Qed.

Lemma well_run_data w0 w w' : data_of w' = data_of w -> well_run w0 w -> well_run w0 w'.
Proof.
  intros Ed [HS HF]. split; [by eapply sound_data|]. injection Ed as Ew _ _ _ _. unfold fleet_bounded. by rewrite (fleet_same settings w w').
Qed.

Lemma scheduler_body_well has_provider schedule w0 w : well_run w0 w ->
  wp (new_scheduler ;; _ ← run settings has_provider schedule ; mret tt)
    (fun _ => well_run w0) (fun _ => well_run w0) w.
Proof.
  intros HW. apply wp_bind. unfold new_scheduler. change (wp (modify ?f) ?Q ?X w) with (Q tt (f w)).
  cbv beta. apply wp_bind. wp_inv (well_run w0); [|exact HI]. apply run_turns_well.
  by apply (well_run_data w0 w).
Qed.

(** What the lock's caller leaves: nothing changed, or what a run left that
    started under the lock (or, on SQLite, without one). *)
Definition ran_from (has_provider : bool) (schedule : list Loop) (w w' : World) : Prop :=
  exists w1, data_of w1 = data_of w /\
    (lock_is_held w1 = true \/ String.prefix "sqlite" (database_url settings) = true) /\
    data_of w' = data_of ((new_scheduler ;; _ ← run settings has_provider schedule ; mret tt) w1).2.

Lemma scheduler_lock_well fuel has_provider schedule w : sound w ->
  let '(o, w') := scheduler_lock fuel (database_url settings) (Some (database_url settings)) (seconds 5)
    (new_scheduler ;; _ ← run settings has_provider schedule ; mret tt) w in
  well_run w w' /\ (data_of w' = data_of w \/ ran_from has_provider schedule w w').
Proof.
  intros HS. assert (HW : well_run w w) by (split; [done|unfold fleet_bounded; lia]).
  assert (Eurl : str_or (Some (database_url settings)) (database_url settings) = database_url settings).
  { unfold str_or. by destruct (_ ==? _). }
  assert (Hbody : forall w1, data_of w1 = data_of w ->
    well_run w ((new_scheduler ;; _ ← run settings has_provider schedule ; mret tt) w1).2).
  { intros w1 Ed. pose proof (scheduler_body_well has_provider schedule w w1 ltac:(by apply (well_run_data w w))) as Hb.
    unfold wp in Hb. by destruct ((new_scheduler ;; _) w1) as [[u|e|] w2]. }
  destruct (String.prefix "sqlite" (database_url settings)) eqn:Ep.
  - unfold scheduler_lock. cbv zeta. rewrite Eurl, Ep, bind_unfold. unfold modify at 1.
    set (w1 := set_lock None w). assert (Ed1 : data_of w1 = data_of w) by done. clearbody w1.
    specialize (Hbody w1 Ed1). destruct ((new_scheduler ;; _) w1) as [o w2] eqn:E. split; [exact Hbody|].
    right. exists w1. split_and!; [done|by right|]. by rewrite E.
  - pose proof (scheduler_lock_spec fuel (database_url settings) (Some (database_url settings)) (seconds 5)
      (new_scheduler ;; _ ← run settings has_provider schedule ; mret tt) w ltac:(by rewrite Eurl)) as Hl.
    destruct (scheduler_lock _ _ _ _ _ w) as [o w']. destruct Hl as [(_ & Ed & _)|(w1 & ob & w2 & Ed1 & Hh & E & Ho)].
    + split; [by apply (well_run_data w w)|by left].
    + specialize (Hbody w1 Ed1). rewrite E in Hbody. cbn in Hbody.
      assert (Ed : data_of w' = data_of w2) by (destruct Ho as [(_ & _ & ->)|(_ & Ed & _)]; done).
      split; [by apply (well_run_data w w2)|]. right. exists w1. split_and!; [done|by left|]. by rewrite E.
Qed.

(** C14: the scheduler process as a whole, for any turns of its loops: it changes
    nothing unless its start-up checks pass and it holds the lock; what it changes
    then is what its loops do, and whenever it is looked at, or however it ends,
    the rows are consistent and the fleet is within its bound. *)
Theorem scheduler_process_is_safe fuel schedule client_aclose shutdown_engine w : sound w ->
  evolves same_data client_aclose -> evolves same_data shutdown_engine ->
  let w' := (run_scheduler settings fuel schedule client_aclose shutdown_engine w).2 in
  sound w' /\ fleet_bounded settings w w' /\
  (data_of w' = data_of w \/
   startup_ok settings w /\ exists has_provider, ran_from has_provider schedule w w').
Proof.
  intros HS Hc Hd. cbv zeta. unfold run_scheduler. rewrite bind_unfold.
  pose proof (scheduler_startup_wp settings w) as Hs. unfold wp in Hs.
  destruct (scheduler_startup settings w) as [[provider|e|] w1]; [| |done].
  - destruct Hs as ([Ed1 _]%data_same & Hok & _).
    pose proof (scheduler_lock_well fuel (not_none provider) schedule w1) as Hl.
    pose proof (finally_data (scheduler_lock fuel (database_url settings) (Some (database_url settings)) (seconds 5)
      (new_scheduler ;; _ ← run settings (not_none provider) schedule ; mret tt))
      (client_aclose ;; shutdown_engine) w1 ltac:(evolve)) as Ef.
    destruct (scheduler_lock _ _ _ _ _ w1) as [o w2].
    destruct Hl as [[HS2 HF2] Hran]; [by apply (sound_data w)|].
    split; [by apply (sound_data w2)|]. split.
    + unfold fleet_bounded in *. injection Ed1 as Ew1 _ _ _ _. injection Ef as Ew _ _ _ _. cbn in Ew.
      rewrite (fleet_same settings w w1 Ew1) in HF2. by rewrite (fleet_same settings w2 _ Ew).
    + destruct Hran as [Hran|(w3 & Ed3 & Hl & Hran)]; [left; cbn in Ef; congruence|right].
      split; [done|]. exists (not_none provider), w3. cbn in Ef. split_and!; [congruence|done|congruence].
  - apply data_same in Hs as [Ed _]. cbn. split; [by apply (sound_data w)|]. split; [|by left].
    injection Ed as Ew _ _ _ _. unfold fleet_bounded. rewrite (fleet_same settings w w1 Ew). lia.
Qed.
End process.

(** ** A run *)

(** The world after these operations, in this order. *)
Definition after (settings : GatewaySettings) (actions : list Action) (w : World) : World :=
  foldl (fun w a => (perform settings true a w).2) w actions.

Lemma after_reachable settings actions w : reachable settings true w (after settings actions w).
Proof.
  revert w; induction actions as [|a actions IH]; intros w; [done|]. eapply rtc_l; [|by apply IH].
  eapply step_action, surjective_pairing.
Qed.

(** An upload, an operator who drains a worker, and the loops in between. *)
Definition system_demo : list Action :=
  [ SubmitTask demo_request; LoopTurn dispatch; DrainWorker "cloud-2" true "upgrade" None; LoopTurn dispatch;
    SubmitTask demo_request; LoopTurn reconcile; SweepCache ].
Definition system_start : World := demo_world [demo_worker "cloud-1"; demo_worker "cloud-2"] [] [] [].

(** Both tasks end with a result, the second one from the cache. *)
Example system_run :
  let w := after demo_settings system_demo system_start in
  (t_status <$> (map_to_list (tasks w)).*2, t_source <$> (map_to_list (tasks w)).*2,
   w_draining <$> (map_to_list (workers w)).*2) =
  ([TASK_COMPLETED; TASK_COMPLETED], ["cache"; "tasks"], [false; true]).
Proof. vm_compute. reflexivity. Qed.

Lemma system_start_sound : sound system_start.
Proof.
  split; [on_demo|]. intros k r Hr. cbn in Hr.
  repeat apply lookup_insert_Some in Hr as [[<- <-]|[_ Hr]]; [..|by rewrite lookup_empty in Hr].
  all: split_and!; try done; by apply (bool_decide_eq_true _).
Qed.

Lemma reachable_worlds_are_sound_witness :
  let w := after demo_settings system_demo system_start in
  tasks_ok w /\ workers_typed w /\
  fleet_size demo_settings w <= Z.max (max_workers (scaling demo_settings) + 1) (fleet_size demo_settings system_start) /\
  forall a, wp (perform demo_settings true a) (fun _ => advances w) (fun _ => advances w) w.
Proof. apply reachable_worlds_are_sound; [exact system_start_sound|apply after_reachable]. Defined.

(** A scheduler that finds an uploaded task: it acquires the lock, serves the task
    in two turns and has released the lock at the end. *)
Example scheduler_run :
  let w := after demo_settings [SubmitTask demo_request] system_start in
  let '(o, w') := run_scheduler demo_settings 1 [dispatch; reconcile; dispatch] (mret tt) (mret tt) w in
  (o, t_status <$> (map_to_list (tasks w')).*2, lock_is_held w') = (Ok tt, [TASK_COMPLETED], false).
Proof. vm_compute. reflexivity. Qed.

Lemma scheduler_process_is_safe_witness :
  let w' := (run_scheduler demo_settings 1 [dispatch; reconcile] (mret tt) (mret tt) system_start).2 in
  sound w' /\ fleet_bounded demo_settings system_start w' /\
  (data_of w' = data_of system_start \/
   startup_ok demo_settings system_start /\
   exists has_provider, ran_from demo_settings has_provider [dispatch; reconcile] system_start w').
Proof. apply scheduler_process_is_safe; [exact system_start_sound|evolve|evolve]. Defined.
