(* ===== verification/SchemaSpec.v ===== *)
(** * SchemaSpec: the migration creates the tables of the models

    A database may hold other tables beside the program's; a run of statements
    that never names them leaves them alone and behaves as on an empty database,
    so what the migration does is computed on the empty schema. *)
From stdpp Require Import pretty.
From S2P Require Import Prelude Models World Json Payload Status Schema.

(** ** Statements and the tables beside them *)

(** Foreign keys and indexes are about tables that are there. *)
Record schema_wf (s : Schema) : Prop := {
  wf_keys : forall k t fk, sch_tables s !! k = Some t -> fk ∈ td_foreign_keys t -> is_Some (sch_tables s !! fk_table fk);
  wf_indexes : forall k ix, sch_indexes s !! k = Some ix -> is_Some (sch_tables s !! ix_table ix)
}.

(** The name that a statement creates or drops is not in [fr]. *)
Definition spares (fr : Schema) (d : ddl) : Prop :=
  match d with
  | CreateTable name _ | DropTable name => sch_tables fr !! name = None
  | CreateIndex name _ | DropIndex name => sch_indexes fr !! name = None
  end.

(** The object that a statement is about: a table or an index. *)
Definition touches (d : ddl) : bool * string :=
  match d with
  | CreateTable name _ | DropTable name => (true, name)
  | CreateIndex name _ | DropIndex name => (false, name)
  end.

Lemma spares_touches fr d d' : touches d = touches d' -> spares fr d -> spares fr d'.
Proof. by destruct d, d'; intros [= ->]. Qed.

(** A database without the objects of [ds] is without those of [ds']. *)
Lemma spares_covered fr ds ds' d :
  forallb (fun d' => existsb (fun d => bool_decide (touches d = touches d')) ds) ds' = true ->
  Forall (spares fr) ds -> d ∈ ds' -> spares fr d.
Proof.
  intros Hc Hsp Hd. rewrite forallb_forall in Hc. apply list_elem_of_In, Hc, existsb_exists in Hd as (d0 & Hin & E).
  apply bool_decide_eq_true in E. apply (spares_touches fr d0 d E). rewrite Forall_forall in Hsp.
  by apply Hsp, list_elem_of_In.
Qed.

Definition beside (s fr : Schema) : Schema :=
  mkSchema (sch_tables s ∪ sch_tables fr) (sch_indexes s ∪ sch_indexes fr).

Lemma schema_eq s s' : sch_tables s = sch_tables s' -> sch_indexes s = sch_indexes s' -> s = s'.
Proof. destruct s, s'. cbn. by intros -> ->. Qed.

Lemma empty_beside fr : beside empty_schema fr = fr.
Proof. apply schema_eq; cbn; apply (left_id_L ∅ (∪)). Qed.

Lemma is_none_false {A} (o : option A) : is_none o = false <-> is_Some o.
Proof. destruct o; cbn; split; intros H; (done || by destruct H || by eexists). Qed.

Lemma not_none_false {A} (o : option A) : not_none o = false -> o = None.
Proof. by destruct o. Qed.

Lemma valid_key_mono m m' t fk : m ⊆ m' -> valid_foreign_key m t fk = true -> valid_foreign_key m' t fk = true.
Proof.
  intros Hm. unfold valid_foreign_key. intros [-> Ht]%andb_true_iff. cbn.
  destruct (m !! fk_table fk) as [target|] eqn:E; [|done]. by rewrite (lookup_weaken _ _ _ _ E Hm).
Qed.

Lemma referenced_true m name : referenced m name = true ->
  exists k t fk, m !! k = Some t /\ k <> name /\ fk ∈ td_foreign_keys t /\ fk_table fk = name.
Proof.
  unfold referenced. rewrite existsb_exists. intros ([k t] & Hin & [Hne Hfk]%andb_true_iff).
  apply list_elem_of_In, elem_of_map_to_list in Hin. apply existsb_exists in Hfk as (fk & Hin' & E).
  apply bool_decide_eq_true in E. apply negb_true_iff, bool_decide_eq_false in Hne.
  exists k, t, fk. split_and!; try done. by apply list_elem_of_In.
Qed.

Lemma referenced_intro m name k t fk : m !! k = Some t -> k <> name -> fk ∈ td_foreign_keys t ->
  fk_table fk = name -> referenced m name = true.
Proof.
  intros Hk Hne Hfk E. unfold referenced. apply existsb_exists. exists (k, t). split.
  - by apply list_elem_of_In, elem_of_map_to_list.
  - cbn. rewrite bool_decide_false by done. apply existsb_exists. exists fk. split; [by apply list_elem_of_In|].
    by apply bool_decide_eq_true.
Qed.

Lemma referenced_beside s fr name : schema_wf fr -> sch_tables fr !! name = None ->
  referenced (sch_tables s) name = false -> referenced (sch_tables s ∪ sch_tables fr) name = false.
Proof.
  intros [Hkeys _] Hn Hr. apply not_true_iff_false. intros (k & t & fk & Hk & Hne & Hfk & E)%referenced_true.
  apply lookup_union_Some_raw in Hk as [Hk|[_ Hk]].
  - by rewrite (referenced_intro _ _ _ _ _ Hk Hne Hfk E) in Hr.
  - destruct (Hkeys k t fk Hk Hfk) as [x Hx]. congruence.
Qed.

Lemma apply_beside d s s' fr : schema_wf fr -> spares fr d -> sch_indexes s ##ₘ sch_indexes fr ->
  apply_ddl d s = Ok s' ->
  apply_ddl d (beside s fr) = Ok (beside s' fr) /\ sch_indexes s' ##ₘ sch_indexes fr.
Proof.
  intros Hwf Hsp Hdis. unfold apply_ddl, beside. destruct d as [name t|name ix|name|name]; cbn [sch_tables sch_indexes spares] in *.
  - destruct (not_none (sch_tables s !! name)) eqn:E; [done|]. apply not_none_false in E.
    rewrite lookup_union_r, Hsp by done. cbn [not_none is_none negb].
    destruct (forallb _ _) eqn:Hv; [|done]. intros [= <-]. cbn. split; [|done].
    rewrite insert_union_l. replace (forallb _ _) with true; [done|]. symmetry. rewrite forallb_forall in Hv |- *.
    intros fk Hin. eapply valid_key_mono; [|by apply Hv]. apply map_union_subseteq_l.
  - destruct (not_none (sch_indexes s !! name)) eqn:E; [done|]. apply not_none_false in E.
    rewrite lookup_union_r, Hsp by done. cbn [not_none is_none negb].
    destruct (sch_tables s !! ix_table ix) as [t|] eqn:Et; [|done]. rewrite (lookup_union_Some_l _ _ _ _ Et).
    destruct (forallb _ _); [|done]. intros [= <-]. cbn. split; [by rewrite insert_union_l|].
    by apply map_disjoint_insert_l.
  - destruct (is_none (sch_tables s !! name)) eqn:E; [done|]. apply is_none_false in E as [t E].
    rewrite (lookup_union_Some_l _ _ _ _ E). cbn [is_none].
    destruct (referenced (sch_tables s) name) eqn:Er; [done|]. rewrite referenced_beside by done.
    intros [= <-]. cbn. split.
    + f_equal. apply schema_eq; cbn.
      * rewrite delete_union. by rewrite (delete_id (sch_tables fr)).
      * rewrite map_filter_union by done. f_equal. apply map_filter_id. intros k ix Hk Ht. cbn in Ht.
        destruct (wf_indexes _ Hwf k ix Hk) as [x Hx]. congruence.
    + eapply map_disjoint_weaken_l; [exact Hdis|]. apply map_filter_subseteq.
  - destruct (is_none (sch_indexes s !! name)) eqn:E; [done|]. apply is_none_false in E as [t E].
    rewrite (lookup_union_Some_l _ _ _ _ E). cbn [is_none]. intros [= <-]. cbn. split.
    + f_equal. apply schema_eq; cbn; [done|]. rewrite delete_union. by rewrite (delete_id (sch_indexes fr)).
    + by apply map_disjoint_delete_l.
Qed.

Lemma run_beside ds s s' fr : schema_wf fr -> Forall (spares fr) ds -> sch_indexes s ##ₘ sch_indexes fr ->
  run_ddl ds s = Ok s' ->
  run_ddl ds (beside s fr) = Ok (beside s' fr) /\ sch_indexes s' ##ₘ sch_indexes fr.
Proof.
  intros Hwf. revert s. induction ds as [|d ds IH]; intros s Hsp Hdis; cbn [run_ddl].
  - by intros [= <-].
  - apply Forall_cons in Hsp as [Hd Hsp]. cbn [mbind outcome_bind].
    destruct (apply_ddl d s) as [s1| |] eqn:E; [|done..]. intros Hr.
    destruct (apply_beside d s s1 fr Hwf Hd Hdis E) as [-> Hdis1]. by apply IH.
Qed.

Lemma run_on_empty ds s fr : schema_wf fr -> Forall (spares fr) ds -> run_ddl ds empty_schema = Ok s ->
  run_ddl ds fr = Ok (beside s fr) /\ sch_indexes s ##ₘ sch_indexes fr.
Proof.
  intros Hwf Hsp Hr. rewrite <- (empty_beside fr) at 1. apply run_beside; try done. apply map_disjoint_empty_l.
Qed.

(** ** Statements keep a schema well formed *)

Lemma referenced_false m name k t fk : referenced m name = false -> m !! k = Some t -> k <> name ->
  fk ∈ td_foreign_keys t -> fk_table fk <> name.
Proof. intros Hr Hk Hne Hfk E. by rewrite (referenced_intro _ _ _ _ _ Hk Hne Hfk E) in Hr. Qed.

Lemma is_Some_insert {A} (m : gmap string A) k k' x : is_Some (m !! k') -> is_Some (<[k := x]> m !! k').
Proof. intros H. apply lookup_insert_is_Some. by destruct (decide (k = k')); [left|right]. Qed.

Lemma apply_wf d s s' : schema_wf s -> apply_ddl d s = Ok s' -> schema_wf s'.
Proof.
  intros [Hk Hi]. unfold apply_ddl. destruct d as [name t|name ix|name|name].
  - destruct (not_none _); [done|]. destruct (forallb _ _) eqn:Hv; [|done]. intros [= <-]. rewrite forallb_forall in Hv.
    split; cbn; [|by intros; eapply is_Some_insert, Hi].
    intros k t' fk [[<- <-]|[_ Hl]]%lookup_insert_Some Hin; [|by eapply is_Some_insert, Hk].
    apply list_elem_of_In, Hv in Hin. unfold valid_foreign_key in Hin. apply andb_true_iff in Hin as [_ Hin].
    destruct (_ !! _); [by eexists|done].
  - destruct (not_none _); [done|]. destruct (sch_tables s !! _) eqn:Et; [|done]. destruct (forallb _ _); [|done].
    intros [= <-]. split; cbn; [done|]. intros k ix' [[<- <-]|[_ Hl]]%lookup_insert_Some; [by rewrite Et|by eapply Hi].
  - destruct (is_none _); [done|]. destruct (referenced _ _) eqn:Er; [done|]. intros [= <-]. split; cbn.
    + intros k t fk [Hne Hl]%lookup_delete_Some Hin. rewrite lookup_delete_ne; [by eapply Hk|].
      intros E. by eapply (referenced_false _ _ _ _ _ Er Hl).
    + intros k ix [Hl Hne]%map_lookup_filter_Some. cbn in Hne. rewrite lookup_delete_ne by done. by eapply Hi.
  - destruct (is_none _); [done|]. intros [= <-]. split; cbn; [done|]. intros k ix [_ Hl]%lookup_delete_Some. by eapply Hi.
Qed.

Lemma run_wf ds s s' : schema_wf s -> run_ddl ds s = Ok s' -> schema_wf s'.
Proof.
  revert s. induction ds as [|d ds IH]; intros s Hwf; cbn [run_ddl mbind outcome_bind]; [by intros [= <-]|].
  destruct (apply_ddl d s) as [s1| |] eqn:E; [|done..]. intros Hr. by eapply IH, Hr; eapply apply_wf.
Qed.

(** ** The migration and the models *)

(** The SQL text of a default. *)
Definition default_text (d : Default) : string :=
  match d with
  | DText s => s
  | DInt n => pretty n
  | DFalse => "false"
  | DNow => "CURRENT_TIMESTAMP"
  | DEmptyList => "[]"
  end.

(** The column of the catalogue serves the column of the model: it has the same
    name, type and constraints, and a default of the catalogue is the one the
    model would write. *)
Definition serves (c m : Column) : bool :=
  (col_name c ==? col_name m) && (col_type c ==? col_type m) && Bool.eqb (col_nullable c) (col_nullable m) &&
  Bool.eqb (col_primary c) (col_primary m) && Bool.eqb (col_unique c) (col_unique m) &&
  match col_default c with
  | None => true
  | Some d => match col_default m with Some d' => default_text d ==? default_text d' | None => false end
  end.

Fixpoint all2 {A B} (f : A -> B -> bool) (xs : list A) (ys : list B) : bool :=
  match xs, ys with
  | [], [] => true
  | x :: xs, y :: ys => f x y && all2 f xs ys
  | _, _ => false
  end.

(** The schema holds the table of the mapped class, its columns in order, its
    foreign keys and its indexes. *)
Definition holds_model (s : Schema) (m : MappedTable) : bool :=
  match sch_tables s !! mt_name m with
  | None => false
  | Some t =>
      all2 serves (td_columns t) (td_columns (mt_table m)) &&
      (td_foreign_keys t ==? td_foreign_keys (mt_table m)) &&
      forallb (fun ix => sch_indexes s !! ix.1 ==? Some ix.2) (mt_indexes m)
  end.

Definition model_tables : list string := map mt_name metadata.

Definition run_or_empty (ds : list ddl) : Schema :=
  match run_ddl ds empty_schema with Ok s => s | _ => empty_schema end.

Lemma holds_beside s fr m : holds_model s m = true -> holds_model (beside s fr) m = true.
Proof.
  unfold holds_model, beside. cbn. destruct (sch_tables s !! mt_name m) as [t|] eqn:E; [|done].
  rewrite (lookup_union_Some_l _ _ _ _ E). intros [[-> ->]%andb_true_iff Hix]%andb_true_iff. cbn.
  rewrite forallb_forall in Hix |- *. intros ix Hin. specialize (Hix ix Hin).
  apply bool_decide_eq_true in Hix. apply bool_decide_eq_true. by apply lookup_union_Some_l.
Qed.

Lemma others_beside s fr k : sch_tables s !! k = None -> sch_tables (beside s fr) !! k = sch_tables fr !! k.
Proof. intros E. cbn. by rewrite lookup_union_r. Qed.

(** What the statements make of an empty database, and so beside any other
    tables. *)
Definition fresh (fr : Schema) : Prop := schema_wf fr /\ Forall (spares fr) upgrade.

Lemma fresh_tables fr k : fresh fr -> k ∈ model_tables -> sch_tables fr !! k = None.
Proof.
  intros [_ Hsp] Hk. apply (spares_covered fr upgrade (map DropTable model_tables)) with (d := DropTable k); try done.
  by apply list_elem_of_fmap_2.
Qed.

Lemma not_model_table s k : dom (sch_tables s) = list_to_set model_tables -> k ∉ model_tables ->
  sch_tables s !! k = None.
Proof. intros Hd Hk. apply not_elem_of_dom. rewrite Hd. by rewrite elem_of_list_to_set. Qed.

Definition spares_model (fr : Schema) (m : MappedTable) : Prop := Forall (spares fr) (create_table_of m).

Lemma create_beside ms s s' fr : schema_wf fr -> Forall (spares_model fr) ms -> sch_indexes s ##ₘ sch_indexes fr ->
  create_missing ms s = Ok s' ->
  create_missing ms (beside s fr) = Ok (beside s' fr) /\ sch_indexes s' ##ₘ sch_indexes fr.
Proof.
  intros Hwf. revert s. induction ms as [|m ms IH]; intros s Hsp Hdis; cbn [create_missing]; [by intros [= <-]|].
  apply Forall_cons in Hsp as [Hm Hsp]. cbn [beside sch_tables].
  assert (Hn : sch_tables fr !! mt_name m = None) by (apply Forall_cons in Hm as [Hm _]; exact Hm).
  destruct (sch_tables s !! mt_name m) as [t|] eqn:E.
  - rewrite (lookup_union_Some_l _ _ _ _ E). cbn [not_none is_none negb mbind outcome_bind]. by apply IH.
  - rewrite lookup_union_r, Hn by done. cbn [not_none is_none negb mbind outcome_bind].
    destruct (run_ddl (create_table_of m) s) as [s1| |] eqn:Er; [|done..]. intros Hr.
    destruct (run_beside _ _ _ _ Hwf Hm Hdis Er) as [Hb Hdis1]. rewrite Hb. by apply IH.
Qed.

Lemma create_wf ms s s' : schema_wf s -> create_missing ms s = Ok s' -> schema_wf s'.
Proof.
  revert s. induction ms as [|m ms IH]; intros s Hwf; cbn [create_missing]; [by intros [= <-]|].
  destruct (not_none _); cbn [mbind outcome_bind]; [by apply IH|].
  destruct (run_ddl _ _) as [s1| |] eqn:E; [|done..]. by apply IH, (run_wf _ _ _ Hwf E).
Qed.

Definition bootstrapped : Schema := match create_missing metadata empty_schema with Ok s => s | _ => empty_schema end.

(** The models' own statements name nothing that the migration does not. *)
Lemma fresh_models fr : fresh fr -> Forall (spares_model fr) metadata.
Proof.
  intros [Hwf Hsp]. unfold spares_model. apply Forall_forall. intros m Hm. apply Forall_forall. intros d Hd.
  apply (spares_covered fr upgrade (flat_map create_table_of metadata)); [vm_compute; reflexivity|done|].
  apply list_elem_of_In, in_flat_map. exists m. split; by apply list_elem_of_In.
Qed.

Definition serves_program (s fr : Schema) : Prop :=
  schema_wf s /\ Forall (fun m => holds_model s m = true) metadata /\
  forall k, k ∉ model_tables -> sch_tables s !! k = sch_tables fr !! k.

Lemma serves_beside s fr : forallb (holds_model s) metadata = true ->
  dom (sch_tables s) = list_to_set model_tables -> schema_wf (beside s fr) -> serves_program (beside s fr) fr.
Proof.
  intros Hm Hd Hwf. split_and!; [done| |].
  - apply Forall_forall. intros m Hin. apply holds_beside. rewrite forallb_forall in Hm. by apply Hm, list_elem_of_In.
  - intros k Hk. by apply others_beside, not_model_table.
Qed.

(** On any database without the program's tables and indexes the migration
    succeeds; the database then holds, for every mapped class, its table with the
    columns of the class in order, with the same types and constraints and with
    no other default than the class's, its foreign keys and its indexes; it is well formed, and the
    other tables are as they were. *)
Lemma migration_creates_the_models (fr : Schema) (Hfr : fresh fr) :
  exists s, run_ddl upgrade fr = Ok s /\ serves_program s fr.
Proof.
  destruct Hfr as [Hwf Hsp].
  destruct (run_on_empty upgrade (run_or_empty upgrade) fr Hwf Hsp) as [Hr _]; [vm_compute; reflexivity|].
  eexists. split; [exact Hr|].
  apply serves_beside; [vm_compute; reflexivity..|]. by eapply run_wf, Hr.
Qed.

(** The downgrade undoes the migration: after both the database is as it was. *)
Lemma downgrade_undoes_upgrade (fr : Schema) (Hfr : fresh fr) :
  (s ← run_ddl upgrade fr ; run_ddl downgrade s) = Ok fr.
Proof.
  destruct Hfr as [Hwf Hsp].
  destruct (run_on_empty upgrade (run_or_empty upgrade) fr Hwf Hsp) as [Hr Hd]; [vm_compute; reflexivity|].
  rewrite Hr. cbn [mbind outcome_bind].
  destruct (run_beside downgrade (run_or_empty upgrade) empty_schema fr Hwf) as [Hr' _]; [|done|vm_compute; reflexivity|].
  - apply Forall_forall. intros d Hin. by apply (spares_covered fr upgrade downgrade); [vm_compute; reflexivity|..].
  - by rewrite Hr', empty_beside.
Qed.

(** An SQLite database without the program's tables gets them from the models
    when the process starts, and they serve the program as the migration's do; a
    second start changes nothing, and no other database is touched. *)
Lemma sqlite_bootstrap_serves_the_program `{SqlalchemyMetadata} (url : string) (fr : Schema) (Hfr : fresh fr) :
  exists s, ensure_sqlite_schema url fr = Ok s /\ ensure_sqlite_schema url s = Ok s /\
    if String.prefix "sqlite" url then serves_program s fr else s = fr.
Proof.
  unfold ensure_sqlite_schema. destruct (String.prefix "sqlite" url); cbn [negb]; [|by eexists].
  rewrite (fresh_tables fr "workers" Hfr) by (unfold model_tables; cbn; set_solver). cbn [not_none is_none negb]. rewrite create_all_missing.
  destruct (create_beside metadata empty_schema bootstrapped fr) as [Hr _];
    [apply Hfr|by apply fresh_models|apply map_disjoint_empty_l|vm_compute; reflexivity|].
  rewrite empty_beside in Hr. eexists. split_and!; [exact Hr| |].
  - cbn [beside sch_tables]. destruct (sch_tables bootstrapped !! "workers") as [t|] eqn:E; [|by vm_compute in E].
    by rewrite (lookup_union_Some_l _ _ _ _ E).
  - apply serves_beside; [vm_compute; reflexivity..|]. by eapply create_wf, Hr; apply Hfr.
Qed.

(** C28: on any database without the program's tables and indexes, the migration and, on
    SQLite, the start of a process succeed and leave it well formed, with the
    table of every mapped class: its columns in order, of the same types and
    constraints, with no other default than the class's, its foreign keys and its indexes; the other
    tables are as they were.  The downgrade undoes the migration, a second start
    changes nothing, and the start leaves other databases to the migration. *)
Theorem schema_serves_the_models `{SqlalchemyMetadata} (url : string) (fr : Schema) (Hfr : fresh fr) :
  (exists s, run_ddl upgrade fr = Ok s /\ serves_program s fr /\ run_ddl downgrade s = Ok fr) /\
  (exists s, ensure_sqlite_schema url fr = Ok s /\ ensure_sqlite_schema url s = Ok s /\
     if String.prefix "sqlite" url then serves_program s fr else s = fr).
Proof.
  split; [|by apply sqlite_bootstrap_serves_the_program].
  destruct (migration_creates_the_models fr Hfr) as (s & Hr & Hs). exists s. split_and!; [done..|].
  pose proof (downgrade_undoes_upgrade fr Hfr) as Hd. by rewrite Hr in Hd.
Qed.

(** ** Witnesses: a database that Alembic has put its own table into *)

Definition alembic_only : Schema :=
  mkSchema {[ "alembic_version" := mkTableDef [primary_col "version_num" (VarChar 32)] [] ]} ∅.

Lemma alembic_only_fresh : fresh alembic_only.
Proof.
  split; [split|].
  - intros k t fk Hk Hin. unfold alembic_only in Hk; cbn [sch_tables] in Hk. apply lookup_singleton_Some in Hk as [_ <-]. by apply elem_of_nil in Hin.
  - intros k ix Hk. unfold alembic_only in Hk; cbn [sch_indexes] in Hk. by rewrite lookup_empty in Hk.
  - repeat constructor.
Qed.

#[local] Instance documented : SqlalchemyMetadata := {| create_all := create_missing; create_all_missing ms s := eq_refl |}.

Lemma schema_serves_the_models_witness :
  fresh alembic_only /\
  (exists s, run_ddl upgrade alembic_only = Ok s /\ run_ddl downgrade s = Ok alembic_only) /\
  (exists s, ensure_sqlite_schema "sqlite+aiosqlite:///gateway.db" alembic_only = Ok s /\ serves_program s alembic_only).
Proof.
  split; [exact alembic_only_fresh|].
  destruct (schema_serves_the_models "sqlite+aiosqlite:///gateway.db" alembic_only alembic_only_fresh) as [(s & Hr & _ & Hd) (s' & He & _ & Hs)].
  split; [by exists s|by exists s'].
Defined.
