(* ===== verification/BootSpec.v ===== *)
(** * BootSpec: what a process has when it starts

    The precedence of the settings, the host that the gateway binds, the database
    that the migrations run on, and the life of the engine. *)
From S2P Require Import Prelude Models Config World Json Payload Health Startup Boot.

(** ** What pydantic promises *)

Definition scalar (j : json) : bool := match j with JObj _ => false | _ => true end.

(** The top-level fields that are a [str]. *)
Definition string_fields : list (string * (GatewaySettings -> string)) :=
  [ ("deployment_id", deployment_id); ("database_url", database_url); ("host", Config.host);
    ("log_level", log_level) ].

(** A key of the upper dictionary replaces the lower one's unless both are
    dictionaries; a [str] field takes a string and nothing else; an absent field
    has its default. *)
Class PydanticLaws `{Pydantic} : Prop := {
  update_over lower upper k v :
    upper !! k = Some v -> scalar v = true -> deep_update lower upper !! k = Some v;
  update_under lower upper k : upper !! k = None -> deep_update lower upper !! k = lower !! k;
  parse_str d s k f : parse_fields d = Ok s -> (k, f) ∈ string_fields ->
    match d !! k with Some v => v = JStr (f s) | None => f s = f default_settings end;
  parse_port d s n : parse_fields d = Ok s -> d !! "port" = Some (JInt n) -> Config.port s = n
}.

Section settings.
Context `{Surroundings} `{!Pydantic} `{!PydanticLaws}.

Definition layered (kwargs data : dict) : dict :=
  deep_update data (deep_update env_settings (deep_update kwargs ∅)).

(** The value that the first source with the key gives. *)
Definition first_value (kwargs data : dict) (k : string) : option json :=
  match kwargs !! k with
  | Some v => Some v
  | None => match env_settings !! k with Some v => Some v | None => data !! k end
  end.

Lemma layered_lookup kwargs data k v : first_value kwargs data k = Some v -> scalar v = true ->
  layered kwargs data !! k = Some v.
Proof.
  unfold first_value, layered. intros Hf Hs.
  destruct (kwargs !! k) as [v1|] eqn:E1; [injection Hf as ->|].
  - apply update_over; [|done]. apply update_over; [|done]. by rewrite update_under, E1 by apply lookup_empty.
  - destruct (env_settings !! k) as [v2|] eqn:E2; [injection Hf as ->|].
    + apply update_over; [|done]. rewrite update_under; [done|]. by rewrite update_under, E1 by apply lookup_empty.
    + rewrite update_under; [done|]. rewrite update_under; [done|]. by rewrite update_under, E1 by apply lookup_empty.
Qed.

Lemma layered_none kwargs data k : first_value kwargs data k = None -> layered kwargs data !! k = None.
Proof.
  unfold first_value, layered. destruct (kwargs !! k) eqn:E1; [done|]. destruct (env_settings !! k) eqn:E2; [done|].
  intros E3. rewrite update_under; [done|]. rewrite update_under; [done|]. by rewrite update_under, E1 by apply lookup_empty.
Qed.

Lemma layered_data kwargs data k : kwargs !! k = None -> env_settings !! k = None -> layered kwargs data !! k = data !! k.
Proof.
  unfold layered. intros E1 E2. rewrite update_under; [done|]. rewrite update_under; [done|].
  by rewrite update_under, E1 by apply lookup_empty.
Qed.

Lemma build_settings_ok path kwargs s : build_settings (Some path) kwargs = Ok s ->
  exists data, yaml_load path = Ok data /\ parse_fields (layered kwargs data) = Ok s /\ valid_settings s = true.
Proof.
  unfold build_settings, settings_customise_sources. destruct (yaml_load path) as [data| |]; cbn; [|done..].
  intros Hb. exists data. split; [done|]. unfold layered. destruct (parse_fields _) as [s'| |] eqn:E; cbn in Hb; [|done..].
  destruct (valid_settings s') eqn:Ev; [|done]. by injection Hb as ->.
Qed.

(** What a [str] field of the loaded settings is. *)
Lemma field_value kwargs data s k f : (k, f) ∈ string_fields -> parse_fields (layered kwargs data) = Ok s ->
  match first_value kwargs data k with
  | Some v => scalar v = true -> v = JStr (f s)
  | None => f s = f default_settings
  end.
Proof.
  intros Hk Hp. pose proof (parse_str _ _ _ _ Hp Hk) as Hs.
  destruct (first_value kwargs data k) as [v|] eqn:E.
  - intros Hv. by rewrite (layered_lookup _ _ _ _ E Hv) in Hs.
  - by rewrite (layered_none _ _ _ E) in Hs.
Qed.

Lemma load_settings_unfold cp kwargs g :
  load_settings cp kwargs g =
    let path := str_or cp DEFAULT_CONFIG_PATH in
    match build_settings (Some path) kwargs with
    | Ok s => (Ok s, with_settings (Some s) (with_yaml_path path g))
    | Raise e => (Raise e, with_yaml_path path g)
    | Diverged => (Diverged, with_yaml_path path g)
    end.
Proof. unfold load_settings. rewrite !g_bind_unfold. unfold g_put, g_lift. by destruct (build_settings (Some (str_or cp DEFAULT_CONFIG_PATH)) kwargs). Qed.

End settings.

(** ** Logging *)

Lemma quiet_fold level (l : list string) (m : gmap string Z) name :
  fold_left (fun m name => <[name := Z.max level WARNING]> m) l m !! name =
    if name ∈? l then Some (Z.max level WARNING) else m !! name.
Proof.
  revert m. induction l as [|x l IH]; intros m; cbn [fold_left]; [done|]. rewrite IH.
  destruct (decide (name ∈ l)) as [Hin|Hin].
  - rewrite !bool_decide_true; [done|by right|done].
  - rewrite (bool_decide_false (name ∈ l)) by done. destruct (decide (name = x)) as [->|Hne].
    + rewrite lookup_insert_eq, bool_decide_true; [done|left].
    + rewrite lookup_insert_ne, bool_decide_false; [done|set_solver|congruence].
Qed.

(** A level is taken by number or by name in any case; then the root logger
    has it, the chatty libraries have it or WARNING, whichever is higher, and no other
    logger is touched; a name that is no level raises [ValueError] and changes
    nothing. *)
Lemma logging_is_configured level g :
  match configure_logging level g with
  | (Ok n, g') =>
      root_level g' = Some n /\ resolve_log_level level = Ok n /\
      (forall name, logger_levels g' !! name =
         if name ∈? QUIET_LOGGERS then Some (Z.max n WARNING) else logger_levels g !! name) /\
      cached_settings g' = cached_settings g /\ engine g' = engine g /\ session_factory g' = session_factory g
  | (Raise e, g') => g' = g /\ exists name, level = inl name /\ level_of_name (upper name) = None /\
      e = ValueError ("Invalid log level: " +:+ repr_str name)
  | (Diverged, _) => False
  end.
Proof.
  unfold configure_logging, resolve_log_level. rewrite g_bind_unfold. unfold g_lift.
  destruct level as [name|n]; [destruct (level_of_name (upper name)) as [n|] eqn:E|].
  - rewrite !g_bind_unfold. split_and!; try done. intros x. apply quiet_fold.
  - split; [done|]. by exists name.
  - rewrite !g_bind_unfold. split_and!; try done. intros x. apply quiet_fold.
Qed.

(** At DEBUG the chatty libraries stay at WARNING. *)
Lemma debug_keeps_chatty_loggers_quiet g name : name ∈ QUIET_LOGGERS ->
  logger_levels (configure_logging (inl "debug") g).2 !! name = Some WARNING.
Proof.
  intros Hn. pose proof (logging_is_configured (inl "debug") g) as Hl.
  destruct (configure_logging (inl "debug") g) as [[n|e|] g'] eqn:E; [|by vm_compute in E..].
  destruct Hl as (_ & Hr & Hq & _). injection Hr as <-. cbn. rewrite Hq, bool_decide_true by done. reflexivity.
Qed.

(** ** The command line of the gateway *)

Section main.
Context `{Surroundings} `{!Pydantic} `{!PydanticLaws} `{!MinerURelease}.

Lemma truthy_some o : truthy o = true -> exists u, o = Some u.
Proof. destruct o; [by eexists|done]. Qed.

(** The dictionary that the command line gives. *)
Definition cli_kwargs (database_url log_level : option string) (overrides : dict) : dict :=
  dict_update
    (set_when (truthy log_level) "log_level" (JStr (str_or log_level ""))
      (set_when (truthy database_url) "database_url" (JStr (str_or database_url "")) ∅)) overrides.

(** How the loading fails. *)
Definition load_fails (config_path : string) (kwargs : dict) (e : exn) : Prop :=
  build_settings (Some (str_or (Some config_path) DEFAULT_CONFIG_PATH)) kwargs = Raise e \/
  exists name, level_of_name (upper name) = None /\ e = ValueError ("Invalid log level: " +:+ repr_str name).

Lemma load_from_cli_spec config_path database_url log_level overrides g :
  let kwargs := cli_kwargs database_url log_level overrides in
  let path := str_or (Some config_path) DEFAULT_CONFIG_PATH in
  match load_settings_from_cli config_path database_url log_level overrides g with
  | (Ok (s, level), g') =>
      build_settings (Some path) kwargs = Ok s /\ level = str_or log_level (Config.log_level s) /\
      cached_settings g' = Some s /\ exists n, level_of_name (upper level) = Some n /\ root_level g' = Some n
  | (Raise e, _) => load_fails config_path kwargs e
  | (Diverged, _) => build_settings (Some path) kwargs = Diverged
  end.
Proof.
  cbv zeta. unfold load_settings_from_cli. rewrite g_bind_unfold. unfold reset_settings_cache, g_put.
  rewrite g_bind_unfold, load_settings_unfold. cbv zeta. fold (cli_kwargs database_url log_level overrides).
  destruct (build_settings _ _) as [s|e|] eqn:Eb; [|by left|done].
  rewrite g_bind_unfold. match goal with |- context [configure_logging ?l ?h] =>
    pose proof (logging_is_configured l h) as Hl; destruct (configure_logging l h) as [[n|e|] g2] end; [| |done].
  - destruct Hl as (Hr & Hn & _ & Hc & _). split_and!; try done. exists n. split; [|done]. cbn in Hn.
    destruct (level_of_name _); [by injection Hn as ->|done].
  - destruct Hl as (_ & name & _ & Hname & ->). right. by exists name.
Qed.

Lemma valid_settings_key s : valid_settings s = true -> auth_enabled (auth s) = true -> truthy (api_key (auth s)) = true.
Proof.
  unfold valid_settings, validate_auth. intros Hv Ha. bool_hyps.
  match goal with H : is_none (first_error [(auth_enabled _ && _, _)]) = true |- _ => apply is_none_true, first_error_none in H;
    apply Forall_cons_1 in H as [H _]; cbn in H; rewrite Ha in H; by apply negb_false_iff in H end.
Qed.

Lemma cli_lookup database_url log_level overrides k :
  cli_kwargs database_url log_level overrides !! k =
    match overrides !! k with
    | Some v => Some v
    | None =>
        if (k ==? "log_level") && truthy log_level then Some (JStr (str_or log_level ""))
        else if (k ==? "database_url") && truthy database_url then Some (JStr (str_or database_url "")) else None
    end.
Proof.
  unfold cli_kwargs, dict_update. rewrite lookup_union. destruct (overrides !! k) as [v|]; [by destruct (_ !! k)|].
  unfold set_when. destruct (truthy log_level), (truthy database_url);
    repeat case_bool_decide; subst; try discriminate; cbn; by simplify_map_eq.
Qed.

Lemma main_overrides host port k :
  set_when (not_none port) "port" (JInt (default 0 port))
    (set_when (not_none host) "host" (JStr (default "" host)) ∅) !! k =
  if (k ==? "port") && not_none port then Some (JInt (default 0 port))
  else if (k ==? "host") && not_none host then Some (JStr (default "" host)) else None.
Proof.
  unfold set_when. destruct host, port; repeat case_bool_decide; subst; try discriminate; cbn; by simplify_map_eq.
Qed.

Section loaded.
Context (host : option string) (port : option Z) (database_url log_level : option string) (path : string) (s : GatewaySettings).
Abbreviation overrides :=
  (set_when (not_none port) "port" (JInt (default 0 port))
    (set_when (not_none host) "host" (JStr (default "" host)) ∅)).
Hypothesis loaded : build_settings (Some path) (cli_kwargs database_url log_level overrides) = Ok s.

Lemma cli_string k f v : (k, f) ∈ string_fields ->
  cli_kwargs database_url log_level overrides !! k = Some (JStr v) -> f s = v.
Proof.
  intros Hk E. destruct (build_settings_ok _ _ _ loaded) as (data & _ & Hp & _).
  pose proof (field_value _ _ _ _ _ Hk Hp) as Hf. unfold first_value in Hf. rewrite E in Hf. by injection (Hf eq_refl).
Qed.

Lemma cli_host h : host = Some h -> Config.host s = h.
Proof.
  intros E. apply (cli_string "host"); [cbn; set_solver|]. rewrite cli_lookup, main_overrides, E. by destruct (not_none port).
Qed.

Lemma cli_port n : port = Some n -> Config.port s = n.
Proof.
  intros E. destruct (build_settings_ok _ _ _ loaded) as (data & _ & Hp & _). eapply parse_port; [exact Hp|].
  apply layered_lookup; [|done]. unfold first_value. by rewrite cli_lookup, main_overrides, E.
Qed.

Lemma cli_database_url : truthy database_url = true -> database_url = Some (Config.database_url s).
Proof.
  intros Ht. destruct (truthy_some _ Ht) as [u E]. rewrite E. f_equal. symmetry. apply (cli_string "database_url"); [cbn; set_solver|].
  rewrite cli_lookup, main_overrides, Ht, E. cbn in *. rewrite E in Ht. apply negb_true_iff in Ht. by rewrite Ht.
Qed.

Lemma cli_log_level : truthy log_level = true -> log_level = Some (Config.log_level s).
Proof.
  intros Ht. destruct (truthy_some _ Ht) as [u E]. rewrite E. f_equal. symmetry. apply (cli_string "log_level"); [cbn; set_solver|].
  rewrite cli_lookup, main_overrides, Ht, E. cbn in *. rewrite E in Ht. apply negb_true_iff in Ht. by rewrite Ht.
Qed.

Lemma cli_resolved_level : str_or log_level (Config.log_level s) = Config.log_level s.
Proof.
  destruct (truthy log_level) eqn:Ht.
  - rewrite (cli_log_level Ht) at 1. cbn. by destruct (_ ==? _).
  - clear -Ht. destruct log_level as [u|]; [|done]. cbn in *. apply negb_false_iff in Ht. by rewrite Ht.
Qed.

Lemma cli_bind_host : default (Config.host s) host = Config.host s.
Proof. pose proof cli_host as Hh. clear -Hh. destruct host; [symmetry; by apply Hh|done]. Qed.

Lemma cli_bind_port : default (Config.port s) port = Config.port s.
Proof. pose proof cli_port as Hh. clear -Hh. destruct port; [symmetry; by apply Hh|done]. Qed.
End loaded.

Lemma bind_guard_spec s :
  match enforce_bind_guard s (Some (Config.host s)) with
  | Ok _ => enforce_bind_guard s None = Ok tt /\ (auth_enabled (auth s) = true \/ is_public_bind_host (Config.host s) = false)
  | Raise e => auth_enabled (auth s) = false /\ is_public_bind_host (Config.host s) = true
  | Diverged => False
  end.
Proof.
  unfold enforce_bind_guard. destruct (auth_enabled (auth s)); [by split; [|left]|].
  rewrite str_or_self. cbn.
  destruct (is_public_bind_host _); [done|by split; [|right]].
Qed.


(** ** Migrations *)

End main.

(** ** The life of the engine *)

Section engine.
Context `{Surroundings} `{!Pydantic} `{!Sqlalchemy}.

(** What a process does with the globals of [db/base.py], in any order; an
    exception is the caller's. *)
Inductive EngineOp :=
| OpInit (url : option string) (echo : bool) | OpShutdown | OpEngine | OpFactory | OpSession.

Definition engine_op (op : EngineOp) (g : Globals) : Globals :=
  match op with
  | OpInit url echo => (init_engine url echo g).2
  | OpShutdown => (shutdown_engine g).2
  | OpEngine => (get_engine g).2
  | OpFactory => (get_session_factory g).2
  | OpSession => (get_db_session g).2
  end.

Definition engine_ops (ops : list EngineOp) (g : Globals) : Globals := fold_left (fun g op => engine_op op g) ops g.

(** Sessions are of the engine; the engine has not been disposed of. *)
Record engine_ok (g : Globals) : Prop := {
  eo_factory : session_factory g = engine g;
  eo_live e : engine g = Some e -> (eng_id e < engines_made g)%nat /\ eng_id e ∉ engines_disposed g;
  eo_disposed i : i ∈ engines_disposed g -> (i < engines_made g)%nat
}.

Lemma engine_ok_same g g' : engine g' = engine g -> session_factory g' = session_factory g ->
  engines_made g' = engines_made g -> engines_disposed g' = engines_disposed g -> engine_ok g -> engine_ok g'.
Proof. intros E1 E2 E3 E4 [Hf Hl Hd]. split; rewrite ?E1, ?E2, ?E3, ?E4; done. Qed.

(** Reading the settings leaves the engine alone. *)
Lemma get_settings_engine g : let g' := (get_settings g).2 in
  engine g' = engine g /\ session_factory g' = session_factory g /\ engines_made g' = engines_made g /\
  engines_disposed g' = engines_disposed g.
Proof.
  unfold get_settings. rewrite g_bind_unfold. cbn. destruct (cached_settings g); [done|].
  rewrite load_settings_unfold. cbv zeta. by destruct (build_settings _ _).
Qed.

Lemma replace_engine_spec url echo g : engine_ok g ->
  match replace_engine url echo g with
  | (Ok e, g') => engine_ok g' /\ engine g' = Some e /\ eng_url e = url /\ eng_id e = engines_made g /\
      engines_disposed g' = engines_disposed g /\
      eng_check_same_thread e = if startswith url "sqlite" then Some false else None
  | (Raise e, g') => g' = g /\ url_error url = Some e
  | (Diverged, _) => False
  end.
Proof.
  intros [Hf Hl Hd]. unfold replace_engine, build_engine. rewrite g_bind_unfold. cbn [g_get]. rewrite g_bind_unfold. unfold g_lift.
  destruct (url_error url) as [e|] eqn:E; [done|]. rewrite !g_bind_unfold. cbn. split_and!; try done. split; cbn.
  - done.
  - intros e [= <-]. cbn. split; [lia|]. intros Hin%Hd. lia.
  - intros i Hi%Hd. lia.
Qed.

Lemma init_engine_spec url echo g : engine_ok g -> url <> "" ->
  match init_engine (Some url) echo g with
  | (Ok e, g') => engine_ok g' /\ engine g' = Some e /\
      (engine g = Some e /\ url_str (eng_url e) = url /\ g' = g \/
       eng_url e = url /\ eng_id e = engines_made g /\ engines_disposed g' = engines_disposed g /\
       eng_check_same_thread e = if startswith url "sqlite" then Some false else None)
  | (Raise e, g') => g' = g /\ url_error url = Some e
  | (Diverged, _) => False
  end.
Proof.
  intros Hok Hne. unfold init_engine. rewrite g_bind_unfold. cbn [truthy str_or]. rewrite bool_decide_false by done. cbn [negb].
  unfold mret at 1, G_ret at 1. rewrite g_bind_unfold. cbn [g_get].
  pose proof (replace_engine_spec url echo g Hok) as Hr.
  destruct (engine g) as [e|] eqn:Ee; [destruct (url_str (eng_url e) ==? url) eqn:Eu|].
  - cbn. split_and!; try done. left. split_and!; try done. by apply bool_decide_eq_true in Eu.
  - destruct (replace_engine url echo g) as [[e'|e'|] g']; [|done..]. naive_solver.
  - destruct (replace_engine url echo g) as [[e'|e'|] g']; [|done..]. naive_solver.
Qed.

Lemma engine_op_ok op g : engine_ok g -> engine_ok (engine_op op g).
Proof.
  intros Hok. destruct op as [url echo| | | |]; cbn [engine_op].
  - unfold init_engine. rewrite g_bind_unfold.
    match goal with |- context [(if truthy url then ?a else ?b) g] =>
      set (r := (if truthy url then a else b) g); assert (Hu : engine_ok r.2) end.
    { unfold r. destruct (truthy url); [done|]. rewrite g_bind_unfold. pose proof (get_settings_engine g) as (E1 & E2 & E3 & E4).
      destruct (get_settings g) as [[s|e|] g1]; cbn in *; by apply (engine_ok_same g). }
    destruct r as [[u|e|] g1]; cbn in Hu; [|done..].
    rewrite g_bind_unfold. cbn [g_get].
    pose proof (replace_engine_spec u echo g1 Hu) as Hr.
    assert (Hre : engine_ok (replace_engine u echo g1).2).
    { destruct (replace_engine u echo g1) as [[e|e|] g2]; cbn in *; [tauto| |done]. by destruct Hr as [-> _]. }
    destruct (engine g1); [|done]. by destruct (_ ==? _).
  - destruct Hok as [Hf Hl Hd]. split; [done|done|]. intros i Hi. unfold shutdown_engine in *.
    rewrite !g_bind_unfold in *. cbn in *.
    destruct (engine g) as [e|]; [|by apply Hd]. apply elem_of_cons in Hi as [->|Hi]; [by apply Hl|by apply Hd].
  - unfold get_engine. rewrite g_bind_unfold. cbn. by destruct (engine g).
  - unfold get_session_factory. rewrite g_bind_unfold. cbn. by destruct (session_factory g).
  - unfold get_db_session. rewrite g_bind_unfold. cbn. by destruct (session_factory g).
Qed.

Lemma engine_ops_ok ops g : engine_ok g -> engine_ok (engine_ops ops g).
Proof. revert g. induction ops as [|op ops IH]; intros g Hok; [done|]. cbn. by apply IH, engine_op_ok. Qed.

Lemma fresh_ok : engine_ok fresh_globals.
Proof. split; cbn; [done|done|]. intros i Hi. by apply elem_of_nil in Hi. Qed.

(** Whatever a process has done with its engine before: a successful [init_engine]
    makes the engine, the session factory and the sessions those of one engine that has not
    been disposed of and was made for the URL or is the one whose URL reads the
    same; one that raises changes nothing; [shutdown_engine] disposes of the engine, and
    then all three getters raise until the next [init_engine]. *)
Lemma engine_life ops url echo (Hurl : url <> "") :
  let g := engine_ops ops fresh_globals in
  match init_engine (Some url) echo g with
  | (Ok e, g') =>
      get_engine g' = (Ok e, g') /\ get_session_factory g' = (Ok e, g') /\ get_db_session g' = (Ok e, g') /\
      eng_id e ∉ engines_disposed g' /\
      (eng_url e = url \/ url_str (eng_url e) = url /\ g' = g) /\
      exists g2, shutdown_engine g' = (Ok tt, g2) /\ engines_disposed g2 = eng_id e :: engines_disposed g' /\
        get_engine g2 = (Raise (not_initialized "engine"), g2) /\
        get_session_factory g2 = (Raise (not_initialized "session factory"), g2) /\
        get_db_session g2 = (Raise (not_initialized "session factory"), g2)
  | (Raise e, g') => g' = g /\ url_error url = Some e
  | (Diverged, _) => False
  end.
Proof.
  cbv zeta. set (g := engine_ops ops fresh_globals). assert (Hok : engine_ok g) by apply engine_ops_ok, fresh_ok.
  pose proof (init_engine_spec url echo g Hok Hurl) as Hi.
  destruct (init_engine (Some url) echo g) as [[e|e|] g']; [|done..]. destruct Hi as (Hok' & He & Hcase).
  unfold get_engine, get_session_factory, get_db_session. rewrite !g_bind_unfold. cbn [g_get].
  rewrite (eo_factory _ Hok'), He. split_and!; try done.
  - by apply (eo_live _ Hok').
  - destruct Hcase as [(_ & Hu & Hg)|(Hu & _)]; [by right|by left].
  - unfold shutdown_engine. rewrite !g_bind_unfold. cbn [g_get]. rewrite He. by eexists.
Qed.

(** When SQLAlchemy hides a part of the URL in its text, as it does with
    passwords, [init_engine] replaces the engine for the same URL, and the engine before it is
    not disposed of. *)
Lemma masked_url_is_not_reused url e g : engine_ok g -> engine g = Some e -> eng_url e = url -> url <> "" ->
  url_str url <> url -> url_error url = None ->
  exists e' g', init_engine (Some url) (eng_echo e) g = (Ok e', g') /\ eng_id e' <> eng_id e /\
    engines_disposed g' = engines_disposed g.
Proof.
  intros Hok He Hu Hne Hm Herr. pose proof (init_engine_spec url (eng_echo e) g Hok Hne) as Hi.
  destruct (init_engine (Some url) (eng_echo e) g) as [[e'|x|] g']; [|by destruct Hi as [_ Hi]; congruence|done].
  exists e', g'. split; [done|]. destruct Hi as (_ & _ & [(He' & Hs & _)|(_ & Hid & Hd & _)]); [congruence|].
  split; [|done]. destruct (eo_live _ Hok e He) as [Hl _]. lia.
Qed.
End engine.

(** ** Witnesses: a machine with a configuration file and an environment *)

Module Machine.
Definition yaml_text : string := "host: 0.0.0.0".

#[export] Instance surroundings : Surroundings := {|
  read_file path := if path ==? "config.yaml" then Some (Ok yaml_text) else None;
  yaml_safe_load text :=
    if text ==? yaml_text then Ok (JObj [("host", JStr "0.0.0.0"); ("log_level", JStr "warning")])
    else Raise (ValueError "YAML");
  environ name := if name ==? "MINERU_GATEWAY_DATABASE_URL" then Some "sqlite+aiosqlite:///./env.db" else None;
  x_argument _ := None
|}.

(** A string field, which takes strings only. *)
Definition str_field (d : dict) (k dflt : string) : outcome string :=
  match d !! k with
  | None => Ok dflt
  | Some (JStr v) => Ok v
  | Some _ => Raise (ValueError k)
  end.

Definition parse (d : dict) : outcome GatewaySettings :=
  dep ← str_field d "deployment_id" (deployment_id default_settings) ;
  url ← str_field d "database_url" (Config.database_url default_settings) ;
  hst ← str_field d "host" (Config.host default_settings) ;
  lvl ← str_field d "log_level" (Config.log_level default_settings) ;
  let prt := match d !! "port" with Some (JInt n) => n | _ => Config.port default_settings end in
  let s := default_settings in
  Ok (mkGatewaySettings dep url hst prt lvl (max_file_size_bytes s) (task_sla_seconds s) (cloud_workers_enabled s)
        (scaling s) (reconciliation s) (retention s) (cache s) (cloud s) (rotation s) (scheduler s) (attribution s)
        (auth s) (otel s)).

#[export] Instance pydantic : Pydantic := {|
  env_settings := {[ "database_url" := JStr "sqlite+aiosqlite:///./env.db" ]};
  deep_update lower upper := upper ∪ lower;
  parse_fields := parse
|}.

#[export] Instance sqlalchemy : Sqlalchemy := {| url_error _ := None; url_str url := url |}.
#[export] Instance release : MinerURelease := {|
  API_PROTOCOL_VERSION := 2; MINERU_VERSION := "3.4.4"; is_public_bind_host h := h ==? "0.0.0.0"
|}.

Lemma str_field_ok d k dflt v : str_field d k dflt = Ok v ->
  match d !! k with Some j => j = JStr v | None => v = dflt end.
Proof. unfold str_field. destruct (d !! k) as [[]|]; congruence. Qed.

#[export] Instance pydantic_laws : PydanticLaws.
Proof.
  split.
  - intros lower upper k v E _. cbn. by apply lookup_union_Some_l.
  - intros lower upper k E. cbn. by rewrite lookup_union_r.
  - intros d s k f Hp Hk. cbn in Hp. unfold parse in Hp.
    destruct (str_field d "deployment_id" _) eqn:E1; [|done..]. destruct (str_field d "database_url" _) eqn:E2; [|done..].
    destruct (str_field d "host" _) eqn:E3; [|done..]. destruct (str_field d "log_level" _) eqn:E4; [|done..].
    apply str_field_ok in E1, E2, E3, E4. injection Hp as <-. unfold string_fields in Hk. rewrite !elem_of_cons, elem_of_nil in Hk.
    destruct Hk as [[= -> ->]|[[= -> ->]|[[= -> ->]|[[= -> ->]|[]]]]]; done.
  - intros d s n Hp E. cbn in Hp. unfold parse in Hp. destruct (str_field d "deployment_id" _); [|done..].
    destruct (str_field d "database_url" _); [|done..]. destruct (str_field d "host" _); [|done..].
    destruct (str_field d "log_level" _); [|done..]. rewrite E in Hp. by injection Hp as <-.
Qed.

(** [mineru-gateway --host 127.0.0.1] with the file that says [0.0.0.0]. *)
Definition served : outcome Serving * Globals :=
  gateway_main (Some "127.0.0.1") None "config.yaml" None false None fresh_globals.
End Machine.
Import Machine.



