(* ===== verification/AppSpec.v ===== *)
(** * AppSpec: what the application makes of a request

    The key check stands before everything else, every route's reply carries the
    attribution, each request that passes leaves one line about its end, and the
    table of routes is unambiguous. *)
From S2P Require Import Prelude Models Config World Logic Json Payload PyText Storage Status Ingest TaskApi AdminApi.
From S2P Require Import CacheService Normalize Ocr Startup Boot App.

(** ** The stack *)

Section app.
Context `{Surroundings} `{!Pydantic}.
Context (settings : GatewaySettings) (select_one store_validate : M unit).
Context `{Env} `{!DocumentClient} `{!MinerUIntake} `{!ObjectStore} `{!Sha256} `{!Elsewhere} `{!ResultReader}.
Context `{!MinerURelease} `{!FastApi} `{!FastApiLaws}.

(** The application that [create_app] returns for these settings. *)
Definition gateway_app : FastAPI :=
  mkFastAPI settings
    ((if attribution_enabled (attribution settings) then [AttributionHeaders] else []) ++ [RequestLogging; ApiKey])
    (register_routes []).

Lemma create_app_result g : create_app (Some settings) g = (Ok gateway_app, g).
Proof. unfold create_app, gateway_app. rewrite g_bind_unfold. cbn. by destruct (attribution_enabled _). Qed.

Abbreviation routed := (router gateway_app select_one store_validate).
Abbreviation served := (serve gateway_app select_one store_validate).

(** The attribution on a response. *)
Definition stamped (r : Response) : Response :=
  if attribution_enabled (attribution settings)
  then set_header VERSION_HEADER_NAME MINERU_VERSION (set_header POWERED_BY_HEADER UPSTREAM_NAME r) else r.

Lemma stamped_status r : status_code (stamped r) = status_code r.
Proof. unfold stamped. by destruct (attribution_enabled _). Qed.

(** What is inside the key check. *)
Definition inside (q : HttpRequest) (w : World) : outcome Response * World * list LogLine :=
  let first := LogRequest (h_method q) (h_path q) (default "-" (h_client q)) in
  match routed q w with
  | (Ok r, w', l) =>
      (Ok (stamped r), w',
       first :: l ++ [LogDone (done_level (h_method q) (status_code r)) (h_method q) (h_path q) (status_code r)])
  | (Raise e, w', l) => (Raise e, w', first :: l ++ [LogFailed (h_method q) (h_path q)])
  | (Diverged, w', l) => (Diverged, w', first :: l)
  end.

Lemma request_logging_run q (next : Handler) w :
  request_logging q next w =
    let first := LogRequest (h_method q) (h_path q) (default "-" (h_client q)) in
    match next q w with
    | (Ok r, w', l) =>
        (Ok r, w', first :: l ++ [LogDone (done_level (h_method q) (status_code r)) (h_method q) (h_path q) (status_code r)])
    | (Raise e, w', l) => (Raise e, w', first :: l ++ [LogFailed (h_method q) (h_path q)])
    | (Diverged, w', l) => (Diverged, w', first :: l)
    end.
Proof.
  unfold request_logging, mbind, H_bind, h_log, h_try, h_lift, mret, H_ret. cbn.
  destruct (next q w) as [[[r|e|] w'] l]; cbn; by rewrite ?app_nil_r.
Qed.

Lemma attribution_run q (next : Handler) w :
  attribution_middleware q next w =
    match next q w with
    | (Ok r, w', l) =>
        (Ok (set_header VERSION_HEADER_NAME MINERU_VERSION (set_header POWERED_BY_HEADER UPSTREAM_NAME r)), w', l)
    | (Raise e, w', l) => (Raise e, w', l)
    | (Diverged, w', l) => (Diverged, w', l)
    end.
Proof.
  unfold attribution_middleware, mbind, H_bind, mret, H_ret.
  destruct (next q w) as [[[r|e|] w'] l]; by rewrite ?app_nil_r.
Qed.

Lemma stack_run q w :
  asgi (map (middleware_of gateway_app) (app_middleware gateway_app)) routed q w =
  api_key_middleware settings q inside w.
Proof.
  rewrite asgi_order.
  change (app_middleware gateway_app) with
    ((if attribution_enabled (attribution settings) then [AttributionHeaders] else []) ++ [RequestLogging; ApiKey]).
  unfold inside, stamped.
  destruct (attribution_enabled (attribution settings)); cbn [app map fold_left middleware_of].
  all: unfold api_key_middleware, mbind, H_bind, h_lift; change (app_settings gateway_app) with settings.
  all: destruct (auth_dispatch _ _ _ _) as [[reply|]|e|]; try done.
  all: rewrite request_logging_run; rewrite ?attribution_run; cbv zeta.
  all: by destruct (routed q w) as [[[r|e|] w'] l].
Qed.

(** A request that the key check lets through: no key is asked for, or it is the
    configured one. *)
Definition admitted (q : HttpRequest) : Prop :=
  auth_enabled (auth settings) = false \/ h_path q ∈ PUBLIC_PATHS \/
  let key := provided_key (h_x_api_key q) (h_authorization q) in
  key <> "" /\ is_ascii key = true /\ api_key (auth settings) = Some key.

Lemma auth_dispatch_cases q :
  match auth_dispatch settings (h_path q) (h_x_api_key q) (h_authorization q) with
  | Ok None => admitted q
  | Ok (Some reply) => reply = unauthorized /\ ~ admitted q
  | Raise e => ~ admitted q
  | Diverged => False
  end.
Proof.
  unfold auth_dispatch, admitted, resolved_keys. destruct (auth_enabled (auth settings)); cbn [negb]; [|by left].
  destruct (decide (h_path q ∈ PUBLIC_PATHS)) as [Hp|Hp]; [rewrite bool_decide_true by done; tauto|].
  rewrite (bool_decide_false (_ ∈ _)) by done. cbv zeta. set (p := provided_key _ _).
  destruct (decide (p = "")) as [Hz|Hne]; [rewrite bool_decide_true by done; split; [done|intros [?|[?|[? _]]]; done]|].
  rewrite bool_decide_false by done.
  destruct (api_key (auth settings)) as [key|] eqn:Ek; [|cbn; split; [done|intros [?|[?|(_ & _ & ?)]]; done]].
  destruct (decide (key = "")) as [Hk|Hk].
  { rewrite bool_decide_true by done. cbn. split; [done|]. intros [?|[?|(_ & _ & E)]]; [done..|]. congruence. }
  rewrite bool_decide_false by done. cbn. unfold compare_digest.
  destruct (is_ascii p && is_ascii key) eqn:Ea; cbn.
  - apply andb_true_iff in Ea as [Ea _]. case_bool_decide as E; cbn; [right; right; by subst|].
    split; [done|]. intros [?|[?|(_ & _ & E')]]; [done..|]. congruence.
  - intros [?|[?|(_ & Ea' & E')]]; [done..|]. injection E' as ->. by rewrite Ea' in Ea.
Qed.


(** With attribution on, every answer that a route gives names MinerU and its
    version, whatever the settings call the headers; the answers without are
    the 401 of the key check and the internal error. *)
Lemma routes_carry_attribution q w r w' l
    (Hon : attribution_enabled (attribution settings) = true)
    (Hr : served q w = (Ok r, w', l)) :
  rs_headers r !! "x-powered-by" = Some "MinerU" /\ rs_headers r !! "mineru-version" = Some MINERU_VERSION \/
  rs_headers r = ∅ /\ (rs_body r = OcrError unauthorized \/ rs_body r = OcrError internal_error).
Proof.
  revert Hr. unfold serve, h_try. rewrite stack_run. unfold api_key_middleware, mbind, H_bind, h_lift.
  pose proof (auth_dispatch_cases q) as Ha.
  destruct (auth_dispatch _ _ _ _) as [[reply|]|e|]; [| | |done].
  - destruct Ha as [-> _]. cbn. intros [= <- <- <-]. right. by split; [|left].
  - unfold inside, stamped. cbv zeta. rewrite Hon.
    destruct (routed q w) as [[[r0|e|] w1] l1]; cbn; intros [= <- <- <-]; [left|by right; split; [|right]].
    cbn. change (lower VERSION_HEADER_NAME) with "mineru-version". change (lower POWERED_BY_HEADER) with "x-powered-by".
    by simplify_map_eq.
  - cbn. intros [= <- <- <-]. right. by split; [|right].
Qed.
End app.

(** ** Routes *)

(** Templates that a path can match both. *)
Fixpoint overlap (t u : list Segment) : bool :=
  match t, u with
  | [], [] => true
  | Lit a :: t, Lit b :: u => (a ==? b) && overlap t u
  | _ :: t, _ :: u => overlap t u
  | _, _ => false
  end.

Lemma match_overlap t u p vs vs' : match_path t p = Some vs -> match_path u p = Some vs' -> overlap t u = true.
Proof.
  revert u p vs vs'. induction t as [|[a|] t IH]; intros [|[b|] u] [|x p] vs vs'; cbn; try done.
  - repeat case_bool_decide; try done; [|congruence]. intros Hm1 Hm2. by rewrite (IH _ _ _ _ Hm1 Hm2).
  - repeat case_bool_decide; try done. intros Hm1 Hm2. subst. destruct (match_path u p) eqn:E; [|done]. by eapply IH.
  - repeat case_bool_decide; try done. intros Hm1 Hm2. subst. destruct (match_path t p) eqn:E; [|done]. by eapply IH.
  - repeat case_bool_decide; try done. destruct (match_path t p) eqn:E1; [|done]. destruct (match_path u p) eqn:E2; [|done].
    intros _ _. by eapply IH.
Qed.

(** No request matches two routes of the table. *)
Fixpoint disjoint_routes (l : list Route) : bool :=
  match l with
  | [] => true
  | r :: l => forallb (fun r' => negb ((rt_method r ==? rt_method r') && overlap (rt_path r) (rt_path r'))) l &&
              disjoint_routes l
  end.

Lemma disjoint_routes_spec l q : disjoint_routes l = true -> (length (omap (match_route q) l) <= 1)%nat.
Proof.
  induction l as [|r l IH]; [cbn; lia|]. cbn [disjoint_routes]. intros [Hd Hl]%andb_true_iff. rewrite omap_cons.
  destruct (match_route q r) as [x|] eqn:E; [|by apply IH]. cbn [length].
  enough (omap (match_route q) l = []) as -> by done. clear IH Hl. rewrite forallb_forall in Hd.
  induction l as [|r' l IH]; [done|]. rewrite omap_cons.
  destruct (match_route q r') as [y|] eqn:E'.
  - exfalso. specialize (Hd r' (or_introl eq_refl)). unfold match_route in E, E'.
    destruct (h_method q ==? rt_method r) eqn:E1; [|done]. destruct (h_method q ==? rt_method r') eqn:E2; [|done].
    apply bool_decide_eq_true in E1, E2. destruct (match_path (rt_path r) _) eqn:E3; [|done].
    destruct (match_path (rt_path r') _) eqn:E4; [|done]. rewrite (match_overlap _ _ _ _ _ E3 E4) in Hd.
    rewrite bool_decide_true in Hd by congruence. done.
  - apply IH. intros x' Hx. apply Hd. by right.
Qed.

(** A segment that a path parameter takes. *)
Definition segment_text (s : string) : bool := (s !=? "") && forallb (fun c => negb (Ascii.eqb SLASH c)) (String.list_ascii_of_string s).

Lemma split_segment s : segment_text s = true -> split_char SLASH s = [s].
Proof.
  intros [_ H]%andb_true_iff. induction s as [|c s IH]; [done|].
  cbn [split_char String.list_ascii_of_string forallb] in *. apply andb_true_iff in H as [Hc Hs]. apply negb_true_iff in Hc. rewrite Hc. by rewrite IH.
Qed.

Lemma split_segment_rest s rest : segment_text s = true -> split_char SLASH (s +:+ "/" +:+ rest) = s :: split_char SLASH rest.
Proof.
  intros [_ H]%andb_true_iff. induction s as [|c s IH]; [done|].
  change ((String c s) +:+ "/" +:+ rest) with (String c (s +:+ "/" +:+ rest)).
  cbn [split_char String.list_ascii_of_string forallb] in *. apply andb_true_iff in H as [Hc Hs].
  apply negb_true_iff in Hc. rewrite Hc. by rewrite IH.
Qed.

Definition gateway_routes : list Route := register_routes [].

(** A path that needs no key matches the templates of the probes only. *)
Definition probe (op : Operation) : bool := match op with OpHealth | OpReady => true | _ => false end.

Lemma public_paths_checked :
  forallb (fun p => forallb (fun r => is_none (match_path (rt_path r) (path_segments p)) || probe (rt_op r)) gateway_routes)
    PUBLIC_PATHS = true.
Proof. vm_compute. reflexivity. Qed.

Lemma find_route_in routes q op vs : find_route routes q = Some (op, vs) ->
  exists r, r ∈ routes /\ rt_op r = op /\ match_path (rt_path r) (path_segments (h_path q)) = Some vs.
Proof.
  unfold find_route. intros Hh. apply head_Some_elem_of in Hh. apply list_elem_of_omap in Hh as (r & Hr & Hm).
  exists r. split; [done|]. unfold match_route in Hm. destruct (_ ==? _); [|done].
  destruct (match_path _ _); [|done]. cbn in Hm. by injection Hm as -> ->.
Qed.

Lemma find_route_first routes q r vs : (length (omap (match_route q) routes) <= 1)%nat -> r ∈ routes ->
  match_route q r = Some (rt_op r, vs) -> find_route routes q = Some (rt_op r, vs).
Proof.
  intros Hl Hr Hm. unfold find_route.
  assert (Hin : (rt_op r, vs) ∈ omap (match_route q) routes) by (apply list_elem_of_omap; by exists r).
  destruct (omap (match_route q) routes) as [|x [|y l]]; [by apply elem_of_nil in Hin| |cbn in Hl; lia].
  apply list_elem_of_singleton in Hin. cbn. by f_equal.
Qed.

Lemma gateway_routes_unique q : (length (omap (match_route q) gateway_routes) <= 1)%nat.
Proof. apply disjoint_routes_spec. vm_compute. reflexivity. Qed.

(** No request matches two routes of the table; a path that needs no key leads to
    the two probes or to no route; and the two addresses that a task's answer
    gives lead back to that task. *)
Theorem routing_is_exact `{FastApiLaws} (q : HttpRequest) :
  (length (omap (match_route q) gateway_routes) <= 1)%nat /\
  (h_path q ∈ PUBLIC_PATHS -> match route_for gateway_routes q with
                              | Some (op, _) => op = OpHealth \/ op = OpReady
                              | None => True
                              end) /\
  (forall id, segment_text id = true -> h_method q = "GET" ->
     (h_path q = task_status_url id -> route_for gateway_routes q = Some (OpTaskStatus, [id])) /\
     (h_path q = task_result_url id -> route_for gateway_routes q = Some (OpTaskResult, [id]))).
Proof.
  rewrite !route_first.
  split; [apply gateway_routes_unique|split].
  - intros Hp. destruct (find_route gateway_routes q) as [[op vs]|] eqn:E; [|done].
    apply find_route_in in E as (r & Hr & <- & Hm). pose proof public_paths_checked as Hc.
    rewrite forallb_forall in Hc. apply list_elem_of_In in Hp. specialize (Hc _ Hp).
    rewrite forallb_forall in Hc. apply list_elem_of_In in Hr. specialize (Hc _ Hr). rewrite Hm in Hc. cbn in Hc.
    destruct (rt_op r); auto; done.
  - intros id Hid Hm. assert (Hne : id ==? "" = false).
    { apply andb_true_iff in Hid as [Hid _]. by apply negb_true_iff. }
    split; intros Hp.
    + apply (find_route_first _ q (mkRoute "GET" [Lit "tasks"; Param] OpTaskStatus)); [apply gateway_routes_unique|right; left|].
      unfold match_route, path_segments. cbn [rt_method rt_path rt_op]. rewrite Hp, bool_decide_true by done.
      unfold task_status_url. change ("/tasks/" +:+ id) with ("/" +:+ ("tasks" +:+ "/" +:+ id)).
      rewrite removeprefix_app, split_segment_rest by done. rewrite split_segment by done. cbn. by rewrite Hne.
    + apply (find_route_first _ q (mkRoute "GET" [Lit "tasks"; Param; Lit "result"] OpTaskResult));
        [apply gateway_routes_unique|right; right; left|].
      unfold match_route, path_segments. cbn [rt_method rt_path rt_op]. rewrite Hp, bool_decide_true by done.
      unfold task_result_url. change ("/tasks/" +:+ id +:+ "/result") with ("/" +:+ ("tasks" +:+ "/" +:+ (id +:+ "/" +:+ "result"))).
      rewrite removeprefix_app, split_segment_rest by done. rewrite split_segment_rest by done. cbn. by rewrite Hne.
Qed.

(** ** Witnesses *)

From S2P Require Import World Database S3 Upstream Lock Provider Demo IngestSpec GatewaySpec OcrSpec StartupSpec BootSpec.
Import Machine.

Section witnesses.

#[local] Instance nested : FastApi := {|
  asgi ms h := fold_left (fun next m => fun r => m r next) ms h;
  route_for := find_route;
  no_route _ := JSONResponse 404 [("detail", JStr "Not Found")];
  unprocessable _ := JSONResponse 422 [];
  http_exception e := match e with StatusCodeError s m => Some (JSONResponse s [("detail", JStr m)]) | _ => None end;
  internal_error := JSONResponse 500 []
|}.
#[local] Instance nested_laws : FastApiLaws.
Proof. split; reflexivity. Qed.

Definition get_request (path : string) (key : option string) : HttpRequest :=
  mkHttpRequest "GET" path key None (Some "10.0.0.1") (inl []) "" "" None None None.

Definition reach : M unit := mret tt.
Definition answer (q : HttpRequest) := serve (gateway_app guarded_settings) reach reach q gateway_demo.


Lemma routing_is_exact_witness :
  route_for gateway_routes (get_request (task_result_url "t1") None) = Some (OpTaskResult, ["t1"]).
Proof.
  destruct (routing_is_exact (get_request (task_result_url "t1") None)) as (_ & _ & Hr).
  by apply (Hr "t1" eq_refl eq_refl).
Defined.
End witnesses.
