(* ===== verification/RequestSpec.v ===== *)
(** * RequestSpec: requests are steps of the system

    The gateway's application, from the middlewares to the endpoints, refines the
    steps of [System]: whatever a request is, serving it takes the world along
    steps that the system may take, so what holds in every reachable world holds
    between and during requests; and every request is answered. *)
From S2P Require Import Prelude Models CloudTypes Config Scaling World Database Logic Hoare Json Payload PyText.
From S2P Require Import Storage Status Lifecycle TaskRows Upstream WorkerRepository CacheService Results.
From S2P Require Import TaskRepository Lock Provider Health Reconcile Scheduler Fleet Retention Ingest TaskApi AdminApi.
From S2P Require Import Normalize NormalizeSpec Ocr Startup System Boot App AppSpec FleetTypes IngestSpec GatewaySpec OcrSpec SystemSpec.

Section requests.
Context (settings : GatewaySettings) (has_provider : bool).
Context `{Env} `{!ObjectStore} `{!Http} `{!MinerU} `{!ComputeProvider} `{!LockServer}.
Context `{!MinerUIntake} `{!Sha256} `{!DocumentClient} `{!Elsewhere} `{!ResultReader} `{!MinerURelease}.

Abbreviation reaches := (reachable settings has_provider).

(** ** Operations that go along steps of the system *)

(** From a sound world [m] ends, and took only steps of the system. *)
Definition steps {A} (m : M A) : Prop := forall w, sound w -> (m w).1 <> Diverged /\ reaches w (m w).2.

Lemma reaches_sound w w' : sound w -> reaches w w' -> sound w'.
Proof. intros HS Hr. by apply (reachable_kept settings has_provider w). Qed.

Lemma steps_bind {A B} (m : M A) (f : A -> M B) : steps m -> (forall a, steps (f a)) -> steps (m ≫= f).
Proof.
  intros Hm Hf w HS. destruct (Hm w HS) as [Hd Hr]. rewrite bind_unfold.
  destruct (m w) as [[a|e|] w1]; cbn in *; [|by split|done].
  destruct (Hf a w1) as [Hd1 Hr1]; [by eapply reaches_sound|]. split; [done|]. by etrans.
Qed.

Lemma steps_try {A} (m : M A) (h : exn -> M A) : steps m -> (forall e, steps (h e)) -> steps (try_ m h).
Proof.
  intros Hm Hh w HS. destruct (Hm w HS) as [Hd Hr]. unfold try_.
  destruct (m w) as [[a|e|] w1]; cbn in *; [by split| |done].
  destruct (Hh e w1) as [Hd1 Hr1]; [by eapply reaches_sound|]. split; [done|]. by etrans.
Qed.

Lemma steps_data {A} (m : M A) : evolves same_data m -> steps m.
Proof. intros Hm w _. destruct (Hm w) as [Hd Hs]. split; [done|]. apply rtc_once. by constructor. Qed.

Lemma steps_wp {A} (m : M A) : (forall w, wp m (fun _ => same_data w) (fun _ => same_data w) w) -> steps m.
Proof. intros Hm. by apply steps_data, evolves_wp. Qed.

Lemma steps_ret {A} (a : A) : steps (mret a).
Proof. apply steps_data, evolves_ret, _. Qed.

Lemma steps_lift {A} (o : outcome A) : o <> Diverged -> steps (lift o).
Proof. intros Ho. apply steps_data. destruct o; [apply evolves_ret, _|apply evolves_raise, _|done]. Qed.

(** An action of the system, and what goes on with its result. *)
Lemma steps_action {A} a (m : M A) : perform settings has_provider a = run_only m -> steps m.
Proof.
  intros E w HS. pose proof (perform_kept settings has_provider a w HS) as Hk.
  assert (Hrun : perform settings has_provider a w =
    match m w with (Ok _, w') => (Ok tt, w') | (Raise e, w') => (Raise e, w') | (Diverged, w') => (Diverged, w') end)
    by (rewrite E; reflexivity).
  destruct (m w) as [[x|e|] w1] eqn:Em; cbn.
  1,2: split; [done|]; apply rtc_once; by eapply step_action.
  unfold wp in Hk. by rewrite Hrun in Hk.
Qed.

Lemma steps_ingest request : check_admission settings request = Ok tt -> steps (ingest_task settings request true "tasks").
Proof.
  intros Ha w HS. destruct (steps_action (SubmitTask request) (submit_task settings request true) eq_refl w HS) as [Hd Hr].
  revert Hd Hr. unfold submit_task. rewrite Ha. cbn [require_store lift]. rewrite bind_unfold. unfold lift at 1 2. cbv iota beta. rewrite bind_unfold.
  by destruct (ingest_task settings request true "tasks" w) as [[r|e|] w1].
Qed.

(** ** Synchronous routes *)

(** While a request sleeps the others take steps. *)
Definition others_step : Prop := forall w, sound w -> reaches w (elsewhere w).2.
Context (Hothers : others_step).

Lemma steps_elsewhere : steps elsewhere.
Proof.
  intros w HS. split; [|by apply Hothers]. destruct (elsewhere_returns w) as [w' E]. by rewrite E.
Qed.

Lemma steps_fetch id : steps (fetch_result_or_none id).
Proof. apply steps_wp. intros w. eapply wp_mono; [apply fetch_result_wp|by intros o w' [? _]|done]. Qed.

Lemma steps_poll n id : forall last, steps (poll_loop n id last).
Proof.
  induction n as [|n IH]; intros last; cbn [poll_loop]; [apply steps_ret|].
  apply steps_bind; [apply steps_data; unfold load_task; evolve|]. intros [r|]; [|apply steps_ret].
  destruct (is_poll_complete r); [apply steps_ret|]. apply steps_bind; [apply steps_elsewhere|auto].
Qed.

Lemma steps_resolve id row : steps (resolve_sync_result id row true).
Proof.
  unfold resolve_sync_result, try_fetch_result_bytes. destruct row as [row|]; [|apply steps_ret].
  destruct (_ ∈? _); [apply steps_ret|]. apply steps_bind.
  - destruct (_ || _); [apply steps_ret|apply steps_fetch].
  - intros [data|]; [apply steps_ret|]. destruct (not_none _); [apply steps_ret|]. destruct (negb _); apply steps_ret.
Qed.

Lemma admission_returns request : check_admission settings request <> Diverged.
Proof. unfold check_admission, check_file_size. repeat case_match; try done; congruence. Qed.

Lemma steps_admitted {A} request (m : M A) : (check_admission settings request = Ok tt -> steps m) ->
  steps (lift (check_admission settings request) ;; m).
Proof.
  intros Hm. destruct (check_admission settings request) as [[]|e|] eqn:Ea.
  - apply steps_bind; [apply steps_ret|auto].
  - intros w _. by split.
  - by apply admission_returns in Ea.
Qed.

Lemma steps_request {A} request detail (m : M A) (f : Reply -> A) :
  (check_admission settings request = Ok tt -> steps m) ->
  steps (lift (check_admission settings request) ;;
         match require_store true detail with Some reply => mret (f reply) | None => m end).
Proof. apply steps_admitted. Qed.

Lemma steps_file_parse request : steps (file_parse settings request true).
Proof.
  apply steps_request with (f := fun reply => reply). intros Ha.
  apply steps_bind; [by apply steps_ingest|intros r]. cbv zeta.
  apply steps_bind; [destruct (_ && _); [apply steps_fetch|apply steps_ret]|].
  intros [data|]; [apply steps_ret|]. apply steps_bind; [apply steps_poll|intros row].
  apply steps_bind; [apply steps_resolve|]. intros [data|reply]; apply steps_ret.
Qed.

(** ** The OCR route *)

Lemma steps_extract body pub allow : steps (extract_document settings body pub allow).
Proof. apply steps_wp. intros w. eapply wp_mono; [apply extract_document_wp|by intros [o n] w' [? _]|done]. Qed.

Lemma steps_payload data name body : steps (build_payload data name body).
Proof. apply steps_wp. intros w. eapply wp_mono; [apply build_payload_wp|by intros s w' [? _]|by intros e w' [? _]]. Qed.

Lemma steps_ocr_response body data : steps (ocr_response body data).
Proof.
  apply steps_bind; [|intros pages; apply steps_ret]. apply steps_lift.
  pose proof (normalize_result_returns (Some data) None) as Hr. by destruct (normalize_result _ _).
Qed.

Lemma steps_create_ocr request body : steps (create_ocr settings request body true).
Proof.
  apply steps_admitted. intros _. apply steps_bind; [apply steps_extract|]. intros [[data|] name]; [|apply steps_ret].
  cbn [require_store]. apply steps_bind.
  - apply steps_try; [apply steps_bind; [apply steps_payload|intros s; apply steps_ret]|].
    intros []; first [apply steps_ret|apply steps_data, evolves_raise, _].
  - intros [staged|reply]; [|apply steps_ret].
    apply steps_bind; [by eapply (steps_action (Intake _ _ _ _ _))|intros r]. cbv zeta. destruct (ir_cache_hit r).
    + apply steps_bind; [apply steps_fetch|]. intros [d|]; [apply steps_ocr_response|apply steps_ret].
    + apply steps_bind; [apply steps_poll|intros row]. apply steps_bind; [apply steps_resolve|].
      intros [d|reply]; [apply steps_ocr_response|apply steps_ret].
Qed.

(** ** The endpoints and the application around them *)

Context (select_one store_validate : M unit) `{!FastApi} `{!FastApiLaws}.
Context (Hselect : evolves same_data select_one) (Hvalidate : evolves same_data store_validate).
#[local] Hint Resolve Hselect Hvalidate : evolve.

Abbreviation app := (gateway_app settings).

Lemma steps_reply (m : M Reply) : steps m -> steps (r ← m ; mret (OcrError r)).
Proof. intros Hm. apply steps_bind; [done|intros r; apply steps_ret]. Qed.

Lemma steps_ready : steps (ready select_one (Some store_validate)).
Proof. apply steps_data. unfold ready, check_readiness. evolve. Qed.

Lemma steps_endpoint op params q : steps (endpoint app select_one store_validate op params q).
Proof.
  destruct op; cbn [endpoint]; try apply steps_ret; try apply steps_reply.
  - by eapply (steps_action (SubmitTask _)).
  - by eapply (steps_action (TaskStatus _)).
  - by eapply (steps_action (TaskResult _)).
  - apply steps_file_parse.
  - destruct (h_ocr q); [apply steps_create_ocr|apply steps_ret].
  - by eapply (steps_action ListWorkers).
  - by eapply (steps_action (GetWorker _)).
  - destruct (h_command q) as [[[]]|]; [apply steps_reply|apply steps_ret]. by eapply (steps_action (DrainWorker _ _ _ _)).
  - destruct (h_command q) as [[[]]|]; [apply steps_reply|apply steps_ret]. by eapply (steps_action (RotateWorker _ _ _)).
  - destruct (h_command q) as [[[]]|]; [apply steps_reply|apply steps_ret]. by eapply (steps_action (RecoverWorker _ _ _)).
  - by eapply (steps_action (InvalidateCache _)).
  - by eapply (steps_action SweepCache).
  - apply steps_ready.
Qed.

(** The same for operations that log. *)
Definition h_steps {A} (m : H A) : Prop :=
  forall w, sound w -> (m w).1.1 <> Diverged /\ reaches w (m w).1.2.

Lemma h_steps_router q : h_steps (router app select_one store_validate q).
Proof.
  intros w HS. unfold router. destruct (route_for _ q) as [[op params]|]; [|by split].
  destruct (steps_endpoint op params q w HS) as [Hd Hr]. unfold h_try, mbind, H_bind, h_run, mret, H_ret.
  destruct (endpoint _ _ _ op params q w) as [[body|e|] w1]; cbn in *; [by split| |done].
  by destruct (http_exception e).
Qed.

Lemma h_steps_inside q : h_steps (inside settings select_one store_validate q).
Proof.
  intros w HS. destruct (h_steps_router q w HS) as [Hd Hr]. unfold inside.
  by destruct (router _ _ _ q w) as [[[r|e|] w1] l].
Qed.

(** C2: whatever a request is, the application answers it, and what happens from
    its arrival to its answer are steps of the system: its own, and those of the
    others while it sleeps; so the tables stay sound and the fleet within its bound. *)
Theorem requests_are_steps q w (Hw : sound w) :
  exists r w' l, serve app select_one store_validate q w = (Ok r, w', l) /\
    reaches w w' /\ sound w' /\ fleet_bounded settings w w'.
Proof.
  assert (Hr : exists r w' l, serve app select_one store_validate q w = (Ok r, w', l) /\ reaches w w').
  { unfold serve, h_try. rewrite (stack_run settings select_one store_validate). unfold api_key_middleware, mbind, H_bind, h_lift.
    pose proof (auth_dispatch_cases settings q) as Ha. destruct (auth_dispatch _ _ _ _) as [[reply|]|e|]; [..|done].
    - by do 3 eexists.
    - destruct (h_steps_inside q w Hw) as [Hd Hr].
      destruct (inside _ _ _ q w) as [[[r|e|] w1] l]; [by do 3 eexists..|done].
    - by do 3 eexists. }
  destruct Hr as (r & w' & l & E & Hr). exists r, w', l.
  by destruct (reachable_kept settings has_provider w w' Hr Hw).
Qed.
End requests.

(** ** A run *)

From S2P Require Import S3 Demo StartupSpec BootSpec.
Import Machine.

Section witnesses.
#[local] Existing Instance nested.
#[local] Existing Instance nested_laws.

(** While the gateway sleeps the scheduler makes a turn of its fast loop. *)
#[local] Program Instance scheduler_turns : Elsewhere := {|
  elsewhere w := (Ok tt, (turn demo_settings true dispatch w).2) |}.
Next Obligation. eauto. Qed.

Lemma scheduler_turns_step : others_step demo_settings true.
Proof.
  intros w _. apply rtc_once. apply (step_action _ _ (LoopTurn dispatch) (run_only (turn demo_settings true dispatch) w).1).
  cbn [perform elsewhere scheduler_turns snd]. unfold run_only. rewrite bind_unfold.
  by destruct (turn demo_settings true dispatch w) as [[c|e|] w1].
Qed.

(** A parse that waits for the scheduler. *)
Definition parse_request : HttpRequest :=
  mkHttpRequest "POST" "/file_parse" None None (Some "10.0.0.1") (inl demo_items) "" "" None None None.
Definition parsed := serve (gateway_app demo_settings) reach reach parse_request system_start.

Example parse_run : match parsed.1.1 with Ok r => rs_body r = OcrError (ZipResponse demo_body None) | _ => False end.
Proof. vm_compute. reflexivity. Qed.

Lemma requests_are_steps_witness :
  exists r w' l, parsed = (Ok r, w', l) /\ reachable demo_settings true system_start w' /\
    sound w' /\ fleet_bounded demo_settings system_start w'.
Proof.
  apply (requests_are_steps demo_settings true scheduler_turns_step reach reach);
    [unfold reach; evolve|unfold reach; evolve|exact system_start_sound].
Defined.
End witnesses.
