(* ===== verification/ProvenanceSpec.v ===== *)
(** * ProvenanceSpec: whose result a result is

    A task that a worker completes reads back what a worker made of that task's own
    payload, never of another's, whatever fails on the way: the loops hand a job the
    payload of its row, write the job into that row only, and store under a task's
    key what its job returned. *)
From S2P Require Import Prelude Models Config World Database Logic Hoare Json Payload Storage Status Lifecycle TaskRows Upstream.
From S2P Require Import WorkerRepository CacheService Results TaskRepository Lock Provider Health Reconcile Scheduler.
From S2P Require Import FleetTypes DeliverySpec SystemSpec.

(** ** Operations that leave jobs and results alone *)

(** The columns of a job are as they were, and a row is only completed if it was. *)
Definition same_origin (r r' : Task) : Prop :=
  t_task_id r' = t_task_id r /\ t_payload_key r' = t_payload_key r /\ t_upstream_base_url r' = t_upstream_base_url r /\
  t_upstream_task_id r' = t_upstream_task_id r /\
  (t_status r' = TASK_COMPLETED -> t_status r = TASK_COMPLETED /\ t_result_key r' = t_result_key r).

(** Rows may go, none appears. *)
Definition origin_row (_ : string) (o o' : option Task) : Prop :=
  match o' with
  | None => True
  | Some r' => match o with Some r => same_origin r r' | None => False end
  end.

#[export] Instance origin_row_preorder k : PreOrder (origin_row k).
Proof.
  split; [intros [r|]; cbn; [by repeat split|done]|]. intros [a|] [b|] [c|]; cbn; try done.
  intros (E0 & E1 & E2 & E3 & E4) (F0 & F1 & F2 & F3 & F4). split_and!; try congruence.
  intros Hc. destruct (F4 Hc) as [Hb Eb]. destruct (E4 Hb) as [Ha Ea]. split; congruence.
Qed.

(** Objects with the key of a payload or of a result may go, none is written. *)
Definition task_object (key : string) : Prop := is_payload_key key \/ exists id, key = result_key id RESULT_FORMAT_ZIP.

Record unoriginated (w w' : World) : Prop := {
  uo_rows : rows_evolve (A:=Task) origin_row w w';
  uo_objects : forall key d, task_object key -> objects w' !! key = Some d -> objects w !! key = Some d
}.

#[export] Instance unoriginated_benign : Benign unoriginated.
Proof.
  split; [split|].
  - intros w. by split; [reflexivity|].
  - intros a b c [R1 O1] [R2 O2]. split; [by etrans|]. auto.
  - intros w w' Hd. split; [by apply benign|]. destruct Hd as (_ & _ & _ & _ & E & _). by rewrite E.
Qed.

Lemma cache_not_task_object k g : ~ task_object (cache_object_key k g).
Proof.
  intros [Hp|[id E]]; [by apply cache_not_payload in Hp|]. unfold cache_object_key, result_key in E. cbv zeta in E.
  destruct g as [g|]; [destruct (g ==? "")|]; discriminate.
Qed.

Lemma keys_unoriginated w w' : tasks w' = tasks w -> same_keys task_object w w' -> unoriginated w w'.
Proof.
  intros Et Ho. split; [intros k; cbn; rewrite Et; reflexivity|]. intros key d Hk. by rewrite Ho.
Qed.

(** Writes to the tables that keep the origins. *)
Definition origin_write (wr : write) : Prop :=
  match wr with
  | OnTask (Put _ fs) => forall r, same_origin r (set_task fs r)
  | OnTask (Add _) => False
  | _ => True
  end.

Section quiet.
Context `{Env} `{!ObjectStore} `{!Http} `{!MinerU}.

Lemma commit_origin ws : Forall origin_write ws -> evolves unoriginated (commit ws).
Proof.
  intros Hws w. split; [apply commit_returns|]. split.
  - apply (evolves_commit_all (A:=Task) origin_row). intros op m Hop. apply list_elem_of_omap in Hop as (wr & Hwr & Eop).
    rewrite Forall_forall in Hws. specialize (Hws wr Hwr). destruct wr as [|o| |]; try discriminate Eop. injection Eop as ->.
    destruct op as [r|id fs|id]; cbn in Hws |- *; [done| |done]. intros r r' _ [->|[u ->]]; exact (Hws r).
  - destruct (evolves_commit_objects ws w) as [_ E]. by rewrite E.
Qed.

Lemma commit_one_origin wr : origin_write wr -> evolves unoriginated (commit [wr]).
Proof. intros Hw. by apply commit_origin, Forall_singleton. Qed.

Lemma same_db_origin {A} (m : M A) : evolves same_db m -> evolves (same_keys task_object) m -> evolves unoriginated m.
Proof. intros Hd Hk w. destruct (Hd w) as [? (_ & Et & _)], (Hk w) as [_ ?]. split; [done|]. by apply keys_unoriginated. Qed.

Lemma safe_delete_origin key : evolves unoriginated (safe_delete key).
Proof.
  intros w. destruct (safe_delete_db key w) as [Hd (_ & Et & _)]. split; [done|].
  split; [intros k; cbn; rewrite Et; reflexivity|]. intros k d _.
  assert (Hdel : forall x v, objects v = delete x (objects w) -> objects v !! k = Some d -> objects w !! k = Some d).
  { intros x v ->. by intros [_ ?]%lookup_delete_Some. }
  pose proof (safe_delete_spec key w) as Hs. destruct (safe_delete key w) as [[[|]|e|] w']; cbn in *; try done.
  - destruct key as [key|]; [destruct (key ==? "")|]; [by rewrite Hs|by apply (Hdel key)|by rewrite Hs].
  - destruct Hs as [->|(x & _ & E)]; [done|by eapply Hdel].
Qed.

(** Writes whose assignments are literal. *)
Ltac literal_origin :=
  apply commit_origin; repeat first [apply Forall_cons; split | apply Forall_nil];
  cbn; try exact I; intros ?; split_and!; try done; intros E; vm_compute in E; discriminate E.
Ltac origin := evolve; try first
  [ solve [apply evolves_same_data; [apply _|]; eauto with evolve]
  | solve [literal_origin]
  | apply safe_delete_origin ].

Lemma defer_origin id : evolves unoriginated (defer_task_poll id).
Proof. unfold defer_task_poll. origin. Qed.

Lemma gate_origin id : evolves unoriginated (clear_poll_gate id).
Proof. unfold clear_poll_gate. origin. Qed.

Lemma failed_origin id e : evolves unoriginated (mark_failed id e).
Proof. unfold mark_failed. origin. Qed.

Lemma recover_origin : evolves unoriginated recover_stale_dispatch_claims.
Proof.
  unfold recover_stale_dispatch_claims. origin. apply commit_origin, Forall_fmap, Forall_true; cbn.
  by intros _ r; split_and!.
Qed.

Lemma expire_origin sla w : wp (expire_client_sla_tasks sla)
  (fun _ => unoriginated w) (fun _ => unoriginated w) w.
Proof.
  unfold expire_client_sla_tasks. wp_go; [|by apply (benign (R := unoriginated))].
  apply wp_select. intros rows _ _. apply wp_bind.
  eapply wp_mono; [apply (wp_map_m (unoriginated w) (fun _ => unoriginated w) (fun _ wr => origin_write wr))| |by intros].
  - intros r w1 _ Hw1. wp_go. split; [|by intros r0; split_and!]. etrans; [exact Hw1|]. by apply (benign (R := unoriginated)).
  - by apply (benign (R := unoriginated)).
  - cbn beta. intros writes w1 [Hw1 Hws]. apply wp_bind.
    eapply (wp_evolves unoriginated); [apply commit_origin| |].
    + clear -Hws. by induction Hws; constructor.
    + intros u w2 Hw2. wp_go. by etrans.
    + intros e w2 Hw2. by etrans.
Qed.

(** A report never completes a task. *)
Lemma updates_origin st p extra r : extra = [] \/ (exists t, extra = [T_completed_at t]) ->
  let updates := apply_upstream_payload st p in
  same_origin r (set_task ((if sql_eq (updated_status p st) TASK_COMPLETED
                            then updates ++ [T_status TASK_STORING_RESULT] else updates) ++ extra) r).
Proof.
  intros Hx. unfold updated_status, apply_upstream_payload, sql_eq.
  assert (Hn : forall s, bool_decide (normalize_upstream_status s st = TASK_COMPLETED) = false ->
    normalize_upstream_status s st = TASK_COMPLETED -> False) by (intros s Hb%bool_decide_eq_false; done).
  destruct (p_status p) as [s|], (p_backend p), (p_file_names p), (p_error p), Hx as [->|[t ->]]; cbn;
    try case_bool_decide as Ec; split_and!; try done; cbn; intros; exfalso; congruence.
Qed.

Lemma apply_origin id p : evolves unoriginated (apply_upstream_payload_row id p).
Proof.
  unfold apply_upstream_payload_row, refresh_row. evolve_deep;
    try solve [apply evolves_same_data; [apply _|]; eauto with evolve].
  all: apply commit_one_origin; cbn [origin_write]; intros r; apply updates_origin; eauto.
Qed.

#[local] Hint Resolve defer_origin gate_origin failed_origin recover_origin apply_origin : evolve.

Lemma fields_origin id fs : evolves unoriginated (commit_fields id fs).
Proof. unfold commit_fields. origin. Qed.
#[local] Hint Resolve fields_origin : evolve.

Lemma sync_one_origin t : evolves unoriginated (sync_one t).
Proof. unfold sync_one, refresh_task_from_upstream. origin. Qed.
#[local] Hint Resolve sync_one_origin : evolve.

Lemma sync_origin : evolves unoriginated sync_dispatched_task_statuses.
Proof. unfold sync_dispatched_task_statuses. origin. Qed.

Lemma acquire_origin settings excluded w :
  wp (acquire_dispatchable settings excluded)
    (fun o w' => same_data w w' /\ match o with Some (_, touch) => origin_write touch | None => True end)
    (fun _ => same_data w) w.
Proof.
  unfold acquire_dispatchable. apply wp_bind, wp_select. intros rows _ _.
  destruct (head rows); wp_go; by split.
Qed.

Lemma reassign_origin settings id excluded : evolves unoriginated (reassign_dispatch_worker settings id excluded).
Proof.
  apply evolves_wp. intros w. unfold reassign_dispatch_worker. wp_go; [|by apply (benign (R := unoriginated))].
  assert (Hb : unoriginated w (bump w)) by (by apply (benign (R := unoriginated))).
  destruct (tasks w !! id) as [r|]; [|by wp_go]. destruct (_ !=? _); [by wp_go|]. apply wp_bind.
  eapply wp_mono; [apply acquire_origin| |].
  2: { intros e w1 Hd. etrans; [exact Hb|by apply benign]. }
  intros [[v touch]|] w1 [Hd Ht]; apply (benign (R := unoriginated)) in Hd; apply wp_bind.
  all: eapply (wp_evolves unoriginated); [apply commit_origin| |intros e w2 Hw2; etrans; [exact Hb|by etrans]].
  1,3: repeat first [apply Forall_cons; split|apply Forall_nil]; try done; by intros r0; split_and!.
  all: intros u w2 Hw2; wp_go; etrans; [exact Hb|by etrans].
Qed.
End quiet.
#[export] Hint Resolve defer_origin gate_origin failed_origin recover_origin fields_origin sync_origin safe_delete_origin : evolve.

(** ** The slow tick *)

(** Objects go, none is written. *)
Definition fades : relation World := fun w w' => objects w' ⊆ objects w.

#[export] Instance fades_benign : Benign fades.
Proof.
  split; [split; unfold fades; [by intros w|intros a b c Hab Hbc; by transitivity (objects b)]|].
  intros w w' (_ & _ & _ & _ & E & _). unfold fades. by rewrite E.
Qed.

#[export] Instance fades_calls : IgnoresCalls fades.
Proof. intros w w' (_ & _ & _ & _ & E & _). unfold fades. by rewrite E. Qed.

Section slow.
Context (settings : GatewaySettings).
Context `{Env} `{!ObjectStore} `{!Http} `{!MinerU} `{!ComputeProvider} `{!LockServer}.

Lemma same_objects_fades {A} (m : M A) : evolves same_objects m -> evolves fades m.
Proof. intros Hm w. destruct (Hm w) as [Hd E]. split; [done|]. unfold fades. by rewrite E. Qed.

Lemma commit_fades ws : evolves fades (commit ws).
Proof. apply same_objects_fades, evolves_commit_objects. Qed.

Lemma modify_fades f : (forall w, objects (f w) = objects w) -> evolves fades (modify f).
Proof. intros Hf. apply same_objects_fades. intros w. by split; [|apply Hf]. Qed.

Lemma safe_delete_fades key : evolves fades (safe_delete key).
Proof.
  intros w. pose proof (safe_delete_spec key w) as Hs. unfold fades. destruct (safe_delete key w) as [[[|]|e|] w']; cbn; try done.
  - split; [done|]. destruct key as [k|]; [destruct (k ==? "")|]; rewrite Hs; [done|apply delete_subseteq|done].
  - split; [done|]. destruct Hs as [->|(k & _ & ->)]; [done|apply delete_subseteq].
Qed.

#[local] Hint Resolve commit_fades safe_delete_fades : evolve.
Ltac fade := evolve; try solve [apply evolves_same_data; [apply _|]; eauto with evolve | by apply modify_fades].

Lemma verify_fades : evolves fades verify_lock.
Proof.
  unfold verify_lock, lock_verify, set_held. fade. apply evolves_same_data; [apply _|]. apply pg_data.
Qed.

Lemma fields_fades id fs : evolves fades (commit_fields id fs).
Proof. unfold commit_fields. fade. Qed.
#[local] Hint Resolve fields_fades : evolve.

Lemma rotations_fade has_provider : evolves fades (start_new_rotations settings has_provider).
Proof.
  unfold start_new_rotations, count_active_replacements, count_workers, rotation_target,
    find_emergency_rotation_target, find_scheduled_rotation_target, start_rotation_replacement, worker_id, short_id. fade.
  all: match goal with |- context [match ?x with _ => _ end] => destruct x end; fade.
Qed.
#[local] Hint Resolve rotations_fade : evolve.

Lemma slow_tick_fades has_provider : evolves fades (slow_tick settings has_provider).
Proof.
  unfold slow_tick. evolve; [apply verify_fades|..].
  - unfold reconcile_workers, reconcile_guarded, list_deployment_workers, reconcile_one_worker, sync_discovered_state,
      launch_missing_instance, align_instance, transition_power_state, check_running_readiness, discover_and_dedupe,
      resolve_duplicate_vms, terminate_orphan_vms, terminate_unowned_vm, record_failure, reset_cloud_failures,
      finalize_disappeared_instance, record_scaling_event_now.
    fade. apply verify_fades.
  - unfold converge_stalled_workers, converge_one, terminate_stalled, find_stalled_workers, record_scaling_event_now. fade.
  - unfold refresh_worker_health, list_health_check_candidates, apply_health_checks, health_fields. fade.
  - unfold apply_autoscaling, scale_up, current_scaling_signal, set_last_scale_up, find_idle_worker, find_stopped_worker,
      count_workers, count_stalled_workers, count_serviceable_workers, create_cloud_worker, worker_id, short_id,
      record_scaling_event_now. fade.
  - unfold advance_drains_and_rotations, progress_rotations, progress_rotation, advance_drains,
      advance_drain, finalize_terminations, find_replacement_workers, find_draining_workers,
      find_workers_pending_termination_finalize, has_active_replacement_for, get_ready_replacement_for,
      set_next_rotation_check_at, finalize_terminated_worker. fade.
  - unfold cleanup_if_due, cleanup_expired_tasks, cleanup_task, list_retention_expired_tasks, delete_object_keys, delete_task,
      sweep_expired, sweep_one, set_next_cleanup_at, set_next_cache_sweep_at. fade.
Qed.

(** Rows are as they were, or those of finished tasks go. *)
Lemma slow_tick_origin has_provider w : tasks_ok w ->
  wp (slow_tick settings has_provider) (fun _ => unoriginated w) (fun _ => unoriginated w) w.
Proof.
  intros HT. eapply wp_evolves; [apply (evolves_and _ _ _ (slow_tick_types settings has_provider) (slow_tick_fades has_provider))|..].
  all: intros a w' [[_ Hr] Hf]; specialize (Hr HT); split;
    [|intros key d _ Hd; by eapply lookup_weaken; [|exact Hf]].
  all: intros k; destruct (Hr k) as [E|[E _]]; cbn in *; rewrite E; [reflexivity|done].
Qed.

End slow.

(** ** Whose jobs and results *)

Section provenance.
Context (settings : GatewaySettings) `{Env} `{!ObjectStore} `{!Http} `{!MinerU}.

(** [parse] is what MinerU makes of a payload, [answer] what the job of a worker returns,
    and [sent] relates a task to its payload. *)
Context (parse : MultipartPayload -> list Byte.byte) (answer : string -> string -> list Byte.byte).
Context (sent : string -> MultipartPayload -> Prop).

(** A job answers for the payload it was submitted with, and its result is served as it is. *)
Record workers_truthful : Prop := {
  wt_submit : forall url p w uid st w', submit_payload_to_upstream url p w = (Ok (uid, st), w') -> answer url uid = parse p;
  wt_result : forall base uid w resp w', http_get (base +:+ "/tasks/" +:+ uid +:+ "/result") w = (Ok resp, w') ->
    (200 <=? r_status resp) && (r_status resp <? 300) = true -> r_content resp = answer base uid
}.

Definition its_own (k : string) (data : list Byte.byte) : Prop := exists p, sent k p /\ data = parse p.

Record row_own (objs : gmap string (list Byte.byte)) (k : string) (r : Task) : Prop := {
  ro_id : t_task_id r = k;
  ro_payload : forall key, t_payload_key r = Some key -> key = payload_key k;
  ro_job : forall base uid, t_upstream_base_url r = Some base -> t_upstream_task_id r = Some uid -> its_own k (answer base uid);
  ro_result : t_status r = TASK_COMPLETED -> not_none (t_upstream_task_id r) = true ->
    t_result_key r = Some (result_key k RESULT_FORMAT_ZIP) /\
    forall data, objs !! result_key k RESULT_FORMAT_ZIP = Some data -> its_own k data
}.

Record own (w : World) : Prop := {
  ow_rows : forall k r, tasks w !! k = Some r -> row_own (objects w) k r;
  ow_sent : forall k blob p, objects w !! payload_key k = Some blob -> rebuild_blob blob = Ok (Some p) -> sent k p
}.

Lemma own_origin w w' : unoriginated w w' -> own w -> own w'.
Proof.
  intros [Hr Ho] [HR HS]. split.
  - intros k r' Hr'. specialize (Hr k). cbn in Hr. rewrite Hr' in Hr. destruct (tasks w !! k) as [r|] eqn:Er; [|done].
    destruct Hr as (E0 & E1 & E2 & E3 & E4). destruct (HR k r Er) as [H0' H1' H2' H3']. split.
    + congruence.
    + intros key. rewrite E1. apply H1'.
    + intros base uid. rewrite E2, E3. apply H2'.
    + intros Hc. destruct (E4 Hc) as [Hc0 ->]. rewrite E3. intros Hu. destruct (H3' Hc0 Hu) as [Ek Hd]. split; [done|].
      intros d Hd'. apply Hd. apply Ho; [right; by exists k|done].
  - intros k blob p Hb. apply HS, Ho; [left; by exists k|done].
Qed.

#[export] Instance own_stable : Stable own.
Proof. intros w w' Hd. apply own_origin. by apply (benign (R := unoriginated)). Qed.

Lemma origin_own {A} (m : M A) : evolves unoriginated m -> maintains own m.
Proof. intros Hm w Hw. eapply wp_evolves; [exact Hm|..]; intros; by eapply own_origin. Qed.

Lemma row_own_flushed objs k fs r r' : flushed fs r r' -> row_own objs k (set_task fs r) -> row_own objs k r'.
Proof. by intros [->|[u ->]] []. Qed.

Lemma put_own id fs w : own w -> (forall r, tasks w !! id = Some r -> row_own (objects w) id r -> row_own (objects w) id (set_task fs r)) ->
  wp (commit [OnTask (Put id fs)]) (fun _ => own) (fun _ => own) w.
Proof.
  intros [HR HS] Hfs. apply wp_commit.
  - intros w' (w1 & ((r & r' & Hr & Hf & Et1) & _) & _ & Et & _) Eo. cbn in Hr, Et1. split; [|by rewrite Eo].
    intros k x. rewrite Et, Et1, Eo. destruct (decide (k = id)) as [->|Hne].
    + rewrite lookup_insert_eq. intros [= <-]. eapply row_own_flushed; [exact Hf|]. apply Hfs; auto.
    + rewrite lookup_insert_ne by done. apply HR.
  - intros e w' (_ & Et & _) Eo. split; [rewrite Et, Eo; apply HR|by rewrite Eo].
Qed.

(** ** Dispatch *)

Lemma processing_own id wid uid url st w : own w -> its_own id (answer url uid) ->
  wp (mark_processing id wid uid url st) (fun _ => own) (fun _ => own) w.
Proof.
  intros Ho Hown. unfold mark_processing. wp_go; [|by apply (stable_bump own)]. apply (stable_bump own) in Ho.
  destruct (tasks w !! id) as [r|] eqn:Er; [|by wp_go]. cbv zeta. set (n := normalize_upstream_status _ _).
  wp_steps; (apply put_own; [by eapply (stable (I := own)); [|exact Ho]|]); intros r0 _ [Hi Hk _ _]; split; try exact Hi; try exact Hk.
  all: try (cbn; intros base u [= <-] [= <-]; exact Hown).
  all: cbn; intros E; exfalso; bool_hyps; first [discriminate E|done].
Qed.

(** The row a dispatch works on names its own payload. *)
Definition names_payload (task : Task) : Prop :=
  forall key, t_payload_key task = Some key -> key = payload_key (t_task_id task).

Lemma rebuild_own task w : own w -> names_payload task ->
  wp (rebuild_payload task)
    (fun o w' => same_data w w' /\ match o with Some p => sent (t_task_id task) p | None => True end)
    (fun _ => same_data w) w.
Proof.
  intros Ho Hn. pose proof (rebuild_payload_data task w) as [Hd Hs]. unfold wp.
  destruct (rebuild_payload task w) as [[o|e|] w'] eqn:E; cbn in *; [|done..]. split; [done|]. destruct o as [p|]; [|done].
  unfold rebuild_payload in E. destruct (t_payload_key task) as [key|] eqn:Ek; [|done]. apply Hn in Ek as ->.
  rewrite bind_unfold in E. unfold try_ in E. rewrite bind_unfold in E. pose proof (store_get_spec (payload_key (t_task_id task)) w) as Hg.
  destruct (store_get _ w) as [[blob|e|] w1]; cbn in E.
  - injection E as E <-. eapply ow_sent; [exact Ho|apply Hg|exact E].
  - by destruct e.
  - done.
Qed.

Lemma own_keyed w : own w -> keyed Task w.
Proof. intros Ho k r Hr. by apply (ow_rows _ Ho). Qed.

Lemma claim_own w : own w ->
  wp (claim_next_dispatch settings)
    (fun o w' => own w' /\ match o with Some (task, _) => names_payload task | None => True end) (fun _ => own) w.
Proof.
  intros Ho. unfold claim_next_dispatch. wp_go; [|by apply (stable_bump own)].
  apply wp_select. intros rows Hrows _. assert (Ho2 : own (bump (bump w))) by (by do 2 apply (stable_bump own)).
  apply (select_rows _ rows w (own_keyed w Ho)) in Hrows as [_ Hin].
  destruct (head rows) as [c|] eqn:Eh; [|by wp_go].
  assert (Hc : c ∈ rows) by (destruct rows; [done|injection Eh as ->; left]). apply Hin in Hc as [_ Hc].
  apply wp_bind. eapply wp_mono; [apply acquire_origin| |].
  2: { intros e w1 Hd. by apply (own_stable _ _ Hd). }
  intros [[v touch]|] w1 [Hd Ht]; apply (own_stable _ _ Hd) in Ho2 as Ho3; [|by wp_go]. wp_go. apply (stable_bump own) in Ho3.
  eapply (wp_evolves unoriginated); [apply commit_origin| |].
  - apply Forall_cons; split; [exact Ht|]. apply Forall_singleton. by intros r0; split_and!.
  - intros u w2 Hw2. wp_go. split; [by eapply own_origin|]. intros key E.
    destruct (ow_rows _ Ho _ _ Hc) as [_ Hk _ _]. by apply Hk.
  - intros e w2 Hw2. by eapply own_origin.
Qed.

(** The loops keep [own], and also when they do not end. *)
Lemma own_after {A B} (m : M A) (f : A -> M B) w :
  wp m (fun a w1 => own (f a w1).2) (fun _ => own) w -> own ((m ≫= f) w).2.
Proof. unfold wp. rewrite bind_unfold. by destruct (m w) as [[a|e|] w1]. Qed.

Lemma own_of {A} (m : M A) w : wp m (fun _ => own) (fun _ => own) w -> own (m w).2.
Proof. unfold wp. by destruct (m w) as [[a|e|] w1]. Qed.

Context (Htrue : workers_truthful).

Lemma submit_loop_own task fuel : names_payload task -> forall worker excluded w, own w ->
  own (submit_loop settings fuel task worker excluded w).2.
Proof.
  intros Hn. induction fuel as [|fuel IH]; intros worker excluded w Ho; cbn [submit_loop]; [done|].
  assert (Hagain : forall o w1, own w1 -> own ((let '(reassigned, excluded) := o in
    match reassigned with None => mret false | Some worker => submit_loop settings fuel task worker excluded end) w1).2).
  { intros [[v|] x] w1 Ho1; [by apply IH|done]. }
  apply own_after. eapply wp_mono; [by apply rebuild_own| |intros e w1 Hd; by apply (own_stable w)].
  intros o w1 [Hd1 Hp]. assert (Ho1 : own w1) by (by apply (own_stable w)). destruct o as [payload|].
  2: { apply own_of, wp_bind. eapply wp_mono; [by apply (origin_own _ (failed_origin _ _))|intros u w2 Ho2; exact Ho2|by intros]. }
  cbv zeta. destruct (_ ==? "").
  - apply own_after. unfold reassign_after_exclusion. cbv zeta. apply wp_bind.
    eapply wp_mono; [by apply (origin_own _ (reassign_origin _ _ _))| |by intros].
    intros o w2 Ho2. wp_go. by apply (Hagain (o, _)).
  - set (url := str_or (w_base_url worker) ""). apply own_after. unfold wp, try_. rewrite bind_unfold.
    pose proof (wt_submit Htrue url payload w1) as Ht. destruct (submit_data url payload w1) as [Hd Hs].
    destruct (submit_payload_to_upstream url payload w1) as [[[uid st]|e|] w2]; cbn in *; [| |done].
    all: assert (Ho2 : own w2) by (by apply (own_stable w1)).
    + apply own_of, wp_bind. eapply wp_mono; [apply processing_own; [exact Ho2|]|intros u w3 Ho3; exact Ho3|by intros].
      exists payload. split; [done|]. by eapply Ht.
    + apply own_after. unfold handle_dispatch_failure. destruct (should_retry e); apply wp_bind.
      * unfold reassign_after_exclusion. cbv zeta. apply wp_bind.
        eapply wp_mono; [by apply (origin_own _ (reassign_origin _ _ _))| |by intros].
        intros [v|] w3 Ho3; wp_go; cbn; [by apply IH|done].
      * eapply wp_mono; [by apply (origin_own _ (failed_origin _ _))| |by intros]. intros u w3 Ho3. by wp_go.
Qed.

Lemma dispatch_loop_own n : forall d w, own w -> own (dispatch_loop settings n d w).2.
Proof.
  induction n as [|n IH]; intros d w Ho; cbn [dispatch_loop]; [done|]. apply own_after.
  eapply wp_mono; [by apply claim_own| |by intros]. intros [[task worker]|] w1 [Ho1 Hn]; [|done].
  rewrite bind_unfold. unfold submit_claimed_task. rewrite bind_unfold. unfold gets at 1.
  pose proof (submit_loop_own task (S (size (workers w1))) Hn worker ∅ w1 Ho1) as Ho2.
  destruct (submit_loop _ _ _ _ _ w1) as [[b|e|] w2]; [by apply IH|done..].
Qed.

(** ** Results *)

(** What is under the task's result key is its own. *)
Definition keeps_own_result (id : string) (w : World) : Prop :=
  forall data, objects w !! result_key id RESULT_FORMAT_ZIP = Some data -> its_own id data.

Lemma complete_own id w : own w -> keeps_own_result id w ->
  wp (complete_with_result id (result_key id RESULT_FORMAT_ZIP) RESULT_FORMAT_ZIP) (fun _ => own) (fun _ => own) w.
Proof.
  intros Ho Hd. unfold complete_with_result. wp_go; [|by apply (stable_bump own)]. apply (stable_bump own) in Ho.
  destruct (tasks w !! id) as [r|]; [|by wp_go].
  wp_steps; (eapply wp_mono; [apply put_own; [by eapply (stable (I := own)); [|exact Ho]|]|by intros|by intros]).
  all: intros r0 _ [Hi Hk Hj _]; split; [exact Hi|exact Hk|exact Hj|]; intros _ _; split; [done|exact Hd].
Qed.

Lemma zip_key_inj k id : result_key k RESULT_FORMAT_ZIP = result_key id RESULT_FORMAT_ZIP -> k = id.
Proof.
  unfold result_key. cbn. intros E%string_app_inj_l%string_app_inj_l. by apply string_app_inj_r in E.
Qed.

Lemma result_insert_own id data w w' : own w -> its_own id data -> tasks w' = tasks w ->
  objects w' = <[result_key id RESULT_FORMAT_ZIP := data]> (objects w) -> own w'.
Proof.
  intros [HR HS] Hd Et Eo. split.
  - intros k r Hr. rewrite Et in Hr. destruct (HR k r Hr) as [Hi Hk Hj Hres]. split; [done..|].
    intros Hc Hu. destruct (Hres Hc Hu) as [Er Hdata]. split; [done|]. intros d. rewrite Eo.
    destruct (decide (k = id)) as [->|Hne]; [rewrite lookup_insert_eq; by intros [= <-]|].
    rewrite lookup_insert_ne; [apply Hdata|]. by intros E%zip_key_inj.
  - intros k blob p. rewrite Eo, lookup_insert_ne; [apply HS|]. intros E. apply (result_not_payload id RESULT_FORMAT_ZIP). by exists k.
Qed.

Lemma populate_own id k fmt : evolves unoriginated (populate_from_task id k fmt).
Proof.
  intros w. destruct (populate_from_task_rows id k fmt w) as [Hd [Et _]]. split; [done|]. apply keys_unoriginated; [done|].
  assert (Hk : evolves (same_keys task_object) (populate_from_task id k fmt)); [|apply Hk].
  unfold populate_from_task, populate_cas, short_id. evolve.
  all: first [apply store_copy_keys, cache_not_task_object|apply safe_delete_keys, cache_not_task_object|apply commit_keys|idtac].
Qed.

Lemma fetch_own id base uid cs w : own w -> its_own id (answer base uid) ->
  wp (fetch_and_store_result id uid base cs) (fun _ => own) (fun _ => own) w.
Proof.
  intros Ho Hown. unfold fetch_and_store_result. apply wp_bind. unfold wp at 1.
  pose proof (wt_result Htrue base uid w) as Ht.
  destruct (http_get_data (base +:+ "/tasks/" +:+ uid +:+ "/result") w) as [Hd Hs].
  destruct (http_get _ w) as [[resp|e|] w1]; cbn in Hd, Hs; [|by apply (own_stable w)|done].
  assert (Ho1 : own w1) by (by apply (own_stable w)). apply wp_bind. unfold raise_for_status.
  destruct (_ && _) eqn:Eok; [|exact Ho1]. wp_go. unfold store_result. apply wp_bind.
  specialize (Ht resp w1 eq_refl Eok). rewrite Ht.
  pose proof (store_put_spec (result_key id RESULT_FORMAT_ZIP) (answer base uid) w1) as Hput.
  destruct (store_put_db (result_key id RESULT_FORMAT_ZIP) (answer base uid) w1) as [Hd2 (_ & Et2 & _)].
  unfold wp at 1.
  destruct (store_put _ _ w1) as [[n|e|] w2]; cbn in Hput, Et2 |- *; [| |done].
  2: { destruct Hput as [Eo|Eo]; [|by eapply result_insert_own].
       split; [rewrite Et2, Eo; apply Ho1|rewrite Eo; apply Ho1]. }
  destruct Hput as [Eo _]. assert (Ho2 : own w2) by (by eapply result_insert_own).
  apply wp_bind, wp_try. eapply wp_mono; [apply complete_own; [exact Ho2|]| |].
  - intros d. rewrite Eo, lookup_insert_eq. by intros [= <-].
  - intros ck w3 Ho3. apply wp_bind. apply wp_mono with (Q := fun _ => own) (X := fun _ => own); [| |by intros].
    + destruct (cs && _); [|exact Ho3]. apply wp_try. eapply wp_mono; [by apply (origin_own _ (populate_own _ _ _))|by intros|]. intros e w4 Ho4. exact Ho4.
    + intros u w4 Ho4. by wp_go.
  - intros e w3 Ho3. apply wp_bind. eapply wp_mono; [by apply (origin_own _ (safe_delete_origin (Some (result_key id RESULT_FORMAT_ZIP))))| |by intros].
    intros b w4 Ho4. by wp_go.
Qed.

(** The jobs of these tasks answer for their payloads. *)
Definition jobs_own (l : list Task) : Prop := Forall (fun x => forall base uid,
  t_upstream_base_url x = Some base -> t_upstream_task_id x = Some uid -> its_own (t_task_id x) (answer base uid)) l.

Lemma persist_own l cs : jobs_own l -> maintains own (persist_pending_results l cs).
Proof.
  intros Hl w Ho. unfold persist_pending_results. destruct l as [|x l]; [exact Ho|]. apply wp_bind.
  apply wp_mono with (Q := fun _ => own) (X := fun _ => own); [|by intros|by intros].
  apply wp_gather_inv; [apply _| |exact Ho]. intros y w1 Hy Ho1. unfold jobs_own in Hl. rewrite Forall_forall in Hl. specialize (Hl y Hy).
  unfold persist_one. destruct (t_upstream_task_id y) as [uid|], (t_upstream_base_url y) as [base|]; cbn; try exact Ho1.
  2: { rewrite orb_true_r. exact Ho1. }
  destruct (negb _ || negb _); [exact Ho1|]. apply wp_try, wp_bind.
  assert (E : forall s, (if s ==? "" then "" else s) = s) by (intros s; by case_bool_decide).
  rewrite !E. eapply wp_mono; [apply fetch_own; [exact Ho1|by apply Hl]|..].
  - intros a w2 Ho2. by wp_go.
  - intros e w2 Ho2. apply wp_bind. eapply wp_mono; [by apply (origin_own _ (defer_origin _))|..]; [|by intros].
    intros u w3 Ho3. by wp_go.
Qed.

Lemma unstored_own limit w : own w ->
  wp (list_unstored_completed limit) (fun l w' => jobs_own l /\ own w') (fun _ => own) w.
Proof.
  intros Ho. unfold list_unstored_completed. wp_go; [|by apply (stable_bump own)].
  apply wp_select. intros rows Hrows _. wp_go. split; [|by eapply (stable (I := own)); [|exact Ho]].
  apply (select_rows _ rows w (own_keyed w Ho)) in Hrows as [_ Hin]. apply Forall_take, Forall_forall. intros x Hx.
  apply Hin in Hx as [_ Hx]. apply (ow_rows _ Ho _ _ Hx).
Qed.

Lemma synchronize_own : maintains own synchronize_tasks_and_results.
Proof.
  intros w Ho. unfold synchronize_tasks_and_results. apply wp_bind.
  eapply wp_mono; [by apply (origin_own _ sync_origin)| |by intros]. intros n w1 Ho1. apply wp_bind.
  eapply wp_mono; [by apply unstored_own| |by intros]. intros l w2 [Hl Ho2]. apply wp_bind.
  eapply wp_mono; [by apply persist_own| |by intros]. intros c w3 Ho3. by wp_go.
Qed.

Context `{!LockServer}.

Lemma verify_origin : evolves unoriginated verify_lock.
Proof.
  assert (Ho : evolves same_objects verify_lock).
  { unfold verify_lock, lock_verify, set_held, modify. evolve; [apply evolves_same_data; [apply _|]; apply pg_data|].
    intros w. by split. }
  intros w. destruct (verify_lock_rows w) as [Hd [Et _]], (Ho w) as [_ E]. split; [done|].
  apply keys_unoriginated; [done|]. intros k _. by rewrite E.
Qed.

(** A fast tick gives every task its own job and its own result. *)
Lemma fast_tick_own w : own w -> own (fast_tick settings w).2.
Proof.
  intros Ho. unfold fast_tick. apply own_after.
  eapply wp_mono; [by apply (origin_own _ verify_origin)| |by intros]. intros b w1 Ho1. destruct (negb b); [done|]. apply own_after.
  eapply wp_mono; [by apply (origin_own _ recover_origin)| |by intros]. intros n w2 Ho2. apply own_after.
  eapply wp_mono; [by apply synchronize_own| |by intros]. intros u w3 Ho3. apply own_after.
  eapply wp_mono; [apply expire_origin|intros m w4 Hw4|intros e w4 Hw4; by apply (own_origin w3)].
  rewrite bind_unfold. assert (Ho4 : own w4) by (by apply (own_origin w3)). unfold dispatch_queued_tasks.
  pose proof (dispatch_loop_own DISPATCH_PER_TICK 0 w4 Ho4) as Ho5. by destruct (dispatch_loop _ _ _ w4) as [[d|e|] w5].
Qed.

(** ** The loops *)

Context `{!ComputeProvider} (has_provider : bool).

Lemma loop_turn_own tick_fn interval w : own w -> own (tick_fn w).2 -> own (loop_turn tick_fn interval w).2.
Proof.
  intros Ho Ht. unfold loop_turn. apply own_after. unfold lock_looks_held. wp_go. destruct (negb _); [done|].
  assert (Hs : forall w1, own w1 -> own ((sleep_until_next_boundary interval ;; mret true) w1).2).
  { intros w1 Ho1. apply own_of, origin_own; [|done].
    apply evolves_same_data; [apply _|]. unfold sleep_until_next_boundary. evolve. apply pg_data. }
  rewrite bind_unfold. unfold try_. destruct (tick_fn w) as [[u|e|] w1]; [by apply Hs..|done].
Qed.

Lemma turn_own l w : tasks_ok w -> own w -> own (turn settings has_provider l w).2.
Proof.
  intros HT Ho. destruct l; cbn [turn]; apply loop_turn_own; try done; [by apply fast_tick_own|].
  apply own_of. eapply wp_mono; [by apply slow_tick_origin|..]; intros a w' Hw; by apply (own_origin w).
Qed.

Lemma run_turns_own schedule : forall running w, sound w -> own w ->
  wp (run_turns settings has_provider schedule running) (fun _ => own) (fun _ => own) w.
Proof.
  induction schedule as [|l schedule IH]; intros running w HS Ho; cbn [run_turns]; [exact Ho|].
  destruct (l ∈? running); [|by apply IH]. apply wp_bind. pose proof (turn_kept settings has_provider l w HS) as Hk.
  pose proof (turn_own l w (proj1 HS) Ho) as Ho1. unfold wp in Hk |- * at 1.
  destruct (turn _ _ l w) as [[b|e|] w1]; [|done..]. apply IH; [apply Hk|done].
Qed.

(** A completed task reads back what a worker makes of its own payload. *)
Definition reads_own (w : World) : Prop := forall k r,
  tasks w !! k = Some r -> t_status r = TASK_COMPLETED -> not_none (t_upstream_task_id r) = true ->
  wp (read_result k) (fun '(data, _) _ => exists p, sent k p /\ data = parse p) (fun _ _ => True) w.

Lemma own_reads w : own w -> reads_own w.
Proof.
  intros Ho k r Hr Hc Hu. destruct (ow_rows _ Ho k r Hr) as [_ _ _ Hres]. destruct (Hres Hc Hu) as [Ek Hd].
  unfold read_result. wp_go; [|done]. rewrite Hr, Ek. apply wp_bind. unfold wp at 1.
  pose proof (store_get_spec (result_key k RESULT_FORMAT_ZIP) (bump w)) as Hg. destruct (store_get_data (result_key k RESULT_FORMAT_ZIP) (bump w)) as [Hdv _].
  destruct (store_get _ (bump w)) as [[data|e|] w1]; [|done..]. wp_go. by apply Hd.
Qed.

(** C4: whatever the schedule of the loops and whatever fails in them, no task gets
    the result of another: a completed task that a worker has run reads back what
    MinerU makes of the payload that was sent for this task, as long as the workers answer
    for the payloads they were given. *)
Theorem results_are_own schedule w (Hw : sound w) (Ho : own w) :
  wp (run settings has_provider schedule) (fun _ => reads_own) (fun _ => reads_own) w.
Proof. eapply wp_mono; [by apply run_turns_own|..]; intros a w' Ho'; by apply own_reads. Qed.
End provenance.
