(* ===== verification/JourneySpec.v ===== *)
(** * JourneySpec: from the upload to the download

    A client's way through the whole program, in surroundings that work: a form is
    uploaded, the dispatch loop runs for as many turns as there is work, and the
    download is what MinerU makes of exactly that form. *)
From stdpp Require Import pretty.
From S2P Require Import Prelude Models Config World Database Logic Hoare Json Payload Storage Status Lifecycle TaskRows Upstream.
From S2P Require Import WorkerRepository CacheService Results TaskRepository S3 Lock Provider Health Reconcile Scheduler Ingest TaskApi.
From S2P Require Import Demo LivenessSpec DispatchSpec LifecycleSpec ProgressSpec CompletionSpec DeliverySpec CacheSpec PayloadSpec.
From S2P Require Import IngestSpec GatewaySpec SystemSpec ProvenanceSpec PyText Ocr Normalize AdminApi Startup Boot App AppSpec.

(** ** The upload *)

Section upload.
Context (settings : GatewaySettings) `{Env} `{!ObjectStore} `{!MinerUIntake} `{!Sha256}.

(** The task [id] is new and waits with the payload [p]; the rest is as it was. *)
Record submitted (p : MultipartPayload) (id : string) (w w' : World) : Prop := {
  sb_new : tasks w !! id = None;
  sb_row : exists r, tasks w' = <[id := r]> (tasks w) /\ task_good id r /\ queued_clause r = true /\
    t_next_poll_at r = None /\ t_payload_key r = Some (payload_key id);
  sb_payload : exists blob, objects w' = <[payload_key id := blob]> (objects w) /\ rebuild_blob blob = Ok (Some p);
  sb_rest : workers w' = workers w /\ memory w' = memory w
}.

Lemma create_queued_process id names backend pm opts payload source ck :
  evolves same_process (create_queued_task id names backend pm opts payload source ck).
Proof. unfold create_queued_task, refresh_row. evolve. Qed.

Lemma create_queued_ungated id names backend pm opts payload source ck w :
  wp (create_queued_task id names backend pm opts payload source ck)
    (fun t _ => t_next_poll_at t = None) (fun _ _ => True) w.
Proof.
  unfold create_queued_task. wp_go; [|done]. apply wp_commit; [|done].
  intros w2 (w3 & ((Hn & c & s & Et3) & _) & _ & Et4 & _) _. unfold refresh_row. wp_go.
  cbn in Et3. rewrite Et4, Et3, lookup_insert_eq. by wp_go.
Qed.

Lemma wp_uuid_drawn (Q : string -> World -> Prop) X w : (forall n, Q (env_uuid n) (bump w)) -> wp uuid4_hex Q X w.
Proof. intros HQ. apply HQ. Qed.

(** A payload that does not ask the cache is queued. *)
Lemma payload_submitted p source skip pub allow w : names_safe p -> skip || negb (cache_enabled (cache settings)) = true ->
  wp (ingest_payload settings p true source skip pub allow)
    (fun r w' => submitted p (ir_task_id r) w w' /\ ir_response r = pending_response (ir_task_id r) source /\
       exists n, ir_task_id r = uuid_str (env_uuid n))
    (fun _ w' => tasks w' = tasks w) w.
Proof.
  intros Hsafe Hskip. unfold ingest_payload, validate_http_client_policy. apply wp_bind.
  destruct (http_client_refused _ _ _ _); [done|]. wp_go. apply wp_lifted.
  pose proof (hash_returns settings p) as Hh. destruct (hash_staged_payload settings p) as [[recs opts]|e|]; [|done..].
  cbv zeta. apply wp_bind.
  assert (Ec : forall has names b pm, resolve_cache settings has recs names opts b pm skip true = mret (None, None)).
  { intros has names b pm. unfold resolve_cache. by rewrite <- orb_assoc, Hskip, orb_true_r. }
  rewrite Ec. wp_go1. apply wp_bind, wp_uuid_drawn. intros u. unfold create_task_with_payload, store_payload. cbn [negb]. wp_go. apply wp_lifted.
  pose proof (payload_packs settings p) as Hp.
  destruct (pack_payload settings p) as [blob|e|] eqn:Eb; [|done..].
  wp_go. eapply wp_mono; [apply store_put_wp| |intros e w2 (_ & ? & _); cbn in *; congruence].
  intros n w2 [(Ew2 & Et2 & _ & _ & _ & Em2) Eo2]. wp_go. apply wp_try, wp_bind.
  set (id := uuid_str (env_uuid u)) in *.
  eapply wp_mono; [eapply wp_and; [apply create_queued_task_wp|eapply wp_and; [apply create_queued_ungated|]]| |].
  - eapply wp_evolves; [apply create_queued_process|..]; intros a w3 Hw3; exact Hw3.
  - cbn beta. intros row w3 ((Hn & Et3 & Ew3 & Hg & Hq & _ & Hk & _ & _ & _ & _ & _ & Eo3) & Hgate & _ & Em3). wp_go.
    cbn in *. split; [|split; [done|by exists u]]. split.
    + by rewrite <- Et2.
    + exists row. split; [by rewrite Et3, Et2|done].
    + exists blob. split; [by rewrite Eo3, Eo2|by eapply rebuild_pack].
    + split; congruence.
  - intros e w3 [(Et3 & _) _]. cbn. wp_go.
    eapply wp_mono; [apply wp_safe_delete| |done]. intros b w4 (_ & Et4 & _). wp_go. cbn in *. congruence.
Qed.
End upload.

Lemma queued_status r : queued_clause r = true -> t_status r = TASK_QUEUED /\ t_upstream_task_id r = None.
Proof.
  unfold queued_clause. intros [[E%bool_decide_eq_true Hu]%andb_true_iff _]%andb_true_iff. split; [done|by apply is_none_true].
Qed.

(** ** The journey *)

Section journey.
Context (settings : GatewaySettings) (has_provider : bool).
Context `{Env} `{!ObjectStore} `{!Http} `{!MinerU} `{!ComputeProvider} `{!LockServer} `{!MinerUIntake} `{!Sha256}.
Context (parse : MultipartPayload -> list Byte.byte) (answer : string -> string -> list Byte.byte).

Lemma submitted_steady p id w w' : steady settings w -> submitted p id w w' -> steady settings w'.
Proof.
  intros [HT HW Hi Hurl Hsv Hl Hr] [Hn (r & Et & Hg & Hq & Hgate & Hk) (blob & Eo & Eb) [Ew Em]].
  apply queued_status in Hq as Hst. destruct Hst as [Hst _]. split.
  - by eapply (all_rows_insert (A:=Task)).
  - by apply (all_rows_same _ w).
  - by rewrite Ew.
  - by rewrite Ew.
  - by rewrite Ew.
  - by rewrite Em.
  - intros k x. rewrite Et. destruct (decide (k = id)) as [->|Hne].
    + rewrite lookup_insert_eq. intros [= <-]. split.
      * by rewrite Hst.
      * intros _. split; [intros t n; by rewrite Hgate|]. split; [done|]. exists blob, p. by rewrite Eo, lookup_insert_eq.
      * intros [E|E]; by rewrite Hst in E.
    + rewrite lookup_insert_ne by done. intros Hx. destruct (Hr k x Hx) as [Hu Hqx Hrun]. split; [done| |done].
      intros Ex. destruct (Hqx Ex) as [Hgx (Ek & b & q & Ho & Eq)]. split; [done|]. split; [done|]. exists b, q.
      rewrite Eo, lookup_insert_ne; [done|]. by intros E%payload_key_inj.
Qed.

(** The task [id] was sent [p]. *)
Definition also_sent (sent : string -> MultipartPayload -> Prop) (id : string) (p : MultipartPayload) (k : string) (q : MultipartPayload) : Prop :=
  if decide (k = id) then q = p else sent k q.

Lemma submitted_own sent p id w w' : own parse answer sent w -> submitted p id w w' -> own parse answer (also_sent sent id p) w'.
Proof.
  intros [HR HS] [Hn (r & Et & Hg & Hq & _ & Hk) (blob & Eo & Eb) _]. apply queued_status in Hq as [Hst Hup].
  assert (Hother : forall k d, k <> id -> its_own parse sent k d -> its_own parse (also_sent sent id p) k d).
  { intros k d Hne (q & Hs & Hd). exists q. split; [|done]. unfold also_sent. by rewrite decide_False. }
  split.
  - intros k x. rewrite Et. destruct (decide (k = id)) as [->|Hne].
    + rewrite lookup_insert_eq. intros [= <-]. split; [apply Hg| | |].
      * intros key. by rewrite Hk; intros [= <-].
      * intros base uid _. by rewrite Hup.
      * by rewrite Hst.
    + rewrite lookup_insert_ne by done. intros Hx. destruct (HR k x Hx) as [H1' H2' H3' H4']. split; [done|done| |].
      * intros base uid Eb' Eu. by apply Hother, H3'.
      * intros Hc Hu. destruct (H4' Hc Hu) as [Ek Hd]. split; [done|]. intros d. rewrite Eo, lookup_insert_ne.
        -- intros Hd'. by apply Hother, Hd.
        -- intros E. apply (result_not_payload k RESULT_FORMAT_ZIP). by exists id.
  - intros k b q. rewrite Eo. unfold also_sent. destruct (decide (k = id)) as [->|Hne].
    + rewrite lookup_insert_eq. intros [= <-]. congruence.
    + rewrite lookup_insert_ne; [apply HS|]. by intros E%payload_key_inj.
Qed.

(** The result route serves what is stored for a finished task. *)
Lemma download id base uid w : database_up -> store_up -> finished_with answer w id base uid ->
  wp (get_task_result id true) (fun reply _ => reply = ZipResponse (answer base uid) (Some (id +:+ ".zip"))) (fun _ _ => False) w.
Proof.
  intros Hup Hst Hf. pose proof Hf as (r & Hr & (Es & Ek & _) & _ & _ & Ho).
  unfold get_task_result, load_task. apply wp_bind, wp_bind, open_runs; [done|]. wp_go. rewrite Hr.
  assert (Ene : truthy (t_result_key r) = true) by (by rewrite Ek).
  rewrite Ene, Es. decide_literals. apply wp_bind. unfold fetch_result_or_none. apply wp_try, wp_bind.
  eapply wp_mono; [apply (finished_reads answer Hup Hst id base uid (bump w)); exact Hf| |done].
  cbn beta. intros [data fmt] w1 [= -> _]. by wp_go.
Qed.

(** At the endpoints: an upload is refused and leaves no task, or its task's download is
    MinerU's answer to it. *)
Lemma upload_answered sent request items w
  (Hup : everything_up answer) (Htrue : workers_truthful parse answer)
  (Hs : steady settings w) (Hw : sound w) (Ho : own parse answer sent w) (Ht : 0 < target_per_worker (scaling settings))
  (Hf : rq_form request = inl items) (Hids : uuids_distinct) (Hun : paths_unguessed settings request w)
  (Hskip : should_skip_cache request || negb (cache_enabled (cache settings)) = true) :
  wp (submit_task settings request true)
    (fun reply w1 => exists id p content, reply = JSONResponse 202 content /\ ("task_id", JStr id) ∈ content /\
       (exists n, id = uuid_str (env_uuid n)) /\ tasks w !! id = None /\ mp_fields p = form_texts items /\ Forall2 carries (form_files items) (mp_uploads p) /\
       forall n, (2 * count_map queued_clause (tasks w1) + count_map running_clause (tasks w1) <= n)%nat ->
       wp (run settings has_provider (replicate n dispatch))
         (fun _ w2 => wp (get_task_result id true) (fun download _ => download = ZipResponse (parse p) (Some (id +:+ ".zip")))
                        (fun _ _ => False) w2)
         (fun _ _ => False) w1)
    (fun _ w1 => tasks w1 = tasks w) w.
Proof.
  unfold submit_task. apply wp_bind, wp_lifted. destruct (check_admission settings request) as [[]|e|] eqn:Ea; [|done|].
  2: { unfold check_admission, check_file_size in Ea. repeat case_match; discriminate. }
  cbn [require_store]. apply wp_bind. eapply ingest_task_intro; [done..|intros e w1 Hd; apply Hd|].
  intros p w0 Hd Hfields Hc Hsafe _. eapply wp_mono; [by apply payload_submitted| |].
  2: { intros e w1 Et. destruct Hd as (_ & Et0 & _). congruence. }
  intros r w1 (Hsub & Er & Hid). wp_go. rewrite Er. unfold pending_response. set (id := ir_task_id r) in *.
  exists id, p. eexists. split; [done|]. split; [left|]. split; [exact Hid|].
  split; [destruct Hd as (_ & <- & _); apply Hsub|]. split_and!; [done..|].
  assert (Hs1 : steady settings w1) by (eapply submitted_steady; [|exact Hsub]; by apply (steady_stable settings w)).
  assert (Ho1 : own parse answer (also_sent sent id p) w1) by (eapply submitted_own; [|exact Hsub]; by apply (own_stable _ _ _ w)).
  assert (Hw1 : sound w1).
  { split; [apply Hs1|]. eapply (all_rows_same (A:=Worker)); [apply Hw|]. cbn. destruct Hd as (Ew & _).
    rewrite <- Ew. apply Hsub. }
  intros n Hn. unfold run.
  pose proof (turns_run settings has_provider answer n w1 Hup Hs1 Ht Hn) as Hrun.
  pose proof (run_turns_own settings parse answer _ Htrue has_provider (replicate n dispatch) [dispatch; reconcile] w1 Hw1 Ho1) as Hown.
  eapply wp_mono; [apply (wp_and _ _ _ _ _ _ Hrun Hown)| |by intros e w2 []].
  cbn beta. intros loops w2 [(_ & Hs2 & [Hopen _] & Hleft) Ho2].
  destruct (Hopen id) as [Hk|(base & uid & Hfin)].
  - destruct Hsub as [_ (x & Et & _ & Hq & _) _ _]. exists x. split; [by rewrite Et, lookup_insert_eq|].
    apply queued_status in Hq as [-> _]. by apply (bool_decide_eq_false _).
  - by destruct (no_work_left settings answer w2 id Hs2 Hleft).
  - pose proof Hfin as (x & Hx & (Es & _) & _ & Eu & Eo).
    destruct (ow_rows _ _ _ _ Ho2 id x Hx) as [_ _ _ Hres]. destruct Hres as [_ Hdata]; [done|by rewrite Eu|].
    destruct (Hdata _ Eo) as (q & Hq & Eq). unfold also_sent in Hq. rewrite decide_True in Hq by done. subst q.
    rewrite <- Eq. by apply download; [apply Hup|apply Hup|].
Qed.

(** ** Over HTTP *)

Context (select_one store_validate : M unit).
Context `{!DocumentClient} `{!Elsewhere} `{!ResultReader} `{!MinerURelease} `{!FastApi} `{!FastApiLaws}.

Abbreviation app := (gateway_app settings).
Abbreviation served := (serve (gateway_app settings) select_one store_validate).

(** What an admitted request gets is what its endpoint returns. *)
Lemma served_reply q op params body w w' : admitted settings q -> route_for gateway_routes q = Some (op, params) ->
  endpoint app select_one store_validate op params q w = (Ok body, w') ->
  exists r l, served q w = (Ok r, w', l) /\ rs_body r = body.
Proof.
  intros Ha Hr He. unfold serve, h_try. rewrite (stack_run settings select_one store_validate).
  unfold api_key_middleware, mbind, H_bind, h_lift. pose proof (auth_dispatch_cases settings q) as Hd.
  destruct (auth_dispatch _ _ _ _) as [[reply|]|e|]; [by destruct Hd| |done..].
  unfold inside, router. change (app_routes app) with gateway_routes. rewrite Hr.
  unfold h_try, mbind, H_bind, h_run, mret, H_ret. rewrite He. do 2 eexists. split; [done|].
  cbn. unfold stamped. by destruct (attribution_enabled _).
Qed.

(** If its endpoint raises, the request is answered all the same. *)
Lemma served_error q op params e w w' : admitted settings q -> route_for gateway_routes q = Some (op, params) ->
  endpoint app select_one store_validate op params q w = (Raise e, w') -> exists r l, served q w = (Ok r, w', l).
Proof.
  intros Ha Hr He. unfold serve, h_try. rewrite (stack_run settings select_one store_validate).
  unfold api_key_middleware, mbind, H_bind, h_lift. pose proof (auth_dispatch_cases settings q) as Hd.
  destruct (auth_dispatch _ _ _ _) as [[reply|]|e'|]; [by destruct Hd| |done..].
  unfold inside, router. change (app_routes app) with gateway_routes. rewrite Hr.
  unfold h_try, mbind, H_bind, h_run, mret, H_ret. rewrite He.
  destruct (http_exception e); by do 2 eexists.
Qed.

Lemma upload_route q : h_method q = "POST" -> h_path q = "/tasks" -> route_for gateway_routes q = Some (OpSubmitTask, []).
Proof.
  intros Hm Hp. rewrite route_first. unfold find_route, match_route. rewrite Hm, Hp. by vm_compute.
Qed.

End journey.

(** ** A run *)

Section witness.

(** Workers that name a job by a digest of its payload, and return the digest. *)
Definition digest (p : MultipartPayload) : string :=
  digits 64 (foldl (fun h u => foldl (fun h b => 257 * h + Z_of_byte b) (h + 1) (u_data u)) 1 (mp_uploads p)).
Definition digest_at (url : string) : list Byte.byte := String.list_byte_of_string (String.substring (String.length url - 71) 64 url).
Definition parse_demo (p : MultipartPayload) : list Byte.byte := String.list_byte_of_string (digest p).
Definition answer_demo (base uid : string) : list Byte.byte := digest_at (base +:+ "/tasks/" +:+ uid +:+ "/result").

#[local] Program Instance digest_http : Http := {|
  http_get url := mret (Upstream.mkResponse 200 (digest_at url) (Some (JObj [("status", JStr "completed")]))) |}.
Next Obligation. intros. evolve. Qed.
#[local] Program Instance digest_mineru : MinerU := {|
  submit_payload_to_upstream url p := mret (digest p, "pending") |}.
Next Obligation. intros. evolve. Qed.

Lemma substring_prefix b c : String.substring 0 (String.length b) (b +:+ c) = b.
Proof. induction b as [|x b IH]; [by destruct c|]. rewrite string_app_cons. cbn. by rewrite IH. Qed.

Lemma substring_middle a b c : String.substring (String.length a) (String.length b) (a +:+ b +:+ c) = b.
Proof. induction a as [|x a IH]; [exact (substring_prefix b c)|]. rewrite string_app_cons. exact IH. Qed.

Lemma demo_truthful : workers_truthful parse_demo answer_demo.
Proof.
  split.
  - intros url p w uid st w' [= <- _ _]. unfold answer_demo, digest_at, parse_demo. f_equal.
    assert (Hl : String.length (digest p) = 64%nat) by apply digits_length.
    rewrite (string_app_assoc url "/tasks/" (digest p +:+ "/result")). set (front := url +:+ "/tasks/").
    pose proof (substring_middle front (digest p) "/result") as E. rewrite Hl in E.
    replace (String.length (front +:+ digest p +:+ "/result") - 71)%nat with (String.length front); [exact E|].
    rewrite !string_length_app, Hl. change (String.length "/result") with 7%nat. lia.
  - by intros base uid w resp w' [= <- _] _.
Qed.

Lemma demo_world_up : everything_up answer_demo.
Proof.
  split; [exact demo_up|exact demo_store_up|exact demo_accepts_objects| | |by eexists|by eexists].
  - intros url p w. do 3 eexists. split; [done|]. split; [|apply (bool_decide_eq_true _); vm_compute; reflexivity].
    intros E. assert (Hl : String.length (digest p) = 64%nat) by apply digits_length. by rewrite E in Hl.
  - intros base uid _ _. split; [|intros w; by do 2 eexists].
    intros w. do 5 eexists. do 5 (split; [reflexivity|]). exact demo_completed.
Qed.

Lemma gateway_demo_worker k v : workers gateway_demo !! k = Some v -> k = "cloud-1" /\ v = demo_worker "cloud-1".
Proof. intros Hv. cbn in Hv. apply lookup_insert_Some in Hv as [[<- <-]|[_ Hv]]; [done|by rewrite lookup_empty in Hv]. Qed.

Lemma gateway_demo_steady : steady demo_settings gateway_demo.
Proof.
  split; [on_demo|on_demo|..].
  - intros k k' r r' i Hr Hr' _ _. apply gateway_demo_worker in Hr as [-> _], Hr' as [-> _]. done.
  - intros k v Hv _. by apply gateway_demo_worker in Hv as [_ ->].
  - exists "cloud-1", (demo_worker "cloud-1"). split; vm_compute; reflexivity.
  - by right.
  - intros k r Hr. cbn in Hr. by rewrite lookup_empty in Hr.
Qed.

Lemma gateway_demo_sound : sound gateway_demo.
Proof.
  split; [on_demo|]. intros k v Hv. apply gateway_demo_worker in Hv as [-> ->].
  split_and!; try done; by apply (bool_decide_eq_true _).
Qed.

Lemma gateway_demo_own sent : own parse_demo answer_demo sent gateway_demo.
Proof. split; [intros k r Hr|intros k b p Hr]; cbn in Hr; by rewrite lookup_empty in Hr. Qed.

(** The demonstration request, past the cache. *)
Definition fresh_request : Request := mkRequest (inl demo_items) "true" "" None false false.

Definition demo_form : MultipartPayload := mkMultipart [("backend", "pipeline")]
  [mkUpload "files" "a.pdf" "application/pdf" demo_body; mkUpload "files" "a.pdf" "application/octet-stream" []].

Example journey_run :
  match submit_task demo_settings fresh_request true gateway_demo with
  | (Ok (JSONResponse 202 (("task_id", JStr id) :: _)), w1) =>
      (get_task_result id true (run demo_settings true [dispatch; dispatch] w1).2).1 =
      Ok (ZipResponse (parse_demo demo_form) (Some (id +:+ ".zip")))
  | _ => False
  end.
Proof. vm_compute. reflexivity. Qed.

(** The identifiers of the demonstration are path segments. *)
Definition no_slash (c : Ascii.ascii) : bool := negb (Ascii.eqb SLASH c).

Lemma all_chars_substring P n m s : all_chars P s = true -> all_chars P (String.substring n m s) = true.
Proof.
  revert n m. induction s as [|c s IH]; intros [|n] [|m]; cbn; try done; intros [Hc Hs]%andb_true_iff; try by apply IH.
  rewrite Hc. by apply IH.
Qed.

Lemma all_chars_segment s : s <> "" -> all_chars no_slash s = true -> segment_text s = true.
Proof.
  intros Hne Hs. unfold segment_text. rewrite bool_decide_false by done. cbn. clear Hne.
  induction s as [|c s IH]; [done|]. cbn in *. apply andb_true_iff in Hs as [Hc Hs]. unfold no_slash in Hc. rewrite Hc. by apply IH.
Qed.

Lemma uuid_segment s : all_chars no_slash s = true -> segment_text (uuid_str s) = true.
Proof.
  intros Hs. unfold uuid_str. apply all_chars_segment.
  - intros E. apply (f_equal String.length) in E. rewrite !string_length_app in E. cbn in E. lia.
  - rewrite !all_chars_app, !all_chars_substring by done. reflexivity.
Qed.

Lemma digits_no_slash x : forall s, all_chars no_slash s = true -> all_chars no_slash (pretty_N_go x s) = true.
Proof.
  induction (N.lt_wf_0 x) as [x _ IH]. intros s Hs. destruct (decide (x = 0%N)) as [->|Hx]; [by rewrite pretty_N_go_0|].
  rewrite pretty_N_go_step by lia. apply IH; [by apply N.div_lt; lia|]. cbn. rewrite Hs, andb_true_r.
  unfold pretty_N_char. by repeat case_match.
Qed.

Lemma demo_segments n : segment_text (uuid_str (env_uuid n)) = true.
Proof.
  apply uuid_segment. cbn [env_uuid demo_env]. rewrite !all_chars_app. apply andb_true_iff. split; [reflexivity|].
  apply andb_true_iff. split; [|reflexivity]. destruct n as [|n]; [reflexivity|]. by apply (digits_no_slash (Npos _)).
Qed.

(** Six queued tasks with their payloads, and the loops in some order. *)
Definition waiting (k : string) (p : MultipartPayload) : Prop :=
  exists blob, objects queue_demo !! payload_key k = Some blob /\ rebuild_blob blob = Ok (Some p).

Lemma queue_demo_own : own parse_demo answer_demo waiting queue_demo.
Proof.
  split; [|intros k blob p Hb Hp; by exists blob]. intros k r Hr. destruct (queue_demo_rows k r Hr) as (Hq & _ & Hk & _).
  apply queued_status in Hq as [Hst Hu]. split.
  - by apply (tasks_ok_keyed queue_demo); [apply (rd_tasks _ _ queue_demo_ready)|].
  - intros key E. congruence.
  - intros base uid _ E. congruence.
  - rewrite Hst. discriminate.
Qed.

Lemma queue_demo_sound : sound queue_demo.
Proof.
  split; [apply (rd_tasks _ _ queue_demo_ready)|]. intros k v Hv. apply gateway_demo_worker in Hv as [-> ->].
  split_and!; try done; by apply (bool_decide_eq_true _).
Qed.

Lemma results_are_own_witness :
  wp (run demo_settings true [reconcile; dispatch; dispatch; reconcile; dispatch])
    (fun _ => reads_own parse_demo waiting) (fun _ => reads_own parse_demo waiting) queue_demo.
Proof.
  apply (results_are_own demo_settings parse_demo answer_demo waiting demo_truthful true);
    [exact queue_demo_sound|exact queue_demo_own].
Defined.

(** Over HTTP, with the middlewares of the demonstration. *)
From S2P Require Import NormalizeSpec OcrSpec StartupSpec BootSpec.
Import Machine.
#[local] Existing Instance nested.
#[local] Existing Instance nested_laws.

Definition upload_request : HttpRequest :=
  mkHttpRequest "POST" "/tasks" None None (Some "10.0.0.1") (inl demo_items) "true" "" None None None.
Definition served_demo := serve (gateway_app demo_settings) reach reach.

End witness.
