(* ===== verification/MetricsSpec.v ===== *)
(** * MetricsSpec: metrics never disturb the program

    Recording raises nothing whatever the process could import or was told;
    without an exporter nothing is kept, with one every call leaves its point. *)
From S2P Require Import Prelude World Config Json Payload Metrics.

(** ** The state of the facade *)

(** Enabled only with the instruments created. *)
Definition metrics_ok (m : Metrics) : Prop := enabled m = true -> instruments m = create_instruments.

Lemma new_metrics_ok : metrics_ok new_metrics.
Proof. done. Qed.

(** The count a method takes: positive, except that a positional one is not looked at. *)
Definition counted (c : CountArg) (point : Z -> Point) : list Point :=
  if kwargs_count c <=? 0 then [] else [point (count_value c)].

(** The points of a call. *)
Definition sent (c : MetricCall) : list Point :=
  match c with
  | CallTaskIngested source hit backend =>
      [mkPoint "mineru.tasks.ingested" 1 [("source", source); ("cache_hit", bool_text hit); ("backend", backend)]]
  | CallAdmissionRejected reason => [mkPoint "mineru.admission.rejected" 1 [("reason", reason)]]
  | CallTaskDispatched id backend => [mkPoint "mineru.tasks.dispatched" 1 [("worker_id", id); ("backend", backend)]]
  | CallDispatchFailed cls => [mkPoint "mineru.tasks.dispatch.failed" 1 [("error_class", cls)]]
  | CallDispatchDuration ms result => [mkPoint "mineru.tasks.dispatch.duration" ms [("outcome", result)]]
  | CallSlaExpired n => counted n (fun v => mkPoint "mineru.tasks.sla_expired" v [])
  | CallResultStored n => counted n (fun v => mkPoint "mineru.results.stored" v [])
  | CallResultStoreFailed n => counted n (fun v => mkPoint "mineru.results.store_failed" v [])
  | CallHealthCheck result => [mkPoint "mineru.workers.health_checks" 1 [("outcome", result)]]
  | CallPollDuration route result ms =>
      [mkPoint "mineru.tasks.poll.duration" ms [("route", route); ("outcome", result)]]
  | CallRetentionDeleted kind n => counted n (fun v => mkPoint "mineru.retention.deleted" v [("kind", kind)])
  | CallWorkerScaled action => [mkPoint "mineru.workers.scaled" 1 [("action", action)]]
  | CallCloudError category retryable =>
      [mkPoint "mineru.workers.cloud_errors" 1 [("category", category); ("retryable", bool_text retryable)]]
  | CallCacheSweepRemoved n => counted n (fun v => mkPoint "mineru.cache.sweep_removed" v [])
  | CallDispatchRequeued n => counted n (fun v => mkPoint "mineru.tasks.dispatch.requeued" v [])
  | CallStaleClaimsRecovered n => counted n (fun v => mkPoint "mineru.tasks.stale_claims_recovered" v [])
  end.

(** [m] after recording [l]. *)
Definition extended (m : Metrics) (l : list Point) : Metrics := mkMetrics (enabled m) (instruments m) (points m ++ l).

Lemma extended_nil m : extended m [] = m.
Proof. destruct m. unfold extended. cbn. by rewrite app_nil_r. Qed.

Lemma extended_app m l l' : extended (extended m l) l' = extended m (l ++ l').
Proof. unfold extended. cbn. by rewrite <- app_assoc. Qed.

Lemma record_sent c m : metrics_ok m -> record c m = Ok (if enabled m then extended m (sent c) else m).
Proof.
  intros Hok. unfold metrics_ok in Hok.
  destruct (enabled m) eqn:E.
  - specialize (Hok eq_refl). destruct c; cbn [record sent].
    all: unfold counted, record_task_ingested, record_admission_rejected, record_task_dispatched, record_dispatch_failed,
      record_dispatch_duration, record_sla_expired, record_result_stored, record_result_store_failed,
      record_health_check, record_poll_duration, record_retention_deleted, record_worker_scaled, record_cloud_error,
      record_cache_sweep_removed, record_dispatch_requeued, record_stale_claims_recovered,
      when_enabled_with_count, when_enabled, put; rewrite E, Hok; cbn [negb orb].
    all: try destruct (kwargs_count c <=? 0); try by rewrite extended_nil.
    all: unfold extended; rewrite E, Hok; reflexivity.
  - destruct c; cbn [record]; unfold record_task_ingested, record_admission_rejected, record_task_dispatched,
      record_dispatch_failed, record_dispatch_duration, record_sla_expired, record_result_stored,
      record_result_store_failed, record_health_check, record_poll_duration, record_retention_deleted,
      record_worker_scaled, record_cloud_error, record_cache_sweep_removed, record_dispatch_requeued,
      record_stale_claims_recovered, when_enabled_with_count, when_enabled; by rewrite E.
Qed.

Lemma record_all_sent cs m : metrics_ok m ->
  record_all cs m = Ok (if enabled m then extended m (flat_map sent cs) else m).
Proof.
  revert m. induction cs as [|c cs IH]; intros m Hok; cbn [record_all flat_map].
  - destruct (enabled m); by rewrite ?extended_nil.
  - rewrite record_sent by done. cbn [mbind outcome_bind]. destruct (enabled m) eqn:E.
    + rewrite IH by (intros _; cbn; by apply Hok). cbn [enabled extended]. rewrite E. by rewrite extended_app.
    + rewrite IH by done. by rewrite E.
Qed.

(** A count passed by position is positive: the decorator does not see it. *)
Definition count_ok (c : CountArg) : bool := match c with CountPositional n => 0 <? n | _ => true end.
Definition counts_ok (c : MetricCall) : bool :=
  match c with
  | CallSlaExpired n | CallResultStored n | CallResultStoreFailed n | CallRetentionDeleted _ n
  | CallCacheSweepRemoved n | CallDispatchRequeued n | CallStaleClaimsRecovered n => count_ok n
  | _ => true
  end.

Definition counters : list string :=
  omap (fun kv => match in_kind kv.2 with Counter => Some (in_name kv.2) | Histogram _ => None end)
    (map_to_list create_instruments).

Definition grows (p : Point) : Prop := pt_instrument p ∈ counters -> 0 < pt_value p.

Lemma counted_grows n point : count_ok n = true -> (forall v, pt_value (point v) = v) -> Forall grows (counted n point).
Proof.
  intros Hc Hp. unfold counted, grows. destruct n as [|z|z]; cbn in *; [|destruct (z <=? 0) eqn:E|];
    repeat constructor; intros _; rewrite Hp; lia.
Qed.

Lemma histogram_not_counter name : forallb (fun c => negb (c ==? name)) counters = true -> name ∉ counters.
Proof.
  intros Hf Hin. rewrite forallb_forall in Hf. apply list_elem_of_In, Hf in Hin.
  apply negb_true_iff, bool_decide_eq_false in Hin. done.
Qed.

Lemma sent_grows c : counts_ok c = true -> Forall grows (sent c).
Proof.
  intros Hc. destruct c; cbn [sent counts_ok] in *; try (by apply counted_grows); repeat constructor; unfold grows; cbn; try lia.
  all: intros Hin; exfalso; revert Hin; apply histogram_not_counter; vm_compute; reflexivity.
Qed.

(** Whatever is configured and installed, recording metrics raises nothing;
    without an endpoint, or with the SDK missing, nothing is kept; otherwise every call leaves
    exactly its point, and the counters only grow as long as a count passed by
    position is positive, which is the one case the decorator does not check. *)
Lemma metrics_record_and_never_raise `{OtelPackages} settings has_app service cs :
  let t := init_otel settings has_app service no_telemetry in
  let on := otel_enabled (otel settings) && truthy (endpoint (otel settings)) && metrics_packages in
  exists m, record_all cs (metrics t) = Ok m /\ enabled m = on /\
    points m = (if on then flat_map sent cs else []) /\
    (forallb counts_ok cs = true -> Forall grows (points m)).
Proof.
  cbv zeta. set (on := _ && _ && _). set (t := init_otel settings has_app service no_telemetry).
  assert (Ht : metrics_ok (metrics t) /\ enabled (metrics t) = on /\ points (metrics t) = []).
  { unfold t, on, init_otel, init_traces, init_metrics, metrics_ok. destruct (otel_enabled _), (truthy _), metrics_packages, traces_packages; done. }
  destruct Ht as (Hok & Hon & Hp). rewrite (record_all_sent cs _ Hok). eexists. split; [done|].
  assert (Hg : forallb counts_ok cs = true -> Forall grows (flat_map sent cs)).
  { intros Hc. rewrite forallb_forall in Hc. apply Forall_forall. intros p Hin.
    apply list_elem_of_In, in_flat_map in Hin as (c & Hin & Hp'). pose proof (sent_grows c (Hc c Hin)) as Hs.
    rewrite Forall_forall in Hs. by apply Hs, list_elem_of_In. }
  rewrite Hon. destruct on; cbn; rewrite ?Hp; split_and!; done.
Qed.

(** A count of zero passed by position is recorded; by keyword it is not. *)
Lemma positional_count_is_not_checked :
  sent (CallSlaExpired (CountPositional 0)) = [mkPoint "mineru.tasks.sla_expired" 0 []] /\
  sent (CallSlaExpired (CountKeyword 0)) = [].
Proof. split; reflexivity. Qed.

(** ** Witness *)

Definition exporting : GatewaySettings :=
  let s := default_settings in
  mkGatewaySettings (deployment_id s) (database_url s) (host s) (port s) (log_level s) (max_file_size_bytes s)
    (task_sla_seconds s) (cloud_workers_enabled s) (scaling s) (reconciliation s) (retention s) (cache s) (cloud s)
    (rotation s) (scheduler s) (attribution s) (auth s)
    (mkOtelConfig true (Some "http://collector:4318") "mineru-gateway" "mineru-scheduler" 60).

Lemma metrics_record_and_never_raise_witness :
  exists m, record_all [CallResultStored (CountKeyword 3); CallResultStored (CountKeyword 0); CallWorkerScaled "start"]
      (metrics (@init_otel {| metrics_packages := true; traces_packages := false |} exporting true None no_telemetry)) = Ok m /\
    points m = [mkPoint "mineru.results.stored" 3 []; mkPoint "mineru.workers.scaled" 1 [("action", "start")]] /\
    Forall grows (points m).
Proof.
  destruct (@metrics_record_and_never_raise {| metrics_packages := true; traces_packages := false |} exporting true None
    [CallResultStored (CountKeyword 3); CallResultStored (CountKeyword 0); CallWorkerScaled "start"])
    as (m & Hm & _ & Hp & Hg).
  exists m. split_and!; [exact Hm|exact Hp|by apply Hg].
Defined.
